(* ===== verification/_CoqProject ===== *)
-Q . S2P
Prelude.v
GoStrings.v
Coding.v
NetUrl.v
NetIP.v
Http.v
GoNet.v
GoTime.v
Json.v
Access.v
Upstream.v
Crypto.v
Assign.v
Types.v
Db.v
Schema.v
Rules.v
Samples.v
Migrating.v
Opening.v
Authorize.v
Lifecycle.v
Life.v
Closing.v
Submitting.v
Reviewing.v
Dispatching.v
Limits.v
Owner.v
Device.v
Refusals.v
Authority.v
Certifying.v
Files.v
Identity.v
Keeping.v
Renewal.v
Refreshing.v
Connector.v
Forwarding.v
Worker.v
Granting.v
Services.v
Permissions.v
Stable.v
Handlers.v
Guarding.v
Enrolling.v
Joining.v
Adapter.v
Adapting.v
Coders.v
Replies.v
Fitting.v
Answering.v
System.v
Connection.v
Serving.v
Shutdown.v
Working.v
Settling.v
Framing.v
Command.v
Connecting.v
Commanding.v
Flags.v
Running.v
Page.v
