(* ===== verification/Prelude.v ===== *)
(** A verification library of Budge, the device-access gateway of this repository.

    * The program

    Budge gives devices access to HTTP services without giving them the credentials.
    One Go binary is a server (src/internal/server on src/internal/store, access,
    upstream and requests), a connector and an MCP adapter on each device
    (src/internal/client and mcp), and the commands that start them (src/cmd/budge).
    The server has two listeners.  The devices' one authenticates by client
    certificate; it enrols, renews, lists scopes, takes submissions, tells statuses,
    and sends ordinary requests at once.  The owner's one shows a page and takes forms
    that create services and permissions, invite and revoke, and decide on requests
    that wait.  A worker dispatches queued requests in the background.  All of it
    shares one SQLite connection and a few maps behind a mutex.

    * How it is modelled

    Stateful code is in the state and error monad [M] of this file: a function from a
    state to a result and a state, in which an error keeps the effects made before it.
    The state of the server is [Db.world]: the committed database, the open
    transaction, the clock, the random bytes and failures still to come, the maps
    in memory, and the unlock key.  Every statement may fail, and so may the library's
    making and parsing of a certificate, for every pattern of failures, and time passes
    between any two readings; so a theorem about a handler is about all of its error
    paths.  [wp] states what holds when a computation ends.
    What the program only calls is a class with the laws that are relied on —
    AES-GCM, Argon2id and SHA-256 ([Crypto.GoCrypto], [GcmLaws]), X.509 and PEM
    ([Authority.GoX509], [Identity.ClientX509]) — or an argument: the resolver, the HTTP
    transport, the network of a client, the system calls on sockets.  Go's standard
    library, as far as it decides anything, is modelled: strings, UTF-8, base64 and
    header names (GoStrings), URLs (NetUrl, GoNet), addresses and prefixes (NetIP),
    times (GoTime), headers (Http), JSON (Json, Assign).  JSON is used through classes
    with round-trip laws; Coders proves them for the struct tags of the program.

    * Files, and what they correspond to

    - Prelude: the monad, its rules, the hint databases.  GoStrings, NetUrl, NetIP, Http,
      GoNet, GoTime, Json, Assign: the standard library.  Coding: a fast coding of
      records that witnesses use in place of JSON.
    - Access (access.go): grammars of paths, methods and slugs, targets, routes,
      matching and overlap.  Authorize: the queries of the same file.
    - Upstream (upstream/http.go): the header filter, the destination policy, sending
      and streaming.
    - Crypto (store/crypto.go).  Types (requests/types.go): normalisation, digests.
    - Db: the tables of src/internal/store/migrations, statements, transactions,
      failures, and [Audit], [Encrypt], [Decrypt] of store.go.  Rules: the reasoning
      rules of statements and transactions.  Schema, Migrating: [migrate].  Opening: [Open] and [Close].
      Samples: a small database for witnesses.
    - Lifecycle (server/requests.go): [Submit], [RequestStatus], [Decide], [dispatch],
      [maintenance], recovery, [cancelRequests].  Life: the abstract specification of a
      request and of a database.  Closing, Submitting, Reviewing, Dispatching: that the
      operations keep to it, and exactly what each does.
    - Limits (server.go): the throttle and the dispatch slots.  Owner (owner.go,
      review.go, tls.go): [OwnerHandler] and its forms.  Device (server.go, requests.go,
      renewal.go, tls.go): [DeviceHandler], enrolment, renewal, scopes, ordinary
      requests.  Refusals: the table of what it refuses with.  Worker: [New] and one tick
      of [RunWorker].  Page: [render].
    - Services, Permissions, Granting, Guarding, Enrolling, Joining, Working: properties
      of those handlers, one group per file.
    - Stable, Handlers, System: every operation keeps the invariant, the recovery of a
      restored database and the writing of the authority included; the server as a
      step relation with crashes and restarts.  Connection: every operation leaves the
      single connection free.  Serving: [serve] of main.go and how a command ends, over
      what it has in the background.  Shutdown: the same for the server, with the
      goroutines of the worker, which are waited for, and its handlers, which are not.
      Settling: progress.
    - Authority, Certifying (tls.go, renewal.go): the authority and the leaf certificate.
    - Files, Identity, Keeping (client.go): the directory with its crashes, the identity
      file, enrolment.  Renewal, Refreshing (client/renewal.go, and the loop of the
      connect command): renewal.  Connector, Forwarding (client.go, socket.go): the
      connector and the private socket.  Adapter, Adapting (mcp.go): the tools.
    - Coders: the JSON of every type.  Replies (server.go): what the server writes and
      the agent is told.  Fitting: that it fits.  Answering: from a dispatch to the agent.
    - Framing, Command, Commanding (main.go): secrets and the server, enroll and connect
      commands up to where they serve.  Connecting: the connect command from its start
      to its end.  Flags, Running: the flag package, subcommands, flags and defaults.

    * What is shown

    - The durable lifecycle (System, Settling, Submitting, Reviewing, Dispatching): no
      request is sent twice, whatever interleaves or crashes, and what is sent is the
      snapshot that was approved; the database only grows along the automaton of Life,
      which every operation refines; submissions, decisions, claims and outcomes are
      characterised on every branch; everything ends; stored results come back.
    - Authority over devices (Guarding, Authorize, Access, Services, Permissions,
      Granting, Enrolling, Joining): nothing reaches an upstream without a live
      certificate, an active permission and a committed record; nothing changes by the
      owner's page without password or session and form token; answers of [Authorize]
      are sound, complete and independent of row order; revocation is final;
      invitations work once.
    - The edges (Upstream, Forwarding, Adapting, Replies, Fitting, Answering, Refusals, Coders):
      header filter and destination policy; what a connector forwards arrives as the
      same request, its query up to a number sign; a tool's input arrives as that
      operation, unless it is longer than the operation reads, and the agent is told
      exactly the server's answer or code; answers fit every buffer on the way; JSON
      round trips.
    - Processes (Opening, Migrating, Certifying, Keeping, Refreshing, Limits, Working,
      Shutdown, Connecting, Connection, Commanding, Running, Page): the store opens only
      with its secret and loses nothing; certificates are renewed in time and survive
      crashes; limits are exact; server and connector end in order, and end; a command
      line is read as what it spells.

    * Bounds and fuel

    Integers are [Z] with the ranges the code checks.  Loops are structural recursion,
    except [Command.chomp] (well-founded on the length) and the JSON parser, whose fuel
    is twice the length of its text, which [Json.value_fuel] shows to be enough.  The
    polling loop of a status takes the list of its waits, and [Settling.status_terminates]
    shows that 76 end it.  Steps of an ending command are bounded by [Serving.budget].

    * Not modelled

    The web assets and the HTML that templates make of a page or review: no decisions
    are made there.  The printing of errors and the exit status.  Signals, listeners and
    tickers: they are the events of Serving, Shutdown and Connecting.  TLS handshakes,
    X.509 and cryptography: library code.  The deadlines of [IdleConn] and the timeouts
    of clients and servers: a call that times out is one of the failures of the
    transport, and a body that breaks off is one longer than its reader takes.  The MCP server: the SDK.  How a
    certificate and a proxied response are written on the wire: [Replies.wire] leaves
    them to a parameter.  A JSON number that no float64 can hold, which the adapter's
    decoder refuses and [Json] keeps. *)
From Stdlib Require Export Ascii.
From stdpp Require Export base gmap strings pretty list fin_maps sorting.
From Stdlib Require Export ZArith Lia.

(** * Hint databases *)

(** [gostr]: normal forms of concatenations of strings; [wp]: the rules of the
    primitive operations; [budge]: facts about the components' invariants. *)
Create Rewrite HintDb gostr.
Create HintDb wp.
Create HintDb budge.

(** * Results and errors *)

(** The errors a Go function of the program can return.  [ErrMsg] carries the
    text given to [errors.New]; the others are the failures of database/sql:
    [sql.ErrNoRows], an I/O or driver failure, a violated constraint, use of a
    finished transaction, and the case in which the call never returns because
    the single connection is held by the caller itself. *)
Inductive error :=
| ErrNoRows
| ErrIO
| ErrConstraint
| ErrTxDone
| ErrDeadlock
| ErrMsg (msg : string).

Inductive result (A : Type) : Type :=
| Ok (a : A)
| Err (e : error).
Arguments Ok {A} a.
Arguments Err {A} e.

#[export] Instance error_eq_dec : EqDecision error.
Proof. solve_decision. Defined.

#[export] Instance result_ret : MRet result := λ A a, Ok a.
#[export] Instance result_bind : MBind result := λ A B f m,
  match m with Ok a => f a | Err e => Err e end.

(** [if !b { return errors.New(e) }] *)
Definition check (b : bool) (e : string) : result unit :=
  if b then Ok tt else Err (ErrMsg e).

(** Replaces whatever error [m] has: [if e != nil { return errors.New(e) }]. *)
Definition or_error {A} (m : result A) (e : string) : result A :=
  match m with Ok a => Ok a | Err _ => Err (ErrMsg e) end.

(** * The state and error monad *)

(** A Go function with effects on a state [S]: a state is passed through, and
    the effects made before an error stay (a deferred rollback is explicit in
    the programs below). *)
Definition M (S A : Type) : Type := S → result A * S.

#[export] Instance M_ret S : MRet (M S) := λ A a s, (Ok a, s).
#[export] Instance M_bind S : MBind (M S) := λ A B f m s,
  match m s with
  | (Ok a, s') => f a s'
  | (Err e, s') => (Err e, s')
  end.

Definition fail {S A} (e : error) : M S A := λ s, (Err e, s).
Definition lift {S A} (r : result A) : M S A := λ s, (r, s).
Definition gets {S A} (f : S → A) : M S A := λ s, (Ok (f s), s).
Definition modify {S} (f : S → S) : M S unit := λ s, (Ok tt, f s).
Definition guard_ {S} (b : bool) (e : string) : M S unit := lift (check b e).

(** Runs [m] and hands its result, error included, to the caller. *)
Definition attempt {S A} (m : M S A) : M S (result A) := λ s,
  let '(r, s') := m s in (Ok r, s').

Definition or_fail {S A} (m : M S A) (e : string) : M S A := λ s,
  let '(r, s') := m s in (or_error r e, s').

Fixpoint for_each {S A} (f : A → M S unit) (l : list A) : M S unit :=
  match l with
  | [] => mret tt
  | a :: l' => f a;; for_each f l'
  end.

(** [finally m fin] runs [fin] however [m] ends: a deferred call. *)
Definition finally {S A} (m : M S A) (fin : S → S) : M S A := λ s,
  let '(r, s') := m s in (r, fin s').

(** [zoom get set m] runs [m] on a part of the state. *)
Definition zoom {S W A} (get : S → W) (set : W → S → S) (m : M W A) : M S A := λ s,
  let '(r, w) := m (get s) in (r, set w s).

(** * Weakest preconditions *)

Definition wp {S A} (m : M S A) (Q : result A → S → Prop) (s : S) : Prop :=
  Q (m s).1 (m s).2.

Section wp_rules.
Context {S : Type}.
Implicit Types s : S.

Lemma wp_unfold {A} (m : M S A) Q s r s' : m s = (r, s') → wp m Q s → Q r s'.
Proof. unfold wp. by intros ->. Qed.

Lemma wp_mono {A} (m : M S A) (Q Q' : result A → S → Prop) s :
  wp m Q s → (∀ r s', Q r s' → Q' r s') → wp m Q' s.
Proof. unfold wp. auto. Qed.

Lemma wp_ext {A} (m m' : M S A) (Q : result A → S → Prop) s : m s = m' s → wp m' Q s → wp m Q s.
Proof. unfold wp. by intros ->. Qed.

Lemma wp_ret {A} (a : A) (Q : result A → S → Prop) s : Q (Ok a) s → wp (mret a) Q s.
Proof. done. Qed.

Lemma wp_fail {A} e (Q : result A → S → Prop) s : Q (Err e) s → wp (fail e) Q s.
Proof. done. Qed.

Lemma wp_lift {A} (r : result A) (Q : result A → S → Prop) s : Q r s → wp (lift r) Q s.
Proof. done. Qed.

Lemma wp_gets {A} (f : S → A) (Q : result A → S → Prop) s : Q (Ok (f s)) s → wp (gets f) Q s.
Proof. done. Qed.

Lemma wp_modify (f : S → S) (Q : result unit → S → Prop) s : Q (Ok tt) (f s) → wp (modify f) Q s.
Proof. done. Qed.

Lemma wp_bind {A B} (m : M S A) (f : A → M S B) Q s :
  wp m (λ r s', match r with Ok a => wp (f a) Q s' | Err e => Q (Err e) s' end) s →
  wp (m ≫= f) Q s.
Proof. unfold wp, mbind, M_bind. destruct (m s) as [[a|e] s']; done. Qed.

Lemma wp_or_fail {A} (m : M S A) e Q s :
  wp m (λ r s', Q (or_error r e) s') s → wp (or_fail m e) Q s.
Proof. unfold wp, or_fail. by destruct (m s). Qed.

Lemma wp_attempt {A} (m : M S A) Q s :
  wp m (λ r s', Q (Ok r) s') s → wp (attempt m) Q s.
Proof. unfold wp, attempt. by destruct (m s). Qed.

Lemma wp_finally {A} (m : M S A) fin Q s :
  wp m (λ r s', Q r (fin s')) s → wp (finally m fin) Q s.
Proof. unfold wp, finally. by destruct (m s). Qed.

Lemma wp_zoom {W A} (get : S → W) set (m : M W A) Q s :
  wp m (λ r w, Q r (set w s)) (get s) → wp (zoom get set m) Q s.
Proof. unfold wp, zoom. by destruct (m (get s)). Qed.

Lemma wp_guard b e Q s :
  (b = true → Q (Ok tt) s) → (b = false → Q (Err (ErrMsg e)) s) → wp (guard_ b e) Q s.
Proof. unfold wp, guard_, lift, check. destruct b; auto. Qed.

(** A loop keeps what its body keeps, whether it ends or stops on an error. *)
Lemma wp_for_each {A} (f : A → M S unit) l (I : S → Prop) s :
  I s → (∀ a s', a ∈ l → I s' → wp (f a) (λ _ s'', I s'') s') →
  wp (for_each f l) (λ _ s', I s') s.
Proof.
  revert s. induction l as [|a l IH]; intros s Hs Hf; simpl; [done|].
  apply wp_bind. eapply wp_mono; [apply Hf; [left|done]|].
  intros [[]|e] s' Hs'; [|done]. apply IH; [done|]. intros; apply Hf; [by right|done].
Qed.

End wp_rules.

(** The monad laws, for readers and rewriting. *)
Lemma bind_ret_l {S A B} (a : A) (f : A → M S B) : (mret a ≫= f) = f a.
Proof. done. Qed.

Lemma bind_bind {S A B C} (m : M S A) (f : A → M S B) (g : B → M S C) s :
  ((m ≫= f) ≫= g) s = (m ≫= (λ a, f a ≫= g)) s.
Proof. unfold mbind, M_bind. by destruct (m s) as [[a|e] s']. Qed.
