(* ===== verification/GoStrings.v ===== *)
(** The parts of Go's [strings], [unicode/utf8], [strconv], [encoding/base64]
    and [net/textproto] packages the program calls, on byte strings.

    A Go string is a sequence of bytes, so it is Rocq's [string]; a Go byte is an
    [ascii].  [EqualFold] follows Unicode simple folding where one of the two
    strings is ASCII, which is the case in every call of the program: besides
    the ASCII letters, only the Kelvin sign (bytes E2 84 AA) and the long s (C5
    BF) fold to an ASCII letter. *)
From S2P Require Import Prelude.

(** * Bytes *)

Definition byte_of (c : ascii) : Z := Z.of_N (N_of_ascii c).
Definition of_byte (z : Z) : ascii := ascii_of_N (Z.to_N z).

Definition in_range (c lo hi : ascii) : bool :=
  (N_of_ascii lo <=? N_of_ascii c)%N && (N_of_ascii c <=? N_of_ascii hi)%N.

Definition is_lower (c : ascii) : bool := in_range c "a" "z".
Definition is_upper (c : ascii) : bool := in_range c "A" "Z".
Definition is_digit (c : ascii) : bool := in_range c "0" "9".
Definition is_alnum (c : ascii) : bool := is_lower c || is_upper c || is_digit c.

Definition to_lower (c : ascii) : ascii :=
  if is_upper c then ascii_of_N (N_of_ascii c + 32) else c.
Definition to_upper (c : ascii) : ascii :=
  if is_lower c then ascii_of_N (N_of_ascii c - 32) else c.

(** * Traversals *)

(** [for _, c := range []byte(s) { if !p(c) { return false } }; return true] *)
Fixpoint all_bytes (p : ascii → bool) (s : string) : bool :=
  match s with
  | EmptyString => true
  | String c s' => p c && all_bytes p s'
  end.

Fixpoint string_map (f : ascii → ascii) (s : string) : string :=
  match s with
  | EmptyString => EmptyString
  | String c s' => String (f c) (string_map f s')
  end.

(** [strings.ContainsRune(set, rune(c))] for an ASCII [set]. *)
Fixpoint has_byte (set : string) (c : ascii) : bool :=
  match set with
  | EmptyString => false
  | String d set' => bool_decide (c = d) || has_byte set' c
  end.

(** [strings.ContainsAny(s, chars)] for ASCII [chars]. *)
Definition ContainsAny (s chars : string) : bool := negb (all_bytes (λ c, negb (has_byte chars c)) s).

Fixpoint HasPrefix (s prefix : string) {struct prefix} : bool :=
  match prefix, s with
  | EmptyString, _ => true
  | String c p, String d t => bool_decide (c = d) && HasPrefix t p
  | String _ _, EmptyString => false
  end.

Fixpoint Contains (s sub : string) : bool :=
  HasPrefix s sub ||
  match s with
  | EmptyString => false
  | String _ s' => Contains s' sub
  end.

(** The rest of [s] after its first [n] bytes: [s[n:]]. *)
Fixpoint drop_bytes (n : nat) (s : string) : string :=
  match n, s with
  | O, _ => s
  | S _, EmptyString => EmptyString
  | S n', String _ s' => drop_bytes n' s'
  end.

Fixpoint take_bytes (n : nat) (s : string) : string :=
  match n, s with
  | O, _ | _, EmptyString => EmptyString
  | S n', String c s' => String c (take_bytes n' s')
  end.

Definition TrimPrefix (s prefix : string) : string :=
  if HasPrefix s prefix then drop_bytes (String.length prefix) s else s.

(** The first position at which the rest of [s] is [suffix] is its end. *)
Fixpoint TrimSuffix (s suffix : string) : string :=
  if bool_decide (s = suffix) then EmptyString else
  match s with
  | EmptyString => EmptyString
  | String c s' => String c (TrimSuffix s' suffix)
  end.

(** [strings.IndexByte(s, c)]: what is before the first [c], and the rest from
    it on; [None] for the index -1. *)
Fixpoint cut_at (c : ascii) (s : string) : option (string * string) :=
  match s with
  | EmptyString => None
  | String d s' =>
    if bool_decide (d = c) then Some (EmptyString, s) else
    match cut_at c s' with
    | Some (a, b) => Some (String d a, b)
    | None => None
    end
  end.

(** [strings.Cut(s, sep)] for a one-byte [sep]. *)
Definition Cut (s : string) (c : ascii) : option (string * string) :=
  match cut_at c s with
  | Some (a, String _ b) => Some (a, b)
  | _ => None
  end.

(** [strings.LastIndexByte(s, c)], in the same form as [cut_at]. *)
Fixpoint last_cut_at (c : ascii) (s : string) : option (string * string) :=
  match s with
  | EmptyString => None
  | String d s' =>
    match last_cut_at c s' with
    | Some (a, b) => Some (String d a, b)
    | None => if bool_decide (d = c) then Some (EmptyString, s) else None
    end
  end.

(** [strings.Split(s, sep)] for a one-byte [sep]. *)
Fixpoint Split (c : ascii) (s : string) : list string :=
  match s with
  | EmptyString => [EmptyString]
  | String d s' =>
    if bool_decide (d = c) then EmptyString :: Split c s' else
    match Split c s' with
    | h :: t => String d h :: t
    | [] => [String d EmptyString]
    end
  end.

Fixpoint Join (c : ascii) (l : list string) : string :=
  match l with
  | [] => EmptyString
  | [s] => s
  | s :: l' => s +:+ String c (Join c l')
  end.

(** [strings.FieldsFunc(s, f)] for a predicate [f] of ASCII runes: [cur] is the
    field being read. *)
Fixpoint fields_go (f : ascii → bool) (s cur : string) : list string :=
  let flush rest := if bool_decide (cur = EmptyString) then rest else cur :: rest in
  match s with
  | EmptyString => flush []
  | String c s' =>
    if f c then flush (fields_go f s' EmptyString)
    else fields_go f s' (cur +:+ String c EmptyString)
  end.

Definition FieldsFunc (f : ascii → bool) (s : string) : list string := fields_go f s EmptyString.

(** [strings.TrimSpace]: the white space of Unicode, in UTF-8. *)
Definition is_space (c : ascii) : bool :=
  in_range c "009" "013" || bool_decide (c = " "%char).

(** One encoded white-space rune and nothing else. *)
Definition blank (s : string) : bool :=
  match s with
  | String c EmptyString => is_space c
  | String c (String d EmptyString) =>
    bool_decide (c = "194"%char) && (bool_decide (d = "133"%char) || bool_decide (d = "160"%char))
  | String c (String d (String e EmptyString)) =>
    (bool_decide (c = "225"%char) && bool_decide (d = "154"%char) && bool_decide (e = "128"%char))
    || (bool_decide (c = "226"%char) && bool_decide (d = "128"%char)
        && (in_range e "128" "138" || in_range e "168" "169" || bool_decide (e = "175"%char)))
    || (bool_decide (c = "226"%char) && bool_decide (d = "129"%char) && bool_decide (e = "159"%char))
    || (bool_decide (c = "227"%char) && bool_decide (d = "128"%char) && bool_decide (e = "128"%char))
  | _ => false
  end.

Fixpoint trim_left (s : string) : string :=
  match s with
  | EmptyString => EmptyString
  | String c s1 =>
    if is_space c then trim_left s1 else
    match s1 with
    | EmptyString => s
    | String d s2 =>
      if blank (String c (String d EmptyString)) then trim_left s2 else
      match s2 with
      | EmptyString => s
      | String e s3 => if blank (String c (String d (String e EmptyString))) then trim_left s3 else s
      end
    end
  end.

Fixpoint trim_right (s : string) : string :=
  match s with
  | EmptyString => EmptyString
  | String c s' =>
    let t := trim_right s' in
    if blank (String c t) then EmptyString else String c t
  end.

Definition TrimSpace (s : string) : string := trim_right (trim_left s).

Example trim_unicode : TrimSpace (String "194" (String "160" (" a b " +:+ String "226" (String "128" (String "169" (String "010" "")))))) = "a b".
Proof. reflexivity. Qed.

(** Printable ASCII: nothing to trim. *)
Definition graph_byte (c : ascii) : bool := in_range c "033" "126".

Lemma graph_not_blank c t : graph_byte c = true → blank (String c t) = false.
Proof.
  intros Hc. assert (is_space c = false ∧ bool_decide (c = "194"%char) = false ∧ bool_decide (c = "225"%char) = false
    ∧ bool_decide (c = "226"%char) = false ∧ bool_decide (c = "227"%char) = false) as (E1 & E2 & E3 & E4 & E5).
  { revert c Hc. intros [[] [] [] [] [] [] [] []]; vm_compute; try discriminate; auto 10. }
  destruct t as [|d [|e [|]]]; cbn [blank]; by rewrite ?E1, ?E2, ?E3, ?E4, ?E5.
Qed.

Lemma TrimSpace_graph s : all_bytes graph_byte s = true → TrimSpace s = s.
Proof.
  intros Hs. unfold TrimSpace. assert (trim_left s = s) as ->.
  { destruct s as [|c s]; [done|]. apply andb_true_iff in Hs as [Hc _].
    pose proof (λ t, graph_not_blank c t Hc) as Hb. assert (is_space c = false) as H1 by exact (Hb EmptyString).
    cbn [trim_left]. rewrite H1.
    destruct s as [|d s]; [done|]. rewrite Hb. destruct s as [|e s]; [done|]. by rewrite Hb. }
  induction s as [|c s IH]; [done|]. apply andb_true_iff in Hs as [Hc Hs]. cbn [trim_right]. rewrite IH by done.
  by rewrite graph_not_blank.
Qed.

(** [strings.ToLower] on ASCII strings. *)
Definition ToLower (s : string) : string := string_map to_lower s.

(** Replaces the two non-ASCII runes that fold to an ASCII letter, and lowers
    the ASCII letters. *)
Fixpoint fold_ascii (s : string) : string :=
  match s with
  | String "226" (String "132" (String "170" s')) => String "k" (fold_ascii s')
  | String "197" (String "191" s') => String "s" (fold_ascii s')
  | String c s' => String (to_lower c) (fold_ascii s')
  | EmptyString => EmptyString
  end.

Definition EqualFold (s t : string) : bool := bool_decide (fold_ascii s = fold_ascii t).

(** * Header names *)

(** textproto's [validHeaderFieldByte]: a token byte of RFC 7230. *)
Definition token_marks : string := "!#$%&'*+-.^_`|~".
Definition is_token (c : ascii) : bool := is_alnum c || has_byte token_marks c.

Fixpoint canonical_from (upper : bool) (s : string) : string :=
  match s with
  | EmptyString => EmptyString
  | String c s' =>
    String (if upper then to_upper c else to_lower c)
           (canonical_from (bool_decide (c = "-"%char)) s')
  end.

(** [http.CanonicalHeaderKey]: unchanged when some byte is not a token byte. *)
Definition CanonicalHeaderKey (s : string) : string :=
  if all_bytes is_token s then canonical_from true s else s.

(** * UTF-8 *)

Definition is_cont (c : ascii) : bool := in_range c "128" "191".

(** [utf8.ValidString]: the table of well-formed sequences of the Unicode
    standard (no overlong forms, no surrogates, nothing above U+10FFFF). *)
Fixpoint ValidString (s : string) : bool :=
  match s with
  | EmptyString => true
  | String c1 s1 =>
    if in_range c1 "000" "127" then ValidString s1 else
    match s1 with
    | EmptyString => false
    | String c2 s2 =>
      if in_range c1 "194" "223" then is_cont c2 && ValidString s2 else
      match s2 with
      | EmptyString => false
      | String c3 s3 =>
        if in_range c1 "224" "239" then
          (if bool_decide (c1 = "224"%char) then in_range c2 "160" "191"
           else if bool_decide (c1 = "237"%char) then in_range c2 "128" "159"
           else is_cont c2) && is_cont c3 && ValidString s3
        else
        match s3 with
        | EmptyString => false
        | String c4 s4 =>
          in_range c1 "240" "244" &&
          (if bool_decide (c1 = "240"%char) then in_range c2 "144" "191"
           else if bool_decide (c1 = "244"%char) then in_range c2 "128" "143"
           else is_cont c2) && is_cont c3 && is_cont c4 && ValidString s4
        end
      end
    end
  end.

(** * Integers and base64 *)

(** [strconv.Itoa]. *)
Definition itoa (z : Z) : string := pretty z.

Definition b64_std : string := "ABCDEFGHIJKLMNOPQRSTUVWXYZabcdefghijklmnopqrstuvwxyz0123456789+/".
Definition b64_url : string := "ABCDEFGHIJKLMNOPQRSTUVWXYZabcdefghijklmnopqrstuvwxyz0123456789-_".

Definition b64_char (alphabet : string) (n : N) : ascii :=
  from_option id "A"%char (String.get (N.to_nat n) alphabet).

(** The encoder without padding ([RawStdEncoding], [RawURLEncoding]). *)
Fixpoint b64_raw (alphabet : string) (s : string) : string :=
  let ch := b64_char alphabet in
  match s with
  | EmptyString => EmptyString
  | String a EmptyString =>
    let v := (N_of_ascii a * 16)%N in
    String (ch (v / 64)%N) (String (ch (v mod 64)%N) EmptyString)
  | String a (String b EmptyString) =>
    let v := ((N_of_ascii a * 256 + N_of_ascii b) * 4)%N in
    String (ch (v / 4096)%N) (String (ch (v / 64 mod 64)%N) (String (ch (v mod 64)%N) EmptyString))
  | String a (String b (String c s')) =>
    let v := ((N_of_ascii a * 256 + N_of_ascii b) * 256 + N_of_ascii c)%N in
    String (ch (v / 262144)%N) (String (ch (v / 4096 mod 64)%N)
      (String (ch (v / 64 mod 64)%N) (String (ch (v mod 64)%N) (b64_raw alphabet s'))))
  end.

Definition RawURLEncoding (s : string) : string := b64_raw b64_url s.
Definition RawStdEncoding (s : string) : string := b64_raw b64_std s.

(** [StdEncoding] adds the padding to a multiple of four. *)
Definition StdEncoding (s : string) : string :=
  RawStdEncoding s +:+
  match (String.length s mod 3)%nat with 1%nat => "==" | 2%nat => "=" | _ => "" end.

(** * Lemmas: concatenation, prefixes *)

Lemma app_cons_string c s t : String c s +:+ t = String c (s +:+ t).
Proof. done. Qed.

Lemma app_nil_string t : EmptyString +:+ t = t.
Proof. done. Qed.

#[export] Hint Rewrite app_cons_string app_nil_string : gostr.

Lemma app_empty_r s : s +:+ EmptyString = s.
Proof. induction s as [|c s IH]; [done|]. by rewrite app_cons_string, IH. Qed.

Lemma app_string_assoc s t u : (s +:+ t) +:+ u = s +:+ (t +:+ u).
Proof. induction s as [|c s IH]; [done|]. by rewrite !app_cons_string, IH. Qed.

Lemma length_app_string s t : String.length (s +:+ t) = (String.length s + String.length t)%nat.
Proof. induction s as [|c s IH]; [done|]. rewrite app_cons_string. simpl. by rewrite IH. Qed.

#[export] Hint Rewrite app_empty_r app_string_assoc : gostr.

Lemma HasPrefix_spec s p : HasPrefix s p = true ↔ ∃ t, s = p +:+ t.
Proof.
  revert s. induction p as [|c p IH]; intros s; simpl.
  { split; [|done]. intros _. by exists s. }
  destruct s as [|d s]; [split; [done|by intros [t ?]]|].
  rewrite andb_true_iff, bool_decide_eq_true, IH. split.
  - intros [-> [t ->]]. by exists t.
  - intros [t Ht]. rewrite app_cons_string in Ht. injection Ht as -> ->. eauto.
Qed.

Lemma HasPrefix_app s t : HasPrefix (s +:+ t) s = true.
Proof. apply HasPrefix_spec. eauto. Qed.

Lemma drop_bytes_app s t : drop_bytes (String.length s) (s +:+ t) = t.
Proof. induction s as [|c s IH]; [by destruct t|]. done. Qed.

Lemma TrimPrefix_app s t : TrimPrefix (s +:+ t) s = t.
Proof. unfold TrimPrefix. by rewrite HasPrefix_app, drop_bytes_app. Qed.

(** Two prefixes of the same string are prefixes of one another. *)
Lemma prefixes_comparable (a b u v : string) :
  a +:+ u = b +:+ v → (∃ w, b = a +:+ w) ∨ (∃ w, a = b +:+ w).
Proof.
  revert b. induction a as [|c a IH]; intros b; [left; by exists b|].
  destruct b as [|d b]; [right; by exists (String c a)|].
  rewrite !app_cons_string. intros [= -> H].
  destruct (IH b H) as [[w ->]|[w ->]]; [left|right]; by exists w.
Qed.

Lemma app_inj_l (s t u : string) : s +:+ t = s +:+ u → t = u.
Proof. induction s; [done|]. rewrite !app_cons_string. intros [= ?]. auto. Qed.

(** * Lemmas: predicates on bytes *)

Lemma all_bytes_app p s t : all_bytes p (s +:+ t) = all_bytes p s && all_bytes p t.
Proof.
  induction s as [|c s IH]; [done|]. rewrite app_cons_string. simpl. rewrite IH.
  by destruct (p c).
Qed.

Lemma all_bytes_impl (p q : ascii → bool) s :
  (∀ c, p c = true → q c = true) → all_bytes p s = true → all_bytes q s = true.
Proof.
  intros Hpq. induction s as [|c s IH]; simpl; [done|].
  rewrite !andb_true_iff. intros [??]. auto.
Qed.

(** A fact about every byte, by computation. *)
Definition for_all_bytes (p : ascii → bool) : bool :=
  forallb (λ n, p (ascii_of_nat n)) (seq 0 256).

Lemma for_all_bytes_spec p : for_all_bytes p = true → ∀ c, p c = true.
Proof.
  unfold for_all_bytes. rewrite forallb_forall. intros H c.
  rewrite <-(ascii_nat_embedding c). apply H, in_seq. pose proof (nat_ascii_bounded c). lia.
Qed.

Lemma bytes_impl (p q : ascii → bool) :
  for_all_bytes (λ c, negb (p c) || q c) = true → ∀ c, p c = true → q c = true.
Proof.
  intros H c Hp. pose proof (for_all_bytes_spec _ H c) as Hc. simpl in Hc.
  by rewrite Hp in Hc.
Qed.

Lemma all_bytes_weaken (p q : ascii → bool) s :
  for_all_bytes (λ c, negb (p c) || q c) = true → all_bytes p s = true → all_bytes q s = true.
Proof. intros H. by apply all_bytes_impl, bytes_impl. Qed.

Definition not_byte (c : ascii) : ascii → bool := λ d, negb (bool_decide (d = c)).

Lemma not_byte_true c d : not_byte c d = true ↔ d ≠ c.
Proof. unfold not_byte. rewrite negb_true_iff, bool_decide_eq_false. done. Qed.

(** * Lemmas: cutting and splitting *)

Lemma cut_at_app c s t :
  all_bytes (not_byte c) s = true → cut_at c (s +:+ String c t) = Some (s, String c t).
Proof.
  induction s as [|d s IH]; simpl.
  { intros _. by rewrite bool_decide_eq_true_2. }
  rewrite andb_true_iff, not_byte_true. intros [Hd Hs].
  rewrite bool_decide_eq_false_2 by done. by rewrite IH.
Qed.

Lemma cut_at_none c s : all_bytes (not_byte c) s = true → cut_at c s = None.
Proof.
  induction s as [|d s IH]; simpl; [done|].
  rewrite andb_true_iff, not_byte_true. intros [Hd Hs].
  rewrite bool_decide_eq_false_2 by done. by rewrite IH.
Qed.

Lemma cut_at_some c s a b :
  cut_at c s = Some (a, b) → s = a +:+ b ∧ all_bytes (not_byte c) a = true ∧ ∃ t, b = String c t.
Proof.
  revert a. induction s as [|d s IH]; intros a; simpl; [done|].
  destruct (decide (d = c)) as [->|Hne].
  { rewrite bool_decide_eq_true_2 by done. intros [= <- <-]. eauto. }
  rewrite bool_decide_eq_false_2 by done.
  destruct (cut_at c s) as [[a' b']|]; [|done]. intros [= <- <-].
  destruct (IH a' eq_refl) as (-> & ? & ?). split; [done|]. split; [|done].
  simpl. by rewrite (proj2 (not_byte_true _ _)).
Qed.

Lemma Split_nonnil c s : Split c s ≠ [].
Proof. destruct s as [|d s]; simpl; [done|]. case_bool_decide; [done|]. by destruct (Split c s). Qed.

Lemma Split_none c s : all_bytes (not_byte c) s = true → Split c s = [s].
Proof.
  induction s as [|d s IH]; simpl; [done|].
  rewrite andb_true_iff, not_byte_true. intros [Hd Hs].
  rewrite bool_decide_eq_false_2 by done. by rewrite IH.
Qed.

Lemma Split_app c s t :
  all_bytes (not_byte c) s = true → Split c (s +:+ String c t) = s :: Split c t.
Proof.
  induction s as [|d s IH]; simpl.
  { intros _. by rewrite bool_decide_eq_true_2. }
  rewrite andb_true_iff, not_byte_true. intros [Hd Hs].
  rewrite bool_decide_eq_false_2 by done. by rewrite IH.
Qed.

Lemma Split_Join c l :
  l ≠ [] → Forall (λ s, all_bytes (not_byte c) s = true) l → Split c (Join c l) = l.
Proof.
  intros Hl Hall. induction Hall as [|s l Hs Hall IH]; [done|].
  destruct l as [|s' l]; simpl; [by apply Split_none|].
  rewrite Split_app by done. f_equal. by apply IH.
Qed.

Lemma Join_Split c s : Join c (Split c s) = s.
Proof.
  induction s as [|d s IH]; [done|]. simpl. case_bool_decide as Hd.
  - subst. destruct (Split c s) eqn:E; [by apply Split_nonnil in E|].
    change (String c (Join c (s0 :: l)) = String c s). by rewrite IH.
  - destruct (Split c s) as [|h [|h' t]] eqn:E; simpl in *; [by apply Split_nonnil in E|by subst|].
    rewrite app_cons_string. by f_equal.
Qed.

Lemma Split_bytes c s x : x ∈ Split c s → all_bytes (not_byte c) x = true.
Proof.
  revert x. induction s as [|d s IH]; simpl; intros x.
  { intros ->%list_elem_of_singleton. done. }
  case_bool_decide as Hd.
  { intros [->|Hx]%elem_of_cons; [done|auto]. }
  destruct (Split c s) as [|h t].
  { intros ->%list_elem_of_singleton. simpl. by rewrite (proj2 (not_byte_true _ _)). }
  intros [->|Hx]%elem_of_cons; [|by apply IH; right].
  simpl. rewrite (proj2 (not_byte_true _ _)) by done. apply IH. by left.
Qed.

(** * Lemmas: trimming a slash *)

Lemma TrimSuffix_app s c : TrimSuffix (s +:+ String c EmptyString) (String c EmptyString) = s.
Proof.
  induction s as [|d s IH]; simpl.
  { by rewrite bool_decide_eq_true_2. }
  rewrite bool_decide_eq_false_2, IH; [done|].
  intros [= _ H]. apply (f_equal String.length) in H. rewrite length_app_string in H. simpl in H. lia.
Qed.

Lemma TrimSuffix_cases s c :
  s = TrimSuffix s (String c EmptyString) +:+ String c EmptyString ∨
  s = TrimSuffix s (String c EmptyString).
Proof.
  induction s as [|d s IH]; [by right|]. simpl. case_bool_decide as H.
  { left. by rewrite H. }
  rewrite app_cons_string. destruct IH as [IH|IH]; [left|right]; by f_equal.
Qed.

(** A string that ends in [c] and starts with [u] is [u] itself or leaves a rest
    that ends in [c]. *)
Lemma app_suffix_inv s u w c :
  s +:+ String c EmptyString = u +:+ w →
  w = EmptyString ∨ ∃ w', w = w' +:+ String c EmptyString ∧ s = u +:+ w'.
Proof.
  revert s. induction u as [|d u IH]; intros s.
  { rewrite app_nil_string. intros <-. right. by exists s. }
  rewrite app_cons_string. destruct s as [|e s].
  - rewrite app_nil_string. intros [= -> H]. left.
    apply (f_equal String.length) in H. rewrite length_app_string in H.
    destruct w; [done|]. simpl in H. lia.
  - rewrite app_cons_string. intros [= -> H]. destruct (IH s H) as [->|(w' & -> & ->)]; eauto.
Qed.

Lemma app_inv_suffix s t c :
  s +:+ String c EmptyString = t +:+ String c EmptyString → s = t.
Proof. intros H. by rewrite <-(TrimSuffix_app s c), H, TrimSuffix_app. Qed.

(** Splitting at a separator distributes over concatenation at one. *)
Lemma Split_app_sep c s t : Split c (s +:+ String c t) = Split c s ++ Split c t.
Proof.
  induction s as [|d s IH]; simpl; [by rewrite bool_decide_eq_true_2|].
  case_bool_decide as Hd; [by rewrite IH|].
  rewrite IH. destruct (Split c s) eqn:E; [by apply Split_nonnil in E|done].
Qed.

Lemma Split_inj c s t : Split c s = Split c t → s = t.
Proof. intros H. by rewrite <-(Join_Split c s), H, Join_Split. Qed.

Lemma Join_app c l1 l2 :
  l1 ≠ [] → l2 ≠ [] → Join c (l1 ++ l2) = Join c l1 +:+ String c (Join c l2).
Proof.
  intros H1 H2. induction l1 as [|s l1 IH]; [done|].
  destruct l1 as [|s' l1]; [destruct l2; done|].
  change (Join c ((s :: s' :: l1) ++ l2)) with (s +:+ String c (Join c ((s' :: l1) ++ l2))).
  rewrite IH by done. change (Join c (s :: s' :: l1)) with (s +:+ String c (Join c (s' :: l1))).
  by autorewrite with gostr.
Qed.

(** * Lemmas: fields *)

Lemma fields_go_word f s t cur :
  all_bytes (λ c, negb (f c)) s = true → fields_go f (s +:+ t) cur = fields_go f t (cur +:+ s).
Proof.
  revert cur. induction s as [|c s IH]; intros cur; simpl.
  { by rewrite app_nil_string, app_empty_r. }
  rewrite andb_true_iff, negb_true_iff. intros [-> Hs].
  rewrite IH by done. by autorewrite with gostr.
Qed.

Lemma FieldsFunc_Join f c l :
  f c = true → Forall (λ s, s ≠ EmptyString ∧ all_bytes (λ c, negb (f c)) s = true) l →
  FieldsFunc f (Join c l) = l.
Proof.
  intros Hc Hall. unfold FieldsFunc. induction Hall as [|s l [Hne Hs] Hall IH]; [done|].
  destruct l as [|s' l].
  - simpl. rewrite <-(app_empty_r s), fields_go_word by done. simpl.
    autorewrite with gostr. by rewrite bool_decide_eq_false_2.
  - change (Join c (s :: s' :: l)) with (s +:+ String c (Join c (s' :: l))).
    rewrite fields_go_word by done. rewrite app_nil_string.
    change (fields_go f (String c (Join c (s' :: l))) s) with
      (let flush rest := if bool_decide (s = EmptyString) then rest else s :: rest in
       if f c then flush (fields_go f (Join c (s' :: l)) EmptyString)
       else fields_go f (Join c (s' :: l)) (s +:+ String c EmptyString)).
    cbv zeta. rewrite Hc, bool_decide_eq_false_2 by done. by rewrite IH.
Qed.

Lemma fields_go_words f s cur x :
  all_bytes (λ c, negb (f c)) cur = true →
  x ∈ fields_go f s cur → x ≠ EmptyString ∧ all_bytes (λ c, negb (f c)) x = true.
Proof.
  assert (∀ cur rest (P : string → Prop),
    (cur ≠ EmptyString → P cur) → (∀ y, y ∈ rest → P y) →
    ∀ y, y ∈ (if bool_decide (cur = EmptyString) then rest else cur :: rest) → P y) as flush.
  { intros c0 rest P H1 H2 y. case_bool_decide; [auto|]. intros [->|?]%elem_of_cons; auto. }
  revert cur x. induction s as [|c s IH]; intros cur x Hcur; simpl.
  { apply (flush cur [] (λ x, x ≠ EmptyString ∧ all_bytes (λ c, negb (f c)) x = true)); [auto|].
    by intros y ?%not_elem_of_nil. }
  destruct (f c) eqn:Ec.
  - apply (flush cur _ (λ x, x ≠ EmptyString ∧ all_bytes (λ c, negb (f c)) x = true)); [auto|].
    intros y. by apply IH.
  - apply IH. rewrite all_bytes_app, Hcur. simpl. by rewrite Ec.
Qed.

(** * Lemmas: canonical header names and case folding *)

Lemma canonical_token b s : all_bytes is_token s = true → all_bytes is_token (canonical_from b s) = true.
Proof.
  revert b. induction s as [|c s IH]; intros b; simpl; [done|].
  rewrite !andb_true_iff. intros [Hc Hs]. split; [|by apply IH].
  assert (is_token (to_upper c) = true ∧ is_token (to_lower c) = true) as [? ?]; [|by destruct b].
  split; revert c Hc; apply bytes_impl; by vm_compute.
Qed.

Lemma canonical_from_idem b s : canonical_from b (canonical_from b s) = canonical_from b s.
Proof.
  revert b. induction s as [|c s IH]; intros b; simpl; [done|].
  assert (∀ c, bool_decide (to_upper (to_upper c) = to_upper c) = true) as Hu
    by (apply for_all_bytes_spec; by vm_compute).
  assert (∀ c, bool_decide (to_lower (to_lower c) = to_lower c) = true) as Hl
    by (apply for_all_bytes_spec; by vm_compute).
  assert (∀ c, Bool.eqb (bool_decide (to_upper c = "-"%char)) (bool_decide (c = "-"%char)) &&
               Bool.eqb (bool_decide (to_lower c = "-"%char)) (bool_decide (c = "-"%char)) = true) as Hd
    by (apply for_all_bytes_spec; by vm_compute).
  specialize (Hu c). specialize (Hl c). specialize (Hd c).
  apply bool_decide_eq_true in Hu, Hl. apply andb_true_iff in Hd as [H1%Bool.eqb_prop H2%Bool.eqb_prop].
  destruct b; rewrite ?H1, ?H2, IH; congruence.
Qed.

Lemma CanonicalHeaderKey_idem s : CanonicalHeaderKey (CanonicalHeaderKey s) = CanonicalHeaderKey s.
Proof.
  unfold CanonicalHeaderKey at 2 3. destruct (all_bytes is_token s) eqn:E.
  - unfold CanonicalHeaderKey. by rewrite canonical_token, canonical_from_idem.
  - unfold CanonicalHeaderKey. by rewrite E.
Qed.

(** On token strings folding is lowering, and forgets the canonical form. *)
Lemma fold_ascii_token s : all_bytes is_token s = true → fold_ascii s = string_map to_lower s.
Proof.
  induction s as [|c s IH]; [done|]. simpl all_bytes. rewrite andb_true_iff. intros [Hc Hs].
  assert (fold_ascii (String c s) = String (to_lower c) (fold_ascii s)) as ->; [|by rewrite IH].
  destruct c as [[] [] [] [] [] [] [] []]; try reflexivity; by vm_compute in Hc.
Qed.

Lemma lower_canonical b s : string_map to_lower (canonical_from b s) = string_map to_lower s.
Proof.
  revert b. induction s as [|c s IH]; intros b; simpl; [done|]. rewrite IH. f_equal.
  assert (∀ c, bool_decide (to_lower (to_upper c) = to_lower c) && bool_decide (to_lower (to_lower c) = to_lower c)
          = true) as H by (apply for_all_bytes_spec; by vm_compute).
  specialize (H c). apply andb_true_iff in H as [H1%bool_decide_eq_true H2%bool_decide_eq_true].
  by destruct b.
Qed.

Lemma canonical_of_lower b s t :
  string_map to_lower s = string_map to_lower t → canonical_from b s = canonical_from b t.
Proof.
  revert b t. induction s as [|c s IH]; intros b [|d t]; simpl; try done.
  intros [= Hcd Hst].
  assert (∀ c, bool_decide (to_upper (to_lower c) = to_upper c) &&
               Bool.eqb (bool_decide (to_lower c = "-"%char)) (bool_decide (c = "-"%char)) = true) as H
    by (apply for_all_bytes_spec; by vm_compute).
  pose proof (H c) as Hc. pose proof (H d) as Hd.
  apply andb_true_iff in Hc as [Hc1%bool_decide_eq_true Hc2%Bool.eqb_prop].
  apply andb_true_iff in Hd as [Hd1%bool_decide_eq_true Hd2%Bool.eqb_prop].
  rewrite <-Hc2, <-Hd2, Hcd. f_equal; [destruct b; congruence|]. by apply IH.
Qed.

(** Token strings are equal up to case exactly when their canonical keys are. *)
Lemma EqualFold_canonical s t :
  all_bytes is_token s = true → all_bytes is_token t = true →
  EqualFold s t = bool_decide (CanonicalHeaderKey s = CanonicalHeaderKey t).
Proof.
  intros Hs Ht. unfold EqualFold, CanonicalHeaderKey. rewrite Hs, Ht, !fold_ascii_token by done.
  apply bool_decide_ext. split.
  - by apply canonical_of_lower.
  - intros H. rewrite <-(lower_canonical true s), <-(lower_canonical true t). by rewrite H.
Qed.

(** * ASCII text *)

Definition ascii_byte (c : ascii) : bool := in_range c "000" "127".

Lemma ascii_ValidString s : all_bytes ascii_byte s = true → ValidString s = true.
Proof.
  induction s as [|c s IH]; [done|]. simpl. unfold ascii_byte at 1. intros [Hc Hs]%andb_true_iff. by rewrite Hc, IH.
Qed.

(** Bytes of a kind that is within ASCII. *)
Lemma within_ascii (p : ascii → bool) s :
  all_bytes p s = true → for_all_bytes (λ c, negb (p c) || ascii_byte c) = true → ValidString s = true.
Proof. intros Hs Hp. eapply ascii_ValidString, all_bytes_weaken; [exact Hp|exact Hs]. Qed.
