(* ===== verification/Coding.v ===== *)
(** A plain coding of records as text, for the libraries that the witnesses run
    with: fields with every byte marked, whole numbers in binary.  Decoding gives
    back what was coded, and both run fast. *)
From S2P Require Import Prelude GoStrings.

(** * Fields *)

Fixpoint put (s rest : string) : string :=
  match s with
  | EmptyString => String "," rest
  | String c s' => String "." (String c (put s' rest))
  end.

Definition fields (l : list string) : string := foldr put EmptyString l.

Fixpoint unfields (s : string) : option (list string) :=
  match s with
  | EmptyString => Some []
  | String m r =>
    if bool_decide (m = ","%char) then cons EmptyString <$> unfields r else
    match r with
    | String c r' =>
      match unfields r' with
      | Some (f :: l) => Some (String c f :: l)
      | _ => None
      end
    | EmptyString => None
    end
  end.

Lemma unfields_put s r : unfields (put s r) = cons s <$> unfields r.
Proof. induction s as [|c s IH]; [done|]. simpl. rewrite IH. by destruct (unfields r). Qed.

Lemma unfields_fields l : unfields (fields l) = Some l.
Proof. induction l as [|f l IH]; [done|]. simpl. by rewrite unfields_put, IH. Qed.

(** * Numbers and truth values *)

Fixpoint pos_text (p : positive) : string :=
  match p with
  | xH => EmptyString
  | xO p => String "0" (pos_text p)
  | xI p => String "1" (pos_text p)
  end.

Fixpoint text_pos (s : string) : positive :=
  match s with
  | EmptyString => xH
  | String c s => if bool_decide (c = "0"%char) then xO (text_pos s) else xI (text_pos s)
  end.

Lemma text_pos_text p : text_pos (pos_text p) = p.
Proof. induction p as [p IH|p IH|]; simpl; congruence. Qed.

Definition Z_text (z : Z) : string :=
  match z with Z0 => EmptyString | Zpos p => String "+" (pos_text p) | Zneg p => String "-" (pos_text p) end.
Definition text_Z (s : string) : Z :=
  match s with
  | EmptyString => Z0
  | String c s => if bool_decide (c = "+"%char) then Zpos (text_pos s) else Zneg (text_pos s)
  end.

Lemma text_Z_text z : text_Z (Z_text z) = z.
Proof. destruct z; simpl; by rewrite ?text_pos_text. Qed.

Definition bool_text (b : bool) : string := if b then "t" else EmptyString.
Definition text_bool (s : string) : bool := bool_decide (s ≠ EmptyString).

Lemma text_bool_text b : text_bool (bool_text b) = b.
Proof. by destruct b. Qed.
