(* ===== verification/NetUrl.v ===== *)
(** Go's [net/url]: the URL record, [Parse], and [String], as the program uses
    them in access.Base, access.Target, access.Route, server.validSnapshot and
    in the server's reading of a request line.  The escaping tables and the
    RawPath rule (a path whose default encoding differs from the text it came
    from keeps that text in RawPath) decide which paths the program accepts. *)
From S2P Require Import Prelude GoStrings.

(** * The record *)

(** [User] is only ever compared with nil, so it is a flag with the raw text. *)
Record URL := mkURL {
  Scheme : string;
  Opaque : string;
  User : option string;
  Host : string;
  UPath : string;
  RawPath : string;
  ForceQuery : bool;
  RawQuery : string;
  Fragment : string;
}.

Inductive encoding := encodePath | encodeHost | encodeZone | encodeUserPassword | encodeFragment.

(** * Escaping *)

Definition shouldEscape (c : ascii) (mode : encoding) : bool :=
  if is_alnum c then false else
  let host := match mode with encodeHost | encodeZone => true | _ => false end in
  if host && has_byte "!$&'()*+,;=:[]<>" c then false else
  if host && bool_decide (c = "034"%char) then false else
  if has_byte "-_.~" c then false else
  if has_byte "$&+,/:;=?@" c then
    match mode with
    | encodePath => bool_decide (c = "?"%char)
    | encodeUserPassword => has_byte "@/?:" c
    | encodeFragment => false
    | _ => true
    end
  else match mode with encodeFragment => negb (has_byte "!()*" c) | _ => true end.

Definition upperhex (n : N) : ascii :=
  from_option id "0"%char (String.get (N.to_nat n) "0123456789ABCDEF").

Fixpoint escape (s : string) (mode : encoding) : string :=
  match s with
  | EmptyString => EmptyString
  | String c s' =>
    if shouldEscape c mode then
      let n := N_of_ascii c in
      String "%" (String (upperhex (n / 16)) (String (upperhex (n mod 16)) (escape s' mode)))
    else String c (escape s' mode)
  end.

Definition unhex (c : ascii) : option N :=
  let n := N_of_ascii c in
  if is_digit c then Some (n - 48)%N
  else if in_range c "a" "f" then Some (n - 87)%N
  else if in_range c "A" "F" then Some (n - 55)%N
  else None.

(** [unescape]: [None] is an EscapeError or an InvalidHostError. In a host only
    non-ASCII bytes may be percent-encoded, [%25] in a zone apart. *)
Fixpoint unescape (s : string) (mode : encoding) : option string :=
  match s with
  | EmptyString => Some EmptyString
  | String "%" (String h (String l s')) =>
    match unhex h, unhex l with
    | Some a, Some b =>
      let v := (a * 16 + b)%N in
      let ok := match mode with
                | encodeHost => (8 <=? a)%N || (v =? 37)%N
                | encodeZone => (v =? 37)%N || (v =? 32)%N || negb (shouldEscape (ascii_of_N v) encodeHost)
                | _ => true
                end in
      if ok then String (ascii_of_N v) <$> unescape s' mode else None
    | _, _ => None
    end
  | String c s' =>
    if bool_decide (c = "%"%char) then None else
    let host := match mode with encodeHost | encodeZone => true | _ => false end in
    if host && in_range c "000" "127" && shouldEscape c mode then None
    else String c <$> unescape s' mode
  end.

(** * Parsing *)

(** [getScheme]: a leading letter, then letters, digits, [+], [-], [.], up to a
    colon; without one, or with another byte first, there is no scheme. *)
Fixpoint scheme_go (first : bool) (s : string) : option (option (string * string)) :=
  match s with
  | EmptyString => Some None
  | String c s' =>
    if is_lower c || is_upper c then
      match scheme_go false s' with
      | Some (Some (a, b)) => Some (Some (String c a, b))
      | r => r
      end
    else if is_digit c || has_byte "+-." c then
      if first then Some None else
      match scheme_go false s' with
      | Some (Some (a, b)) => Some (Some (String c a, b))
      | r => r
      end
    else if bool_decide (c = ":"%char) then
      if first then None else Some (Some (EmptyString, s'))
    else Some None
  end.

Definition getScheme (s : string) : option (string * string) :=
  match scheme_go true s with
  | Some (Some r) => Some r
  | Some None => Some (EmptyString, s)
  | None => None
  end.

Definition is_ctl (c : ascii) : bool := in_range c "000" "031" || bool_decide (c = "127"%char).

Definition count_byte (c : ascii) (s : string) : nat := length (Split c s) - 1.

(** [validOptionalPort]: empty, or a colon and digits. *)
Definition validOptionalPort (port : string) : bool :=
  match port with
  | EmptyString => true
  | String c p => bool_decide (c = ":"%char) && all_bytes is_digit p
  end.

(** [strings.Index(host, sub)] as a cut in front of the first occurrence. *)
Fixpoint cut_before (sub s : string) : option (string * string) :=
  if HasPrefix s sub then Some (EmptyString, s) else
  match s with
  | EmptyString => None
  | String c s' =>
    match cut_before sub s' with
    | Some (a, b) => Some (String c a, b)
    | None => None
    end
  end.

Definition parseHost (host : string) : option string :=
  if HasPrefix host "[" then
    match last_cut_at "]" host with
    | None => None
    | Some (inside, rest) =>
      if negb (validOptionalPort (drop_bytes 1 rest)) then None else
      match cut_before "%25" inside with
      | Some (h1, zone) =>
        match unescape h1 encodeHost, unescape zone encodeZone, unescape rest encodeHost with
        | Some a, Some b, Some c => Some (a +:+ b +:+ c)
        | _, _, _ => None
        end
      | None => unescape host encodeHost
      end
    end
  else
    match last_cut_at ":" host with
    | Some (_, port) => if validOptionalPort port then unescape host encodeHost else None
    | None => unescape host encodeHost
    end.

Definition validUserinfo (s : string) : bool :=
  all_bytes (λ c, is_alnum c || has_byte "-._:~!$&'()*+,;=%@" c) s.

Definition parseAuthority (a : string) : option (option string * string) :=
  match last_cut_at "@" a with
  | None => h ← parseHost a; Some (None, h)
  | Some (user, rest) =>
    h ← parseHost (drop_bytes 1 rest);
    if negb (validUserinfo user) then None else
    match unescape user encodeUserPassword with
    | Some _ => Some (Some user, h)
    | None => None
    end
  end.

(** [setPath]: the decoded path, and the text itself when it is not the default
    encoding of that path. *)
Definition setPath (p : string) : option (string * string) :=
  path ← unescape p encodePath;
  Some (path, if bool_decide (p = escape path encodePath) then EmptyString else p).

(** [strings.Cut(s, "?")] with the [ForceQuery] case in front of it. *)
Definition cut_query (rest : string) : string * bool * string :=
  if HasPrefix (String.rev rest) "?" && (count_byte "?" rest =? 1)%nat
  then (TrimSuffix rest "?", true, EmptyString)
  else match Cut rest "?" with
       | Some (a, q) => (a, false, q)
       | None => (rest, false, EmptyString)
       end.

(** The unexported [parse(rawURL, viaRequest)]. *)
Definition parse (raw : string) (viaRequest : bool) : option URL :=
  if negb (all_bytes (λ c, negb (is_ctl c)) raw) then None else
  if bool_decide (raw = EmptyString) && viaRequest then None else
  if bool_decide (raw = "*") then Some (mkURL "" "" None "" "*" "" false "" "") else
  '(scheme, rest0) ← getScheme raw;
  let scheme := ToLower scheme in
  let '(rest, force, query) := cut_query rest0 in
  let build user host path :=
    '(p, rawp) ← setPath path; Some (mkURL scheme "" user host p rawp force query "") in
  if negb (HasPrefix rest "/") then
    if bool_decide (scheme ≠ EmptyString) then Some (mkURL scheme rest None "" "" "" force query "")
    else if viaRequest then None
    else match Split "/" rest with
         | segment :: _ => if has_byte segment ":" then None else build None EmptyString rest
         | [] => None
         end
  else if (bool_decide (scheme ≠ EmptyString) || (negb viaRequest && negb (HasPrefix rest "///")))
          && HasPrefix rest "//" then
    let '(authority, path) := default (drop_bytes 2 rest, EmptyString) (cut_at "/" (drop_bytes 2 rest)) in
    '(user, host) ← parseAuthority authority;
    build user host path
  else build None EmptyString rest.

(** [url.Parse]. *)
Definition Parse (raw : string) : option URL :=
  match Cut raw "#" with
  | None => parse raw false
  | Some (u, frag) =>
    url ← parse u false;
    f ← unescape frag encodeFragment;
    Some (mkURL (Scheme url) (Opaque url) (User url) (Host url) (UPath url) (RawPath url)
                (ForceQuery url) (RawQuery url) f)
  end.

(** [url.ParseRequestURI], which net/http's server calls on the request line. *)
Definition ParseRequestURI (raw : string) : option URL := parse raw true.

(** * Accessors and printing *)

Definition IsAbs (u : URL) : bool := bool_decide (Scheme u ≠ EmptyString).

(** [Hostname]: the host without its port and brackets. *)
Definition Hostname (u : URL) : string :=
  let host := match last_cut_at ":" (Host u) with
              | Some (h, port) => if validOptionalPort port then h else Host u
              | None => Host u
              end in
  if HasPrefix host "[" && HasPrefix (String.rev host) "]"
  then TrimSuffix (drop_bytes 1 host) "]" else host.

(** [EscapedPath] for a URL whose RawPath is empty, as every printed URL of the
    program has it. *)
Definition EscapedPath (u : URL) : string :=
  if bool_decide (UPath u = "*") then "*" else escape (UPath u) encodePath.

(** [String] for the URLs the program prints: no opaque part, no user, no
    fragment, an empty RawPath. *)
Definition URL_String (u : URL) : string :=
  let path := EscapedPath u in
  (if bool_decide (Scheme u = EmptyString) then EmptyString else Scheme u +:+ ":") +:+
  (if bool_decide (Scheme u ≠ EmptyString ∨ Host u ≠ EmptyString) &&
      bool_decide (Host u ≠ EmptyString ∨ UPath u ≠ EmptyString)
   then "//" +:+ escape (Host u) encodeHost else EmptyString) +:+
  (if bool_decide (path ≠ EmptyString) && negb (HasPrefix path "/") && bool_decide (Host u ≠ EmptyString)
   then "/" else EmptyString) +:+
  path +:+
  (if ForceQuery u || bool_decide (RawQuery u ≠ EmptyString) then "?" +:+ RawQuery u else EmptyString).

Example parse_plain : Parse "https://api.example.com/api" =
  Some (mkURL "https" "" None "api.example.com" "/api" "" false "" "").
Proof. vm_compute. reflexivity. Qed.

Example parse_bang : RawPath <$> Parse "https://h/a!b" = Some "/a!b".
Proof. vm_compute. reflexivity. Qed.

Example parse_port : (λ u, (Host u, Hostname u, RawQuery u)) <$> Parse "https://h:8443/a?x=1&y" = Some ("h:8443", "h", "x=1&y").
Proof. vm_compute. reflexivity. Qed.

(** * Lemmas: escaping *)

Lemma escape_app s t m : escape (s +:+ t) m = escape s m +:+ escape t m.
Proof.
  induction s as [|c s IH]; [done|]. rewrite app_cons_string. simpl. rewrite IH.
  by destruct (shouldEscape c m).
Qed.

(** A path is its own default encoding exactly when none of its bytes needs
    escaping. *)
Lemma escape_id s m : escape s m = s ↔ all_bytes (λ c, negb (shouldEscape c m)) s = true.
Proof.
  induction s as [|c s IH]; simpl; [done|].
  destruct (shouldEscape c m) eqn:E; simpl.
  - split; [|done]. intros H. exfalso. apply (f_equal String.length) in H. simpl in H.
    assert (∀ t, String.length t ≤ String.length (escape t m)) as Hlen.
    { intros t. induction t as [|d t IHt]; simpl; [lia|].
      destruct (shouldEscape d m); simpl; lia. }
    specialize (Hlen s). lia.
  - rewrite <-IH. split; [by injection 1|by intros ->].
Qed.

(** In path mode a byte that is not escaped is not a percent sign, and the
    escape sequence of one that is decodes to it. *)
Definition unescape_byte (c : ascii) : bool :=
  if shouldEscape c encodePath then
    let n := N_of_ascii c in
    match unhex (upperhex (n / 16)), unhex (upperhex (n mod 16)) with
    | Some a, Some b => bool_decide (ascii_of_N (a * 16 + b) = c)
    | _, _ => false
    end
  else not_byte "%" c.

Lemma unescape_cons c s :
  c ≠ "%"%char → unescape (String c s) encodePath = String c <$> unescape s encodePath.
Proof. intros H. destruct c as [[] [] [] [] [] [] [] []]; done. Qed.

Lemma unescape_escape s : unescape (escape s encodePath) encodePath = Some s.
Proof.
  induction s as [|c s IH]; [done|]. simpl escape.
  assert (for_all_bytes unescape_byte = true) as Hall by (vm_compute; reflexivity).
  pose proof (for_all_bytes_spec _ Hall c) as Hb. unfold unescape_byte in Hb.
  destruct (shouldEscape c encodePath).
  - simpl unescape. destruct (unhex _); [|done]. destruct (unhex _); [|done].
    apply bool_decide_eq_true in Hb. by rewrite IH, Hb.
  - apply not_byte_true in Hb. rewrite unescape_cons by done. by rewrite IH.
Qed.

Lemma escape_inj s t : escape s encodePath = escape t encodePath → s = t.
Proof.
  intros H. apply (f_equal (λ x, unescape x encodePath)) in H.
  rewrite !unescape_escape in H. by injection H.
Qed.

Lemma unescape_plain s : all_bytes (not_byte "%") s = true → unescape s encodePath = Some s.
Proof.
  induction s as [|c s IH]; [done|]. simpl all_bytes. rewrite andb_true_iff, not_byte_true.
  intros [Hc Hs]. rewrite unescape_cons by done. by rewrite IH.
Qed.

(** No question mark survives path escaping. *)
Lemma escape_no_question s : all_bytes (not_byte "?") (escape s encodePath) = true.
Proof.
  induction s as [|c s IH]; [done|]. simpl.
  assert (for_all_bytes (λ c, if shouldEscape c encodePath
     then not_byte "?" (upperhex (N_of_ascii c / 16)) && not_byte "?" (upperhex (N_of_ascii c mod 16))
     else not_byte "?" c) = true) as Hall by (vm_compute; reflexivity).
  pose proof (for_all_bytes_spec _ Hall c) as Hc. simpl in Hc.
  destruct (shouldEscape c encodePath); simpl; [|by rewrite Hc, IH].
  apply andb_true_iff in Hc as [-> ->]. by rewrite IH.
Qed.

(** * Lemmas: request lines *)

(** A request line without control bytes, question marks or percent signs is
    its own path; it has a RawPath when some byte of it would be escaped. *)
Lemma ParseRequestURI_path s :
  HasPrefix s "/" = true → all_bytes (λ c, negb (is_ctl c)) s = true →
  all_bytes (not_byte "?") s = true → all_bytes (not_byte "%") s = true →
  ParseRequestURI s =
  Some (mkURL "" "" None "" s (if bool_decide (s = escape s encodePath) then "" else s) false "" "").
Proof.
  intros Hslash Hctl Hq Hp. destruct s as [|c s]; [done|].
  assert (c = "/"%char) as ->.
  { simpl in Hslash. apply andb_true_iff in Hslash as [H _]. by apply bool_decide_eq_true in H. }
  unfold ParseRequestURI, parse.
  rewrite Hctl, bool_decide_eq_false_2, bool_decide_eq_false_2 by done.
  change (getScheme (String "/" s)) with (Some (EmptyString, String "/" s)).
  assert (cut_query (String "/" s) = (String "/" s, false, EmptyString)) as Hcut.
  { unfold cut_query, count_byte, Cut. rewrite (Split_none _ _ Hq), (cut_at_none _ _ Hq).
    by rewrite andb_false_r. }
  cbn [mbind option_bind negb andb]. rewrite Hcut, Hslash. cbn [negb].
  rewrite bool_decide_eq_false_2 by (intros H; by apply H). cbn [orb negb andb].
  unfold setPath. by rewrite unescape_plain.
Qed.
