(* ===== verification/NetIP.v ===== *)
(** Go's [net/netip]: addresses as integers of 32 or 128 bits, prefixes, and the
    classification methods used by access.CIDR and upstream.AllowedAddress. *)
From S2P Require Import Prelude GoStrings.
Open Scope Z_scope.

(** * Addresses *)

(** [netip.Addr]: the zero Addr, an IPv4 address, or an IPv6 address with its
    zone (empty for none).  The integers are the big-endian values. *)
Inductive Addr :=
| AddrZero
| Addr4 (v : Z)
| Addr6 (v : Z) (zone : string).

#[export] Instance Addr_eq_dec : EqDecision Addr.
Proof. solve_decision. Defined.

(** The top [n] bits of the [w]-bit value [v]. *)
Definition top (w n v : Z) : Z := Z.shiftr v (w - n).

(** The values a Go Addr can hold. *)
Definition Addr_wf (a : Addr) : Prop :=
  match a with
  | AddrZero => True
  | Addr4 v => 0 ≤ v < 2 ^ 32
  | Addr6 v _ => 0 ≤ v < 2 ^ 128
  end.

Definition Is4In6 (a : Addr) : bool :=
  match a with Addr6 v _ => top 128 96 v =? 0xffff | _ => false end.

(** [Unmap]: an IPv4-mapped IPv6 address as the IPv4 address; the zone goes. *)
Definition Unmap (a : Addr) : Addr :=
  match a with
  | Addr6 v _ => if Is4In6 a then Addr4 (Z.land v 0xffffffff) else a
  | _ => a
  end.

Definition IsValid (a : Addr) : bool := match a with AddrZero => false | _ => true end.

Definition IsUnspecified (a : Addr) : bool :=
  match a with
  | Addr4 v => v =? 0
  | Addr6 v zone => (v =? 0) && bool_decide (zone = EmptyString)
  | AddrZero => false
  end.

(** The four methods below look at the unmapped address first. *)
Definition IsLoopback (a : Addr) : bool :=
  match Unmap a with
  | Addr4 v => top 32 8 v =? 127
  | Addr6 v _ => v =? 1
  | AddrZero => false
  end.

Definition IsLinkLocalUnicast (a : Addr) : bool :=
  match Unmap a with
  | Addr4 v => top 32 16 v =? 0xa9fe
  | Addr6 v _ => top 128 10 v =? 0x3fa
  | AddrZero => false
  end.

Definition IsMulticast (a : Addr) : bool :=
  match Unmap a with
  | Addr4 v => top 32 4 v =? 0xe
  | Addr6 v _ => top 128 8 v =? 0xff
  | AddrZero => false
  end.

Definition IsLinkLocalMulticast (a : Addr) : bool :=
  match Unmap a with
  | Addr4 v => top 32 24 v =? 0xe00000
  | Addr6 v _ => (top 128 8 v =? 0xff) && (Z.land (top 128 16 v) 0xf =? 2)
  | AddrZero => false
  end.

Definition IsPrivate (a : Addr) : bool :=
  match Unmap a with
  | Addr4 v => (top 32 8 v =? 10) || (top 32 12 v =? 0xac1) || (top 32 16 v =? 0xc0a8)
  | Addr6 v _ => top 128 7 v =? 0x7e
  | AddrZero => false
  end.

Definition IsGlobalUnicast (a : Addr) : bool :=
  match a with
  | AddrZero => false
  | _ =>
    match Unmap a with
    | Addr4 v =>
      negb (v =? 0) && negb (v =? 0xffffffff) &&
      negb (IsLoopback a) && negb (IsMulticast a) && negb (IsLinkLocalUnicast a)
    | _ =>
      negb (IsUnspecified a) && negb (IsLoopback a) && negb (IsMulticast a) && negb (IsLinkLocalUnicast a)
    end
  end.

(** * Prefixes *)

Record Prefix := mkPrefix { PAddr : Addr; PBits : Z }.

(** [Prefix.Contains]: an address with a zone is in no prefix, and the two
    families never mix. *)
Definition PrefixContains (p : Prefix) (a : Addr) : bool :=
  match PAddr p, a with
  | Addr4 v, Addr4 w => top 32 (PBits p) v =? top 32 (PBits p) w
  | Addr6 v _, Addr6 w zone =>
    bool_decide (zone = EmptyString) && (top 128 (PBits p) v =? top 128 (PBits p) w)
  | _, _ => false
  end.

(** * Parsing *)

Fixpoint decimal_go (s : string) (acc : Z) : option Z :=
  match s with
  | EmptyString => Some acc
  | String c s' => if is_digit c then decimal_go s' (acc * 10 + (byte_of c - 48)) else None
  end.

(** An unsigned decimal without sign; used on fields of at most a few digits. *)
Definition decimal (s : string) : option Z :=
  match s with EmptyString => None | _ => decimal_go s 0 end.

Definition octet (s : string) : option Z :=
  v ← decimal s;
  match s with
  | String "0" (String _ _) => None
  | _ => if v <=? 255 then Some v else None
  end.

Definition parseIPv4 (s : string) : option Z :=
  match Split "." s with
  | [a; b; c; d] =>
    a ← octet a; b ← octet b; c ← octet c; d ← octet d;
    Some (((a * 256 + b) * 256 + c) * 256 + d)
  | _ => None
  end.

Fixpoint hex_go (s : string) (acc : Z) : option Z :=
  match s with
  | EmptyString => Some acc
  | String c s' =>
    let n := byte_of c in
    let d := if is_digit c then Some (n - 48)
             else if in_range c "a" "f" then Some (n - 87)
             else if in_range c "A" "F" then Some (n - 55) else None in
    match d with Some d => hex_go s' (acc * 16 + d) | None => None end
  end.

(** A group of one to four hexadecimal digits. *)
Definition hextet (s : string) : option Z :=
  if (1 <=? String.length s)%nat && (String.length s <=? 4)%nat then hex_go s 0 else None.

(** A run of groups separated by single colons; the last may be an IPv4
    address, which stands for two groups. *)
Fixpoint groups (fields : list string) : option (list Z) :=
  match fields with
  | [] => Some []
  | [f] =>
    if has_byte f "." then v ← parseIPv4 f; Some [Z.shiftr v 16; Z.land v 0xffff]
    else g ← hextet f; Some [g]
  | f :: fields' => g ← hextet f; gs ← groups fields'; Some (g :: gs)
  end.

Definition groups_of (s : string) : option (list Z) :=
  match s with EmptyString => Some [] | _ => groups (Split ":" s) end.

Definition join_groups (gs : list Z) : Z := foldl (λ acc g, acc * 65536 + g) 0 gs.

(** At most one [::], which stands for one or more zero groups. *)
Fixpoint find_ellipsis (s : string) : option (string * string) :=
  match s with
  | String ":" (String ":" s') => Some (EmptyString, s')
  | String c s' =>
    match find_ellipsis s' with
    | Some (a, b) => Some (String c a, b)
    | None => None
    end
  | EmptyString => None
  end.

Definition parseIPv6 (raw : string) : option Addr :=
  let '(s, zone) := match Cut raw "%" with Some (a, z) => (a, Some z) | None => (raw, None) end in
  if bool_decide (zone = Some EmptyString) then None else
  let z := default EmptyString zone in
  match find_ellipsis s with
  | None =>
    gs ← groups_of s;
    if (length gs =? 8)%nat then Some (Addr6 (join_groups gs) z) else None
  | Some (l, r) =>
    ls ← groups_of l; rs ← groups_of r;
    if has_byte l "." then None else
    if (length ls + length rs <? 8)%nat
    then Some (Addr6 (join_groups (ls ++ replicate (8 - length ls - length rs) 0 ++ rs)) z)
    else None
  end.

(** [ParseAddr] looks for the first of [.], [:] and [%]. *)
Fixpoint addr_kind (s : string) : option ascii :=
  match s with
  | EmptyString => None
  | String c s' => if has_byte ".:%" c then Some c else addr_kind s'
  end.

Definition ParseAddr (s : string) : option Addr :=
  match addr_kind s with
  | Some "."%char => Addr4 <$> parseIPv4 s
  | Some ":"%char => parseIPv6 s
  | _ => None
  end.

Definition ParsePrefix (s : string) : option Prefix :=
  match last_cut_at "/" s with
  | None => None
  | Some (a, rest) =>
    ip ← ParseAddr a;
    let bitsStr := drop_bytes 1 rest in
    let zoned := match ip with Addr6 _ zone => bool_decide (zone ≠ EmptyString) | _ => false end in
    let leading := match bitsStr with
                   | String c (String _ _) => negb (in_range c "1" "9")
                   | _ => false
                   end in
    if zoned || leading then None else
    bits ← decimal bitsStr;
    if bits <=? match ip with Addr4 _ => 32 | _ => 128 end then Some (mkPrefix ip bits) else None
  end.

Example parse_v4 : ParseAddr "169.254.169.254" = Some (Addr4 0xa9fea9fe).
Proof. vm_compute. reflexivity. Qed.

Example parse_v6 : ParseAddr "64:ff9b::127.0.0.1" = Some (Addr6 0x64ff9b0000000000000000_7f000001 "").
Proof. vm_compute. reflexivity. Qed.

Example parse_mapped : Unmap <$> ParseAddr "::ffff:10.1.2.3" = Some (Addr4 0x0a010203).
Proof. vm_compute. reflexivity. Qed.
