(* ===== verification/Http.v ===== *)
(** The request and header types of Go's net/http the handlers read.

    A header map goes from canonical names to the list of values; [Get], [Values],
    [Set], [Add] and [Del] canonicalise the name they are given, an index does
    not. *)
From S2P Require Import Prelude GoStrings NetUrl.

Abbreviation header := (gmap string (list string)).

Definition Values (h : header) (key : string) : list string :=
  default [] (h !! CanonicalHeaderKey key).

Definition Get (h : header) (key : string) : string :=
  default EmptyString (head (Values h key)).

Definition Set_ (h : header) (key v : string) : header := <[CanonicalHeaderKey key := [v]]> h.

Definition Add (h : header) (key v : string) : header :=
  <[CanonicalHeaderKey key := Values h key ++ [v]]> h.

Definition Del (h : header) (key : string) : header := delete (CanonicalHeaderKey key) h.

(** What a handler reads of [*http.Request], the body and TLS state apart. *)
Record request := mkRequest {
  rMethod : string;
  rURL : URL;
  rHost : string;
  rHeader : header;
}.

Lemma Get_Set h k v : Get (Set_ h k v) k = v.
Proof. unfold Get, Values, Set_. by rewrite lookup_insert_eq. Qed.

Lemma Values_Set h k k' v :
  CanonicalHeaderKey k ≠ CanonicalHeaderKey k' → Values (Set_ h k v) k' = Values h k'.
Proof. intros. unfold Values, Set_. by rewrite lookup_insert_ne. Qed.
