(* ===== verification/GoNet.v ===== *)
(** Go's [net.SplitHostPort] and [url.URL.RequestURI], and what survives when a
    request line is put behind an origin and parsed again: the way of a request
    from the connector to the server. *)
From S2P Require Import Prelude GoStrings NetUrl.

(** [net.SplitHostPort]: an IPv6 host is in brackets, anything else has no colon. *)
Definition SplitHostPort (hostport : string) : option (string * string) :=
  match last_cut_at ":" hostport with
  | None => None
  | Some (before, port) =>
    if HasPrefix hostport "[" then
      match cut_at "]" hostport with
      | None => None
      | Some (h, after) =>
        if negb (bool_decide (drop_bytes 1 after = port)) then None else
        if has_byte (drop_bytes 1 hostport) "[" || has_byte port "]" then None
        else Some (drop_bytes 1 h, drop_bytes 1 port)
      end
    else if has_byte before ":" || has_byte hostport "[" || has_byte hostport "]" then None
    else Some (before, drop_bytes 1 port)
  end.

Example split_v4 : SplitHostPort "127.0.0.1:18780" = Some ("127.0.0.1", "18780").
Proof. reflexivity. Qed.
Example split_v6 : SplitHostPort "[::1]:80" = Some ("::1", "80").
Proof. reflexivity. Qed.
Example split_bad : map SplitHostPort ["127.0.0.1"; "::1:80"; "[::1]"; "[::1]x:80"; "a[b:80"; "[a]b]:1"] =
  [None; None; None; None; None; None].
Proof. reflexivity. Qed.

(** [u.RequestURI()] of a URL without an opaque part and with an empty RawPath. *)
Definition RequestURI (u : URL) : string :=
  let path := EscapedPath u in
  (if bool_decide (path = EmptyString) then "/" else path) +:+
  (if ForceQuery u || bool_decide (RawQuery u ≠ EmptyString) then "?" +:+ RawQuery u else EmptyString).

(** * Bytes of an escaped path *)

Lemma escape_bytes (p : ascii → bool) s :
  for_all_bytes (λ c, if shouldEscape c encodePath
    then p "%"%char && p (upperhex (N_of_ascii c / 16)) && p (upperhex (N_of_ascii c mod 16)) else p c) = true →
  all_bytes p (escape s encodePath) = true.
Proof.
  intros Hall. induction s as [|c s IH]; [done|]. simpl.
  pose proof (for_all_bytes_spec _ Hall c) as Hc. simpl in Hc.
  destruct (shouldEscape c encodePath); simpl; [|by rewrite Hc, IH].
  apply andb_true_iff in Hc as [[-> ->]%andb_true_iff ->]. by rewrite IH.
Qed.

Definition text_byte (c : ascii) : bool := negb (is_ctl c) && not_byte "#" c.

Lemma escape_text s : all_bytes text_byte (escape s encodePath) = true.
Proof. apply escape_bytes. by vm_compute. Qed.

(** A path that begins with a slash does so when it is escaped. *)
Lemma escape_leading s : HasPrefix s "/" = true → ∃ t, escape s encodePath = String "/" t.
Proof.
  intros [t ->]%HasPrefix_spec. exists (escape t encodePath). reflexivity.
Qed.

(** * Queries *)

Definition query_part (force : bool) (q : string) : string :=
  if force || bool_decide (q ≠ EmptyString) then "?" +:+ q else EmptyString.

Lemma rev_ends s c : String.rev (s +:+ String c "") = String c (String.rev s).
Proof.
  unfold String.rev.
  assert (∀ acc, String.rev_app (s +:+ String c "") acc = String c (String.rev_app s acc)) as H; [|apply H].
  induction s as [|d s IH]; intros acc; [done|]. rewrite app_cons_string. simpl. apply IH.
Qed.

Lemma string_snoc s : s ≠ EmptyString → ∃ t d, s = t +:+ String d "".
Proof.
  induction s as [|c s IH]; [done|]. intros _. destruct (decide (s = EmptyString)) as [-> |Hs].
  - by exists EmptyString, c.
  - destruct (IH Hs) as (t & d & ->). by exists (String c t), d.
Qed.

Lemma cut_query_none p : all_bytes (not_byte "?") p = true → cut_query p = (p, false, EmptyString).
Proof.
  intros Hp. unfold cut_query, count_byte, Cut. rewrite (Split_none _ _ Hp), (cut_at_none _ _ Hp). by rewrite andb_false_r.
Qed.

Lemma cut_query_app p q :
  all_bytes (not_byte "?") p = true →
  cut_query (p +:+ "?" +:+ q) = (p, bool_decide (q = EmptyString), q).
Proof.
  intros Hp. change ("?" +:+ q) with (String "?" q). unfold cut_query, count_byte, Cut.
  rewrite (Split_app _ _ _ Hp), (cut_at_app _ _ _ Hp). simpl length.
  destruct q as [|c q].
  - rewrite rev_ends. simpl. by rewrite TrimSuffix_app.
  - rewrite bool_decide_eq_false_2 by done. destruct (Split "?" (String c q)) eqn:E; [by destruct (Split_nonnil "?" (String c q))|].
    destruct l as [|x l]; simpl; [|by rewrite andb_false_r]. rewrite andb_true_r.
    assert (all_bytes (not_byte "?") (String c q) = true) as Hno.
    { rewrite <-(Join_Split "?" (String c q)), E. simpl. apply (Split_bytes _ (String c q)). rewrite E. by left. }
    destruct (string_snoc (String c q)) as (t & d & Hq); [done|]. rewrite Hq in *.
    rewrite all_bytes_app in Hno. simpl in Hno. apply andb_true_iff in Hno as [_ Hd].
    rewrite andb_true_r, not_byte_true in Hd.
    change (String "?" (t +:+ String d "")) with (String "?" t +:+ String d ""). rewrite <-app_string_assoc, rev_ends.
    by rewrite bool_decide_eq_false_2.
Qed.

Lemma cut_query_part p force q :
  all_bytes (not_byte "?") p = true →
  cut_query (p +:+ query_part force q) = (p, force && bool_decide (q = EmptyString), q).
Proof.
  intros Hp. unfold query_part. destruct (decide (q = EmptyString)) as [-> |Hq].
  - rewrite (bool_decide_eq_false_2 (EmptyString ≠ EmptyString)) by tauto. rewrite orb_false_r. destruct force; simpl.
    + by rewrite (cut_query_app p EmptyString).
    + rewrite app_empty_r. by apply cut_query_none.
  - rewrite (bool_decide_eq_true_2 (q ≠ EmptyString)), orb_true_r by done.
    rewrite cut_query_app, (bool_decide_eq_false_2 (q = EmptyString)), andb_false_r by done. done.
Qed.

(** * Request lines, and URLs behind an origin *)

(** The URL a server reads from the request line of [u]. *)
Definition as_requested (u : URL) : URL :=
  mkURL "" "" None "" (UPath u) "" (ForceQuery u && bool_decide (RawQuery u = EmptyString)) (RawQuery u) "".

Record routable (u : URL) : Prop := {
  ro_path : HasPrefix (UPath u) "/" = true;
  ro_query : all_bytes text_byte (RawQuery u) = true;
}.

Lemma RequestURI_parts u : routable u →
  RequestURI u = escape (UPath u) encodePath +:+ query_part (ForceQuery u) (RawQuery u).
Proof.
  intros [Hp _]. unfold RequestURI, EscapedPath.
  rewrite (bool_decide_eq_false_2 (UPath u = "*")) by (intros E; by rewrite E in Hp).
  destruct (escape_leading _ Hp) as [t ->]. by rewrite bool_decide_eq_false_2.
Qed.

Lemma text_no_ctl s : all_bytes text_byte s = true → all_bytes (λ c, negb (is_ctl c)) s = true.
Proof. apply all_bytes_impl. unfold text_byte. intros c ->%andb_true_iff%proj1. done. Qed.

Lemma text_no_hash s : all_bytes text_byte s = true → all_bytes (not_byte "#") s = true.
Proof. apply all_bytes_impl. unfold text_byte. intros c Hc. by apply andb_true_iff in Hc as [_ ->]. Qed.

Lemma query_text force q : all_bytes text_byte q = true → all_bytes text_byte (query_part force q) = true.
Proof. intros Hq. unfold query_part. destruct (_ || _); [|done]. change ("?" +:+ q) with (String "?" q). simpl. by rewrite Hq. Qed.

Lemma uri_text u : routable u → all_bytes text_byte (RequestURI u) = true.
Proof. intros Hu. rewrite (RequestURI_parts u Hu), all_bytes_app, escape_text, query_text; [done|apply Hu]. Qed.

Lemma setPath_escape s : setPath (escape s encodePath) = Some (s, EmptyString).
Proof. unfold setPath. rewrite unescape_escape. simpl. by rewrite bool_decide_eq_true_2. Qed.

Lemma ParseRequestURI_uri u : routable u → ParseRequestURI (RequestURI u) = Some (as_requested u).
Proof.
  intros Hu. pose proof (text_no_ctl _ (uri_text u Hu)) as Hctl. rewrite (RequestURI_parts u Hu) in *.
  destruct (escape_leading _ (ro_path u Hu)) as [t Ht].
  pose proof (cut_query_part (escape (UPath u) encodePath) (ForceQuery u) (RawQuery u) (escape_no_question _)) as Hcut.
  unfold ParseRequestURI, parse. rewrite Hctl. cbn [negb].
  rewrite bool_decide_eq_false_2 by by rewrite Ht. rewrite bool_decide_eq_false_2 by by rewrite Ht.
  assert (getScheme (escape (UPath u) encodePath +:+ query_part (ForceQuery u) (RawQuery u))
    = Some (EmptyString, escape (UPath u) encodePath +:+ query_part (ForceQuery u) (RawQuery u))) as -> by by rewrite Ht.
  cbn [mbind option_bind andb]. rewrite Hcut.
  assert (HasPrefix (escape (UPath u) encodePath) "/" = true) as -> by by rewrite Ht.
  cbn [negb]. rewrite bool_decide_eq_false_2 by (intros H; by apply H). cbn [orb negb andb].
  by rewrite setPath_escape.
Qed.

(** An origin that a URL can be put behind. *)
Definition origin_byte (c : ascii) : bool := text_byte c && not_byte "/" c && not_byte "?" c.

Definition origin (raw authority host : string) : Prop :=
  raw = "https://" +:+ authority ∧ all_bytes origin_byte authority = true ∧ parseAuthority authority = Some (None, host).

Lemma Parse_at_origin raw authority host u : origin raw authority host → routable u →
  Parse (raw +:+ RequestURI u) =
  Some (mkURL "https" "" None host (UPath u) "" (ForceQuery u && bool_decide (RawQuery u = EmptyString)) (RawQuery u) "").
Proof.
  intros (-> & Ha & Hpa) Hu.
  assert (all_bytes text_byte authority = true) as Hta.
  { revert Ha. apply all_bytes_impl. unfold origin_byte. intros c Hc. by apply andb_true_iff in Hc as [[? _]%andb_true_iff _]. }
  assert (all_bytes text_byte (("https://" +:+ authority) +:+ RequestURI u) = true) as Ht.
  { rewrite !all_bytes_app, Hta, (uri_text u Hu). done. }
  unfold Parse, Cut. rewrite (cut_at_none _ _ (text_no_hash _ Ht)).
  unfold parse. rewrite (text_no_ctl _ Ht). cbn [negb]. rewrite andb_false_r, app_string_assoc.
  rewrite bool_decide_eq_false_2 by done.
  assert (∀ x, getScheme ("https://" +:+ x) = Some ("https", "//" +:+ x)) as -> by done.
  cbn [mbind option_bind]. change (ToLower "https") with "https".
  rewrite (RequestURI_parts u Hu), <-!app_string_assoc.
  destruct (escape_leading _ (ro_path u Hu)) as [t Hesc].
  rewrite cut_query_part; last first.
  { rewrite !all_bytes_app, escape_no_question. simpl. rewrite andb_true_r.
    revert Ha. apply all_bytes_impl. unfold origin_byte. intros c Hc. by apply andb_true_iff in Hc as [_ ?]. }
  rewrite (app_string_assoc "//"). set (rest := authority +:+ escape (UPath u) encodePath).
  assert (HasPrefix ("//" +:+ rest) "/" = true) as -> by done.
  assert (HasPrefix ("//" +:+ rest) "//" = true) as -> by done.
  cbn [negb]. rewrite bool_decide_eq_true_2 by done. cbn [orb andb].
  assert (drop_bytes 2 ("//" +:+ rest) = rest) as -> by done.
  assert (cut_at "/" rest = Some (authority, escape (UPath u) encodePath)) as ->.
  { unfold rest. rewrite Hesc. apply cut_at_app.
    revert Ha. apply all_bytes_impl. unfold origin_byte. intros c Hc. by apply andb_true_iff in Hc as [[_ ?]%andb_true_iff _]. }
  cbv [default from_option id]. cbv beta iota. rewrite Hpa. cbn [mbind option_bind]. by rewrite setPath_escape.
Qed.

(** * A number sign in a query *)

(** [ParseRequestURI] leaves a number sign in the query; [Parse] takes what follows
    the first one for a fragment, which must be well escaped. *)
Definition before_hash (q : string) : string := from_option fst q (Cut q "#").

Lemma before_hash_none q : all_bytes (not_byte "#") q = true → before_hash q = q.
Proof. intros Hq. unfold before_hash, Cut. by rewrite (cut_at_none _ _ Hq). Qed.

Lemma Cut_some s c a b : Cut s c = Some (a, b) → s = a +:+ String c b ∧ all_bytes (not_byte c) a = true.
Proof.
  unfold Cut. destruct (cut_at c s) as [[x y]|] eqn:E; [|done]. apply cut_at_some in E as (-> & Ha & t & ->).
  by intros [= <- <-].
Qed.

Lemma Cut_none s c : Cut s c = None → all_bytes (not_byte c) s = true.
Proof.
  unfold Cut. destruct (cut_at c s) as [[x y]|] eqn:E; [apply cut_at_some in E as (_ & _ & t & ->); done|]. intros _.
  induction s as [|d s IH]; [done|]. simpl in *. case_bool_decide as Hd; [done|].
  destruct (cut_at c s) as [[]|] eqn:Ec; [done|]. by rewrite (proj2 (not_byte_true _ _)), IH.
Qed.

Lemma before_hash_same q : before_hash q = q ↔ all_bytes (not_byte "#") q = true.
Proof.
  split; [|apply before_hash_none]. unfold before_hash. destruct (Cut q "#") as [[a b]|] eqn:E; [|by intros; apply Cut_none].
  apply Cut_some in E as [-> _]. simpl. intros H. apply (f_equal String.length) in H. rewrite length_app_string in H. simpl in H. lia.
Qed.

Definition no_ctl (s : string) : bool := all_bytes (λ c, negb (is_ctl c)) s.

Lemma text_split s : no_ctl s = true → all_bytes (not_byte "#") s = true → all_bytes text_byte s = true.
Proof.
  unfold no_ctl, text_byte. induction s as [|c s IH]; [done|]. simpl. rewrite !andb_true_iff. intros [? ?] [? ?]. auto.
Qed.

Lemma Parse_at_origin_hash raw authority host u :
  origin raw authority host → HasPrefix (UPath u) "/" = true → no_ctl (RawQuery u) = true →
  is_Some (Parse (raw +:+ RequestURI u)) →
  ∃ v, Parse (raw +:+ RequestURI u) = Some v ∧ Host v = host ∧ UPath v = UPath u ∧ routable v
    ∧ RawQuery v = before_hash (RawQuery u).
Proof.
  intros Ho Hp Hc [v Hv]. destruct (Cut (RawQuery u) "#") as [[q f]|] eqn:Eq; last first.
  { apply Cut_none in Eq. assert (routable u) as Hu by (split; [done|by apply text_split]).
    pose proof (Parse_at_origin _ _ _ _ Ho Hu) as Hx. eexists. rewrite Hx. split; [done|]. cbn.
    rewrite (before_hash_none _ Eq). split_and!; [done..| |done]. split; apply Hu. }
  assert (before_hash (RawQuery u) = q) as -> by (unfold before_hash; by rewrite Eq).
  apply Cut_some in Eq as [Eq Hq]. rewrite Eq in Hc. unfold no_ctl in Hc. rewrite all_bytes_app in Hc.
  apply andb_true_iff in Hc as [Hc _].
  set (u1 := mkURL (Scheme u) (Opaque u) (User u) (Host u) (UPath u) (RawPath u) true q (Fragment u)).
  assert (routable u1) as Hu1 by (split; [done|by apply text_split]).
  assert (RequestURI u = RequestURI u1 +:+ String "#" f) as Huri.
  { unfold RequestURI. change (EscapedPath u1) with (EscapedPath u). rewrite Eq. cbn [ForceQuery RawQuery u1 orb].
    rewrite (bool_decide_eq_true_2 (_ +:+ String "#" f ≠ EmptyString)) by by destruct q.
    rewrite orb_true_r, !app_string_assoc. done. }
  assert (Cut (raw +:+ RequestURI u) "#" = Some (raw +:+ RequestURI u1, f)) as Hcut.
  { unfold Cut. rewrite Huri, <-app_string_assoc, cut_at_app; [done|]. apply text_no_hash.
    destruct Ho as (-> & Ha & _). rewrite !all_bytes_app, (uri_text u1 Hu1), andb_true_r. cbn.
    revert Ha. apply all_bytes_impl. unfold origin_byte. intros c Hx. by apply andb_true_iff in Hx as [[? _]%andb_true_iff _]. }
  pose proof (Parse_at_origin _ _ _ _ Ho Hu1) as Hx.
  assert (parse (raw +:+ RequestURI u1) false = Parse (raw +:+ RequestURI u1)) as Hsame.
  { unfold Parse. destruct (Cut (raw +:+ RequestURI u1) "#") as [[a b]|] eqn:E; [|done]. exfalso.
    apply Cut_some in E as [E _]. apply Cut_some in Hcut as [_ Hno]. rewrite E, all_bytes_app in Hno. simpl in Hno.
    by rewrite andb_false_r in Hno. }
  unfold Parse in Hv |- *. rewrite Hcut in Hv |- *. rewrite Hsame, Hx in Hv |- *. cbn in Hv |- *.
  destruct (unescape f encodeFragment); [|done]. eexists. split; [reflexivity|]. cbn. split_and!; [done..| |done].
  split; apply Hu1.
Qed.

(** A request line has no control byte, and neither has what it is parsed into. *)
Lemma getScheme_suffix s a b : getScheme s = Some (a, b) → ∃ p, s = p +:+ b.
Proof.
  unfold getScheme. destruct (scheme_go true s) as [[[x y]|]|] eqn:E; [|intros [= _ <-]; by exists EmptyString|done].
  intros [= <- <-]. revert x E. generalize true. induction s as [|c s IH]; intros b0 x; cbn [scheme_go]; [done|].
  assert (∀ x, match scheme_go false s with Some (Some (a, b)) => Some (Some (String c a, b)) | r => r end = Some (Some (x, y)) →
    ∃ p, String c s = p +:+ y) as Hstep.
  { intros x'. destruct (scheme_go false s) as [[[? ?]|]|] eqn:Eg; [|done..]. intros [= _ ->].
    destruct (IH _ _ Eg) as [p ->]. by exists (String c p). }
  destruct (is_lower c || is_upper c); [apply Hstep|].
  destruct (is_digit c || has_byte "+-." c); [destruct b0; [intros [=]|apply Hstep]|].
  case_bool_decide as Hc; [|done]. destruct b0; [done|]. intros [= _ <-]. by exists (String c EmptyString).
Qed.

Lemma cut_query_suffix s a f q : cut_query s = (a, f, q) → ∃ p, s = p +:+ q.
Proof.
  unfold cut_query. destruct (_ && _).
  { intros [= _ _ <-]. exists s. by rewrite app_empty_r. }
  destruct (Cut s "?") as [[x y]|] eqn:E; intros [= _ _ <-]; [|exists s; by rewrite app_empty_r].
  apply Cut_some in E as [-> _]. exists (x +:+ "?"). by rewrite app_string_assoc.
Qed.

Lemma ParseRequestURI_no_ctl target u : ParseRequestURI target = Some u → no_ctl (RawQuery u) = true.
Proof.
  unfold ParseRequestURI, parse. destruct (all_bytes _ target) eqn:Hc; [|done]. cbn [negb].
  destruct (_ && _); [done|]. case_bool_decide; [by intros [= <-]|].
  destruct (getScheme target) as [[scheme rest0]|] eqn:Eg; [|done]. cbn [mbind option_bind].
  apply getScheme_suffix in Eg as [p ->]. destruct (cut_query rest0) as [[rest force] query] eqn:Eq.
  apply cut_query_suffix in Eq as [p' ->]. rewrite !all_bytes_app in Hc.
  apply andb_true_iff in Hc as [_ [_ Hc]%andb_true_iff].
  assert (∀ o, (∀ u, o = Some u → RawQuery u = query) → o = Some u → no_ctl (RawQuery u) = true) as HE
    by (intros o Ho ->; by rewrite (Ho _ eq_refl)).
  apply HE. clear HE u. intros u.
  assert (∀ user host path, ('(p, rawp) ← setPath path; Some (mkURL (ToLower scheme) "" user host p rawp force query "")) = Some u →
    RawQuery u = query) as Hb by (intros *; destruct (setPath path) as [[]|]; [|done]; by intros [= <-]).
  destruct (negb (HasPrefix rest "/")).
  - case_bool_decide; [by intros [= <-]|]. done.
  - destruct (_ && HasPrefix rest "//"); [|apply Hb].
    destruct (default _ _) as [authority path]. destruct (parseAuthority authority) as [[user host]|]; [|done]. apply Hb.
Qed.
