(* ===== verification/GoTime.v ===== *)
(** [time.Parse(time.RFC3339, s)]: the calendar date of an RFC 3339 text as the
    nanoseconds since 1970 in UTC, with the leniencies of the Go parser (an hour
    of one digit, a comma before the fraction, offsets up to 24:60). *)
From S2P Require Import Prelude GoStrings.

Definition is_leap (y : Z) : bool := (y mod 4 =? 0)%Z && (negb (y mod 100 =? 0)%Z || (y mod 400 =? 0)%Z).

(** [daysIn]. *)
Definition days_in (m y : Z) : Z :=
  if (m =? 2)%Z then if is_leap y then 29 else 28
  else if (m =? 4)%Z || (m =? 6)%Z || (m =? 9)%Z || (m =? 11)%Z then 30 else 31.

(** Days before the year [y] since the year 0, and before month [m] in [y]. *)
Definition days_before_year (y : Z) : Z :=
  if (y <=? 0)%Z then 0 else 365 * y + (y - 1) / 4 - (y - 1) / 100 + (y - 1) / 400 + 1.

Definition days_before_month (m y : Z) : Z :=
  foldr Z.add 0%Z (map (λ i, days_in (Z.of_nat i) y) (seq 1 (Z.to_nat m - 1))).

(** Days since 1970-01-01. *)
Definition days_since_epoch (y m d : Z) : Z :=
  days_before_year y + days_before_month m y + (d - 1) - days_before_year 1970.

(** ** Digits *)

Definition digit (c : ascii) : option Z := if is_digit c then Some (byte_of c - 48)%Z else None.

Fixpoint digits (s : string) (acc : Z) : option Z :=
  match s with
  | EmptyString => Some acc
  | String c s => d ← digit c; digits s (acc * 10 + d)%Z
  end.

(** [getnum(s, true)]: two digits; [getnum(s, false)] also takes one. *)
Definition getnum (fixed : bool) (s : string) : option (Z * string) :=
  match s with
  | String a (String b s') =>
    x ← digit a;
    match digit b with
    | Some y => Some (x * 10 + y, s')%Z
    | None => if fixed then None else Some (x, String b s')
    end
  | String a EmptyString => x ← digit a; if fixed then None else Some (x, EmptyString)
  | EmptyString => None
  end.

Definition skip (c : ascii) (s : string) : option string :=
  match s with String a s' => if bool_decide (a = c) then Some s' else None | EmptyString => None end.

Fixpoint span_digits (s : string) : string * string :=
  match s with
  | String c s' => if is_digit c then let '(a, b) := span_digits s' in (String c a, b) else (EmptyString, s)
  | EmptyString => (EmptyString, EmptyString)
  end.

(** The fraction after the seconds: at most nine digits count. *)
Definition fraction (s : string) : Z * string :=
  match s with
  | String p s' =>
    let '(ds, rest) := span_digits s' in
    if (bool_decide (p = "."%char) || bool_decide (p = ","%char)) && negb (bool_decide (ds = EmptyString))
    then let t := take_bytes 9 ds in
         (default 0%Z (digits t 0) * 10 ^ (9 - Z.of_nat (String.length t)), rest)%Z
    else (0%Z, s)
  | EmptyString => (0%Z, s)
  end.

(** The offset in seconds: [Z], or a sign and [hh:mm]. *)
Definition offset (s : string) : option Z :=
  match s with
  | String c s' =>
    if bool_decide (c = "Z"%char) then if bool_decide (s' = EmptyString) then Some 0%Z else None else
    '(hr, s1) ← getnum true s';
    s2 ← skip ":" s1;
    '(mm, s3) ← getnum true s2;
    if (24 <? hr)%Z || (60 <? mm)%Z || negb (bool_decide (s3 = EmptyString)) then None else
    if bool_decide (c = "+"%char) then Some ((hr * 60 + mm) * 60)%Z else
    if bool_decide (c = "-"%char) then Some (- ((hr * 60 + mm) * 60))%Z else None
  | EmptyString => None
  end.

Definition ParseRFC3339 (s : string) : option Z :=
  year ← (if (String.length s <? 4)%nat then None else digits (take_bytes 4 s) 0);
  s ← skip "-" (drop_bytes 4 s);
  '(month, s) ← getnum true s;
  s ← skip "-" s;
  '(day, s) ← getnum true s;
  s ← skip "T" s;
  '(hour, s) ← getnum false s;
  s ← skip ":" s;
  '(min, s) ← getnum true s;
  s ← skip ":" s;
  '(sec, s) ← getnum true s;
  let '(nsec, s) := fraction s in
  off ← offset s;
  if (month <? 1)%Z || (12 <? month)%Z || (day <? 1)%Z || (days_in month year <? day)%Z
     || (24 <=? hour)%Z || (60 <=? min)%Z || (60 <=? sec)%Z then None
  else Some (((days_since_epoch year month day * 24 + hour) * 60 + min) * 60 + sec - off)%Z
       ≫= λ t, Some (t * 1000000000 + nsec)%Z.

Example parse_epoch : ParseRFC3339 "1970-01-01T00:00:00Z" = Some 0%Z.
Proof. reflexivity. Qed.

Example parse_offset : ParseRFC3339 "2024-02-29T12:30:15.5+02:00" = Some 1709202615500000000%Z.
Proof. vm_compute. reflexivity. Qed.

Example parse_no_leap_day : ParseRFC3339 "2023-02-29T00:00:00Z" = None.
Proof. reflexivity. Qed.

Example parse_first_year : ParseRFC3339 "0000-03-01T00:00:00Z" = Some (-62162035200000000000)%Z.
Proof. vm_compute. reflexivity. Qed.

(** ** [t.AddDate(years, 0, 0)] in UTC *)

(** The calendar date of a day counted from 1970-01-01: years that start in March,
    in cycles of 400. *)
Definition civil (days : Z) : Z * Z * Z :=
  let z := (days + 719468)%Z in
  let era := (z / 146097)%Z in
  let doe := (z mod 146097)%Z in
  let yoe := ((doe - doe / 1460 + doe / 36524 - doe / 146096) / 365)%Z in
  let doy := (doe - (365 * yoe + yoe / 4 - yoe / 100))%Z in
  let mp := ((5 * doy + 2) / 153)%Z in
  let m := (if mp <? 10 then mp + 3 else mp - 9)%Z in
  ((yoe + era * 400 + (if (m <=? 2)%Z then 1 else 0))%Z, m, (doy - (153 * mp + 2) / 5 + 1)%Z).

Definition day_length : Z := 86400000000000.

(** The same month, day and time of day; 29 February becomes 1 March when the year
    has none. *)
Definition AddYears (t years : Z) : Z :=
  let '(y, m, d) := civil (t / day_length) in
  (days_since_epoch (y + years) m d * day_length + t mod day_length)%Z.

Example add_years : AddYears 1709202615500000000 10 = 2024821815500000000%Z. (* 2024-02-29 to 2034-03-01 *)
Proof. vm_compute. reflexivity. Qed.

Example civil_inverse :
  forallb (λ n, let z := (Z.of_nat n * 2441 - 200000)%Z in
    let '(y, m, d) := civil z in (days_since_epoch y m d =? z)%Z) (seq 0 250) = true.
Proof. vm_compute. reflexivity. Qed.

(** ** [t.UTC().Format(time.RFC3339)] *)

Definition digit_of (z : Z) : ascii := of_byte (48 + z mod 10).
Definition two_digits (z : Z) : string := String (digit_of (z / 10)) (String (digit_of z) EmptyString).
Definition four_digits (z : Z) : string := two_digits (z / 100) +:+ two_digits z.

(** A year has four digits or more, after its sign. *)
Definition year_text (y : Z) : string :=
  (if y <? 0 then "-" else EmptyString)%Z +:+ (if Z.abs y <? 10000 then four_digits (Z.abs y) else itoa (Z.abs y))%Z.

(** The time [unix] seconds after 1970. *)
Definition FormatRFC3339 (unix : Z) : string :=
  let '(y, m, d) := civil (unix / 86400) in
  let s := (unix mod 86400)%Z in
  year_text y +:+ "-" +:+ two_digits m +:+ "-" +:+ two_digits d +:+ "T" +:+
  two_digits (s / 3600) +:+ ":" +:+ two_digits (s / 60 mod 60) +:+ ":" +:+ two_digits (s mod 60) +:+ "Z".

Example format_epoch : FormatRFC3339 0 = "1970-01-01T00:00:00Z".
Proof. reflexivity. Qed.

Example format_leap_day : FormatRFC3339 1709202615 = "2024-02-29T10:30:15Z".
Proof. vm_compute. reflexivity. Qed.

Example format_parse :
  forallb (λ n, let t := (Z.of_nat n * 1234567891 - 62135596800)%Z in
    bool_decide (ParseRFC3339 (FormatRFC3339 t) = Some (t * 1000000000)%Z)) (seq 0 250) = true.
Proof. vm_compute. reflexivity. Qed.

Lemma civil_year days : (0 <= days < 2932532)%Z → (0 <= (civil days).1.1 < 10000)%Z.
Proof.
  intros Hd. unfold civil. cbv zeta. cbn [fst]. set (m := (if _ <? 10 then _ else _)%Z).
  assert (0 <= (if (m <=? 2)%Z then 1 else 0) <= 1)%Z as Hm by (destruct (m <=? 2)%Z; lia). revert Hm.
  generalize (if (m <=? 2)%Z then 1 else 0)%Z as b. clear m. intros b Hb.
  set (doe := ((days + 719468) mod 146097)%Z). set (era := ((days + 719468) / 146097)%Z).
  assert (days + 719468 = 146097 * era + doe ∧ 0 <= doe < 146097)%Z as [He Hdoe].
  { split; [by apply Z.div_mod|by apply Z.mod_pos_bound]. }
  clearbody doe era. assert (4 <= era <= 24)%Z as Hera by lia.
  destruct (decide (doe = 146096)%Z) as [->|Hlast]; [change ((146096 - _ + _ - _) / 365)%Z with 399%Z; lia|].
  assert (0 <= doe / 36524 <= 3 ∧ doe / 146096 = 0)%Z as [Hq H0].
  { split; [split; [by apply Z.div_pos; lia|]|by apply Z.div_small; lia].
    assert (doe / 36524 < 4)%Z by (apply Z.div_lt_upper_bound; lia). lia. }
  rewrite H0. pose proof (Z.div_mod doe 1460 ltac:(done)). pose proof (Z.mod_pos_bound doe 1460 ltac:(done)).
  assert (0 <= doe - doe / 1460 + doe / 36524 - 0 < 146000 ∧ (doe <= 145671 → doe - doe / 1460 + doe / 36524 - 0 < 145635))%Z
    as [He1 He2] by (destruct (decide (doe / 1460 <= 98)%Z); lia).
  revert He1 He2. generalize (doe - doe / 1460 + doe / 36524 - 0)%Z as e. intros e He1 He2.
  assert (0 <= e / 365 <= 399)%Z by (split; [apply Z.div_pos|apply Z.lt_succ_r, Z.div_lt_upper_bound]; lia).
  assert (doe <= 145671 → e / 365 <= 398)%Z by (intros; apply Z.lt_succ_r, Z.div_lt_upper_bound; lia). lia.
Qed.

(** In the years from 1970 to 9998 the text has twenty bytes. *)
Lemma format_length unix : (0 <= unix < 253370764800)%Z → String.length (FormatRFC3339 unix) = 20%nat.
Proof.
  intros Hu. unfold FormatRFC3339. pose proof (civil_year (unix / 86400)) as Hy.
  destruct (civil (unix / 86400)) as [[y m] d]. cbn [fst] in Hy. assert (0 <= y < 10000)%Z as Hyy by (apply Hy; split; [apply Z.div_pos|apply Z.div_lt_upper_bound]; lia).
  unfold year_text. assert ((y <? 0)%Z = false ∧ (Z.abs y <? 10000)%Z = true) as [-> ->] by lia. reflexivity.
Qed.
