(* ===== verification/Json.v ===== *)
(** Go's [encoding/json]: the text of a JSON value as [json.Marshal] writes it, and
    its reading as [json.Unmarshal] and [json.Decoder] do it, on byte strings.

    Strings are escaped for HTML and a byte that is not UTF-8 is written and read as
    U+FFFD.  A number is kept as its literal.  The parser takes fuel; [fuel] of a
    text is always enough ([value_fuel]).  Composite values nest at most 10000 deep. *)
From S2P Require Import Prelude GoStrings GoTime.

(** * Values *)

(** An object is the list of its members as they are written, a repeated key
    included. *)
Inductive json :=
| JNull
| JBool (b : bool)
| JNumber (literal : string)
| JString (s : string)
| JArray (l : list json)
| JObject (l : list (string * json)).

(** The induction principle with the values inside. *)
Section json_induction.
Context (P : json → Prop) (Pnull : P JNull) (Pbool : ∀ b, P (JBool b)) (Pnum : ∀ n, P (JNumber n)).
Context (Pstr : ∀ s, P (JString s)) (Parr : ∀ l, Forall P l → P (JArray l)).
Context (Pobj : ∀ l, Forall (λ kv, P kv.2) l → P (JObject l)).

Definition json_rule : ∀ v, P v :=
  fix go v := match v with
  | JNull => Pnull
  | JBool b => Pbool b
  | JNumber n => Pnum n
  | JString s => Pstr s
  | JArray l => Parr l ((fix all l : Forall P l :=
      match l with [] => List.Forall_nil P | v :: l' => List.Forall_cons P v l' (go v) (all l') end) l)
  | JObject l => Pobj l ((fix all l : Forall (λ kv, P kv.2) l :=
      match l with
      | [] => List.Forall_nil (λ kv, P kv.2)
      | kv :: l' => List.Forall_cons (λ kv, P kv.2) kv l' (go kv.2) (all l')
      end) l)
  end.

End json_induction.

(** * Runes *)

(** The second byte of a sequence of three and of four. *)
Definition second_of_three (c1 c2 : ascii) : bool :=
  if bool_decide (c1 = "224"%char) then in_range c2 "160" "191"
  else if bool_decide (c1 = "237"%char) then in_range c2 "128" "159" else is_cont c2.
Definition second_of_four (c1 c2 : ascii) : bool :=
  if bool_decide (c1 = "240"%char) then in_range c2 "144" "191"
  else if bool_decide (c1 = "244"%char) then in_range c2 "128" "143" else is_cont c2.

(** A string as runes: the bytes of each, or [None] for one byte that begins none. *)
Fixpoint runes (s : string) : list (option string) :=
  match s with
  | EmptyString => []
  | String c1 s1 =>
    if in_range c1 "000" "127" then Some (String c1 EmptyString) :: runes s1 else
    match s1 with
    | EmptyString => [None]
    | String c2 s2 =>
      if in_range c1 "194" "223" && is_cont c2 then Some (String c1 (String c2 EmptyString)) :: runes s2 else
      match s2 with
      | EmptyString => None :: runes s1
      | String c3 s3 =>
        if in_range c1 "224" "239" && second_of_three c1 c2 && is_cont c3
        then Some (String c1 (String c2 (String c3 EmptyString))) :: runes s3 else
        match s3 with
        | EmptyString => None :: runes s1
        | String c4 s4 =>
          if in_range c1 "240" "244" && second_of_four c1 c2 && is_cont c3 && is_cont c4
          then Some (String c1 (String c2 (String c3 (String c4 EmptyString)))) :: runes s4 else None :: runes s1
        end
      end
    end
  end.

Definition concat_strings (l : list string) : string := foldr (λ s t, s +:+ t) EmptyString l.

(** U+FFFD. *)
Definition replacement : string := String "239" (String "191" (String "189" EmptyString)).

Definition coerce (s : string) : string := concat_strings (map (default replacement) (runes s)).

(** * Writing *)

Definition backslash : ascii := "092".
Definition quotation : ascii := "034".

Definition hex_digit (n : N) : ascii := default "0"%char (String.get (N.to_nat n) "0123456789abcdef").

Definition escaped (s : string) : string := String backslash s.

(** [appendString] with HTML escaping, on one byte of ASCII. *)
Definition quote_byte (c : ascii) : string :=
  if bool_decide (c = quotation) || bool_decide (c = backslash) then escaped (String c EmptyString) else
  if bool_decide (c = "008"%char) then escaped "b" else
  if bool_decide (c = "012"%char) then escaped "f" else
  if bool_decide (c = "010"%char) then escaped "n" else
  if bool_decide (c = "013"%char) then escaped "r" else
  if bool_decide (c = "009"%char) then escaped "t" else
  if in_range c "000" "031" || bool_decide (c = "<"%char) || bool_decide (c = ">"%char) || bool_decide (c = "&"%char)
  then escaped ("u00" +:+ String (hex_digit (N_of_ascii c / 16)) (String (hex_digit (N_of_ascii c mod 16)) EmptyString))
  else String c EmptyString.

(** U+2028 and U+2029 end lines in JavaScript. *)
Definition line_separator (b : string) : option ascii :=
  if bool_decide (b = String "226" (String "128" (String "168" EmptyString))) then Some "8"%char else
  if bool_decide (b = String "226" (String "128" (String "169" EmptyString))) then Some "9"%char else None.

Definition quote_rune (r : option string) : string :=
  match r with
  | None => escaped "ufffd"
  | Some (String c EmptyString) => quote_byte c
  | Some b => match line_separator b with Some d => escaped ("u202" +:+ String d EmptyString) | None => b end
  end.

Definition quoted (s : string) : string := concat_strings (map quote_rune (runes s)).
Definition quote (s : string) : string := String quotation (quoted s +:+ String quotation EmptyString).

(** [json.Marshal]. *)
Fixpoint encode (v : json) : string :=
  match v with
  | JNull => "null"
  | JBool b => if b then "true" else "false"
  | JNumber n => n
  | JString s => quote s
  | JArray l => "[" +:+ Join "," (map encode l) +:+ "]"
  | JObject l => "{" +:+ Join "," (map (λ kv, quote kv.1 +:+ ":" +:+ encode kv.2) l) +:+ "}"
  end.

Example encode_status : encode (JObject [("a<", JArray [JNumber "12"; JNull]); ("b", JBool true)])
  = "{" +:+ quote "a<" +:+ ":[12,null]," +:+ quote "b" +:+ ":true}".
Proof. reflexivity. Qed.

Example quote_html : quoted ("<" +:+ String "010" (String "200" EmptyString)) = "\u003c\n\ufffd".
Proof. reflexivity. Qed.

(** * Reading *)

Definition is_ws (c : ascii) : bool :=
  bool_decide (c = " "%char) || bool_decide (c = "009"%char) || bool_decide (c = "010"%char) || bool_decide (c = "013"%char).

Fixpoint skip_ws (s : string) : string :=
  match s with String c s' => if is_ws c then skip_ws s' else s | EmptyString => EmptyString end.

Definition hex_value (c : ascii) : option N :=
  if is_digit c then Some (N_of_ascii c - 48)%N else
  if in_range c "a" "f" then Some (N_of_ascii c - 87)%N else
  if in_range c "A" "F" then Some (N_of_ascii c - 55)%N else None.

Definition hex4 (a b c d : ascii) : option N :=
  a ← hex_value a; b ← hex_value b; c ← hex_value c; d ← hex_value d;
  Some (((a * 16 + b) * 16 + c) * 16 + d)%N.

(** [utf8.AppendRune] of a scalar value. *)
Definition append_rune (r : N) : string :=
  let cont x := ascii_of_N (128 + x mod 64) in
  if (r <? 128)%N then String (ascii_of_N r) EmptyString else
  if (r <? 2048)%N then String (ascii_of_N (192 + r / 64)) (String (cont r) EmptyString) else
  if (r <? 65536)%N then String (ascii_of_N (224 + r / 4096)) (String (cont (r / 64)%N) (String (cont r) EmptyString))
  else String (ascii_of_N (240 + r / 262144))
    (String (cont (r / 4096)%N) (String (cont (r / 64)%N) (String (cont r) EmptyString))).

Definition is_surrogate (r : N) : bool := (55296 <=? r)%N && (r <? 57344)%N.

(** [utf16.DecodeRune]. *)
Definition surrogates (r1 r2 : N) : option N :=
  if (55296 <=? r1)%N && (r1 <? 56320)%N && (56320 <=? r2)%N && (r2 <? 57344)%N
  then Some ((r1 - 55296) * 1024 + (r2 - 56320) + 65536)%N else None.

(** One of the escapes of a single letter. *)
Definition unescape_byte (c : ascii) : option ascii :=
  if bool_decide (c = quotation) || bool_decide (c = backslash) || bool_decide (c = "/"%char) then Some c else
  if bool_decide (c = "b"%char) then Some "008"%char else
  if bool_decide (c = "f"%char) then Some "012"%char else
  if bool_decide (c = "n"%char) then Some "010"%char else
  if bool_decide (c = "r"%char) then Some "013"%char else
  if bool_decide (c = "t"%char) then Some "009"%char else None.

Definition before (b : string) (r : option (string * string)) : option (string * string) := '(x, t) ← r; Some (b +:+ x, t).

(** A literal after its first quotation mark: its bytes and what follows it.  Half a
    pair of surrogates becomes U+FFFD. *)
Fixpoint unescape (s : string) : option (string * string) :=
  match s with
  | EmptyString => None
  | String c s1 =>
    if bool_decide (c = quotation) then Some (EmptyString, s1) else
    if negb (bool_decide (c = backslash)) then
      if in_range c "000" "031" then None else before (String c EmptyString) (unescape s1)
    else
    match s1 with
    | String e s2 =>
      if negb (bool_decide (e = "u"%char)) then
        match unescape_byte e with Some b => before (String b EmptyString) (unescape s2) | None => None end
      else
      match s2 with
      | String h1 (String h2 (String h3 (String h4 s3))) =>
        match hex4 h1 h2 h3 h4 with
        | None => None
        | Some r =>
          if negb (is_surrogate r) then before (append_rune r) (unescape s3) else
          match s3 with
          | String b1 (String u1 (String g1 (String g2 (String g3 (String g4 s4))))) =>
            match (if bool_decide (b1 = backslash) && bool_decide (u1 = "u"%char) then hex4 g1 g2 g3 g4 else None) ≫= surrogates r with
            | Some x => before (append_rune x) (unescape s4)
            | None => before replacement (unescape s3)
            end
          | _ => before replacement (unescape s3)
          end
        end
      | _ => None
      end
    | EmptyString => None
    end
  end.

(** [unquote]: bytes that are no UTF-8 become U+FFFD; an escape is a whole rune, so
    it is the same to replace them after the escapes. *)
Definition literal (s : string) : option (string * string) :=
  '(b, t) ← unescape s; Some (coerce b, t).

(** A number: its literal and what follows it. *)
Definition sign_of (s : string) : string * string :=
  match s with String c r => if bool_decide (c = "-"%char) then ("-", r) else (EmptyString, s) | EmptyString => (EmptyString, s) end.

Definition fraction_of (s : string) : option (string * string) :=
  match s with
  | String c r =>
    if bool_decide (c = "."%char) then
      let '(f, t) := span_digits r in if bool_decide (f = EmptyString) then None else Some (String c f, t)
    else Some (EmptyString, s)
  | EmptyString => Some (EmptyString, s)
  end.

Definition exponent_of (s : string) : option (string * string) :=
  match s with
  | String c r =>
    if bool_decide (c = "e"%char) || bool_decide (c = "E"%char) then
      let '(sg, r') := match r with
                       | String d r' => if bool_decide (d = "+"%char) || bool_decide (d = "-"%char)
                                        then (String d EmptyString, r') else (EmptyString, r)
                       | EmptyString => (EmptyString, r)
                       end in
      let '(x, t) := span_digits r' in
      if bool_decide (x = EmptyString) then None else Some (String c (sg +:+ x), t)
    else Some (EmptyString, s)
  | EmptyString => Some (EmptyString, s)
  end.

(** The integer part has no needless zero. *)
Definition integer_part (s : string) : bool :=
  match s with
  | EmptyString => false
  | String c r => negb (bool_decide (c = "0"%char)) || bool_decide (r = EmptyString)
  end.

Definition number (s : string) : option (string * string) :=
  let '(sg, s1) := sign_of s in
  let '(i, s2) := span_digits s1 in
  if negb (integer_part i) then None else
  '(f, s3) ← fraction_of s2;
  '(x, s4) ← exponent_of s3;
  Some (sg +:+ i +:+ f +:+ x, s4).

Definition word (w : string) (v : json) (s : string) : option (json * string) :=
  if HasPrefix s w then Some (v, drop_bytes (String.length w) s) else None.

Definition max_depth : N := 10000.

(** The three kinds of text, from readers of what is inside them; at a depth of [0]
    no other value may open. *)
Definition reader (A : Type) : Type := N → string → option (A * string).

Definition value_of (elements : reader (list json)) (members : reader (list (string * json))) : reader json := λ d s,
  match skip_ws s with
  | EmptyString => None
  | String c r =>
    if bool_decide (c = "{"%char) then
      if (d =? 0)%N then None else
      match skip_ws r with
      | String e t =>
        if bool_decide (e = "}"%char) then Some (JObject [], t) else '(l, t) ← members (N.pred d) r; Some (JObject l, t)
      | EmptyString => None
      end
    else if bool_decide (c = "["%char) then
      if (d =? 0)%N then None else
      match skip_ws r with
      | String e t =>
        if bool_decide (e = "]"%char) then Some (JArray [], t) else '(l, t) ← elements (N.pred d) r; Some (JArray l, t)
      | EmptyString => None
      end
    else if bool_decide (c = quotation) then '(x, t) ← literal r; Some (JString x, t)
    else if bool_decide (c = "t"%char) then word "true" (JBool true) (String c r)
    else if bool_decide (c = "f"%char) then word "false" (JBool false) (String c r)
    else if bool_decide (c = "n"%char) then word "null" JNull (String c r)
    else '(x, t) ← number (String c r); Some (JNumber x, t)
  end.

(** After an entry: a comma and more entries, or the end. *)
Definition rest_of {A} (close : ascii) (more : reader (list A)) (a : A) : reader (list A) := λ d t,
  match skip_ws t with
  | String c t =>
    if bool_decide (c = ","%char) then '(l, t) ← more d t; Some (a :: l, t)
    else if bool_decide (c = close) then Some ([a], t) else None
  | EmptyString => None
  end.

Definition elements_of (value : reader json) (elements : reader (list json)) : reader (list json) := λ d s,
  '(v, t) ← value d s; rest_of "]" elements v d t.

Definition members_of (value : reader json) (members : reader (list (string * json))) : reader (list (string * json)) := λ d s,
  match skip_ws s with
  | String q r =>
    if negb (bool_decide (q = quotation)) then None else
    '(k, t) ← literal r;
    match skip_ws t with
    | String c t => if negb (bool_decide (c = ":"%char)) then None else '(v, t) ← value d t; rest_of "}" members (k, v) d t
    | EmptyString => None
    end
  | EmptyString => None
  end.

Fixpoint value_at (n : nat) (d : N) (s : string) {struct n} : option (json * string) :=
  match n with O => None | S n => value_of (elements_at n) (members_at n) d s end
with elements_at (n : nat) (d : N) (s : string) {struct n} : option (list json * string) :=
  match n with O => None | S n => elements_of (value_at n) (elements_at n) d s end
with members_at (n : nat) (d : N) (s : string) {struct n} : option (list (string * json) * string) :=
  match n with O => None | S n => members_of (value_at n) (members_at n) d s end.

Definition fuel (s : string) : nat := S (2 * String.length s).

(** [json.Decoder]: the first value of a stream, and what is left of it. *)
Definition first_value (s : string) : option (json * string) := value_at (fuel s) max_depth s.

(** [json.Unmarshal], up to the assignment: one value and white space. *)
Definition parse (s : string) : option json :=
  '(v, t) ← first_value s; if bool_decide (skip_ws t = EmptyString) then Some v else None.

Example parse_nested : parse " {  } " = Some (JObject []).
Proof. reflexivity. Qed.

Example parse_numbers : parse "[0, -12.50e+3 ,null]" = Some (JArray [JNumber "0"; JNumber "-12.50e+3"; JNull]).
Proof. reflexivity. Qed.

Example parse_refuses : map parse ["[01]"; "[1,]"; "{} x"; "[1e]"; "-"; "nul"; ""] = replicate 7 None.
Proof. reflexivity. Qed.

Example parse_escapes :
  parse (String quotation ("\u00e9\ud83d\ude00\ud83d\/" +:+ String quotation EmptyString))
  = Some (JString (String "195" (String "169" (String "240" (String "159" (String "152" (String "128"
      (replacement +:+ "/")))))))).
Proof. reflexivity. Qed.

(** * Strings come back *)

Lemma in_range_spec c lo hi :
  in_range c lo hi = true ↔ (N_of_ascii lo <= N_of_ascii c)%N ∧ (N_of_ascii c <= N_of_ascii hi)%N.
Proof. unfold in_range. by rewrite andb_true_iff, !N.leb_le. Qed.

Lemma ranges_disjoint c lo hi lo' hi' :
  (N_of_ascii hi <? N_of_ascii lo')%N = true → in_range c lo hi = true → in_range c lo' hi' = false.
Proof.
  intros Hd%N.ltb_lt [_ H2']%in_range_spec. apply not_true_iff_false. rewrite in_range_spec. lia.
Qed.

(** The bytes of a rune: one of ASCII, or two and more that are not. *)
Definition rune_shape (b : string) : Prop :=
  (∃ c, b = String c EmptyString ∧ in_range c "000" "127" = true)
  ∨ (∃ c d t, b = String c (String d t) ∧ all_bytes (λ c, in_range c "128" "255") b = true).

Lemma high_byte c lo hi : in_range c lo hi = true → (128 <=? N_of_ascii lo)%N = true → in_range c "128" "255" = true.
Proof.
  intros [H1 _]%in_range_spec Hl%N.leb_le. apply in_range_spec. pose proof (N_ascii_bounded c).
  change (N_of_ascii "128") with 128%N. change (N_of_ascii "255") with 255%N. lia.
Qed.

Lemma second_three_high c d : second_of_three c d = true → in_range d "128" "255" = true.
Proof.
  unfold second_of_three, is_cont. repeat case_bool_decide; intros Hd; (eapply high_byte; [exact Hd|done]).
Qed.

Lemma second_four_high c d : second_of_four c d = true → in_range d "128" "255" = true.
Proof.
  unfold second_of_four, is_cont. repeat case_bool_decide; intros Hd; (eapply high_byte; [exact Hd|done]).
Qed.

(** The first rune of a string. *)
Definition first_rune (s : string) (r : option string) (t : string) : Prop :=
  runes s = r :: runes t ∧
  match r with
  | Some b => s = b +:+ t ∧ rune_shape b ∧ ∀ u, ValidString (b +:+ u) = ValidString u
  | None => (∃ c, s = String c t) ∧ ValidString s = false
  end.

Lemma high_shape c d t :
  all_bytes (λ c, in_range c "128" "255") (String c (String d t)) = true → rune_shape (String c (String d t)).
Proof. intros H. right. eauto 10. Qed.

Lemma first_rune_of c s : ∃ r t, first_rune (String c s) r t.
Proof.
  unfold first_rune. cbn [runes ValidString]. destruct (in_range c "000" "127") eqn:H1.
  { exists (Some (String c EmptyString)), s. split_and!; [done..|left; eauto|]. intros u. simpl. by rewrite H1. }
  destruct s as [|c2 s2]; [exists None, EmptyString; eauto|].
  destruct (in_range c "194" "223") eqn:H2; cbn [andb].
  { assert (in_range c "224" "239" = false ∧ in_range c "240" "244" = false) as [E3 E4]
      by (split; by apply (ranges_disjoint c "194" "223")).
    destruct (is_cont c2) eqn:Hc2.
    - exists (Some (String c (String c2 EmptyString))), s2. split_and!; [done..| |].
      { apply high_shape. simpl. by rewrite (high_byte _ _ _ H2 eq_refl), (high_byte _ _ _ Hc2 eq_refl). }
      intros u. simpl. by rewrite H1, H2, Hc2.
    - exists None, (String c2 s2). rewrite E3, E4. cbn [andb]. split_and!; eauto. by destruct s2 as [|c3 [|c4 s4]]. }
  destruct s2 as [|c3 s3]; [exists None, (String c2 EmptyString); eauto|].
  change (if bool_decide (c = "224"%char) then in_range c2 "160" "191"
    else if bool_decide (c = "237"%char) then in_range c2 "128" "159" else is_cont c2) with (second_of_three c c2).
  destruct (in_range c "224" "239") eqn:H3; cbn [andb].
  { assert (in_range c "240" "244" = false) as E4 by by apply (ranges_disjoint c "224" "239").
    destruct (second_of_three c c2) eqn:Hc2; cbn [andb]; [destruct (is_cont c3) eqn:Hc3|].
    - exists (Some (String c (String c2 (String c3 EmptyString)))), s3. split_and!; [done..| |].
      { apply high_shape. simpl.
        by rewrite (high_byte _ _ _ H3 eq_refl), (second_three_high _ _ Hc2), (high_byte _ _ _ Hc3 eq_refl). }
      intros u. unfold second_of_three in Hc2. simpl. by rewrite H1, H2, H3, Hc2, Hc3.
    - exists None, (String c2 (String c3 s3)). rewrite E4. cbn [andb]. split_and!; eauto. by destruct s3.
    - exists None, (String c2 (String c3 s3)). rewrite E4. cbn [andb]. split_and!; eauto. by destruct s3. }
  destruct s3 as [|c4 s4]; [exists None, (String c2 (String c3 EmptyString)); eauto|].
  change (if bool_decide (c = "240"%char) then in_range c2 "144" "191"
    else if bool_decide (c = "244"%char) then in_range c2 "128" "143" else is_cont c2) with (second_of_four c c2).
  destruct (in_range c "240" "244" && second_of_four c c2 && is_cont c3 && is_cont c4) eqn:H4; cbn [andb].
  - apply andb_true_iff in H4 as [[[H4 Hc2]%andb_true_iff Hc3]%andb_true_iff Hc4].
    exists (Some (String c (String c2 (String c3 (String c4 EmptyString))))), s4. split_and!; [done..| |].
    { apply high_shape. simpl. rewrite (high_byte _ _ _ H4 eq_refl), (second_four_high _ _ Hc2).
      by rewrite (high_byte _ _ _ Hc3 eq_refl), (high_byte _ _ _ Hc4 eq_refl). }
    intros u. unfold second_of_four in Hc2. simpl. by rewrite H1, H2, H3, H4, Hc2, Hc3, Hc4.
  - exists None, (String c2 (String c3 (String c4 s4))). split_and!; eauto.
Qed.

Lemma runes_ind (P : string → Prop) :
  P EmptyString → (∀ s r t, first_rune s r t → (String.length t < String.length s)%nat → P t → P s) → ∀ s, P s.
Proof.
  intros H0 H1 s. remember (String.length s) as n eqn:Hn. revert s Hn. induction (lt_wf n) as [n _ IH]. intros s ->.
  destruct s as [|c s]; [done|]. destruct (first_rune_of c s) as (r & t & Hf).
  assert (String.length t < String.length (String c s))%nat as Hl.
  { destruct Hf as [_ Hf]. destruct r as [b|]; [destruct Hf as (-> & Hb & _)|destruct Hf as [[d [= _ ->]] _]; simpl; lia].
    rewrite length_app_string. destruct Hb as [(d & -> & _)|(d & e & u & -> & _)]; simpl; lia. }
  exact (H1 _ _ _ Hf Hl (IH _ Hl t eq_refl)).
Qed.

Lemma ValidString_runes s : ValidString s = forallb (λ r, bool_decide (is_Some r)) (runes s).
Proof.
  induction s as [|s r t [E Hf] _ IH] using runes_ind; [done|]. rewrite E. simpl.
  destruct r as [b|]; [destruct Hf as (-> & _ & ->)|destruct Hf as [_ ->]; done].
  by rewrite bool_decide_eq_true_2.
Qed.

(** Text that is UTF-8 stays as it is. *)
Lemma coerce_valid s : ValidString s = true → coerce s = s.
Proof.
  unfold coerce. induction s as [|s r t [E Hf] _ IH] using runes_ind; [done|]. rewrite E. simpl. intros Hv.
  destruct r as [b|]; [destruct Hf as (-> & _ & Hs)|destruct Hf as [_ Hs]]; rewrite Hs in Hv; [|done].
  simpl. by rewrite IH.
Qed.

(** And what is coerced is UTF-8. *)
Lemma coerce_is_valid s : ValidString (coerce s) = true.
Proof.
  unfold coerce. induction s as [|s r t [E Hf] _ IH] using runes_ind; [done|]. rewrite E. cbn [map concat_strings foldr].
  destruct r as [b|]; [destruct Hf as (_ & _ & Hs); by rewrite Hs|exact IH].
Qed.

Lemma before_before a b r : before a (before b r) = before (a +:+ b) r.
Proof. destruct r as [[x t]|]; [|done]. simpl. by rewrite app_string_assoc. Qed.

Lemma unescape_high b t :
  all_bytes (λ c, in_range c "128" "255") b = true → unescape (b +:+ t) = before b (unescape t).
Proof.
  assert (∀ r : option (string * string), before EmptyString r = r) as He by by intros [[x u]|].
  induction b as [|c b IH]; [intros _; by rewrite He|]. simpl. intros [Hc Hb]%andb_true_iff. rewrite IH by done.
  assert (c ≠ quotation ∧ c ≠ backslash ∧ in_range c "000" "031" = false) as (H1 & H2 & H3).
  { split_and!; [by intros ->..|]. apply not_true_iff_false. rewrite in_range_spec. apply in_range_spec in Hc.
    change (N_of_ascii "128") with 128%N in Hc. change (N_of_ascii "031") with 31%N. lia. }
  rewrite !bool_decide_eq_false_2 by done. simpl. rewrite H3, before_before. done.
Qed.

Lemma unescape_byte_quoted c t : in_range c "000" "127" = true →
  unescape (quote_byte c +:+ t) = before (String c EmptyString) (unescape t).
Proof. destruct c as [[] [] [] [] [] [] [] []]; intros Hc; try discriminate Hc; reflexivity. Qed.

Lemma unescape_rune b t : rune_shape b → unescape (quote_rune (Some b) +:+ t) = before b (unescape t).
Proof.
  intros [(c & -> & Hc)|(c & d & u & -> & Hb)]; [by apply unescape_byte_quoted|].
  unfold quote_rune. unfold line_separator.
  case_bool_decide as E; [rewrite E; reflexivity|]. case_bool_decide as E'; [rewrite E'; reflexivity|].
  by apply unescape_high.
Qed.

Lemma unescape_quoted s t : unescape (quoted s +:+ String quotation t) = Some (coerce s, t).
Proof.
  unfold quoted, coerce. induction s as [|s r u [E Hf] _ IH] using runes_ind; [reflexivity|]. rewrite E. cbn [map concat_strings foldr].
  rewrite app_string_assoc. fold (concat_strings (map quote_rune (runes u))).
  destruct r as [b|]; [destruct Hf as (_ & Hb & _); rewrite unescape_rune by done; by rewrite IH|].
  change (before replacement (unescape (concat_strings (map quote_rune (runes u)) +:+ String quotation t))
    = Some (replacement +:+ concat_strings (map (default replacement) (runes u)), t)). by rewrite IH.
Qed.

Lemma literal_quoted s t : literal (quoted s +:+ String quotation t) = Some (coerce s, t).
Proof. unfold literal. rewrite unescape_quoted. simpl. by rewrite (coerce_valid (coerce s) (coerce_is_valid s)). Qed.

(** * Fuel *)

Lemma before_Some b r x t : before b r = Some (x, t) → ∃ y, r = Some (y, t).
Proof. destruct r as [[y u]|]; [|done]. intros [= _ ->]. eauto. Qed.

Lemma unescape_shorter s b t : unescape s = Some (b, t) → (String.length t < String.length s)%nat.
Proof.
  remember (String.length s) as n eqn:Hn. revert s b t Hn. induction (lt_wf n) as [n _ IH]. intros s b t ->.
  assert (∀ u p x, (String.length u < String.length s)%nat → before p (unescape u) = Some (x, t) →
    (String.length t < String.length s)%nat) as Hgo.
  { intros u p x Hu [y Hy]%before_Some. specialize (IH _ Hu u y t eq_refl Hy). lia. }
  destruct s as [|c s1]; [done|]. cbn [unescape].
  case_bool_decide; [intros [= _ ->]; simpl; lia|]. case_bool_decide; cbn [negb].
  2:{ destruct (in_range c "000" "031"); [done|]. apply Hgo. simpl. lia. }
  destruct s1 as [|e s2]; [done|]. case_bool_decide; cbn [negb].
  2:{ destruct (unescape_byte e); [|done]. apply Hgo. simpl. lia. }
  destruct s2 as [|h1 [|h2 [|h3 [|h4 s3]]]]; try done. destruct (hex4 h1 h2 h3 h4) as [r|]; [|done].
  destruct (negb _); [apply Hgo; simpl; lia|].
  destruct s3 as [|b1 [|u1 [|g1 [|g2 [|g3 [|g4 s4]]]]]]; try (apply Hgo; simpl; lia).
  destruct (_ ≫= _); apply Hgo; simpl; lia.
Qed.

Lemma literal_shorter s b t : literal s = Some (b, t) → (String.length t < String.length s)%nat.
Proof.
  unfold literal. destruct (unescape s) as [[x u]|] eqn:E; [|done]. intros [= _ <-]. by eapply unescape_shorter.
Qed.

Lemma skip_ws_shorter s : (String.length (skip_ws s) ≤ String.length s)%nat.
Proof. induction s as [|c s IH]; [done|]. simpl. destruct (is_ws c); simpl; lia. Qed.

Lemma span_digits_length s a b : span_digits s = (a, b) → String.length s = (String.length a + String.length b)%nat.
Proof.
  revert a b. induction s as [|c s IH]; intros a b; simpl; [by intros [= <- <-]|]. destruct (is_digit c).
  - destruct (span_digits s) as [x y]. intros [= <- <-]. simpl. by rewrite (IH x y).
  - by intros [= <- <-].
Qed.

Lemma drop_bytes_length n s : String.length (drop_bytes n s) = (String.length s - n)%nat.
Proof. revert n. induction s as [|c s IH]; intros [|n]; simpl; auto. Qed.

Lemma word_shorter w v s x t : (0 < String.length w)%nat → word w v s = Some (x, t) → (String.length t < String.length s)%nat.
Proof.
  unfold word. intros Hw. destruct (HasPrefix s w) eqn:E; [|done]. apply HasPrefix_spec in E as [u ->].
  intros [= _ <-]. rewrite drop_bytes_length, length_app_string. lia.
Qed.

Lemma fraction_shorter s f t : fraction_of s = Some (f, t) → (String.length t ≤ String.length s)%nat.
Proof.
  destruct s as [|c r]; simpl; [by intros [= _ <-]|]. case_bool_decide; [|by intros [= _ <-]].
  destruct (span_digits r) as [a b] eqn:E. case_bool_decide; [done|]. intros [= _ <-]. apply span_digits_length in E. simpl. lia.
Qed.

Lemma exponent_shorter s x t : exponent_of s = Some (x, t) → (String.length t ≤ String.length s)%nat.
Proof.
  destruct s as [|c r]; simpl; [by intros [= _ <-]|]. destruct (_ || _); [|by intros [= _ <-]].
  assert (∀ p q (r' : string), (String.length r' ≤ String.length r)%nat →
    (let '(x, t) := span_digits r' in if bool_decide (x = EmptyString) then None else Some (String c (p +:+ x), t)) = Some (q, t) →
    (String.length t ≤ S (String.length r))%nat) as Hgo.
  { intros p q r' Hr. destruct (span_digits r') as [a b] eqn:E. case_bool_decide; [done|]. intros [= _ <-].
    apply span_digits_length in E. lia. }
  destruct r as [|d r']; [by apply Hgo|]. destruct (_ || _); apply Hgo; simpl; lia.
Qed.

Lemma number_shorter s x t : number s = Some (x, t) → (String.length t < String.length s)%nat.
Proof.
  unfold number. assert (String.length (sign_of s).2 ≤ String.length s)%nat as Hs.
  { destruct s as [|c r]; [done|]. simpl. case_bool_decide; simpl; lia. }
  destruct (sign_of s) as [sg s1]. simpl in Hs. destruct (span_digits s1) as [i s2] eqn:E. apply span_digits_length in E.
  destruct (integer_part i) eqn:Hi; [|done]. simpl. assert (0 < String.length i)%nat by (destruct i; [done|simpl; lia]).
  destruct (fraction_of s2) as [[f s3]|] eqn:Hf; [|done]. simpl. apply fraction_shorter in Hf.
  destruct (exponent_of s3) as [[y s4]|] eqn:Hx; [|done]. simpl. apply exponent_shorter in Hx. intros [= _ <-]. lia.
Qed.

(** Two readers that agree on the texts shorter than [n]. *)
Definition agree {A} (n : nat) (f g : reader A) : Prop := ∀ d s, (String.length s < n)%nat → f d s = g d s.

(** What a reader leaves is shorter than what it was given. *)
Definition consumes {A} (f : reader A) : Prop := ∀ d s a t, f d s = Some (a, t) → (String.length t < String.length s)%nat.

Lemma skip_ws_cons s c r : skip_ws s = String c r → (String.length r < String.length s)%nat.
Proof. intros E. pose proof (skip_ws_shorter s) as H. rewrite E in H. simpl in H. lia. Qed.

Lemma value_of_agree E E' M M' d s :
  agree (String.length s) E E' → agree (String.length s) M M' → value_of E M d s = value_of E' M' d s.
Proof.
  intros HE HM. unfold value_of. destruct (skip_ws s) as [|c r] eqn:Hs; [done|]. apply skip_ws_cons in Hs.
  by rewrite (HE _ r Hs), (HM _ r Hs).
Qed.

Lemma rest_of_agree {A} close (f g : reader (list A)) a d t :
  agree (String.length t) f g → rest_of close f a d t = rest_of close g a d t.
Proof. intros Hf. unfold rest_of. destruct (skip_ws t) as [|c u] eqn:Hs; [done|]. apply skip_ws_cons in Hs. by rewrite Hf. Qed.

Lemma elements_of_agree V V' E E' d s :
  consumes V → agree (S (String.length s)) V V' → agree (String.length s) E E' → elements_of V E d s = elements_of V' E' d s.
Proof.
  intros HV HVV HE. unfold elements_of. rewrite <-HVV by lia. destruct (V d s) as [[v t]|] eqn:Ev; [|done]. apply HV in Ev.
  apply rest_of_agree. intros d' u Hu. apply HE. lia.
Qed.

Lemma members_of_agree V V' M M' d s :
  consumes V → agree (String.length s) V V' → agree (String.length s) M M' → members_of V M d s = members_of V' M' d s.
Proof.
  intros HV HVV HM. unfold members_of. destruct (skip_ws s) as [|q r] eqn:Hs; [done|]. apply skip_ws_cons in Hs.
  destruct (negb _); [done|]. destruct (literal r) as [[k t]|] eqn:Hl; [|done]. apply literal_shorter in Hl. simpl.
  destruct (skip_ws t) as [|c u] eqn:Ht; [done|]. apply skip_ws_cons in Ht. destruct (negb _); [done|].
  rewrite <-HVV by lia. destruct (V d u) as [[v x]|] eqn:Ev; [|done]. apply HV in Ev. simpl.
  apply rest_of_agree. intros d' y Hy. apply HM. lia.
Qed.

Lemma value_of_consumes E M : consumes E → consumes M → consumes (value_of E M).
Proof.
  intros HE HM d s v t. unfold value_of. destruct (skip_ws s) as [|c r] eqn:Hs; [done|].
  pose proof (skip_ws_cons _ _ _ Hs). assert (String.length (String c r) ≤ String.length s)%nat by (simpl; lia).
  assert (∀ A (f : reader A) (g : A → json) close (x : json), consumes f →
    match skip_ws r with
    | String e u => if bool_decide (e = close) then Some (x, u) else '(l, u) ← f (N.pred d) r; Some (g l, u)
    | EmptyString => None
    end = Some (v, t) → (String.length t < String.length s)%nat) as Hgo.
  { intros A f g close x Hf. destruct (skip_ws r) as [|e u] eqn:Hr; [done|]. apply skip_ws_cons in Hr.
    case_bool_decide; [intros [= _ ->]; lia|]. destruct (f _ r) as [[l y]|] eqn:El; [|done]. apply Hf in El. intros [= _ <-]. lia. }
  repeat case_bool_decide; repeat (destruct (d =? 0)%N; [done|]); intros He.
  - exact (Hgo _ M JObject "}"%char (JObject []) HM He).
  - exact (Hgo _ E JArray "]"%char (JArray []) HE He).
  - destruct (literal r) as [[x y]|] eqn:El; [|done]. apply literal_shorter in El. injection He as _ <-. lia.
  - apply word_shorter in He; [lia|simpl; lia].
  - apply word_shorter in He; [lia|simpl; lia].
  - apply word_shorter in He; [lia|simpl; lia].
  - destruct (number _) as [[x y]|] eqn:El; [|done]. apply number_shorter in El. injection He as _ <-. lia.
Qed.

Lemma rest_of_consumes {A} close (f : reader (list A)) a : consumes f → consumes (rest_of close f a).
Proof.
  intros Hf d t l u. unfold rest_of. destruct (skip_ws t) as [|c x] eqn:Hs; [done|]. apply skip_ws_cons in Hs.
  case_bool_decide; [|case_bool_decide; [intros [= _ <-]; lia|done]].
  destruct (f d x) as [[y z]|] eqn:Ef; [|done]. apply Hf in Ef. intros [= _ <-]. lia.
Qed.

Lemma readers_consume n : consumes (value_at n) ∧ consumes (elements_at n) ∧ consumes (members_at n).
Proof.
  induction n as [|n (IHv & IHe & IHm)]; [done|]. split_and!.
  - by apply value_of_consumes.
  - intros d s l t. cbn [elements_at]. unfold elements_of. destruct (value_at n d s) as [[v u]|] eqn:Ev; [|done].
    apply IHv in Ev. intros He. apply (rest_of_consumes "]" _ v IHe) in He. lia.
  - intros d s l t. cbn [members_at]. unfold members_of. destruct (skip_ws s) as [|q r] eqn:Hs; [done|]. apply skip_ws_cons in Hs.
    destruct (negb _); [done|]. destruct (literal r) as [[k y]|] eqn:Hl; [|done]. apply literal_shorter in Hl. simpl.
    destruct (skip_ws y) as [|c u] eqn:Ht; [done|]. apply skip_ws_cons in Ht. destruct (negb _); [done|].
    destruct (value_at n d u) as [[v x]|] eqn:Ev; [|done]. apply IHv in Ev. simpl. intros He.
    apply (rest_of_consumes "}" _ (k, v) IHm) in He. lia.
Qed.

Lemma agree_weaken {A} n m (f g : reader A) : (n ≤ m)%nat → agree m f g → agree n f g.
Proof. intros Hn Hf d s Hs. apply Hf. lia. Qed.

(** More fuel than twice the length changes nothing. *)
Lemma fuel_agree k : ∀ n m,
  ((2 * k ≤ S n)%nat → (2 * k ≤ S m)%nat → agree k (value_at n) (value_at m)) ∧
  ((2 * k ≤ n)%nat → (2 * k ≤ m)%nat → agree k (elements_at n) (elements_at m) ∧ agree k (members_at n) (members_at m)).
Proof.
  induction k as [|k IH]; [intros n m; split; [|split]; repeat intro; lia|].
  assert (∀ n m, (2 * S k ≤ S n)%nat → (2 * S k ≤ S m)%nat → agree (S k) (value_at n) (value_at m)) as Hv.
  { intros [|n] [|m] Hn Hm; try lia. destruct (proj2 (IH n m)) as [He Hm']; [lia..|].
    intros d s Hs. apply value_of_agree; eapply agree_weaken; [|exact He| |exact Hm']; lia. }
  intros n m. split; [auto|]. intros Hn Hm. destruct n as [|n], m as [|m]; try lia.
  destruct (proj2 (IH n m)) as [He Hm']; [lia..|]. pose proof (Hv n m ltac:(lia) ltac:(lia)) as Hvv.
  split; intros d s Hs.
  - apply elements_of_agree; [apply readers_consume|eapply agree_weaken; [|exact Hvv]; lia|eapply agree_weaken; [|exact He]; lia].
  - apply members_of_agree; [apply readers_consume|eapply agree_weaken; [|exact Hvv]; lia|eapply agree_weaken; [|exact Hm']; lia].
Qed.

Lemma value_fuel n d s : (fuel s ≤ n)%nat → value_at n d s = value_at (fuel s) d s.
Proof. unfold fuel. intros Hn. apply (fuel_agree (S (String.length s))); lia. Qed.

(** * Values come back *)

(** An integer as [strconv] writes it. *)
Definition integer_literal (n : string) : bool := let '(_, i) := sign_of n in all_bytes is_digit i && integer_part i.

(** The only numbers are integers. *)
Fixpoint whole (v : json) : bool :=
  match v with
  | JNumber n => integer_literal n
  | JArray l => forallb whole l
  | JObject l => forallb (λ kv, whole kv.2) l
  | _ => true
  end.

(** A value with its text made UTF-8. *)
Fixpoint coerced (v : json) : json :=
  match v with
  | JString s => JString (coerce s)
  | JArray l => JArray (map coerced l)
  | JObject l => JObject (map (λ kv, (coerce kv.1, coerced kv.2)) l)
  | _ => v
  end.

(** UTF-8 text and integers only. *)
Fixpoint plain (v : json) : bool :=
  match v with
  | JNull | JBool _ => true
  | JNumber n => integer_literal n
  | JString s => ValidString s
  | JArray l => forallb plain l
  | JObject l => forallb (λ kv, ValidString kv.1 && plain kv.2) l
  end.

Lemma plain_whole v : plain v = true → whole v = true ∧ coerced v = v.
Proof.
  induction v as [|b|n|s|l IH|l IH] using json_rule; simpl; intros Hp; try done.
  - by rewrite coerce_valid.
  - assert (forallb whole l = true ∧ map coerced l = l) as [-> ->]; [|done].
    induction IH as [|v l Hv _ IH]; [done|]. simpl in *. apply andb_true_iff in Hp as [H1 H2].
    destruct (Hv H1) as [-> ->]. by destruct (IH H2) as [-> ->].
  - assert (forallb (λ kv, whole kv.2) l = true ∧ map (λ kv, (coerce kv.1, coerced kv.2)) l = l) as [-> ->]; [|done].
    induction IH as [|[k v] l Hv _ IH]; [done|]. simpl in *. apply andb_true_iff in Hp as [[H0 H1]%andb_true_iff H2].
    destruct (Hv H1) as [-> ->]. rewrite (coerce_valid k H0). by destruct (IH H2) as [-> ->].
Qed.

Fixpoint depth (v : json) : N :=
  match v with
  | JArray l => N.succ (foldr N.max 0%N (map depth l))
  | JObject l => N.succ (foldr N.max 0%N (map (λ kv, depth kv.2) l))
  | _ => 0%N
  end.

(** What may follow a value. *)
Definition delimits (t : string) : bool :=
  match t with
  | EmptyString => true
  | String c _ => negb (is_digit c || bool_decide (c = "."%char) || bool_decide (c = "e"%char) || bool_decide (c = "E"%char))
  end.

Lemma span_digits_app i t : all_bytes is_digit i = true → delimits t = true → span_digits (i +:+ t) = (i, t).
Proof.
  intros Hi Ht. induction i as [|c i IH]; simpl.
  - destruct t as [|c t]; [done|]. simpl in *. by destruct (is_digit c).
  - simpl in Hi. apply andb_true_iff in Hi as [-> Hi]. by rewrite IH.
Qed.

Lemma digit_not_minus c : is_digit c = true → bool_decide (c = "-"%char) = false.
Proof. intros Hc. apply bool_decide_eq_false_2. by intros ->. Qed.

Lemma number_literal n t : integer_literal n = true → delimits t = true → number (n +:+ t) = Some (n, t).
Proof.
  intros Hn Ht. unfold integer_literal in Hn. destruct (sign_of n) as [sg i] eqn:Es. apply andb_true_iff in Hn as [Hi Hp].
  assert (n = sg +:+ i ∧ sign_of (n +:+ t) = (sg, i +:+ t)) as [-> Hs].
  { destruct n as [|c r]; simpl in *; [injection Es as <- <-; by destruct t|].
    case_bool_decide; injection Es as <- <-; [by subst|done]. }
  unfold number. rewrite Hs, span_digits_app by done. rewrite Hp. cbn [negb].
  assert (fraction_of t = Some (EmptyString, t) ∧ exponent_of t = Some (EmptyString, t)) as [-> Hx].
  { destruct t as [|c t]; [done|]. simpl in *. apply negb_true_iff in Ht. rewrite !orb_false_iff in Ht.
    destruct Ht as [[[_ ->] ->] ->]. done. }
  cbn [mbind option_bind]. rewrite Hx. cbn [mbind option_bind]. by rewrite app_nil_string, app_empty_r.
Qed.

(** How a value begins. *)
Lemma encode_head v : whole v = true → ∃ c t, encode v = String c t ∧ is_ws c = false ∧ c ≠ "]"%char.
Proof.
  destruct v as [|b|n|s|l|l]; intros Hv; try (eexists _, _; split; [reflexivity|done]).
  - destruct b; eexists _, _; (split; [reflexivity|done]).
  - simpl in Hv. unfold integer_literal in Hv. destruct n as [|c r]; [done|]. exists c, r. split; [done|].
    simpl in Hv. case_bool_decide as E; [by subst c|]. simpl in Hv. apply andb_true_iff in Hv as [[Hc _]%andb_true_iff _].
    split; [|by intros ->]. revert c Hc E. intros [[] [] [] [] [] [] [] []]; by vm_compute.
Qed.

(** Reading with enough fuel. *)
Definition reads {A} (f : nat → reader A) (d : N) (s : string) (a : A) (t : string) : Prop :=
  ∃ k, ∀ n, (k ≤ n)%nat → f n d s = Some (a, t).

Definition value_reads (d : N) (v : json) : Prop := ∀ t, delimits t = true → reads value_at d (encode v +:+ t) (coerced v) t.

Lemma rest_more {A} close (f : nat → reader (list A)) d a s l t :
  reads f d s l t → reads (λ n, rest_of close (f n) a) d (String "," s) (a :: l) t.
Proof. intros [k Hk]. exists k. intros n Hn. unfold rest_of. simpl. by rewrite Hk. Qed.

Lemma elements_read d l t : Forall (value_reads d) l → l ≠ [] →
  reads elements_at d (Join "," (map encode l) +:+ String "]" t) (map coerced l) t.
Proof.
  induction 1 as [|v l Hv Hl IH]; [done|]. intros _. destruct l as [|w l].
  - destruct (Hv (String "]" t) eq_refl) as [k Hk]. exists (S k). intros [|n] Hn; [lia|]. cbn [elements_at map Join].
    unfold elements_of. rewrite Hk by lia. reflexivity.
  - destruct (IH ltac:(done)) as [k1 Hk1]. change (Join "," (map encode (v :: w :: l)))
      with (encode v +:+ String "," (Join "," (map encode (w :: l)))). rewrite app_string_assoc, app_cons_string.
    destruct (Hv (String "," (Join "," (map encode (w :: l)) +:+ String "]" t)) eq_refl) as [k2 Hk2].
    exists (S (k1 + k2)). intros [|n] Hn; [lia|]. cbn [elements_at]. unfold elements_of. rewrite Hk2 by lia.
    cbn [mbind option_bind]. unfold rest_of. simpl. by rewrite Hk1 by lia.
Qed.

Definition member_text (kv : string * json) : string := quote kv.1 +:+ ":" +:+ encode kv.2.

Lemma members_read d l t :
  Forall (λ kv, value_reads d kv.2) l → l ≠ [] →
  reads members_at d (Join "," (map member_text l) +:+ String "}" t) (map (λ kv, (coerce kv.1, coerced kv.2)) l) t.
Proof.
  induction 1 as [|[k v] l Hv Hl IH]; [done|]. intros _. simpl in Hv.
  assert (∀ u l', delimits u = true → reads (λ n, rest_of "}" (members_at n) (coerce k, coerced v)) d u l' t →
    reads members_at d (member_text (k, v) +:+ u) l' t) as Hgo.
  { intros u l' Hu [m Hm]. destruct (Hv u Hu) as [f Hf]. exists (S (f + m)). intros [|n] Hn; [lia|].
    cbn [members_at]. unfold members_of, member_text, quote. cbn [fst snd]. simpl.
    rewrite !app_string_assoc, app_cons_string, app_nil_string, literal_quoted. simpl.
    rewrite Hf by lia. simpl. apply Hm. lia. }
  destruct l as [|w l].
  - apply Hgo; [done|]. by exists 0%nat.
  - change (Join "," (map member_text ((k, v) :: w :: l)))
      with (member_text (k, v) +:+ String "," (Join "," (map member_text (w :: l)))). rewrite app_string_assoc, app_cons_string.
    apply Hgo; [done|]. apply (rest_more "}" members_at), IH. done.
Qed.

Lemma depth_inside {A} (f : A → N) l d :
  (N.succ (foldr N.max 0 (map f l)) <= d)%N → (d =? 0)%N = false ∧ Forall (λ a, (f a <= N.pred d)%N) l.
Proof.
  intros Hd. split; [apply N.eqb_neq; lia|]. assert (foldr N.max 0 (map f l) <= N.pred d)%N as Hm by lia. clear Hd.
  revert Hm. generalize (N.pred d) as m. intros m. induction l as [|a l IH]; simpl; intros Hm; constructor; [lia|apply IH; lia].
Qed.

Lemma reads_value d s v t :
  (∃ k, ∀ n, (k ≤ n)%nat → value_of (elements_at n) (members_at n) d s = Some (v, t)) → reads value_at d s v t.
Proof. intros [k Hk]. exists (S k). intros [|n] Hn; [lia|]. apply Hk. lia. Qed.

Lemma value_of_array E M d r :
  value_of E M d (String "[" r) =
  if (d =? 0)%N then None else
  match skip_ws r with
  | String e t =>
    if bool_decide (e = "]"%char) then Some (JArray [], t) else '(l, t) ← E (N.pred d) r; Some (JArray l, t)
  | EmptyString => None
  end.
Proof. reflexivity. Qed.

Lemma value_of_object E M d r :
  value_of E M d (String "{" r) =
  if (d =? 0)%N then None else
  match skip_ws r with
  | String e t =>
    if bool_decide (e = "}"%char) then Some (JObject [], t) else '(l, t) ← M (N.pred d) r; Some (JObject l, t)
  | EmptyString => None
  end.
Proof. reflexivity. Qed.

Lemma encode_array v l t :
  encode (JArray (v :: l)) +:+ t = String "[" (Join "," (map encode (v :: l)) +:+ String "]" t).
Proof. cbn [encode]. by rewrite app_string_assoc, app_cons_string, app_nil_string, app_string_assoc. Qed.

Lemma encode_object kv l t :
  encode (JObject (kv :: l)) +:+ t = String "{" (Join "," (map member_text (kv :: l)) +:+ String "}" t).
Proof. cbn [encode]. by rewrite app_string_assoc, app_cons_string, app_nil_string, app_string_assoc. Qed.

Lemma Join_head c s l : ∃ u, Join c (s :: l) = s +:+ u.
Proof. destruct l as [|w l]; [exists EmptyString; by rewrite app_empty_r|]. by eexists. Qed.

Lemma number_start n : integer_literal n = true → ∀ E M d t, delimits t = true →
  value_of E M d (n +:+ t) = Some (JNumber n, t).
Proof.
  intros Hn E M d t Ht. pose proof (number_literal n t Hn Ht) as Hnum. unfold integer_literal in Hn.
  destruct n as [|c r]; [done|]. assert (is_digit c = true ∨ c = "-"%char) as Hc.
  { simpl in Hn. case_bool_decide; [by right|]. simpl in Hn. left. by destruct (is_digit c). }
  rewrite app_cons_string in Hnum |- *. unfold value_of.
  assert (skip_ws (String c (r +:+ t)) = String c (r +:+ t)) as ->.
  { simpl. assert (is_ws c = false) as ->; [|done]. destruct Hc as [Hc| ->]; [|done].
    revert c Hc Hnum Hn. intros [[] [] [] [] [] [] [] []]; by vm_compute. }
  rewrite Hnum. destruct Hc as [Hc| ->]; [|reflexivity]. clear Hn Hnum.
  revert Hc. destruct c as [[] [] [] [] [] [] [] []]; intros Hc; try discriminate Hc; reflexivity.
Qed.

Lemma encode_reads v : ∀ d, whole v = true → (depth v <= d)%N → value_reads d v.
Proof.
  induction v as [|b|n|s|l IH|l IH] using json_rule; intros d Hp Hd t Ht; apply reads_value.
  - exists 0%nat. intros n _. reflexivity.
  - exists 0%nat. intros n _. by destruct b.
  - exists 0%nat. intros m _. by apply number_start.
  - exists 0%nat. intros n _. cbn [encode]. unfold quote, value_of. rewrite app_cons_string, app_string_assoc, app_cons_string, app_nil_string.
    simpl. by rewrite literal_quoted.
  - destruct (depth_inside depth l d Hd) as [Hd0 Hin]. destruct l as [|v l].
    { exists 0%nat. intros n _. unfold value_of. simpl. by rewrite Hd0. }
    simpl in Hp. apply andb_true_iff in Hp as [Hv Hl].
    assert (Forall (value_reads (N.pred d)) (v :: l)) as Hr.
    { apply Forall_forall. intros w Hw. rewrite Forall_forall in IH, Hin. apply IH; [done| |by apply Hin].
      apply elem_of_cons in Hw as [->|Hw]; [done|]. rewrite forallb_forall in Hl. by apply Hl, list_elem_of_In. }
    destruct (elements_read _ _ t Hr ltac:(done)) as [k Hk]. exists k. intros n Hn. rewrite encode_array, value_of_array, Hd0, Hk by done.
    destruct (encode_head v Hv) as (c & u & E & Hws & Hc). destruct (Join_head "," (encode v) (map encode l)) as [x Hx].
    change (map encode (v :: l)) with (encode v :: map encode l). rewrite Hx, E, !app_cons_string. cbn [skip_ws]. rewrite Hws.
    by rewrite bool_decide_eq_false_2.
  - destruct (depth_inside (λ kv, depth kv.2) l d Hd) as [Hd0 Hin]. destruct l as [|kv l].
    { exists 0%nat. intros n _. unfold value_of. simpl. by rewrite Hd0. }
    assert (Forall (λ kv, value_reads (N.pred d) kv.2) (kv :: l)) as Hr.
    { apply Forall_forall. intros w Hw. rewrite Forall_forall in IH, Hin. change (forallb (λ kv, whole kv.2) (kv :: l) = true) in Hp.
      rewrite forallb_forall in Hp. apply IH; [done|by apply Hp, list_elem_of_In|by apply Hin]. }
    destruct (members_read _ _ t Hr ltac:(done)) as [k Hk]. exists k. intros n Hn. rewrite encode_object, value_of_object, Hd0, Hk by done.
    destruct (Join_head "," (member_text kv) (map member_text l)) as [x Hx].
    change (map member_text (kv :: l)) with (member_text kv :: map member_text l). rewrite Hx. reflexivity.
Qed.

Lemma first_value_coerced v t :
  whole v = true → (depth v <= max_depth)%N → delimits t = true → first_value (encode v +:+ t) = Some (coerced v, t).
Proof.
  intros Hp Hd Ht. destruct (encode_reads v _ Hp Hd t Ht) as [k Hk]. unfold first_value.
  rewrite <-(value_fuel (fuel (encode v +:+ t) + k)) by lia. apply Hk. lia.
Qed.

Lemma first_value_encode v t :
  plain v = true → (depth v <= max_depth)%N → delimits t = true → first_value (encode v +:+ t) = Some (v, t).
Proof. intros [Hw Hc]%plain_whole Hd Ht. by rewrite first_value_coerced, Hc. Qed.

(** What [json.Marshal] writes, [json.Unmarshal] reads. *)
Lemma parse_encode v : plain v = true → (depth v <= max_depth)%N → parse (encode v) = Some v.
Proof.
  intros Hp Hd. unfold parse. rewrite <-(app_empty_r (encode v)), first_value_encode by done. reflexivity.
Qed.

(** * How long the text is *)

Lemma quote_byte_length c : (String.length (quote_byte c) ≤ 6)%nat.
Proof. destruct c as [[] [] [] [] [] [] [] []]; vm_compute; lia. Qed.

(** Six bytes for one at most. *)
Lemma quoted_length s : (String.length (quoted s) ≤ 6 * String.length s)%nat.
Proof.
  unfold quoted. induction s as [|s r t [E Hf] _ IH] using runes_ind; [done|]. rewrite E. cbn [map concat_strings foldr].
  rewrite length_app_string. fold (concat_strings (map quote_rune (runes t))).
  assert (String.length (quote_rune r) + 6 * String.length t ≤ 6 * String.length s)%nat; [|lia].
  destruct r as [b|]; [|destruct Hf as [[c ->] _]; simpl; lia]. destruct Hf as (-> & Hb & _). rewrite length_app_string.
  assert (String.length (quote_rune (Some b)) ≤ 6 * String.length b)%nat; [|lia].
  destruct Hb as [(c & -> & _)|(c & d & u & -> & _)]; [apply quote_byte_length|].
  unfold quote_rune. destruct (line_separator _); simpl; lia.
Qed.

(** Bytes that are written as they are. *)
Definition unescaped (c : ascii) : bool := in_range c "000" "127" && bool_decide (quote_byte c = String c EmptyString).

Lemma quoted_unescaped s : all_bytes unescaped s = true → quoted s = s.
Proof.
  unfold quoted. induction s as [|c s IH]; [done|]. cbn [all_bytes]. intros [[Hc Hq]%andb_true_iff Hs]%andb_true_iff.
  cbn [runes]. rewrite Hc. cbn [map concat_strings foldr quote_rune]. apply bool_decide_eq_true in Hq. rewrite Hq.
  fold (concat_strings (map quote_rune (runes s))). by rewrite IH.
Qed.

Lemma quote_length s : String.length (quote s) = (2 + String.length (quoted s))%nat.
Proof. unfold quote. simpl. rewrite length_app_string. simpl. lia. Qed.

Lemma Join_length {A} (f : A → string) c l :
  (String.length (Join c (map f l)) ≤ sum_list_with (λ a, S (String.length (f a))) l)%nat.
Proof.
  induction l as [|a l IH]; [done|]. destruct l as [|b l]; [simpl; lia|].
  change (Join c (map f (a :: b :: l))) with (f a +:+ String c (Join c (map f (b :: l)))). rewrite length_app_string.
  cbn [String.length sum_list_with]. cbn [sum_list_with] in IH. lia.
Qed.

Lemma array_length l :
  (String.length (encode (JArray l)) ≤ 2 + sum_list_with (λ v, S (String.length (encode v))) l)%nat.
Proof.
  pose proof (Join_length encode "," l). cbn [encode]. rewrite !length_app_string. simpl. lia.
Qed.

Lemma object_length l :
  (String.length (encode (JObject l))
    ≤ 2 + sum_list_with (λ kv, 4 + String.length (quoted kv.1) + String.length (encode kv.2)) l)%nat.
Proof.
  pose proof (Join_length member_text "," l) as Hj. fold member_text. cbn [encode].
  change (map (λ kv, quote kv.1 +:+ ":" +:+ encode kv.2) l) with (map member_text l).
  rewrite !length_app_string. cbn [String.length].
  assert (sum_list_with (λ kv, S (String.length (member_text kv))) l
    = sum_list_with (λ kv, 4 + String.length (quoted kv.1) + String.length (encode kv.2)) l)%nat as <-; [|lia].
  clear Hj. induction l as [|kv l IH]; [done|]. cbn [sum_list_with]. rewrite IH. unfold member_text.
  rewrite !length_app_string, quote_length. cbn [String.length]. lia.
Qed.
