(* ===== verification/Access.v ===== *)
(** Services, permissions and the pure decisions of src/internal/access/access.go:
    the grammar of paths, methods and service IDs, the upstream target, the route
    of an HTTP request, and permission matching and overlap. *)
From S2P Require Import Prelude GoStrings NetUrl NetIP Http.

(** * Grammars *)

(** [^[a-z][a-z0-9-]{0,47}$] *)
Definition Slug (s : string) : bool :=
  match s with
  | EmptyString => false
  | String c r =>
    is_lower c && all_bytes (λ c, is_lower c || is_digit c || bool_decide (c = "-"%char)) r
    && (String.length r <=? 47)%nat
  end.

Definition path_marks : string := "/-._~!$&'()*+,;=:@".
Definition path_byte (c : ascii) : bool := is_alnum c || has_byte path_marks c.

Definition Path (p : string) : bool :=
  if bool_decide (p = EmptyString) || negb (HasPrefix p "/") || ContainsAny p "%\?#" || Contains p "//"
  then false
  else if negb (all_bytes path_byte p) then false
  else forallb (λ s, negb (bool_decide (s = ".") || bool_decide (s = ".."))) (Split "/" p).

Definition Method (m : string) : bool :=
  if bool_decide (m = EmptyString) || bool_decide (m = "*") || (64 <? String.length m)%nat
     || EqualFold m "CONNECT" || EqualFold m "TRACE"
  then false
  else all_bytes is_token m.

(** * Targets and routes *)

Definition Base (raw : string) : result URL :=
  let bad := Err (ErrMsg "service requires an HTTPS origin and conservative base path") in
  match Parse raw with
  | None => bad
  | Some u =>
    if bool_decide (Scheme u ≠ "https") || bool_decide (Hostname u = EmptyString)
       || bool_decide (User u ≠ None) || bool_decide (RawQuery u ≠ EmptyString) || ForceQuery u
       || bool_decide (Fragment u ≠ EmptyString) || bool_decide (RawPath u ≠ EmptyString)
       || bool_decide (Opaque u ≠ EmptyString)
       || (bool_decide (UPath u ≠ EmptyString) && negb (Path (UPath u)))
    then bad else Ok u
  end.

Definition query_byte (c : ascii) : bool := in_range c "033" "126" && negb (bool_decide (c = "#"%char)).

Definition Target (base path query : string) : result string :=
  match Base base with
  | Err _ => Err (ErrMsg "unsupported path")
  | Ok u =>
    if negb (Path path) then Err (ErrMsg "unsupported path") else
    if negb (all_bytes query_byte query) then Err (ErrMsg "invalid raw query") else
    Ok (URL_String (mkURL (Scheme u) (Opaque u) (User u) (Host u)
                          (TrimSuffix (UPath u) "/" +:+ path) (RawPath u) (ForceQuery u) query (Fragment u)))
  end.

(** [Route]: the service and the upstream path of [/s/SERVICE/PATH]. *)
Definition Route (r : request) : option (string * string) :=
  if IsAbs (rURL r) || bool_decide (RawPath (rURL r) ≠ EmptyString) || negb (HasPrefix (UPath (rURL r)) "/s/")
     || negb (Method (rMethod r)) || bool_decide (Get (rHeader r) "Upgrade" ≠ EmptyString)
  then None
  else match cut_at "/" (TrimPrefix (UPath (rURL r)) "/s/") with
       | None => None
       | Some (service, path) => if Slug service && Path path then Some (service, path) else None
       end.

Definition CIDR (raw : string) : result unit :=
  if bool_decide (raw = EmptyString) then Ok tt else
  match ParsePrefix raw with
  | None => Err (ErrMsg "private destination must be an explicit private CIDR")
  | Some p => check (IsPrivate (PAddr p) && (8 <=? PBits p)%Z) "private destination must be an explicit private CIDR"
  end.

(** * Services and permissions *)

Record Service := mkService {
  svc_ID : string;
  svc_Label : string;
  svc_BaseURL : string;
  svc_Auth : string;
  svc_AuthHeader : string;
  svc_PrivateCIDR : string;
  svc_Revision : Z;
  svc_Credential : string;
  svc_RequestHeaders : list string;
  svc_ResponseHeaders : list string;
}.

Record Permission := mkPermission {
  perm_ID : string;
  perm_DeviceID : string;
  perm_ServiceID : string;
  perm_Method : string;
  perm_Path : string;
  perm_Kind : string;
  perm_Mode : string;
  perm_Owner : string;
  perm_Revision : Z;
  perm_Expires : option Z;
}.

Definition HasMethod (methods method : string) : bool :=
  existsb (λ m, bool_decide (m = method)) (Split "," methods).

(** The prefix a subtree permission covers: [TrimSuffix(p.Path, "/") + "/"]. *)
Definition subtree_prefix (path : string) : string := TrimSuffix path "/" +:+ "/".

Definition Match (p : Permission) (method path : string) : bool :=
  HasMethod (perm_Method p) method &&
  (bool_decide (path = perm_Path p) ||
   (bool_decide (perm_Kind p = "subtree") && HasPrefix path (subtree_prefix (perm_Path p)))).

(** The loop of [Methods] over the fields, with the methods already seen. *)
Fixpoint methods_go (seen fields : list string) : option (list string) :=
  match fields with
  | [] => Some []
  | m :: rest =>
    if negb (Method m) || bool_decide (m ∈ seen) then None
    else (λ out, m :: out) <$> methods_go (m :: seen) rest
  end.

Definition method_sep (c : ascii) : bool := bool_decide (c = ","%char) || bool_decide (c = " "%char).

Definition Methods (raw : string) : result string :=
  match methods_go [] (FieldsFunc method_sep raw) with
  | None => Err (ErrMsg "invalid or duplicate method")
  | Some [] => Err (ErrMsg "methods required")
  | Some out => Ok (Join "," (merge_sort String.le out))
  end.

Definition Overlap (a b : Permission) : bool :=
  existsb (λ m, HasMethod (perm_Method b) m && (Match a m (perm_Path b) || Match b m (perm_Path a)))
          (Split "," (perm_Method a)).

Example target_ex :
  Target "https://api.example.com/api/" "/v1/jobs" "q=1" = Ok "https://api.example.com/api/v1/jobs?q=1".
Proof. vm_compute. reflexivity. Qed.

Example target_escapes : Target "https://h" "/a(1)" "" = Ok "https://h/a%281%29".
Proof. vm_compute. reflexivity. Qed.

Example methods_ex : Methods "POST, GET" = Ok "GET,POST".
Proof. vm_compute. reflexivity. Qed.

(** * Lemmas: matching *)

(** What [Match] asks of the path. *)
Definition covers (p : Permission) (path : string) : Prop :=
  path = perm_Path p ∨
  (perm_Kind p = "subtree" ∧ ∃ t, path = subtree_prefix (perm_Path p) +:+ t).

Lemma Match_spec p m path : Match p m path = true ↔ HasMethod (perm_Method p) m = true ∧ covers p path.
Proof.
  unfold Match, covers.
  by rewrite andb_true_iff, orb_true_iff, andb_true_iff, !bool_decide_eq_true, HasPrefix_spec.
Qed.

Lemma HasMethod_spec ms m : HasMethod ms m = true ↔ m ∈ Split "," ms.
Proof.
  unfold HasMethod. rewrite existsb_exists. split.
  - intros (x & Hx & ->%bool_decide_eq_true). by apply list_elem_of_In.
  - intros Hm. exists m. by rewrite <-list_elem_of_In, bool_decide_eq_true.
Qed.

Lemma covers_self p : covers p (perm_Path p).
Proof. by left. Qed.

(** A path is its trimmed form or its subtree prefix. *)
Lemma trimmed_cases p : p = TrimSuffix p "/" ∨ p = subtree_prefix p.
Proof. unfold subtree_prefix. destruct (TrimSuffix_cases p "/"%char); auto. Qed.

Lemma subtree_prefix_meet a b w :
  subtree_prefix b = subtree_prefix a +:+ w →
  (∃ t, b = subtree_prefix a +:+ t) ∨ TrimSuffix a "/" = TrimSuffix b "/".
Proof.
  intros H. destruct (app_suffix_inv _ _ _ _ H) as [->|(w' & -> & Hb)].
  { right. rewrite app_empty_r in H. symmetry. by apply app_inv_suffix in H. }
  left. destruct (trimmed_cases b) as [-> | ->]; [rewrite Hb|rewrite H]; eauto.
Qed.

Lemma trimmed_covers a b :
  perm_Kind a = "subtree" → perm_Kind b = "subtree" →
  TrimSuffix (perm_Path a) "/" = TrimSuffix (perm_Path b) "/" →
  covers a (perm_Path b) ∨ covers b (perm_Path a).
Proof.
  intros Ka Kb HT.
  assert (subtree_prefix (perm_Path a) = subtree_prefix (perm_Path b)) as HS
    by (unfold subtree_prefix; by rewrite HT).
  destruct (trimmed_cases (perm_Path a)) as [Ha|Ha], (trimmed_cases (perm_Path b)) as [Hb|Hb].
  - left; left. congruence.
  - left; right. split; [done|]. exists EmptyString. rewrite app_empty_r. congruence.
  - right; right. split; [done|]. exists EmptyString. rewrite app_empty_r. congruence.
  - left; left. congruence.
Qed.

(** Two permissions that cover one path cover the path of one of them. *)
Lemma covers_meet a b x :
  covers a x → covers b x → covers a (perm_Path b) ∨ covers b (perm_Path a).
Proof.
  intros [->|[Ka [u ->]]] Hb; [by right|].
  destruct Hb as [Hb|[Kb [v Hv]]]; [left; right; rewrite <-Hb; eauto|].
  destruct (prefixes_comparable _ _ _ _ Hv) as [[w Hw]|[w Hw]];
    destruct (subtree_prefix_meet _ _ _ Hw) as [[t Ht]|HT].
  - left; right; eauto.
  - by apply trimmed_covers.
  - right; right; eauto.
  - by apply trimmed_covers.
Qed.

Lemma Overlap_spec a b :
  Overlap a b = true ↔ ∃ m path, Match a m path = true ∧ Match b m path = true.
Proof.
  unfold Overlap. rewrite existsb_exists. split.
  - intros (m & Hm & [Hb Hab]%andb_true_iff). exists m.
    rewrite <-list_elem_of_In, <-HasMethod_spec in Hm.
    apply orb_true_iff in Hab as [H|H]; [exists (perm_Path b)|exists (perm_Path a)];
      split; try done; apply Match_spec; auto using covers_self.
  - intros (m & x & [Ha Ca]%Match_spec & [Hb Cb]%Match_spec). exists m.
    rewrite <-list_elem_of_In, <-HasMethod_spec. split; [done|].
    rewrite andb_true_iff, orb_true_iff, !Match_spec.
    destruct (covers_meet a b x Ca Cb); auto.
Qed.

(** Overlap does not depend on the order of its arguments. *)
Lemma Overlap_sym a b : Overlap a b = Overlap b a.
Proof.
  apply eq_bool_prop_intro. rewrite !Is_true_true, !Overlap_spec.
  split; intros (m & x & ? & ?); eauto.
Qed.

(** * Lemmas: methods *)

Lemma methods_go_spec seen fields out :
  methods_go seen fields = Some out ↔
  out = fields ∧ Forall (λ m, Method m = true) fields ∧ NoDup fields ∧ (∀ m, m ∈ fields → m ∉ seen).
Proof.
  revert seen out. induction fields as [|m fields IH]; intros seen out; simpl.
  { split.
    - intros [= <-]. repeat split; [constructor..|]. by intros m ?%not_elem_of_nil.
    - by intros (-> & _). }
  destruct (negb (Method m) || bool_decide (m ∈ seen)) eqn:E.
  - split; [done|]. intros (-> & HF & _ & Hs). apply Forall_cons in HF as [Hm _].
    rewrite Hm in E. simpl in E. apply bool_decide_eq_true in E. by apply Hs in E; [|left].
  - apply orb_false_iff in E as [Hm%negb_false_iff Hseen%bool_decide_eq_false].
    rewrite fmap_Some. setoid_rewrite IH. rewrite NoDup_cons, Forall_cons.
    split.
    + intros (o & (-> & ? & ? & Hs) & ->). repeat split; auto.
      * intros Hin. apply (Hs m Hin). by left.
      * intros x [->|Hx]%elem_of_cons; [done|]. intros ?. apply (Hs x Hx). by right.
    + intros (-> & [_ ?] & [Hni ?] & Hs). eexists; split; [|done]. repeat split; auto.
      intros x Hx [->|Hxs]%elem_of_cons; [done|]. by apply (Hs x); [right|].
Qed.

Lemma Method_token m : Method m = true → m ≠ EmptyString ∧ all_bytes is_token m = true.
Proof.
  unfold Method. case_bool_decide; simpl; [done|].
  repeat match goal with |- context [if ?b then _ else _] => destruct b end; auto; done.
Qed.

Lemma Method_word m :
  Method m = true → m ≠ EmptyString ∧ all_bytes (λ c, negb (method_sep c)) m = true
  ∧ all_bytes (not_byte ",") m = true.
Proof.
  intros [? Hm]%Method_token. split; [done|].
  split; revert Hm; apply all_bytes_weaken; vm_compute; reflexivity.
Qed.

(** A successful [Methods] returns the sorted fields, joined. *)
Lemma Methods_Ok raw s :
  Methods raw = Ok s ↔
  let fs := FieldsFunc method_sep raw in
  s = Join "," (merge_sort String.le fs) ∧ fs ≠ [] ∧ NoDup fs ∧ Forall (λ m, Method m = true) fs.
Proof.
  unfold Methods. simpl. destruct (methods_go [] _) as [out|] eqn:E.
  - apply methods_go_spec in E as (-> & ? & ? & _).
    destruct (FieldsFunc method_sep raw) eqn:Ef.
    + split; [done|]. by intros (_ & ? & _).
    + split; [by intros [= <-]|]. by intros (-> & _).
  - split; [done|]. intros (-> & Hne & ? & ?). exfalso.
    assert (methods_go [] (FieldsFunc method_sep raw) = Some (FieldsFunc method_sep raw)); [|congruence].
    apply methods_go_spec. repeat split; auto. intros ???%not_elem_of_nil. done.
Qed.

Lemma sorted_words fs :
  Forall (λ m, Method m = true) fs → Forall (λ m, Method m = true) (merge_sort String.le fs).
Proof. intros H. by rewrite (merge_sort_Permutation String.le fs). Qed.

Lemma merge_sort_nonnil fs : fs ≠ [] → merge_sort String.le fs ≠ [].
Proof.
  intros H Hn. apply H, Permutation_nil_r. by rewrite <-(merge_sort_Permutation String.le fs), Hn.
Qed.

Lemma Split_methods raw s :
  Methods raw = Ok s → Split "," s = merge_sort String.le (FieldsFunc method_sep raw).
Proof.
  intros (-> & Hne & _ & HF)%Methods_Ok. apply Split_Join; [by apply merge_sort_nonnil|].
  eapply Forall_impl; [by apply sorted_words|]. intros m. apply Method_word.
Qed.

Lemma FieldsFunc_methods raw s :
  Methods raw = Ok s → FieldsFunc method_sep s = merge_sort String.le (FieldsFunc method_sep raw).
Proof.
  intros (-> & _ & _ & HF)%Methods_Ok. apply FieldsFunc_Join; [done|].
  eapply Forall_impl; [by apply sorted_words|]. intros m (?&?&?)%Method_word. done.
Qed.

(** * Lemmas: paths, targets, routes *)

Lemma Path_bytes p : Path p = true → all_bytes path_byte p = true.
Proof.
  unfold Path. destruct (_ || _); [done|]. destruct (all_bytes path_byte p); done.
Qed.

Lemma Path_slash p : Path p = true → HasPrefix p "/" = true.
Proof.
  unfold Path. destruct (HasPrefix p "/"); [done|]. by destruct (bool_decide _).
Qed.

Lemma Base_Ok raw u :
  Base raw = Ok u →
  Parse raw = Some u ∧ Scheme u = "https" ∧ Hostname u ≠ EmptyString ∧ User u = None ∧
  RawQuery u = EmptyString ∧ ForceQuery u = false ∧ Fragment u = EmptyString ∧
  RawPath u = EmptyString ∧ Opaque u = EmptyString.
Proof.
  unfold Base. destruct (Parse raw) as [v|]; [|done].
  destruct (_ || _) eqn:E; [done|]. intros [= <-].
  repeat (apply orb_false_iff in E as [E ?H]).
  repeat match goal with H : bool_decide _ = false |- _ => apply bool_decide_eq_false in H end.
  repeat match goal with H : ¬ (_ ≠ _) |- _ => apply dec_stable in H end.
  repeat split; auto.
Qed.

(** The form of a target: the origin of the base, its path and the given path
    escaped, and the raw query. *)
Lemma Target_Ok base path query t :
  Target base path query = Ok t ↔
  ∃ u, Base base = Ok u ∧ Path path = true ∧ all_bytes query_byte query = true ∧
    t = URL_String (mkURL "https" "" None (Host u) (TrimSuffix (UPath u) "/" +:+ path) "" false query "").
Proof.
  unfold Target. destruct (Base base) as [u|] eqn:E; [|split; [done|by intros (? & ? & _)]].
  apply Base_Ok in E as HB. destruct HB as (_ & -> & _ & -> & _ & -> & -> & -> & ->).
  destruct (Path path); simpl; [|split; [done|intros (? & _ & ? & _); done]].
  destruct (all_bytes query_byte query); simpl; [|split; [done|intros (? & _ & _ & ? & _); done]].
  split; [intros [= <-]; eauto|]. by intros (? & [= <-] & _ & _ & ->).
Qed.

(** What follows the origin in a printed target: the escaped path, which has no
    question mark, and the query. *)
Definition target_tail (path query : string) : string :=
  escape path encodePath +:+
  match query with EmptyString => EmptyString | _ => String "?" query end.

Lemma target_tail_inj p q p' q' : target_tail p q = target_tail p' q' → p = p' ∧ q = q'.
Proof.
  unfold target_tail. intros H. pose proof (f_equal (cut_at "?") H) as Hc.
  destruct q as [|c q], q' as [|c' q']; rewrite ?app_empty_r in H, Hc.
  - by apply escape_inj in H.
  - rewrite cut_at_app, (cut_at_none _ (escape p encodePath)) in Hc by apply escape_no_question. done.
  - rewrite cut_at_app, (cut_at_none _ (escape p' encodePath)) in Hc by apply escape_no_question. done.
  - rewrite !cut_at_app in Hc by apply escape_no_question.
    injection Hc as He ? ?. subst. by apply escape_inj in He.
Qed.

Lemma HasPrefix_slash p : HasPrefix p "/" = true → ∃ p', p = String "/" p'.
Proof. intros [t ->]%HasPrefix_spec. by exists t. Qed.

Lemma printed_target host path query :
  host ≠ EmptyString → HasPrefix (escape path encodePath) "/" = true →
  URL_String (mkURL "https" "" None host path "" false query "") =
  "https://" +:+ (escape host encodeHost +:+ target_tail path query).
Proof.
  intros Hh Hp. unfold URL_String, EscapedPath, target_tail.
  assert (path ≠ "*") as Hstar by (intros ->; done).
  cbn [Scheme UPath Host ForceQuery RawQuery].
  rewrite (bool_decide_eq_false_2 (path = "*")) by done.
  rewrite (bool_decide_eq_false_2 ("https" = EmptyString)) by done.
  rewrite Hp, (bool_decide_eq_true_2 ("https" ≠ EmptyString ∨ _)) by auto.
  rewrite (bool_decide_eq_true_2 (host ≠ EmptyString ∨ _)) by auto.
  cbn [negb andb orb]. rewrite andb_false_r, app_nil_string.
  by destruct query; autorewrite with gostr.
Qed.

Lemma escape_slash p m : (m = encodePath) → HasPrefix p "/" = true → HasPrefix (escape p m) "/" = true.
Proof. intros -> [p' ->]%HasPrefix_slash. done. Qed.

(** The path a target is printed with starts with a slash. *)
Lemma target_path_slash base u path :
  Base base = Ok u → Path path = true → HasPrefix (TrimSuffix (UPath u) "/" +:+ path) "/" = true.
Proof.
  intros Hb Hp%Path_slash. apply HasPrefix_slash in Hp as [p' ->].
  unfold Base in Hb. destruct (Parse base) as [v|]; [|done].
  destruct (_ || _) eqn:E; [done|]. injection Hb as ->.
  apply orb_false_iff in E as [_ E].
  destruct (TrimSuffix (UPath u) "/") as [|c t] eqn:Et; [done|].
  destruct (decide (UPath u = EmptyString)) as [Hu|Hu].
  { rewrite Hu in Et. done. }
  rewrite bool_decide_eq_true_2 in E by done. simpl in E. apply negb_false_iff, Path_slash in E.
  apply HasPrefix_slash in E as [q Hq].
  destruct (TrimSuffix_cases (UPath u) "/"%char) as [H|H]; rewrite Et, Hq in H;
    rewrite ?app_cons_string in H; injection H as <- _; done.
Qed.

Lemma Target_form base path query t :
  Target base path query = Ok t →
  ∃ u, Base base = Ok u ∧ Path path = true ∧ all_bytes query_byte query = true ∧
    t = "https://" +:+ (escape (Host u) encodeHost +:+ target_tail (TrimSuffix (UPath u) "/" +:+ path) query).
Proof.
  intros (u & Hb & Hp & Hq & ->)%Target_Ok. exists u. repeat split; try done.
  rewrite printed_target; [done| |].
  - destruct (Base_Ok _ _ Hb) as (_ & _ & Hh & _). intros He. apply Hh.
    unfold Hostname. by rewrite He.
  - apply escape_slash; [done|]. by eapply target_path_slash.
Qed.

Lemma Path_no_special p c :
  has_byte path_marks c = false → is_alnum c = false → Path p = true → all_bytes (not_byte c) p = true.
Proof.
  intros Hm Ha Hp%Path_bytes. revert Hp. apply all_bytes_impl. intros d Hd.
  apply not_byte_true. intros ->. unfold path_byte in Hd. by rewrite Hm, Ha in Hd.
Qed.

Lemma Slug_bytes s : Slug s = true → all_bytes (λ c, is_alnum c || bool_decide (c = "-"%char)) s = true.
Proof.
  destruct s as [|c s]; [done|]. simpl. rewrite !andb_true_iff. intros [[Hc Hs] _].
  split.
  - revert c Hc. apply bytes_impl. vm_compute. reflexivity.
  - revert Hs. apply all_bytes_weaken. vm_compute. reflexivity.
Qed.

(** The bytes of a route: those of a slug, a path, and the two slashes. *)
Lemma route_bytes service path :
  Slug service = true → Path path = true →
  all_bytes path_byte ("/s/" +:+ service +:+ path) = true.
Proof.
  intros Hs%Slug_bytes Hp%Path_bytes. rewrite !all_bytes_app, Hp, andb_true_r.
  apply andb_true_iff; split; [by vm_compute|].
  revert Hs. apply all_bytes_weaken. vm_compute. reflexivity.
Qed.

Lemma Slug_no_slash s : Slug s = true → all_bytes (not_byte "/") s = true.
Proof. intros H%Slug_bytes. revert H. apply all_bytes_weaken. vm_compute. reflexivity. Qed.

Lemma Route_spec r service path :
  Route r = Some (service, path) ↔
  IsAbs (rURL r) = false ∧ RawPath (rURL r) = EmptyString ∧ Method (rMethod r) = true ∧
  Get (rHeader r) "Upgrade" = EmptyString ∧
  UPath (rURL r) = "/s/" +:+ service +:+ path ∧ Slug service = true ∧ Path path = true.
Proof.
  unfold Route. split.
  - destruct (_ || _) eqn:E; [done|].
    repeat (apply orb_false_iff in E as [E ?H]).
    apply negb_false_iff in H0, H1. apply bool_decide_eq_false, dec_stable in H, H2.
    apply HasPrefix_spec in H1 as [rest Hrest]. rewrite Hrest.
    rewrite TrimPrefix_app. destruct (cut_at "/" rest) as [[s p]|] eqn:Ec; [|done].
    apply cut_at_some in Ec as (-> & _ & _).
    destruct (Slug s) eqn:?, (Path p) eqn:?; try done. intros [= <- <-]. done.
  - intros (Ha & Hr & Hm & Hu & Hp & Hs & Hq).
    rewrite Ha, Hr, Hm, Hu, Hp. rewrite !bool_decide_eq_false_2 by (intros H; by apply H).
    rewrite HasPrefix_app, TrimPrefix_app. cbn [negb orb].
    apply Path_slash in Hq as Hslash. apply HasPrefix_slash in Hslash as [p' ->].
    rewrite cut_at_app by by apply Slug_no_slash. by rewrite Hs, Hq.
Qed.

(** * Properties *)

(** C38: Overlap is complete and symmetric: two permissions overlap, as the owner's
    grant handler decides it, exactly when some method and path are matched by
    both, whichever of the two comes first. *)
Theorem Overlap_iff a b :
  (Overlap a b = true ↔ ∃ m path, Match a m path = true ∧ Match b m path = true) ∧
  Overlap a b = Overlap b a.
Proof. split; [apply Overlap_spec | apply Overlap_sym]. Qed.

(** Matching is segment-bounded: a permission matches a request exactly when
    it lists the method and its path is the request's, or it is a subtree whose
    segments (a trailing slash aside) are a proper prefix of the request's. *)
Theorem Match_segments p m x :
  Match p m x = true ↔
  m ∈ Split "," (perm_Method p) ∧
  (x = perm_Path p ∨
   perm_Kind p = "subtree" ∧
   ∃ rest, rest ≠ [] ∧ Split "/" x = Split "/" (TrimSuffix (perm_Path p) "/") ++ rest).
Proof.
  rewrite Match_spec, HasMethod_spec. unfold covers, subtree_prefix.
  assert ((∃ t, x = (TrimSuffix (perm_Path p) "/" +:+ "/") +:+ t) ↔
          ∃ rest, rest ≠ [] ∧ Split "/" x = Split "/" (TrimSuffix (perm_Path p) "/") ++ rest) as ->;
    [|done].
  split.
  - intros [t ->]. exists (Split "/" t). split; [apply Split_nonnil|].
    by rewrite app_string_assoc, <-Split_app_sep.
  - intros (rest & Hne & Hx). exists (Join "/" rest).
    rewrite <-(Join_Split "/" x), Hx, Join_app by (done || apply Split_nonnil).
    by rewrite Join_Split, app_string_assoc.
Qed.

(** The method list of a permission is canonical: what [Methods] accepts is
    the sorted list of the given methods, it lists exactly those, each a valid
    method, and parsing it again changes nothing. *)
Theorem Methods_canonical raw s (H : Methods raw = Ok s) :
  (∀ m, HasMethod s m = true ↔ m ∈ FieldsFunc method_sep raw) ∧
  (∀ m, HasMethod s m = true → Method m = true) ∧
  Sorted String.le (Split "," s) ∧ Methods s = Ok s.
Proof.
  pose proof (Methods_Ok raw s) as [HOk _]. destruct (HOk H) as (Hs & Hne & Hnd & HF).
  assert (∀ m, HasMethod s m = true ↔ m ∈ FieldsFunc method_sep raw) as Hm.
  { intros m. rewrite HasMethod_spec, (Split_methods _ _ H).
    by rewrite (merge_sort_Permutation String.le). }
  split; [done|]. split.
  { intros m Hin%Hm. by eapply Forall_forall in HF. }
  rewrite (Split_methods _ _ H). split; [apply Sorted_merge_sort; apply _|].
  apply Methods_Ok. cbv zeta. rewrite (FieldsFunc_methods _ _ H).
  repeat split; auto using merge_sort_nonnil, sorted_words.
  - rewrite Hs. f_equal. apply (Sorted_unique String.le).
    + apply Sorted_merge_sort; apply _.
    + apply Sorted_merge_sort; apply _.
    + symmetry. apply merge_sort_Permutation.
  - by rewrite (merge_sort_Permutation String.le).
Qed.

Lemma Methods_canonical_witness :
  (∀ m, HasMethod "GET,POST" m = true ↔ m ∈ FieldsFunc method_sep "POST, GET") ∧
  (∀ m, HasMethod "GET,POST" m = true → Method m = true) ∧
  Sorted String.le (Split "," "GET,POST") ∧ Methods "GET,POST" = Ok "GET,POST".
Proof. apply (Methods_canonical "POST, GET" "GET,POST"). vm_compute. reflexivity. Defined.

(** Under one service base, the printed target determines the path and the
    query, so a stored target that equals a recomputed one was made from the
    same path and query. *)
Theorem Target_injective base p q p' q' t
    (H : Target base p q = Ok t) (H' : Target base p' q' = Ok t) : p = p' ∧ q = q'.
Proof.
  apply Target_form in H as (u & Hu & _ & _ & ->).
  apply Target_form in H' as (u' & Hu' & _ & _ & Ht).
  rewrite Hu in Hu'. injection Hu' as <-.
  apply app_inj_l, app_inj_l, target_tail_inj in Ht as [Ht ->].
  by apply app_inj_l in Ht.
Qed.

Lemma Target_injective_witness :
  Target "https://api.example.com/v1" "/jobs" "a=1" = Ok "https://api.example.com/v1/jobs?a=1" ∧
  ("/jobs" = "/jobs" ∧ "a=1" = "a=1").
Proof.
  split; [vm_compute; reflexivity|].
  apply (Target_injective "https://api.example.com/v1" "/jobs" "a=1" "/jobs" "a=1"
           "https://api.example.com/v1/jobs?a=1"); vm_compute; reflexivity.
Defined.

(** The bytes [Path] accepts and the default encoding of a path escapes. *)
Definition escaped_marks : string := "!'()*".

(** An ordinary HTTP request line for a valid service and path is routed to
    them exactly when the path has none of the five marks [!], ['], [(], [)],
    [*]: those are valid in a permission and in an MCP submission, but give the
    parsed request line a RawPath, which [Route] refuses. *)
Theorem Route_request_line service path method host h
    (Hs : Slug service = true) (Hp : Path path = true)
    (Hm : Method method = true) (Hu : Get h "Upgrade" = EmptyString) :
  ∃ u, ParseRequestURI ("/s/" +:+ service +:+ path) = Some u ∧
    Route (mkRequest method u host h) =
    if all_bytes (λ c, negb (has_byte escaped_marks c)) path then Some (service, path) else None.
Proof.
  pose proof (route_bytes _ _ Hs Hp) as Hbytes.
  eexists. split.
  { apply ParseRequestURI_path; [done| | |]; revert Hbytes; apply all_bytes_weaken; by vm_compute. }
  assert (all_bytes (λ c, negb (shouldEscape c encodePath)) ("/s/" +:+ service +:+ path) =
          all_bytes (λ c, negb (has_byte escaped_marks c)) path) as Hmarks.
  { rewrite !all_bytes_app.
    assert (all_bytes (λ c, negb (shouldEscape c encodePath)) service = true) as ->.
    { revert Hs. intros H%Slug_bytes. revert H. apply all_bytes_weaken. by vm_compute. }
    simpl. pose proof (Path_bytes _ Hp) as Hpb. clear -Hpb. induction path as [|c p IH]; [done|].
    simpl in *. apply andb_true_iff in Hpb as [Hc Hpb]. rewrite IH by done. f_equal.
    revert c Hc. assert (∀ c, negb (path_byte c) || Bool.eqb (negb (shouldEscape c encodePath))
      (negb (has_byte escaped_marks c)) = true) as Hall by (apply for_all_bytes_spec; by vm_compute).
    intros c Hc. specialize (Hall c). rewrite Hc in Hall. by apply Bool.eqb_prop. }
  rewrite <-Hmarks. destruct (all_bytes (λ c, negb (shouldEscape c encodePath)) _) eqn:E.
  - apply escape_id in E. rewrite bool_decide_eq_true_2 by done. by apply Route_spec.
  - rewrite bool_decide_eq_false_2.
    + unfold Route. simpl. done.
    + intros H. symmetry in H. apply escape_id in H. congruence.
Qed.

Lemma Route_request_line_witness :
  ∃ u, ParseRequestURI ("/s/" +:+ "files" +:+ "/report(1)") = Some u ∧
    Route (mkRequest "GET" u "127.0.0.1:18782" ∅) =
    if all_bytes (λ c, negb (has_byte escaped_marks c)) "/report(1)" then Some ("files", "/report(1)") else None.
Proof.
  apply (Route_request_line "files" "/report(1)" "GET" "127.0.0.1:18782" ∅); vm_compute; reflexivity.
Defined.
