(* ===== verification/Upstream.v ===== *)
(** The outbound side, src/internal/upstream/http.go: which header names and
    values may cross, which addresses may be dialled, how the credential is added
    to a request, and how a response is streamed.

    What the network does is an argument: the resolver's answer, whether a dial
    succeeds, and what the HTTP transport makes of a request.  The one fact the
    code reads off the transport besides its result is whether [GotConn] ran. *)
From S2P Require Import Prelude GoStrings NetUrl NetIP Http Access.

(** * Header names and values *)

Definition reserved_names : list string :=
  ["authorization"; "proxy-authorization"; "cookie"; "set-cookie"; "www-authenticate";
   "proxy-authenticate"; "host"; "connection"; "keep-alive"; "proxy-connection"; "te"; "trailer";
   "transfer-encoding"; "upgrade"; "content-length"; "forwarded"; "via"; "x-real-ip";
   "x-http-method-override"; "x-http-method"; "x-method-override"].

Definition reserved_prefixes : list string :=
  ["x-forwarded-"; "x-budge-"; "budge-"; "sec-"; "x-auth-"; "x-remote-"; "x-ssl-"; "x-client-cert"].

Definition Reserved (name : string) : bool :=
  let n := ToLower name in
  bool_decide (n ∈ reserved_names) || existsb (HasPrefix n) reserved_prefixes.

Definition HeaderName (n : string) : bool :=
  if bool_decide (n = EmptyString) then false else all_bytes is_token n.

Definition value_byte (c : ascii) : bool :=
  negb (bool_decide (c = "127"%char) || in_range c "000" "031" && negb (bool_decide (c = "009"%char))).

Definition HeaderValue (s : string) : bool := all_bytes value_byte s.

(** The names the [Connection] header nominates, canonicalised. *)
Definition connection_names (src : header) : list string :=
  concat (map (λ line, map (λ n, CanonicalHeaderKey (TrimSpace n)) (Split "," line)) (Values src "Connection")).

(** The body of the loop of [Headers] for one allowed name. *)
Definition header_step (src : header) (credentialHeader : string) (out : header) (name : string) : header :=
  let n := CanonicalHeaderKey name in
  if negb (HeaderName n) || Reserved n || EqualFold n credentialHeader
     || bool_decide (n ∈ connection_names src)
  then out
  else foldl (λ out v, if HeaderValue v then Add out n v else out) out (Values src n).

Definition Headers (src : header) (allowed : list string) (credentialHeader : string) : header :=
  foldl (header_step src credentialHeader) ∅ allowed.

(** * Addresses *)

Definition blocked_prefixes : list string :=
  ["100.64.0.0/10"; "192.0.0.0/24"; "198.18.0.0/15"; "240.0.0.0/4"; "64:ff9b::/96"; "64:ff9b:1::/48"].

(** [MustParsePrefix] panics on a prefix that does not parse; the six do. *)
Definition in_prefix (raw : string) (a : Addr) : bool :=
  match ParsePrefix raw with Some p => PrefixContains p a | None => false end.

Definition AllowedAddress (a : Addr) (cidr : string) : bool :=
  let a := Unmap a in
  if negb (IsValid a) || IsLoopback a || IsLinkLocalUnicast a || IsLinkLocalMulticast a
     || IsMulticast a || IsUnspecified a then false
  else if existsb (λ raw, in_prefix raw a) blocked_prefixes then false
  else if IsPrivate a then in_prefix cidr a
  else IsGlobalUnicast a.

(** [DialContext]: [lookup] is the resolver's answer for the host ([None] for an
    error), [connects] tells which addresses accept a connection. *)
Definition DialContext (cidr : string) (lookup : option (list Addr)) (connects : Addr → bool) : result Addr :=
  match lookup with
  | None => Err (ErrMsg "destination resolution failed")
  | Some ips =>
    if negb (forallb (λ ip, AllowedAddress ip cidr) ips) then Err (ErrMsg "destination blocked") else
    match List.find connects ips with
    | Some ip => Ok ip
    | None => Err (ErrMsg "destination connection failed")
    end
  end.

(** * Sending *)

(** The request handed to the transport. *)
Record outgoing := mkOutgoing {
  o_method : string;
  o_url : string;
  o_header : header;
  o_body : string;
}.

(** How the transport ends: a response, or an error before or after a usable
    connection was got. *)
Inductive transport_result (R : Type) : Type :=
| TResponse (res : R)
| TError (gotConn : bool).
Arguments TResponse {R} res.
Arguments TError {R} gotConn.

Inductive send_result (R : Type) : Type :=
| Sent (res : R)
| NotSent
| SendError.
Arguments Sent {R} res.
Arguments NotSent {R}.
Arguments SendError {R}.

(** [http.NewRequestWithContext]: the method is a token, the URL parses. *)
Definition new_request_ok (method target : string) : bool :=
  all_bytes is_token method && bool_decide (is_Some (Parse target)).

(** The headers of the request: the filtered ones, then the authentication. *)
Definition authenticate (s : Service) (h : header) (credential : string) : result header :=
  let h := Headers h (svc_RequestHeaders s) (svc_AuthHeader s) in
  if bool_decide (svc_Auth s = "bearer") then Ok (Set_ h "Authorization" ("Bearer " +:+ credential))
  else if bool_decide (svc_Auth s = "header") then Ok (Set_ h (svc_AuthHeader s) credential)
  else if bool_decide (svc_Auth s = "basic") then
    match Cut credential ":" with
    | Some (user, pass) => Ok (Set_ h "Authorization" ("Basic " +:+ StdEncoding (user +:+ ":" +:+ pass)))
    | None => Err (ErrMsg "invalid basic credential")
    end
  else if bool_decide (svc_Auth s = "none") then Ok h
  else Err (ErrMsg "unsupported authentication").

Definition prepare (s : Service) (method target : string) (h : header) (body credential : string)
    : result outgoing :=
  if negb (new_request_ok method target) then Err (ErrMsg "invalid request") else
  match authenticate s h credential with
  | Ok h' => Ok (mkOutgoing (if bool_decide (method = EmptyString) then "GET" else method) target h' body)
  | Err e => Err e
  end.

(** [Send]: an error before [GotConn] ran is marked [ErrNotSent]. *)
Definition Send {R} (s : Service) (method target : string) (h : header) (body credential : string)
    (transport : outgoing → transport_result R) : send_result R :=
  match prepare s method target h body credential with
  | Err _ => NotSent
  | Ok o =>
    match transport o with
    | TResponse res => Sent res
    | TError true => SendError
    | TError false => NotSent
    end
  end.

(** * Streaming *)

(** One [Read] of the body: the bytes, and whether it ended the body or failed. *)
Inductive read_end := More | EOF | ReadError.

(** One turn of the loop of [Stream]: the chunk read, how the read ended, and the
    outcome of writing the chunk on (bytes taken, success), used when it is not
    empty. *)
Record turn := mkTurn { t_chunk : string; t_end : read_end; t_written : nat; t_ok : bool }.

(** The loop.  A reader ends, so the list ends with a turn that is not [More]. *)
Fixpoint stream_go (turns : list turn) (total : nat) : nat * bool :=
  match turns with
  | [] => (total, false)
  | t :: rest =>
    let empty := bool_decide (t_chunk t = EmptyString) in
    let total := if empty then total else (total + t_written t)%nat in
    if negb empty && negb (t_ok t) then (total, false) else
    match t_end t with
    | EOF => (total, true)
    | ReadError => (total, false)
    | More => stream_go rest total
    end
  end.

(** The header written, the bytes written, and whether the error is nil. *)
Definition Stream (res_header : header) (allowed : list string) (turns : list turn)
    : header * (nat * bool) :=
  (Headers res_header allowed EmptyString, stream_go turns 0).

Example reserved_ex : map Reserved ["Authorization"; "X-Forwarded-For"; "X-Client-Certificate"; "Accept"] =
  [true; true; true; false].
Proof. vm_compute. reflexivity. Qed.

Example allowed_ex :
  map (λ s, match ParseAddr s with Some a => AllowedAddress a "10.0.0.0/8" | None => false end)
    ["8.8.8.8"; "127.0.0.1"; "::ffff:127.0.0.1"; "10.1.2.3"; "192.168.1.1"; "169.254.169.254";
     "64:ff9b::8.8.8.8"; "2606:4700::1111"; "100.100.100.200"] =
  [true; false; false; true; false; false; false; true; false].
Proof. vm_compute. reflexivity. Qed.

(** * Lemmas: the header filter *)

(** What the loop does with one name: whether its values may pass. *)
Definition passes (src : header) (cred k : string) : bool :=
  HeaderName k && negb (Reserved k) && negb (EqualFold k cred) && negb (bool_decide (k ∈ connection_names src)).

(** The values of [k] that pass, if the name does. *)
Definition passed (src : header) (cred k : string) : option (list string) :=
  let vs := filter (λ v, HeaderValue v = true) (Values src k) in
  if passes src cred k && bool_decide (vs ≠ []) then Some vs else None.

Lemma add_values_lookup out n vs k :
  CanonicalHeaderKey n = n →
  foldl (λ out v, if HeaderValue v then Add out n v else out) out vs !! k =
  if decide (k = n) then
    (if decide (filter (λ v, HeaderValue v = true) vs = []) then out !! k
     else Some (Values out n ++ filter (λ v, HeaderValue v = true) vs))
  else out !! k.
Proof.
  intros Hn. revert out. induction vs as [|v vs IH]; intros out.
  { simpl. by repeat case_decide. }
  simpl foldl. rewrite filter_cons. destruct (HeaderValue v) eqn:Ev.
  - rewrite (decide_True (P := true = true)) by done. rewrite IH. unfold Add, Values. rewrite Hn.
    repeat case_decide; subst; rewrite ?lookup_insert_eq, ?lookup_insert_ne by done; try done.
    + rewrite H0. done.
    + simpl. by rewrite <-app_assoc.
  - rewrite (decide_False (P := false = true)) by done. by rewrite IH.
Qed.

Lemma header_step_lookup src cred out name k :
  out !! CanonicalHeaderKey name = None →
  header_step src cred out name !! k =
  if decide (k = CanonicalHeaderKey name) then passed src cred k else out !! k.
Proof.
  intros Hout. unfold header_step, passed, passes. set (n := CanonicalHeaderKey name) in *.
  assert (CanonicalHeaderKey n = n) as Hn by apply CanonicalHeaderKey_idem.
  destruct (decide (k = n)) as [->|Hk].
  - destruct (HeaderName n); simpl; [|done]. destruct (Reserved n); simpl; [done|].
    destruct (EqualFold n cred); simpl; [done|].
    destruct (bool_decide (n ∈ connection_names src)); simpl; [done|].
    rewrite add_values_lookup by done. rewrite decide_True by done.
    assert (Values out n = []) as -> by (unfold Values; by rewrite Hn, Hout).
    rewrite Hout. simpl. by case_decide; case_bool_decide.
  - destruct (_ || _); [done|]. rewrite add_values_lookup by done. by case_decide.
Qed.

Lemma headers_fold_lookup src cred allowed out k :
  NoDup (map CanonicalHeaderKey allowed) →
  (∀ n, n ∈ map CanonicalHeaderKey allowed → out !! n = None) →
  foldl (header_step src cred) out allowed !! k =
  if decide (k ∈ map CanonicalHeaderKey allowed) then passed src cred k else out !! k.
Proof.
  revert out. induction allowed as [|a allowed IH]; intros out; simpl.
  { done. }
  rewrite NoDup_cons. intros [Hni Hnd] Hout.
  assert (out !! CanonicalHeaderKey a = None) as Ha by (apply Hout; by left).
  pose proof (λ k, header_step_lookup src cred out a k Ha) as Hstep.
  rewrite IH; [| done |].
  - rewrite Hstep. destruct (decide (k = CanonicalHeaderKey a)) as [->|Hk].
    + rewrite decide_False by done. rewrite decide_True; [done|]. by left.
    + apply decide_ext. rewrite elem_of_cons. split; [by right|]. by intros [?|?].
  - intros n Hn. rewrite Hstep, decide_False by (intros ->; done). apply Hout. by right.
Qed.

(** Filtering an allow list without duplicates is a lookup. *)
Lemma Headers_lookup src cred allowed k :
  NoDup (map CanonicalHeaderKey allowed) →
  Headers src allowed cred !! k =
  if decide (k ∈ map CanonicalHeaderKey allowed) then passed src cred k else None.
Proof.
  intros Hnd. unfold Headers. rewrite headers_fold_lookup by done. by case_decide.
Qed.

Lemma header_step_confined src cred out name k :
  is_Some (header_step src cred out name !! k) →
  is_Some (out !! k) ∨ (k = CanonicalHeaderKey name ∧ passes src cred k = true).
Proof.
  unfold header_step, passes. set (n := CanonicalHeaderKey name) in *.
  destruct (_ || _) eqn:E; [by left|].
  repeat (apply orb_false_iff in E as [E ?H]). apply negb_false_iff in E.
  rewrite add_values_lookup by apply CanonicalHeaderKey_idem.
  destruct (decide (k = n)) as [Hk|Hk]; [rewrite Hk|by left]. intros _. right. split; [done|]. by rewrite E, H1, H0, H.
Qed.

(** Whatever the allow list, a name of the result is on it and passes. *)
Lemma Headers_confined src allowed cred k :
  is_Some (Headers src allowed cred !! k) →
  k ∈ map CanonicalHeaderKey allowed ∧ passes src cred k = true.
Proof.
  unfold Headers.
  assert (∀ out, is_Some (foldl (header_step src cred) out allowed !! k) →
    is_Some (out !! k) ∨ (k ∈ map CanonicalHeaderKey allowed ∧ passes src cred k = true)) as H.
  { induction allowed as [|a allowed IH]; simpl; intros out; [by left|].
    intros [Hs|[? ?]]%IH; [|right; split; [by right|done]].
    apply header_step_confined in Hs as [?|[-> ?]]; [by left|right; split; [by left|done]]. }
  intros [Hs|?]%H; [|done]. rewrite lookup_empty in Hs. by destruct Hs.
Qed.

Lemma Headers_reserved src allowed cred k : Reserved k = true → Headers src allowed cred !! k = None.
Proof.
  intros Hr. apply eq_None_not_Some. intros [_ Hp]%Headers_confined.
  unfold passes in Hp. rewrite Hr, andb_false_r in Hp. done.
Qed.

Lemma Headers_credential src allowed cred k :
  EqualFold k cred = true → Headers src allowed cred !! k = None.
Proof.
  intros Hr. apply eq_None_not_Some. intros [_ Hp]%Headers_confined.
  unfold passes in Hp. rewrite Hr, andb_false_r in Hp. done.
Qed.

#[export] Hint Resolve Headers_reserved Headers_credential : budge.

(** * Lemmas: addresses *)

Open Scope Z_scope.

Lemma shiftr_eqb v k c :
  0 ≤ k → (Z.shiftr v k =? c) = (c * 2 ^ k <=? v) && (v <? (c + 1) * 2 ^ k).
Proof.
  intros Hk. rewrite Z.shiftr_div_pow2 by done.
  assert (0 < 2 ^ k) as Hp by (apply Z.pow_pos_nonneg; lia).
  apply eq_bool_prop_intro. rewrite andb_True, !Is_true_true, Z.eqb_eq, Z.leb_le, Z.ltb_lt.
  split; [intros <-|intros [??]].
  - pose proof (Z.mul_div_le v (2 ^ k) Hp). pose proof (Z.mul_succ_div_gt v (2 ^ k) Hp). lia.
  - symmetry. apply (Z.div_unique v (2 ^ k) c (v - c * 2 ^ k)); lia.
Qed.

(** Membership in an IPv4 prefix written as text, as an interval. *)
Lemma in_prefix_v4 raw n b v :
  ParsePrefix raw = Some (mkPrefix (Addr4 n) b) → 0 ≤ b ≤ 32 →
  in_prefix raw (Addr4 v) =
    (Z.shiftr n (32 - b) * 2 ^ (32 - b) <=? v) && (v <? (Z.shiftr n (32 - b) + 1) * 2 ^ (32 - b)).
Proof.
  intros Hp Hb. unfold in_prefix, PrefixContains, top. rewrite Hp. simpl.
  rewrite Z.eqb_sym. apply shiftr_eqb. lia.
Qed.

(** Membership of an IPv6 address in a textual IPv6 prefix. *)
Lemma in_prefix_v6 raw n b v :
  ParsePrefix raw = Some (mkPrefix (Addr6 n EmptyString) b) → 0 ≤ b ≤ 128 →
  in_prefix raw (Addr6 v EmptyString) =
    (Z.shiftr n (128 - b) * 2 ^ (128 - b) <=? v) && (v <? (Z.shiftr n (128 - b) + 1) * 2 ^ (128 - b)).
Proof.
  intros Hp Hb. unfold in_prefix, PrefixContains, top. rewrite Hp. simpl.
  rewrite Z.eqb_sym. apply shiftr_eqb. lia.
Qed.
Close Scope Z_scope.

(** * Properties *)

(** C39: Filtering headers against an allow list without duplicates gives, for
    every name, exactly the valid values of that name if it is listed, is a
    header name, is not reserved, is not the credential's and is not nominated by
    the Connection header, and nothing otherwise. *)
Theorem Headers_exact src allowed cred k (Hnd : NoDup (map CanonicalHeaderKey allowed)) :
  Headers src allowed cred !! k =
  if decide (k ∈ map CanonicalHeaderKey allowed ∧ HeaderName k = true ∧ Reserved k = false ∧
             EqualFold k cred = false ∧ (k ∉ connection_names src) ∧
             filter (λ v, HeaderValue v = true) (Values src k) ≠ [])
  then Some (filter (λ v, HeaderValue v = true) (Values src k)) else None.
Proof.
  rewrite Headers_lookup by done. unfold passed, passes.
  destruct (decide (k ∈ map _ _)) as [Hin|Hin]; [|rewrite decide_False by tauto; done].
  destruct (HeaderName k), (Reserved k), (EqualFold k cred); simpl;
    try by rewrite decide_False by (intros (? & ? & ? & ? & ? & ?); congruence).
  repeat case_bool_decide; simpl; symmetry; first [by apply decide_True | by apply decide_False; tauto].
Qed.

Lemma Headers_exact_witness :
  Headers {["Accept" := ["a"; "b"]; "Connection" := ["x-hop"]; "X-Hop" := ["1"]; "Cookie" := ["c"]]}
          ["accept"; "X-Hop"; "cookie"] "" !! "Accept" = Some ["a"; "b"].
Proof.
  rewrite (Headers_exact {["Accept" := ["a"; "b"]; "Connection" := ["x-hop"]; "X-Hop" := ["1"]; "Cookie" := ["c"]]}
          ["accept"; "X-Hop"; "cookie"] "" "Accept"); [vm_compute; reflexivity|].
  apply (bool_decide_eq_true_1 (NoDup _)). vm_compute. reflexivity.
Defined.

(** The header the credential is written to, and its value. *)
Definition injected (s : Service) (credential : string) : option (string * string) :=
  if bool_decide (svc_Auth s = "bearer") then Some ("Authorization", "Bearer " +:+ credential)
  else if bool_decide (svc_Auth s = "header") then Some (CanonicalHeaderKey (svc_AuthHeader s), credential)
  else if bool_decide (svc_Auth s = "basic") then
    fmap (λ '(user, pass), ("Authorization", "Basic " +:+ StdEncoding (user +:+ ":" +:+ pass))) (Cut credential ":")
  else None.

(** Whatever headers the caller sends, the outgoing request carries the
    service's credential in its one header with exactly one value, and no other
    reserved header (authorization, cookie, forwarding, hop-by-hop) nor a
    caller's value of the credential header. *)
Theorem authenticate_credential s h credential h' (H : authenticate s h credential = Ok h') :
  (∀ n v, injected s credential = Some (n, v) → h' !! n = Some [v]) ∧
  (∀ k, Reserved k = true ∨ EqualFold k (svc_AuthHeader s) = true →
        fmap fst (injected s credential) ≠ Some k → h' !! k = None).
Proof.
  revert H. unfold authenticate, injected.
  assert (∀ k, Reserved k = true ∨ EqualFold k (svc_AuthHeader s) = true →
     Headers h (svc_RequestHeaders s) (svc_AuthHeader s) !! k = None) as Hno
    by (intros k [?|?]; auto with budge).
  assert (∀ n v k, (∀ n' v', Some (n, v) = Some (n', v') →
      (<[n := [v]]> (Headers h (svc_RequestHeaders s) (svc_AuthHeader s))) !! n' = Some [v']) ∧
     (Reserved k = true ∨ EqualFold k (svc_AuthHeader s) = true → fmap fst (Some (n, v)) ≠ Some k →
      (<[n := [v]]> (Headers h (svc_RequestHeaders s) (svc_AuthHeader s))) !! k = None)) as Hset.
  { intros n v k. split; [intros n' v' [= <- <-]; apply lookup_insert_eq|].
    intros Hk Hne. rewrite lookup_insert_ne by (intros ->; done). auto. }
  repeat case_bool_decide; try (intros [= <-]); try done.
  - split; [apply (Hset _ _ EmptyString)|apply Hset].
  - split; [apply (Hset _ _ EmptyString)|apply Hset].
  - destruct (Cut credential ":") as [[user pass]|]; [|done]. intros [= <-].
    split; [apply (Hset _ _ EmptyString)|apply Hset].
  - split; [done|auto].
Qed.

Definition example_service : Service :=
  mkService "reports" "Reports" "https://api.example.com/api" "bearer" "" "" 1 "" ["Accept"; "Content-Type"] ["Content-Type"].

Definition example_headers : header :=
  {["Authorization" := ["Bearer budge-local"]; "Accept" := ["*/*"]; "Cookie" := ["a=b"]]}.

Definition example_out : header :=
  match authenticate example_service example_headers "tok" with Ok h => h | Err _ => ∅ end.

Lemma example_out_eq : authenticate example_service example_headers "tok" = Ok example_out.
Proof. vm_compute. reflexivity. Qed.

Lemma authenticate_credential_witness :
  authenticate example_service example_headers "tok" = Ok example_out ∧
  example_out !! "Authorization" = Some ["Bearer tok"] ∧ example_out !! "Cookie" = None.
Proof.
  split; [exact example_out_eq|].
  destruct (authenticate_credential _ _ _ _ example_out_eq) as [H1 H2]. split.
  - apply H1. vm_compute. reflexivity.
  - apply H2; [left|]; vm_compute; [reflexivity|discriminate].
Defined.

Open Scope Z_scope.

(** The closed intervals of IPv4 addresses that no service may reach without a
    private CIDR. *)
Definition closed_v4 : list (Z * Z) :=
  [(0, 0);                              (* 0.0.0.0 *)
   (0x0a000000, 0x0affffff);            (* 10.0.0.0/8 *)
   (0x64400000, 0x647fffff);            (* 100.64.0.0/10 *)
   (0x7f000000, 0x7fffffff);            (* 127.0.0.0/8 *)
   (0xa9fe0000, 0xa9feffff);            (* 169.254.0.0/16 *)
   (0xac100000, 0xac1fffff);            (* 172.16.0.0/12 *)
   (0xc0000000, 0xc00000ff);            (* 192.0.0.0/24 *)
   (0xc0a80000, 0xc0a8ffff);            (* 192.168.0.0/16 *)
   (0xc6120000, 0xc613ffff);            (* 198.18.0.0/15 *)
   (0xe0000000, 0xffffffff)].           (* multicast, reserved, broadcast *)

Lemma AllowedAddress_v4_spec v :
  0 ≤ v < 2 ^ 32 →
  AllowedAddress (Addr4 v) EmptyString = negb (existsb (λ '(lo, hi), (lo <=? v) && (v <=? hi)) closed_v4).
Proof.
  intros Hv. unfold AllowedAddress, blocked_prefixes. simpl Unmap. cbn [existsb].
  rewrite (in_prefix_v4 "100.64.0.0/10" 0x64400000 10), (in_prefix_v4 "192.0.0.0/24" 0xc0000000 24),
    (in_prefix_v4 "198.18.0.0/15" 0xc6120000 15), (in_prefix_v4 "240.0.0.0/4" 0xf0000000 4)
    by (lia || (vm_compute; reflexivity)).
  assert (in_prefix "64:ff9b::/96" (Addr4 v) = false) as -> by reflexivity.
  assert (in_prefix "64:ff9b:1::/48" (Addr4 v) = false) as -> by reflexivity.
  assert (in_prefix EmptyString (Addr4 v) = false) as -> by reflexivity.
  unfold IsGlobalUnicast, IsLoopback, IsLinkLocalUnicast, IsLinkLocalMulticast, IsMulticast,
    IsUnspecified, IsPrivate, IsValid, Unmap, top.
  rewrite !shiftr_eqb by lia. unfold closed_v4. cbn [existsb].
  change (2 ^ 32) with 4294967296 in Hv.
  repeat match goal with |- context [2 ^ ?k] => let n := eval vm_compute in (2 ^ k) in change (2 ^ k) with n end.
  repeat match goal with |- context [Z.shiftr ?a ?k] => let n := eval vm_compute in (Z.shiftr a k) in change (Z.shiftr a k) with n end.
  repeat match goal with |- (if ?b then _ else _) = _ => destruct b eqn:?; [lia|] end. lia.
Qed.
Close Scope Z_scope.

Open Scope Z_scope.

(** Without a private CIDR an IPv4 address is dialled exactly when it is
    outside the ten closed intervals (unspecified, private, shared, loopback,
    link-local, reserved, benchmarking, multicast), and the IPv4-mapped form of an
    address, in whatever zone, is treated as the address itself, for any CIDR. *)
Theorem AllowedAddress_v4 v (H : 0 ≤ v < 2 ^ 32) :
  AllowedAddress (Addr4 v) EmptyString =
    negb (existsb (λ '(lo, hi), (lo <=? v) && (v <=? hi)) closed_v4) ∧
  ∀ zone cidr, AllowedAddress (Addr6 (0xffff * 2 ^ 32 + v) zone) cidr = AllowedAddress (Addr4 v) cidr.
Proof.
  split; [by apply AllowedAddress_v4_spec|]. intros zone cidr. unfold AllowedAddress.
  assert (Unmap (Addr6 (0xffff * 2 ^ 32 + v) zone) = Addr4 v) as ->; [|done].
  unfold Unmap, Is4In6, top. rewrite shiftr_eqb by lia.
  rewrite (proj2 (andb_true_iff _ _)) by (rewrite Z.leb_le, Z.ltb_lt; lia).
  f_equal. change 0xffffffff with (Z.ones 32). rewrite Z.land_ones by lia.
  by rewrite Z.add_comm, Z_mod_plus_full, Z.mod_small.
Qed.

Lemma AllowedAddress_v4_witness :
  AllowedAddress (Addr4 0x08080808) EmptyString = true ∧
  AllowedAddress (Addr6 (0xffff * 2 ^ 32 + 0x7f000001) "eth0") EmptyString = false.
Proof.
  split.
  - rewrite (proj1 (AllowedAddress_v4 0x08080808 ltac:(lia))). vm_compute. reflexivity.
  - rewrite (proj2 (AllowedAddress_v4 0x7f000001 ltac:(lia))). vm_compute. reflexivity.
Defined.

(** The NAT64 prefix 64:ff9b::/96 is closed only to addresses without a zone:
    [Prefix.Contains] is false for every zoned address, so the zoned address of
    the same host passes the destination check. *)
Theorem AllowedAddress_zone v zone cidr
    (H : 0x64ff9b * 2 ^ 96 ≤ v < 0x64ff9b * 2 ^ 96 + 2 ^ 32) (Hz : zone ≠ EmptyString) :
  AllowedAddress (Addr6 v EmptyString) cidr = false ∧ AllowedAddress (Addr6 v zone) cidr = true.
Proof.
  assert (∀ z, Unmap (Addr6 v z) = Addr6 v z) as Hu.
  { intros z. unfold Unmap, Is4In6, top. rewrite shiftr_eqb by lia.
    rewrite (proj2 (andb_false_iff _ _)); [done|]. rewrite Z.leb_gt, Z.ltb_ge. lia. }
  assert (in_prefix "64:ff9b::/96" (Addr6 v EmptyString) = true) as H96.
  { rewrite (in_prefix_v6 _ (0x64ff9b * 2 ^ 96) 96) by (lia || (vm_compute; reflexivity)).
    change (Z.shiftr (0x64ff9b * 2 ^ 96) (128 - 96)) with (0x64ff9b * 2 ^ 64).
    rewrite andb_true_iff, Z.leb_le, Z.ltb_lt. lia. }
  assert (∀ raw, in_prefix raw (Addr6 v zone) = false) as Hzone.
  { intros raw. unfold in_prefix, PrefixContains. destruct (ParsePrefix raw) as [p|]; [|done].
    destruct (PAddr p); [done..|]. by rewrite bool_decide_eq_false_2. }
  assert (∀ z, IsLoopback (Addr6 v z) = false ∧ IsLinkLocalUnicast (Addr6 v z) = false ∧
     IsMulticast (Addr6 v z) = false ∧ IsPrivate (Addr6 v z) = false ∧
     IsLinkLocalMulticast (Addr6 v z) = false ∧ IsUnspecified (Addr6 v z) = false) as Hcls.
  { intros z. unfold IsLoopback, IsLinkLocalUnicast, IsMulticast, IsPrivate, IsLinkLocalMulticast, IsUnspecified.
    rewrite Hu. unfold top. rewrite !shiftr_eqb by lia. repeat split; lia. }
  unfold AllowedAddress. rewrite !Hu. split.
  - destruct (Hcls EmptyString) as (-> & -> & -> & _ & -> & ->). simpl orb. unfold blocked_prefixes.
    cbn [existsb]. rewrite H96, !orb_true_r. done.
  - destruct (Hcls zone) as (Hl & Hll & Hm & -> & -> & Hun). rewrite Hl, Hll, Hm, Hun.
    unfold blocked_prefixes. cbn [existsb]. rewrite !Hzone. simpl orb. cbv iota.
    unfold IsGlobalUnicast. rewrite Hu, Hl, Hll, Hm, Hun. done.
Qed.

Lemma AllowedAddress_zone_witness :
  ParseAddr "64:ff9b::127.0.0.1%eth0" = Some (Addr6 (0x64ff9b * 2 ^ 96 + 0x7f000001) "eth0") ∧
  AllowedAddress (Addr6 (0x64ff9b * 2 ^ 96 + 0x7f000001) EmptyString) EmptyString = false ∧
  AllowedAddress (Addr6 (0x64ff9b * 2 ^ 96 + 0x7f000001) "eth0") EmptyString = true.
Proof.
  split; [vm_compute; reflexivity|].
  apply (AllowedAddress_zone (0x64ff9b * 2 ^ 96 + 0x7f000001) "eth0" EmptyString); [lia|discriminate].
Defined.
Close Scope Z_scope.

(** C40: A dial succeeds only to an address of the resolver's answer that accepts
    a connection, and only when every address of that answer is allowed; a mixed
    answer is refused as a whole. *)
Theorem DialContext_confined cidr lookup connects :
  match DialContext cidr lookup connects with
  | Ok a => ∃ ips, lookup = Some ips ∧ a ∈ ips ∧ connects a = true ∧
                   ∀ b, b ∈ ips → AllowedAddress b cidr = true
  | Err e =>
    (lookup = None ∧ e = ErrMsg "destination resolution failed") ∨
    ∃ ips, lookup = Some ips ∧
      ((∃ b, b ∈ ips ∧ AllowedAddress b cidr = false) ∧ e = ErrMsg "destination blocked" ∨
       (∀ b, b ∈ ips → AllowedAddress b cidr = true ∧ connects b = false) ∧
       e = ErrMsg "destination connection failed")
  end.
Proof.
  unfold DialContext. destruct lookup as [ips|]; [|by left].
  destruct (forallb _ ips) eqn:E; simpl.
  - rewrite forallb_forall in E. setoid_rewrite <-list_elem_of_In in E.
    destruct (List.find connects ips) as [a|] eqn:Ef.
    + apply find_some in Ef as [Hin Hc]. exists ips. rewrite <-list_elem_of_In in Hin. auto.
    + right. exists ips. split; [done|]. right. split; [|done]. intros b Hb. split; [auto|].
      eapply find_none; [done|]. by apply list_elem_of_In.
  - right. exists ips. split; [done|]. left. split; [|done].
    apply not_true_iff_false in E. rewrite forallb_forall in E.
    destruct (decide (Exists (λ b, AllowedAddress b cidr = false) ips)) as [Hex|Hno].
    { apply Exists_exists in Hex as (b & ? & ?). eauto. }
    exfalso. apply E. intros x Hx%list_elem_of_In.
    destruct (AllowedAddress x cidr) eqn:Ex; [done|].
    exfalso. apply Hno, Exists_exists. eauto.
Qed.

(** [Send] reports that nothing was sent exactly when the request could not
    be built or the transport failed before it got a connection; every later
    error stays uncertain, and a result is the transport's own. *)
Theorem Send_outcome {R} s method target h body credential (transport : outgoing → transport_result R) :
  match Send s method target h body credential transport with
  | NotSent =>
    (∃ e, prepare s method target h body credential = Err e) ∨
    (∃ o, prepare s method target h body credential = Ok o ∧ transport o = TError false)
  | SendError => ∃ o, prepare s method target h body credential = Ok o ∧ transport o = TError true
  | Sent res => ∃ o, prepare s method target h body credential = Ok o ∧ transport o = TResponse res
  end.
Proof.
  unfold Send. destruct (prepare _ _ _ _ _ _) as [o|e]; [|eauto].
  destruct (transport o) as [res|[]] eqn:E; eauto.
Qed.

(** The bytes a run of the loop was handed by the reader up to its end. *)
Fixpoint consumed (turns : list turn) : string :=
  match turns with
  | [] => EmptyString
  | t :: rest =>
    t_chunk t +:+
    (if negb (bool_decide (t_chunk t = EmptyString)) && negb (t_ok t) then EmptyString
     else match t_end t with More => consumed rest | _ => EmptyString end)
  end.

(** What [io.Writer] promises of one write: at most the chunk, and all of it
    when there is no error. *)
Definition write_ok (t : turn) : Prop :=
  (t_written t ≤ String.length (t_chunk t))%nat ∧
  (t_ok t = true → t_written t = String.length (t_chunk t)).

Lemma stream_go_total turns total :
  Forall write_ok turns →
  let '(n, ok) := stream_go turns total in
  (n ≤ total + String.length (consumed turns))%nat ∧
  (ok = true → n = (total + String.length (consumed turns))%nat).
Proof.
  revert total. induction turns as [|t turns IH]; intros total; simpl; [intros _; lia|].
  rewrite Forall_cons. intros [[Hle Hok] Hall]. rewrite length_app_string.
  case_bool_decide as He.
  - rewrite He. simpl. destruct (t_end t); simpl;
      [|split; [lia|intros; (discriminate || lia)]..].
    specialize (IH total Hall). by destruct (stream_go turns total).
  - simpl. destruct (t_ok t) eqn:Et; simpl; [|split; [lia|done]]. rewrite (Hok eq_refl).
    destruct (t_end t); simpl; [|split; [lia|intros; (discriminate || lia)]..].
    specialize (IH (total + String.length (t_chunk t))%nat Hall).
    destruct (stream_go turns _) as [n b]. destruct IH as [IH1 IH2].
    split; [lia|intros Hb; specialize (IH2 Hb); lia].
Qed.

(** The byte count [Stream] returns is at most what it read, and when it
    reports success it is exactly the length of everything the upstream sent. *)
Theorem Stream_count res_header allowed turns (H : Forall write_ok turns) :
  let '(n, ok) := (Stream res_header allowed turns).2 in
  (n ≤ String.length (consumed turns))%nat ∧ (ok = true → n = String.length (consumed turns)).
Proof. apply (stream_go_total turns 0 H). Qed.

Lemma Stream_count_witness :
  let turns := [mkTurn "data: 1" More 7 true; mkTurn "" More 0 true; mkTurn "data: 2" EOF 7 true] in
  (Stream ∅ [] turns).2 = (14%nat, true) ∧
  let '(n, ok) := (Stream ∅ [] turns).2 in
  (n ≤ String.length (consumed turns))%nat ∧ (ok = true → n = String.length (consumed turns)).
Proof.
  intros turns. split; [vm_compute; reflexivity|]. apply (Stream_count ∅ [] turns).
  repeat constructor.
Defined.

(** The two ways a response is filtered agree: deleting the service's
    credential header and then streaming it with no credential name (ordinary
    HTTP) passes the same headers as filtering with the credential name (stored
    MCP results), for a service whose authentication header is empty or a token
    outside the reserved names. *)
Theorem response_filters_agree res allowed auth k
    (Hnd : NoDup (map CanonicalHeaderKey allowed))
    (Hauth : auth = EmptyString ∨ HeaderName auth = true ∧ Reserved auth = false) :
  Headers (Del res auth) allowed EmptyString !! k = Headers res allowed auth !! k.
Proof.
  rewrite !Headers_lookup by done. case_decide as Hin; [|done].
  unfold passed, passes. destruct (HeaderName k) eqn:Hk; [|done].
  assert (all_bytes is_token k = true) as Hkt by (unfold HeaderName in Hk; by case_bool_decide).
  assert (CanonicalHeaderKey k = k) as Hkk.
  { apply list_elem_of_fmap in Hin as (a & -> & _). apply CanonicalHeaderKey_idem. }
  assert (k ≠ EmptyString) as Hne by (intros ->; done).
  assert (EqualFold k EmptyString = false) as ->.
  { rewrite EqualFold_canonical by done. apply bool_decide_eq_false. rewrite Hkk. done. }
  destruct Hauth as [->|[Ha Hr]].
  { assert (EqualFold k EmptyString = false) as ->.
    { rewrite EqualFold_canonical by done. apply bool_decide_eq_false. by rewrite Hkk. }
    assert (∀ n, n ≠ EmptyString → Values (Del res EmptyString) n = Values res n) as HV.
    { intros n Hn. unfold Values, Del. rewrite lookup_delete_ne; [done|].
      unfold CanonicalHeaderKey. destruct n; [done|]. simpl. by destruct (_ && _). }
    assert (connection_names (Del res EmptyString) = connection_names res) as -> by
      (unfold connection_names; by rewrite HV).
    by rewrite HV. }
  assert (all_bytes is_token auth = true) as Hat by (unfold HeaderName in Ha; by case_bool_decide).
  assert (CanonicalHeaderKey auth ≠ "Connection") as Hconn.
  { intros Hc. assert (Reserved auth = true); [|congruence]. unfold Reserved.
    assert (ToLower auth = "connection") as ->; [|done].
    unfold ToLower. rewrite <-(lower_canonical true auth).
    unfold CanonicalHeaderKey in Hc. rewrite Hat in Hc. by rewrite Hc. }
  assert (connection_names (Del res auth) = connection_names res) as ->.
  { unfold connection_names, Values, Del. by rewrite lookup_delete_ne. }
  rewrite (EqualFold_canonical k auth) by done. rewrite Hkk.
  destruct (decide (k = CanonicalHeaderKey auth)) as [Heq|Heq].
  - rewrite (bool_decide_eq_true_2 (k = CanonicalHeaderKey auth)) by done.
    assert (Values (Del res auth) k = []) as ->.
    { unfold Values, Del. by rewrite Hkk, <-Heq, lookup_delete_eq. }
    simpl. by rewrite !andb_false_r.
  - rewrite (bool_decide_eq_false_2 (k = CanonicalHeaderKey auth)) by done.
    assert (Values (Del res auth) k = Values res k) as ->; [|done].
    unfold Values, Del. by rewrite Hkk, lookup_delete_ne.
Qed.

Lemma response_filters_agree_witness :
  Headers (Del {["X-Api-Key" := ["s"]; "Content-Type" := ["text/plain"]]} "X-Api-Key")
     ["Content-Type"; "X-Api-Key"] EmptyString !! "Content-Type" =
  Headers {["X-Api-Key" := ["s"]; "Content-Type" := ["text/plain"]]}
     ["Content-Type"; "X-Api-Key"] "X-Api-Key" !! "Content-Type".
Proof.
  apply (response_filters_agree _ ["Content-Type"; "X-Api-Key"] "X-Api-Key").
  - apply (bool_decide_eq_true_1 (NoDup _)). vm_compute. reflexivity.
  - right. split; vm_compute; reflexivity.
Defined.
