(* ===== verification/Crypto.v ===== *)
(** src/internal/store/crypto.go: identifiers, hashes, password records and the
    sealing of records under the unlock key.

    SHA-256, AES-GCM and Argon2id are the operations of the class [GoCrypto]; a
    random string that the code draws is an argument.  The law [GcmLaws] says
    what AES-GCM guarantees without any assumption on the adversary: opening
    succeeds exactly on what sealing gives. *)
From S2P Require Import Prelude GoStrings.

Class GoCrypto := {
  sha256 : string → string;
  argon2_IDKey : string → string → string;
  gcm_seal : string → string → string → string → string;
  gcm_open : string → string → string → string → option string;
}.

Class GcmLaws `{GoCrypto} : Prop := {
  gcm_open_iff key nonce ct aad p :
    gcm_open key nonce ct aad = Some p ↔ ct = gcm_seal key nonce p aad;
}.

Definition NonceSize : nat := 12.

(** * base64 decoding *)

(** The value of a byte of the alphabet. *)
Fixpoint index_of (alphabet : string) (c : ascii) (i : N) : option N :=
  match alphabet with
  | EmptyString => None
  | String d rest => if bool_decide (c = d) then Some i else index_of rest c (i + 1)
  end.

Definition b64_val (alphabet : string) (c : ascii) : option N := index_of alphabet c 0.

Fixpoint strip_newlines (s : string) : string :=
  match s with
  | EmptyString => EmptyString
  | String c s' =>
    if bool_decide (c = "010"%char) || bool_decide (c = "013"%char) then strip_newlines s'
    else String c (strip_newlines s')
  end.

(** [RawStdEncoding.DecodeString] after the newlines are dropped: groups of four
    characters, then two or three of them; left-over bits are ignored. *)
Fixpoint b64_decode (alphabet : string) (s : string) : option string :=
  let byte n := ascii_of_N n in
  match s with
  | EmptyString => Some EmptyString
  | String _ EmptyString => None
  | String a (String b EmptyString) =>
    a ← b64_val alphabet a; b ← b64_val alphabet b;
    Some (String (byte ((a * 64 + b) / 16)%N) EmptyString)
  | String a (String b (String c EmptyString)) =>
    a ← b64_val alphabet a; b ← b64_val alphabet b; c ← b64_val alphabet c;
    let v := ((a * 64 + b) * 64 + c)%N in
    Some (String (byte (v / 1024)%N) (String (byte (v / 4 mod 256)%N) EmptyString))
  | String a (String b (String c (String d s'))) =>
    a ← b64_val alphabet a; b ← b64_val alphabet b; c ← b64_val alphabet c; d ← b64_val alphabet d;
    let v := (((a * 64 + b) * 64 + c) * 64 + d)%N in
    rest ← b64_decode alphabet s';
    Some (String (byte (v / 65536)%N) (String (byte (v / 256 mod 256)%N) (String (byte (v mod 256)%N) rest)))
  end.

Definition RawStdDecode (s : string) : option string := b64_decode b64_std (strip_newlines s).

(** * The operations of crypto.go *)

Section crypto.
Context `{GoCrypto}.

(** [ID(prefix)] with the 18 random bytes it draws. *)
Definition ID (prefix random18 : string) : string := prefix +:+ RawURLEncoding random18.

Definition Hash (s : string) : string := RawURLEncoding (sha256 s).

Definition Key (password salt : string) : string := argon2_IDKey password salt.

(** [Password(password)] with the 16 random bytes it draws. *)
Definition Password (password salt : string) : string :=
  RawStdEncoding salt +:+ "." +:+ RawStdEncoding (Key password salt).

Definition CheckPassword (encoded password : string) : bool :=
  match Split "." encoded with
  | [p0; p1] =>
    match RawStdDecode p0 with
    | Some s =>
      if negb (String.length s =? 16)%nat then false else
      match RawStdDecode p1 with
      | Some h => bool_decide (h = Key password s)
      | None => false
      end
    | None => false
    end
  | _ => false
  end.

(** [Seal] with the nonce it draws: the nonce, then the ciphertext. *)
Definition Seal (key purpose b nonce : string) : string := nonce +:+ gcm_seal key nonce b purpose.

Definition Unseal (key purpose b : string) : option string :=
  if (String.length b <? NonceSize)%nat then None
  else gcm_open key (take_bytes NonceSize b) (drop_bytes NonceSize b) purpose.

End crypto.

(** * Lemmas *)

Lemma take_bytes_app s t : take_bytes (String.length s) (s +:+ t) = s.
Proof. induction s as [|c s IH]; [by destruct t|]. simpl. by rewrite IH. Qed.

(** The 64 characters of an alphabet decode to their indices. *)
Definition alphabet_ok (alphabet : string) : bool :=
  forallb (λ n, bool_decide (b64_val alphabet (b64_char alphabet (N.of_nat n)) = Some (N.of_nat n)))
          (seq 0 64).

Lemma b64_val_char alphabet n :
  alphabet_ok alphabet = true → (n < 64)%N → b64_val alphabet (b64_char alphabet n) = Some n.
Proof.
  intros Hok Hn. unfold alphabet_ok in Hok. rewrite forallb_forall in Hok.
  specialize (Hok (N.to_nat n)). rewrite N2Nat.id in Hok.
  apply (bool_decide_eq_true_1 (_ = _)), Hok, in_seq. lia.
Qed.

Lemma byte_bound c : (N_of_ascii c < 256)%N.
Proof. apply N_ascii_bounded. Qed.

(** Quotient and remainder by a constant, as linear facts for [lia]. *)
Ltac Zify.zify_post_hook ::= Z.to_euclidean_division_equations.

Lemma digits2 (v : N) : (v / 64 * 64 + v mod 64 = v)%N.
Proof. lia. Qed.

Lemma digits3 (v : N) : (((v / 4096) * 64 + v / 64 mod 64) * 64 + v mod 64 = v)%N.
Proof. lia. Qed.

Lemma digits4 (v : N) :
  ((((v / 262144) * 64 + v / 4096 mod 64) * 64 + v / 64 mod 64) * 64 + v mod 64 = v)%N.
Proof. lia. Qed.

Lemma b64_case1 a : (a < 256 → let v := a * 16 in v / 64 < 64 ∧ v mod 64 < 64 ∧ v / 16 = a)%N.
Proof. intros H v. subst v. repeat split; lia. Qed.

Lemma b64_case2 a b :
  (a < 256 → b < 256 → let v := (a * 256 + b) * 4 in
   v / 4096 < 64 ∧ v / 64 mod 64 < 64 ∧ v mod 64 < 64 ∧ v / 1024 = a ∧ v / 4 mod 256 = b)%N.
Proof. intros Ha Hb v. subst v. repeat split; lia. Qed.

Lemma b64_case3 a b c :
  (a < 256 → b < 256 → c < 256 → let v := (a * 256 + b) * 256 + c in
   v / 262144 < 64 ∧ v / 4096 mod 64 < 64 ∧ v / 64 mod 64 < 64 ∧ v mod 64 < 64 ∧
   v / 65536 = a ∧ v / 256 mod 256 = b ∧ v mod 256 = c)%N.
Proof. intros Ha Hb Hc v. subst v. repeat split; lia. Qed.

(** Strings three bytes at a time. *)
Fixpoint string_ind3 (P : string → Prop) (P0 : P "") (P1 : ∀ a, P (String a ""))
    (P2 : ∀ a b, P (String a (String b "")))
    (P3 : ∀ a b c s, P s → P (String a (String b (String c s)))) (s : string) : P s :=
  match s with
  | EmptyString => P0
  | String a EmptyString => P1 a
  | String a (String b EmptyString) => P2 a b
  | String a (String b (String c s')) => P3 a b c s' (string_ind3 P P0 P1 P2 P3 s')
  end.

Lemma b64_roundtrip alphabet s :
  alphabet_ok alphabet = true → b64_decode alphabet (b64_raw alphabet s) = Some s.
Proof.
  intros Hok. pose proof (λ n, b64_val_char alphabet n Hok) as Hval.
  induction s as [|a|a b|a b c s IH] using string_ind3; [done| | |].
  - destruct (b64_case1 _ (byte_bound a)) as (H1 & H2 & H3).
    cbn [b64_raw b64_decode]. rewrite !Hval by done. cbn [mbind option_bind].
    by rewrite digits2, H3, ascii_N_embedding.
  - destruct (b64_case2 _ _ (byte_bound a) (byte_bound b)) as (H1 & H2 & H3 & H4 & H5).
    cbn [b64_raw b64_decode]. rewrite !Hval by done. cbn [mbind option_bind].
    by rewrite digits3, H4, H5, !ascii_N_embedding.
  - destruct (b64_case3 _ _ _ (byte_bound a) (byte_bound b) (byte_bound c))
      as (H1 & H2 & H3 & H4 & H5 & H6 & H7).
    cbn [b64_raw b64_decode]. rewrite !Hval by done. cbn [mbind option_bind].
    rewrite IH, digits4, H5, H6, H7, !ascii_N_embedding. done.
Qed.

(** Every byte the encoder writes is one of its alphabet. *)
Lemma b64_raw_bytes alphabet (p : ascii → bool) s :
  forallb (λ n, p (b64_char alphabet (N.of_nat n))) (seq 0 64) = true →
  all_bytes p (b64_raw alphabet s) = true.
Proof.
  intros Hp. assert (∀ n, (n < 64)%N → p (b64_char alphabet n) = true) as Hc.
  { intros n Hn. rewrite forallb_forall in Hp. specialize (Hp (N.to_nat n)).
    rewrite N2Nat.id in Hp. apply Hp, in_seq. lia. }
  induction s as [|a|a b|a b c s IH] using string_ind3; [done| | |].
  - destruct (b64_case1 _ (byte_bound a)) as (H1 & H2 & _). cbn [b64_raw all_bytes].
    by rewrite !Hc.
  - destruct (b64_case2 _ _ (byte_bound a) (byte_bound b)) as (H1 & H2 & H3 & _).
    cbn [b64_raw all_bytes]. by rewrite !Hc.
  - destruct (b64_case3 _ _ _ (byte_bound a) (byte_bound b) (byte_bound c)) as (H1 & H2 & H3 & H4 & _).
    cbn [b64_raw all_bytes]. by rewrite !Hc, IH.
Qed.

Lemma strip_newlines_id s :
  all_bytes (λ c, negb (bool_decide (c = "010"%char) || bool_decide (c = "013"%char))) s = true →
  strip_newlines s = s.
Proof.
  induction s as [|c s IH]; simpl; [done|]. rewrite andb_true_iff, negb_true_iff.
  intros [-> Hs]. by rewrite IH.
Qed.

Lemma RawStd_roundtrip s : RawStdDecode (RawStdEncoding s) = Some s.
Proof.
  unfold RawStdDecode, RawStdEncoding. rewrite strip_newlines_id.
  - by apply b64_roundtrip.
  - by apply b64_raw_bytes.
Qed.

Lemma RawURL_inj s t : RawURLEncoding s = RawURLEncoding t → s = t.
Proof.
  intros H. apply (f_equal (b64_decode b64_url)) in H. unfold RawURLEncoding in H.
  rewrite !b64_roundtrip in H by (vm_compute; reflexivity). by injection H.
Qed.

(** A small instance, for the witnesses: hashing and sealing leave the text
    readable behind the key, and deriving a key joins its inputs. *)
Definition plain_crypto : GoCrypto := {|
  sha256 s := s;
  argon2_IDKey password salt := salt +:+ password;
  gcm_seal key nonce p aad := key +:+ nonce +:+ aad +:+ p;
  gcm_open key nonce ct aad :=
    if HasPrefix ct (key +:+ nonce +:+ aad) then Some (TrimPrefix ct (key +:+ nonce +:+ aad)) else None;
|}.

Lemma plain_laws : @GcmLaws plain_crypto.
Proof.
  split. intros key nonce ct aad p. simpl. split.
  - destruct (HasPrefix ct (key +:+ nonce +:+ aad)) eqn:E; [|done].
    apply HasPrefix_spec in E as [t ->]. rewrite TrimPrefix_app. intros [= ->].
    by rewrite !app_string_assoc.
  - intros ->. replace (key +:+ nonce +:+ aad +:+ p) with ((key +:+ nonce +:+ aad) +:+ p) by by rewrite !app_string_assoc.
    by rewrite HasPrefix_app, TrimPrefix_app.
Qed.

Section crypto_props.
Context `{GoCrypto}.

Lemma Seal_parts key purpose b nonce :
  String.length nonce = NonceSize →
  take_bytes NonceSize (Seal key purpose b nonce) = nonce ∧
  drop_bytes NonceSize (Seal key purpose b nonce) = gcm_seal key nonce b purpose ∧
  (String.length (Seal key purpose b nonce) <? NonceSize)%nat = false.
Proof.
  intros Hn. unfold Seal. rewrite <-Hn, take_bytes_app, drop_bytes_app, length_app_string.
  repeat split. apply Nat.ltb_ge. lia.
Qed.

(** A password record verifies a password exactly when the two derive the
    same key under the record's salt; in particular the password it was made
    from, and every 16-byte salt survives the base64 text and its separator. *)
Theorem CheckPassword_Password password salt q (Hs : String.length salt = 16%nat) :
  CheckPassword (Password password salt) q = true ↔ Key q salt = Key password salt.
Proof.
  unfold CheckPassword, Password.
  change ("." +:+ RawStdEncoding (Key password salt)) with (String "." (RawStdEncoding (Key password salt))).
  rewrite Split_app by by apply b64_raw_bytes. rewrite Split_none by by apply b64_raw_bytes.
  rewrite !RawStd_roundtrip, Hs. simpl. rewrite bool_decide_eq_true. done.
Qed.

End crypto_props.

Lemma CheckPassword_Password_witness :
  @CheckPassword plain_crypto (@Password plain_crypto "correct horse" "0123456789abcdef") "correct horse" = true ∧
  @CheckPassword plain_crypto (@Password plain_crypto "correct horse" "0123456789abcdef") "wrong" = false.
Proof.
  split.
  - apply (@CheckPassword_Password plain_crypto "correct horse" "0123456789abcdef" "correct horse");
      vm_compute; reflexivity.
  - vm_compute. reflexivity.
Defined.

Section seal_props.
Context `{GcmLaws}.

Lemma Unseal_Seal key purpose p nonce :
  String.length nonce = NonceSize → Unseal key purpose (Seal key purpose p nonce) = Some p.
Proof.
  intros Hn. destruct (Seal_parts key purpose p nonce Hn) as (E1 & E2 & E3).
  unfold Unseal. rewrite E3, E1, E2. by apply gcm_open_iff.
Qed.

(** Unsealing gives back exactly what was sealed: a sealed record opens under
    its key and purpose to its plaintext, and whatever record opens to a plaintext
    is, byte for byte, that plaintext sealed for this purpose under the nonce it
    starts with. *)
Theorem Unseal_iff key purpose record p (Hlen : (NonceSize ≤ String.length record)%nat) :
  Unseal key purpose record = Some p ↔
  record = Seal key purpose p (take_bytes NonceSize record).
Proof.
  unfold Unseal, Seal. destruct (String.length record <? NonceSize)%nat eqn:E.
  { apply Nat.ltb_lt in E. lia. }
  rewrite gcm_open_iff.
  assert (record = take_bytes NonceSize record +:+ drop_bytes NonceSize record) as Hrec.
  { clear. generalize NonceSize. intros n. revert record.
    induction n as [|n IH]; intros [|c s]; try done. simpl. rewrite app_cons_string. by f_equal. }
  split; [intros <-; done|]. intros Heq. rewrite Hrec in Heq at 1. by apply app_inj_l in Heq.
Qed.

End seal_props.

Lemma Unseal_iff_witness :
  @Unseal plain_crypto "k" "request:1" (@Seal plain_crypto "k" "request:1" "body" "abcdefghijkl") = Some "body" ∧
  @Unseal plain_crypto "k" "result:1" (@Seal plain_crypto "k" "request:1" "body" "abcdefghijkl") = None.
Proof.
  split.
  - apply (@Unseal_iff plain_crypto plain_laws); [vm_compute; lia|vm_compute; reflexivity].
  - vm_compute. reflexivity.
Defined.
