(* ===== verification/Assign.v ===== *)
(** How [encoding/json] assigns a JSON value to a variable of a Go type, and how it
    writes one: integers, byte slices, maps and structs.

    An assignment takes the value the variable has, because [null] leaves text and
    numbers as they are, and a key that comes again assigns again; it fails where
    [json.Unmarshal] returns an error.  (A slice that is assigned twice starts
    afresh.) *)
From S2P Require Import Prelude GoStrings GoTime Json Crypto.

Definition setter (A : Type) : Type := json → A → option A.

(** * Numbers and text *)

(** [strconv.ParseInt] in base ten, within bounds. *)
Definition to_int (lo hi : Z) (n : string) : option Z :=
  let '(sg, i) := sign_of n in
  z ← (if bool_decide (i = EmptyString) then None else digits i 0);
  let z := (if bool_decide (sg = EmptyString) then z else - z)%Z in
  if (lo <=? z)%Z && (z <=? hi)%Z then Some z else None.

(** An [int] or [int64]. *)
Definition int_min : Z := -9223372036854775808.
Definition int_max : Z := 9223372036854775807.
Definition is_int (z : Z) : bool := (int_min <=? z)%Z && (z <=? int_max)%Z.

Definition into_int : setter Z := λ v z, match v with JNull => Some z | JNumber n => to_int int_min int_max n | _ => None end.
Definition into_string : setter string := λ v s, match v with JNull => Some s | JString s => Some s | _ => None end.
Definition into_bool : setter bool := λ v b, match v with JNull => Some b | JBool b => Some b | _ => None end.

Definition int_json (z : Z) : json := JNumber (itoa z).

(** * Lists and bytes *)

Definition into_list {A} (elem : setter A) (zero : A) : setter (list A) := λ v _,
  match v with JNull => Some [] | JArray l => mapM (λ v, elem v zero) l | _ => None end.

(** [base64.StdEncoding.DecodeString]. *)
Definition StdDecode (s : string) : option string :=
  let t := strip_newlines s in
  if (String.length t mod 4 =? 0)%nat then b64_decode b64_std (TrimSuffix (TrimSuffix t "=") "=") else None.

Definition into_byte : setter ascii := λ v c,
  match v with JNull => Some c | JNumber n => ascii_of_N ∘ Z.to_N <$> to_int 0 255 n | _ => None end.

Definition string_of (l : list ascii) : string := foldr String EmptyString l.

Definition into_bytes : setter string := λ v _,
  match v with
  | JNull => Some EmptyString
  | JString s => StdDecode s
  | JArray l => string_of <$> mapM (λ v, into_byte v "000"%char) l
  | _ => None
  end.

Definition bytes_json (s : string) : json := JString (StdEncoding s).

(** * Maps *)

Definition into_map {A} (elem : setter A) (zero : A) : setter (gmap string A) := λ v m,
  match v with
  | JNull => Some ∅
  | JObject l => foldl (λ m kv, m ← m; a ← elem kv.2 zero; Some (<[kv.1 := a]> m)) (Some m) l
  | _ => None
  end.

(** A map is written in the order of its keys. *)
Definition key_le {A} (a b : string * A) : Prop := String.le a.1 b.1.
#[export] Instance key_le_dec {A} : RelDecision (@key_le A).
Proof. intros a b. unfold key_le. apply _. Defined.

Definition sorted_map {A} (m : gmap string A) : list (string * A) := merge_sort key_le (map_to_list m).

Definition map_json {A} (write : A → json) (m : gmap string A) : json :=
  JObject (map (λ kv, (kv.1, write kv.2)) (sorted_map m)).

(** * Structs *)

(** A field by its name; letter case does not matter. *)
Definition fields_of (A : Type) : Type := list (string * setter A).

Definition field_named {A} (k : string) (fs : fields_of A) : option (setter A) :=
  snd <$> find (λ f, EqualFold k f.1) fs.

(** An unknown key is an error under [DisallowUnknownFields]. *)
Definition into_member {A} (strict : bool) (fs : fields_of A) (kv : string * json) (a : A) : option A :=
  match field_named kv.1 fs with
  | Some f => f kv.2 a
  | None => if strict then None else Some a
  end.

Definition into_struct {A} (strict : bool) (fs : fields_of A) : setter A := λ v a,
  match v with
  | JNull => Some a
  | JObject l => foldl (λ a kv, a ← a; into_member strict fs kv a) (Some a) l
  | _ => None
  end.

(** A field of a record. *)
Definition field_of {A B} (get : A → B) (set : B → A → A) (read : setter B) : setter A := λ v a,
  b ← read v (get a); Some (set b a).

(** A struct is written field by field, those with [omitempty] only when not empty. *)
Definition struct_json (l : list (option (string * json))) : json := JObject (omap id l).
Definition member (k : string) (v : json) : option (string * json) := Some (k, v).
Definition unless (empty : bool) (k : string) (v : json) : option (string * json) := if empty then None else Some (k, v).

(** [json.Unmarshal] into a variable [a], and the strict decoding of a request: one
    value and nothing but white space after it. *)
Definition unmarshal {A} (read : setter A) (a : A) (s : string) : option A := v ← parse s; read v a.

(** [json.Decoder.Decode], which looks at the first value only. *)
Definition decode_first {A} (read : setter A) (a : A) (s : string) : option A := '(v, _) ← first_value s; read v a.

(** * Integers come back *)

Lemma digits_go n : ∀ s, (0 < n)%N → digits (pretty_N_go n s) 0 = digits s (Z.of_N n).
Proof.
  induction n as [n IH] using (well_founded_induction N.lt_wf_0). intros s Hn. rewrite pretty_N_go_step by done.
  assert (digit (pretty_N_char (n `mod` 10)) = Some (Z.of_N (n `mod` 10))) as Hd.
  { pose proof (N.mod_lt n 10 ltac:(done)) as Hm. revert Hm. generalize (n `mod` 10)%N as m. intros m Hm.
    assert (m ∈ [0;1;2;3;4;5;6;7;8;9]%N) as Hin by (rewrite !elem_of_cons; lia).
    rewrite !elem_of_cons, elem_of_nil in Hin. destruct_or! Hin; subst; done. }
  assert (∀ z, digits (String (pretty_N_char (n `mod` 10)) s) z = digits s (z * 10 + Z.of_N (n `mod` 10))) as Hs.
  { intros z. cbn [digits]. by rewrite Hd. }
  destruct (decide (n `div` 10 = 0)%N) as [E|E].
  - rewrite E, pretty_N_go_0, Hs. f_equal. pose proof (N.div_mod n 10 ltac:(done)). lia.
  - rewrite IH, Hs by (try lia; apply N.div_lt; lia). f_equal. pose proof (N.div_mod n 10 ltac:(done)). lia.
Qed.

Lemma digit_char m : (m < 10)%N → is_digit (pretty_N_char m) = true ∧ (m ≠ 0%N → pretty_N_char m ≠ "0"%char).
Proof.
  intros Hm. assert (m ∈ [0;1;2;3;4;5;6;7;8;9]%N) as Hin by (rewrite !elem_of_cons; lia).
  rewrite !elem_of_cons, elem_of_nil in Hin. destruct_or! Hin; subst; done.
Qed.

(** The digits of a positive number: none but digits, and no zero first. *)
Lemma go_shape n : ∀ s, (0 < n)%N → all_bytes is_digit s = true →
  ∃ c t, pretty_N_go n s = String c t ∧ c ≠ "0"%char ∧ all_bytes is_digit (String c t) = true.
Proof.
  induction n as [n IH] using (well_founded_induction N.lt_wf_0). intros s Hn Hs. rewrite pretty_N_go_step by done.
  destruct (digit_char (n `mod` 10) (N.mod_lt n 10 ltac:(done))) as [Hd H0].
  destruct (decide (n `div` 10 = 0)%N) as [E|E].
  - rewrite E, pretty_N_go_0. eexists _, _. split; [done|]. split; [|by simpl; rewrite Hd].
    apply H0. pose proof (N.div_mod n 10 ltac:(done)). lia.
  - apply IH; [apply N.div_lt; lia|lia|]. simpl. by rewrite Hd.
Qed.

Lemma pretty_pos p : ∃ c t, pretty (Npos p) = String c t ∧ c ≠ "0"%char ∧ all_bytes is_digit (String c t) = true
  ∧ digits (String c t) 0 = Some (Zpos p).
Proof.
  destruct (go_shape (Npos p) EmptyString ltac:(lia) eq_refl) as (c & t & E & Hc & Hd).
  pose proof (digits_go (Npos p) EmptyString ltac:(lia)) as Hg. rewrite E in Hg. exists c, t. by split_and!.
Qed.

Lemma itoa_shape z : ∃ sg c t, itoa z = sg +:+ String c t ∧ sign_of (itoa z) = (sg, String c t)
  ∧ all_bytes is_digit (String c t) = true ∧ integer_part (String c t) = true
  ∧ digits (String c t) 0 = Some (Z.abs z) ∧ (bool_decide (sg = EmptyString) = negb (z <? 0)%Z).
Proof.
  assert (∀ c t, all_bytes is_digit (String c t) = true → sign_of (String c t) = (EmptyString, String c t)) as Hs.
  { intros c t Hd. simpl in Hd. apply andb_true_iff in Hd as [Hd _]. simpl. by rewrite digit_not_minus. }
  destruct z as [|p|p].
  - exists EmptyString, "0"%char, EmptyString. by vm_compute.
  - destruct (pretty_pos p) as (c & t & E & Hc & Hd & Hv). exists EmptyString, c, t.
    change (itoa (Zpos p)) with (pretty (Npos p)). rewrite E.
    split_and!; [done|by apply Hs|done| |done|done]. simpl. by rewrite (bool_decide_eq_false_2 (c = _)).
  - destruct (pretty_pos p) as (c & t & E & Hc & Hd & Hv). exists "-", c, t.
    change (itoa (Zneg p)) with ("-" +:+ pretty (Npos p)). rewrite E.
    split_and!; [done|done|done| |done|done]. simpl. by rewrite (bool_decide_eq_false_2 (c = _)).
Qed.

Lemma itoa_literal z : integer_literal (itoa z) = true.
Proof. destruct (itoa_shape z) as (sg & c & t & _ & E & Hd & Hp & _). unfold integer_literal. by rewrite E, Hd, Hp. Qed.

Lemma to_int_itoa lo hi z : (lo <=? z)%Z && (z <=? hi)%Z = true → to_int lo hi (itoa z) = Some z.
Proof.
  destruct (itoa_shape z) as (sg & c & t & _ & E & _ & _ & Hv & Hs). unfold to_int. rewrite E, (bool_decide_eq_false_2 (String c t = EmptyString)), Hv by done.
  cbn [mbind option_bind]. rewrite Hs. assert ((if negb (z <? 0)%Z then Z.abs z else - Z.abs z) = z)%Z as ->; [|cbn zeta; intros Hb; by rewrite Hb].
  destruct (Z.ltb_spec z 0); simpl; lia.
Qed.

Lemma int_back z y : is_int z = true → into_int (int_json z) y = Some z.
Proof. apply to_int_itoa. Qed.

(** * Bytes come back *)

Lemma b64_length alphabet s :
  String.length (b64_raw alphabet s) = (String.length s / 3 * 4 + match String.length s mod 3 with 0 => 0 | 1 => 2 | _ => 3 end)%nat.
Proof.
  induction s as [|a|a b|a b c s IH] using string_ind3; [done..|]. cbn [b64_raw String.length]. rewrite IH.
  change (S (S (S (String.length s)))) with (3 + String.length s)%nat.
  replace (3 + String.length s)%nat with (String.length s + 1 * 3)%nat by lia. rewrite Nat.div_add, Nat.Div0.mod_add by done. lia.
Qed.

Lemma TrimSuffix_other s c : all_bytes (not_byte c) s = true → TrimSuffix s (String c EmptyString) = s.
Proof.
  induction s as [|d s IH]; [done|]. simpl. intros [Hd Hs]%andb_true_iff. rewrite IH by done.
  rewrite bool_decide_eq_false_2; [done|]. intros [= -> _]. by apply not_byte_true in Hd.
Qed.

Lemma Std_roundtrip s : StdDecode (StdEncoding s) = Some s.
Proof.
  unfold StdDecode, StdEncoding.
  assert (all_bytes (not_byte "=") (RawStdEncoding s) = true) as Heq by by apply b64_raw_bytes.
  set (pad := match _ with 1%nat => _ | _ => _ end).
  assert (strip_newlines (RawStdEncoding s +:+ pad) = RawStdEncoding s +:+ pad) as ->.
  { apply strip_newlines_id. rewrite all_bytes_app, andb_true_iff. split; [by apply b64_raw_bytes|].
    unfold pad. by destruct (_ mod 3) as [|[|[|]]]. }
  assert (TrimSuffix (TrimSuffix (RawStdEncoding s +:+ pad) "=") "=" = RawStdEncoding s) as ->.
  { unfold pad. destruct (_ mod 3) as [|[|[|]]].
    - by rewrite app_empty_r, !(TrimSuffix_other (RawStdEncoding s)).
    - change "==" with ("=" +:+ "="). rewrite <-app_string_assoc. by rewrite !TrimSuffix_app.
    - by rewrite TrimSuffix_app, TrimSuffix_other.
    - by rewrite app_empty_r, !(TrimSuffix_other (RawStdEncoding s)). }
  assert ((String.length (RawStdEncoding s +:+ pad) mod 4)%nat = 0%nat) as ->; [|by apply b64_roundtrip].
  rewrite length_app_string. unfold RawStdEncoding. rewrite b64_length. unfold pad.
  pose proof (Nat.mod_upper_bound (String.length s) 3 ltac:(done)). generalize (String.length s / 3)%nat. intros k.
  assert (∀ m n, m = (n * 4)%nat → (m mod 4)%nat = 0%nat) as Hm by (intros m n ->; apply Nat.Div0.mod_mul).
  destruct (String.length s mod 3)%nat as [|[|[|]]]; cbn [String.length]; [apply (Hm _ k)|apply (Hm _ (S k))..|]; lia.
Qed.

Lemma bytes_back s t : into_bytes (bytes_json s) t = Some s.
Proof. apply Std_roundtrip. Qed.

Lemma Std_valid s : ValidString (StdEncoding s) = true.
Proof.
  apply ascii_ValidString. unfold StdEncoding. rewrite all_bytes_app, andb_true_iff. split; [by apply b64_raw_bytes|].
  by destruct (_ mod 3)%nat as [|[|[|]]].
Qed.

(** * Lists and maps come back *)

Lemma list_back {A} (elem : setter A) zero (write : A → json) l y :
  Forall (λ a, elem (write a) zero = Some a) l → into_list elem zero (JArray (map write l)) y = Some l.
Proof. simpl. induction 1 as [|a l Ha _ IH]; [done|]. simpl. by rewrite Ha, IH. Qed.

Lemma sorted_map_perm {A} (m : gmap string A) : sorted_map m ≡ₚ map_to_list m.
Proof. apply merge_sort_Permutation. Qed.

Lemma members_back {A} (elem : setter A) zero (write : A → json) l (m : gmap string A) :
  NoDup l.*1 → Forall (λ kv, elem (write kv.2) zero = Some kv.2) l →
  foldl (λ m kv, m ← m; a ← elem kv.2 zero; Some (<[kv.1 := a]> m)) (Some m) (map (λ kv, (kv.1, write kv.2)) l)
  = Some ((list_to_map l : gmap string A) ∪ m).
Proof.
  revert m. induction l as [|[k a] l IH]; intros m Hn Hl; simpl; [by rewrite (left_id_L ∅ (∪))|].
  apply NoDup_cons in Hn as [Hk Hn]. inversion Hl as [|? ? Ha Hl']; subst. simpl in Ha. rewrite Ha. simpl.
  rewrite IH by done. f_equal. rewrite <-insert_union_l, insert_union_r; [done|]. by apply not_elem_of_list_to_map_1.
Qed.

Lemma map_back {A} (elem : setter A) zero (write : A → json) m :
  map_Forall (λ _ a, elem (write a) zero = Some a) m → into_map elem zero (map_json write m) ∅ = Some m.
Proof.
  intros Hm. unfold into_map, map_json. rewrite members_back.
  - f_equal. rewrite (right_id_L ∅ (∪)). rewrite (list_to_map_proper _ (map_to_list m)), list_to_map_to_list; [done| |apply sorted_map_perm].
    rewrite sorted_map_perm. apply NoDup_fst_map_to_list.
  - rewrite sorted_map_perm. apply NoDup_fst_map_to_list.
  - rewrite sorted_map_perm. apply Forall_forall. intros [k a] Hin. apply elem_of_map_to_list in Hin. exact (Hm k a Hin).
Qed.

Lemma plain_list {A} (write : A → json) l : Forall (λ a, plain (write a) = true) l → plain (JArray (map write l)) = true.
Proof. simpl. induction 1 as [|a l Ha _ IH]; [done|]. simpl. by rewrite Ha, IH. Qed.

Lemma plain_map {A} (write : A → json) m :
  map_Forall (λ k a, ValidString k = true ∧ plain (write a) = true) m → plain (map_json write m) = true.
Proof.
  intros Hm. simpl. apply forallb_forall. intros x Hx. apply in_map_iff in Hx as ([k a] & <- & Hin).
  apply list_elem_of_In in Hin. rewrite sorted_map_perm in Hin. apply elem_of_map_to_list in Hin.
  destruct (Hm k a Hin) as [H1 H2]. simpl. by rewrite H1, H2.
Qed.

Lemma depth_below {A} (f : A → N) n l : Forall (λ a, (f a <= n)%N) l → (foldr N.max 0 (map f l) <= n)%N.
Proof. induction 1; simpl; lia. Qed.

Lemma depth_list {A} (write : A → json) n l :
  Forall (λ a, (depth (write a) <= n)%N) l → (depth (JArray (map write l)) <= N.succ n)%N.
Proof.
  intros Hl. cbn [depth]. rewrite map_map.
  pose proof (depth_below (λ a, depth (write a)) n l Hl). lia.
Qed.

Lemma depth_map {A} (write : A → json) n m :
  (∀ a, (depth (write a) <= n)%N) → (depth (map_json write m) <= N.succ n)%N.
Proof.
  intros Hw. unfold map_json. cbn [depth]. rewrite map_map. simpl.
  pose proof (depth_below (λ kv, depth (write kv.2)) n (sorted_map m) ltac:(by apply Forall_forall)). lia.
Qed.

(** * Reading what was written *)

Lemma unmarshal_encode {A} (read : setter A) zero a v :
  plain v = true → (depth v <= max_depth)%N → read v zero = Some a → unmarshal read zero (encode v) = Some a.
Proof. intros Hp Hd Hr. unfold unmarshal. by rewrite parse_encode. Qed.

Lemma decode_first_encode {A} (read : setter A) zero a v t :
  plain v = true → (depth v <= max_depth)%N → delimits t = true → read v zero = Some a →
  decode_first read zero (encode v +:+ t) = Some a.
Proof. intros Hp Hd Ht Hr. unfold decode_first. by rewrite first_value_encode. Qed.

(** Reading a struct member by member. *)
Lemma struct_step {A} strict (fs : fields_of A) k v l a f a' r :
  field_named k fs = Some f → f v a = Some a' → into_struct strict fs (JObject l) a' = r →
  into_struct strict fs (JObject ((k, v) :: l)) a = r.
Proof. intros Hf Ha <-. unfold into_struct. cbn [foldl mbind option_bind]. unfold into_member. cbn [fst snd]. by rewrite Hf, Ha. Qed.

Lemma struct_end {A} strict (fs : fields_of A) a b : a = b → into_struct strict fs (JObject []) a = Some b.
Proof. by intros ->. Qed.

Lemma field_back {A B} (get : A → B) set read v a b : read v (get a) = Some b → field_of get set read v a = Some (set b a).
Proof. unfold field_of. by intros ->. Qed.
