(* ===== verification/Types.v ===== *)
(** src/internal/requests/types.go: the submission an agent sends, its
    normalisation, the snapshot that is frozen for review, and the digests.

    A Go map is ranged over in an order the language leaves open, so the loops
    over [Headers] take the visited sequence; [Normalize] and
    [ApplicationHeaders] use one such order, and the properties show that the
    outcome does not depend on it.  [encoding/json] is the class [GoJSON]. *)
From S2P Require Import Prelude GoStrings NetUrl Http Access Upstream Crypto Assign.

(** * Data *)

Record Submission := mkSubmission {
  sub_Service : string;
  sub_Method : string;
  sub_Path : string;
  sub_Query : string;
  sub_Headers : gmap string string;
  sub_Body : string;
  sub_IdempotencyKey : string;
}.

Record Snapshot := mkSnapshot {
  snap_Version : Z;
  snap_DeviceID : string;
  snap_ServiceID : string;
  snap_ServiceLabel : string;
  snap_Revision : Z;
  snap_PermissionID : string;
  snap_CredentialRef : string;
  snap_URL : string;
  snap_Method : string;
  snap_Path : string;
  snap_Headers : header;
  snap_Body : string;
  snap_Expires : Z;
  snap_PrivateCIDR : string;
}.

Record Result := mkResult {
  res_HTTPStatus : Z;
  res_Headers : header;
  res_Body : string;
  res_Encoding : string;
  res_Truncated : bool;
  res_Incomplete : bool;
}.

Record StatusInput := mkStatusInput { si_RequestID : string; si_WaitSeconds : Z }.

(** [json.Marshal] and [json.Unmarshal] at the types the program stores, and the
    strict decoding of a request body: one value, no unknown field, nothing after. *)
Class GoJSON := {
  marshal_submission : Submission → string;
  marshal_snapshot : Snapshot → string;
  unmarshal_snapshot : string → option Snapshot;
  marshal_result : Result → string;
  unmarshal_result : string → option Result;
  marshal_strings : list string → string;
  unmarshal_strings : string → option (list string);
  marshal_string : string → string;
  decode_submission : string → option Submission;
  decode_status_input : string → option StatusInput;
}.

(** What [json.Marshal] keeps as it is: it replaces invalid UTF-8; a Go integer is
    within its width. *)
Definition utf8_header (h : header) : bool :=
  forallb (λ kv : string * list string, ValidString kv.1 && forallb ValidString kv.2) (map_to_list h).

Definition utf8_snapshot (s : Snapshot) : bool :=
  forallb ValidString
    [snap_DeviceID s; snap_ServiceID s; snap_ServiceLabel s; snap_PermissionID s; snap_CredentialRef s;
     snap_URL s; snap_Method s; snap_Path s; snap_Body s; snap_PrivateCIDR s] && utf8_header (snap_Headers s)
  && forallb is_int [snap_Version s; snap_Revision s; snap_Expires s].

Definition utf8_result (r : Result) : bool :=
  ValidString (res_Body r) && ValidString (res_Encoding r) && utf8_header (res_Headers r) && is_int (res_HTTPStatus r).

(** What the program relies on: values of its own come back as they were. *)
Class JsonLaws `{GoJSON} : Prop := {
  snapshot_roundtrip : ∀ s, utf8_snapshot s = true → unmarshal_snapshot (marshal_snapshot s) = Some s;
  result_roundtrip : ∀ r, utf8_result r = true → unmarshal_result (marshal_result r) = Some r;
  strings_roundtrip : ∀ l, forallb ValidString l = true → unmarshal_strings (marshal_strings l) = Some l;
}.

(** * Normalisation *)

(** The loop over the headers: [out] and [size] are its variables. *)
Fixpoint normalize_headers (visits : list (string * string)) (out : gmap string string) (size : nat)
    : result (gmap string string * nat) :=
  match visits with
  | [] => Ok (out, size)
  | (n, v) :: rest =>
    if negb (HeaderName n) || negb (HeaderValue v) || Reserved n then Err (ErrMsg "invalid_header") else
    let n := CanonicalHeaderKey n in
    match out !! n with
    | Some _ => Err (ErrMsg "duplicate_header")
    | None => normalize_headers rest (<[n := v]> out) (size + (String.length n + String.length v))
    end
  end.

Definition key_byte (c : ascii) : bool := in_range c "033" "126".

Definition set_headers (i : Submission) (h : gmap string string) : Submission :=
  mkSubmission (sub_Service i) (sub_Method i) (sub_Path i) (sub_Query i) h (sub_Body i) (sub_IdempotencyKey i).

(** [Normalize] with the order in which [range in.Headers] visits the entries. *)
Definition Normalize_in (visits : list (string * string)) (i : Submission) : result Submission :=
  if negb (Slug (sub_Service i)) || negb (Method (sub_Method i)) || negb (Path (sub_Path i))
     || negb (ValidString (sub_Body i)) || (65536 <? N.of_nat (String.length (sub_Body i)))%N
     || (String.length (sub_IdempotencyKey i) <? 1)%nat || (128 <? String.length (sub_IdempotencyKey i))%nat
  then Err (ErrMsg "invalid_submission") else
  if negb (all_bytes key_byte (sub_IdempotencyKey i)) then Err (ErrMsg "invalid_idempotency_key") else
  match Target "https://example.invalid" (sub_Path i) (sub_Query i) with
  | Err _ => Err (ErrMsg "invalid_query")
  | Ok _ =>
    '(out, size) ← normalize_headers visits ∅ 0;
    if (16384 <? N.of_nat size)%N then Err (ErrMsg "headers_too_large")
    else Ok (set_headers i out)
  end.

Definition Normalize (i : Submission) : result Submission :=
  Normalize_in (map_to_list (sub_Headers i)) i.

(** * Application headers *)

Fixpoint application_go (visits : list (string * string)) (s : Service) (h : header) : result header :=
  match visits with
  | [] => Ok h
  | (n, v) :: rest =>
    if negb (existsb (EqualFold n) (svc_RequestHeaders s)) || EqualFold n (svc_AuthHeader s)
    then Err (ErrMsg "header_not_allowed")
    else application_go rest s (Set_ h n v)
  end.

Definition ApplicationHeaders (i : Submission) (s : Service) : result header :=
  application_go (map_to_list (sub_Headers i)) s ∅.

(** * Digests *)

Section digests.
Context `{GoCrypto} `{GoJSON}.

Definition Digest (b : string) : string := "sha256-v1:" +:+ Hash b.

(** The digest of a submission without its idempotency key. *)
Definition SubmissionDigest (i : Submission) : string :=
  Digest (marshal_submission
    (mkSubmission (sub_Service i) (sub_Method i) (sub_Path i) (sub_Query i) (sub_Headers i) (sub_Body i) "")).

End digests.

(** * Lemmas: the header loop *)

Definition valid_header (nv : string * string) : Prop :=
  HeaderName nv.1 = true ∧ HeaderValue nv.2 = true ∧ Reserved nv.1 = false.

Definition canon (nv : string * string) : string * string := (CanonicalHeaderKey nv.1, nv.2).

Definition entry_size (nv : string * string) : nat := (String.length nv.1 + String.length nv.2)%nat.

Lemma normalize_headers_spec visits out size out' size' :
  normalize_headers visits out size = Ok (out', size') ↔
  Forall valid_header visits ∧ NoDup (map canon visits).*1 ∧
  (∀ n, n ∈ (map canon visits).*1 → out !! n = None) ∧
  out' = list_to_map (map canon visits) ∪ out ∧
  size' = (size + sum_list_with entry_size (map canon visits))%nat.
Proof.
  revert out size. induction visits as [|[n v] visits IH]; intros out size; simpl.
  { rewrite (left_id_L ∅ (∪)), Nat.add_0_r. split.
    - intros [= <- <-]. split_and!; try constructor. by intros n ?%not_elem_of_nil.
    - by intros (_ & _ & _ & -> & ->). }
  rewrite Forall_cons, NoDup_cons. unfold valid_header at 1. simpl.
  destruct (HeaderName n), (HeaderValue v), (Reserved n); simpl;
    try (split; [done|by intros ([(? & ? & ?) _] & _)]).
  destruct (out !! CanonicalHeaderKey n) eqn:E.
  { split; [done|]. intros (_ & _ & Hout & _). rewrite Hout in E; [done|by left]. }
  rewrite IH. split.
  - intros (HF & Hnd & Hout & -> & ->). split; [done|]. split; [split; [|done]|]; [|split; [|split]].
    + intros Hin. specialize (Hout _ Hin). by rewrite lookup_insert_eq in Hout.
    + intros m [->|Hm]%elem_of_cons; [done|]. specialize (Hout m Hm).
      apply lookup_insert_None in Hout. tauto.
    + rewrite <-insert_union_r; [|apply not_elem_of_list_to_map_1].
      * simpl. by rewrite insert_union_l.
      * intros Hin. specialize (Hout _ Hin). by rewrite lookup_insert_eq in Hout.
    + unfold entry_size at 2. simpl. lia.
  - intros ([_ HF] & [Hni Hnd] & Hout & -> & ->). split; [done|]. split; [done|].
    split; [|split].
    + intros m Hm. rewrite lookup_insert_ne by (intros <-; done). apply Hout. by right.
    + rewrite <-insert_union_r by (by apply not_elem_of_list_to_map_1). simpl. by rewrite insert_union_l.
    + unfold entry_size at 1. simpl. lia.
Qed.

Lemma length_canonical n : String.length (CanonicalHeaderKey n) = String.length n.
Proof.
  unfold CanonicalHeaderKey. destruct (all_bytes _ _); [|done].
  generalize true. induction n as [|c n IH]; intros b; [done|]. simpl. f_equal. apply IH.
Qed.

Lemma canon_idem nv : canon (canon nv) = canon nv.
Proof. unfold canon. simpl. by rewrite CanonicalHeaderKey_idem. Qed.

Lemma canon_valid nv : valid_header nv → valid_header (canon nv).
Proof.
  destruct nv as [n v]. unfold valid_header, canon. simpl. intros (Hn & Hv & Hr).
  assert (all_bytes is_token n = true ∧ n ≠ EmptyString) as [Ht Hne].
  { unfold HeaderName in Hn. by case_bool_decide. }
  split; [|split; [done|]].
  - unfold HeaderName. rewrite bool_decide_eq_false_2.
    + unfold CanonicalHeaderKey. rewrite Ht. by apply canonical_token.
    + intros He. apply Hne. apply (f_equal String.length) in He.
      rewrite length_canonical in He. by destruct n.
  - unfold Reserved, ToLower in *. unfold CanonicalHeaderKey. by rewrite Ht, lower_canonical.
Qed.

Lemma map_canon_idem visits : map canon (map canon visits) = map canon visits.
Proof. rewrite map_map. apply map_ext, canon_idem. Qed.

Lemma normalize_headers_perm visits visits' r :
  visits ≡ₚ visits' → normalize_headers visits ∅ 0 = Ok r → normalize_headers visits' ∅ 0 = Ok r.
Proof.
  destruct r as [out size]. rewrite !normalize_headers_spec. intros Hp (HF & Hnd & Hout & -> & ->).
  assert (map canon visits ≡ₚ map canon visits') as Hc by by rewrite Hp.
  split_and!.
  - by rewrite <-Hp.
  - by rewrite <-Hc.
  - intros n ?. apply lookup_empty.
  - f_equal. apply list_to_map_proper; done.
  - simpl. clear -Hc. induction Hc; simpl; lia.
Qed.

(** The loop run again on its own output. *)
Lemma normalize_headers_again visits out size :
  normalize_headers visits ∅ 0 = Ok (out, size) →
  normalize_headers (map_to_list out) ∅ 0 = Ok (out, size).
Proof.
  rewrite normalize_headers_spec. intros (HF & Hnd & _ & Hout & Hsize).
  rewrite (right_id_L ∅ (∪)) in Hout. subst out.
  apply (normalize_headers_perm (map canon visits)).
  { symmetry. by apply map_to_list_to_map. }
  rewrite normalize_headers_spec, map_canon_idem. split_and!; try done.
  - apply Forall_map. eapply Forall_impl; [done|]. apply canon_valid.
  - by rewrite (right_id_L ∅ (∪)).
Qed.

(** What a successful normalisation guarantees and returns. *)
Lemma Normalize_in_Ok visits i o :
  Normalize_in visits i = Ok o ↔
  Slug (sub_Service i) = true ∧ Method (sub_Method i) = true ∧ Path (sub_Path i) = true ∧
  ValidString (sub_Body i) = true ∧ (N.of_nat (String.length (sub_Body i)) ≤ 65536)%N ∧
  (1 ≤ String.length (sub_IdempotencyKey i) ≤ 128)%nat ∧
  all_bytes key_byte (sub_IdempotencyKey i) = true ∧
  (∃ t, Target "https://example.invalid" (sub_Path i) (sub_Query i) = Ok t) ∧
  ∃ out size, normalize_headers visits ∅ 0 = Ok (out, size) ∧ (N.of_nat size ≤ 16384)%N ∧
    o = set_headers i out.
Proof.
  unfold Normalize_in. split.
  - destruct (_ || _) eqn:E; [done|]. repeat (apply orb_false_iff in E as [E ?H]).
    destruct (all_bytes key_byte _); simpl; [|done].
    destruct (Target _ _ _) as [t|]; [|done].
    destruct (normalize_headers _ _ _) as [[out size]|]; simpl; [|done].
    destruct (16384 <? _)%N eqn:E'; [done|]. intros [= <-].
    apply negb_false_iff in E, H4, H3, H2. apply Nat.ltb_ge in H, H0. apply N.ltb_ge in H1, E'.
    split_and!; eauto 6.
  - intros (-> & -> & -> & -> & Hb & Hk & -> & [t ->] & out & size & -> & Hs & ->). simpl.
    rewrite (proj2 (N.ltb_ge _ _) Hb), (proj2 (Nat.ltb_ge _ 1)), (proj2 (Nat.ltb_ge 128 _)) by lia. simpl.
    by rewrite (proj2 (N.ltb_ge _ _) Hs).
Qed.

(** * Properties *)

(** Whether a submission is accepted, and what it is normalised to, does not
    depend on the order in which Go visits the header map. *)
Theorem Normalize_order visits i o (H : visits ≡ₚ map_to_list (sub_Headers i)) :
  Normalize_in visits i = Ok o ↔ Normalize i = Ok o.
Proof.
  unfold Normalize. rewrite !Normalize_in_Ok.
  split; intros (H1 & H2 & H3 & H4 & H5 & H6 & H7 & H8 & out & size & Hh & Hs);
    (do 8 (split; [done|])); exists out, size; (split; [|done]);
    eapply normalize_headers_perm; eassumption || by symmetry.
Qed.

Definition example_submission : Submission :=
  mkSubmission "reports" "POST" "/v1/jobs" "" {["accept" := "*/*"; "x-trace" := "7"]} "{}" "key-1".

Lemma Normalize_order_witness :
  Normalize_in (reverse (map_to_list (sub_Headers example_submission))) example_submission =
    Ok (set_headers example_submission {["Accept" := "*/*"; "X-Trace" := "7"]}) ∧
  Normalize example_submission = Ok (set_headers example_submission {["Accept" := "*/*"; "X-Trace" := "7"]}).
Proof.
  split; [vm_compute; reflexivity|].
  refine (proj1 (Normalize_order (reverse (map_to_list (sub_Headers example_submission)))
    example_submission _ _) _).
  - apply reverse_Permutation.
  - vm_compute. reflexivity.
Defined.

(** Normalising is idempotent, so the adapter, the handler and [Submit] may
    each do it; the result is within the documented bounds, every header name of
    it is canonical, valid and not reserved, and everything but the headers is
    the caller's. *)
Theorem Normalize_idempotent i o (H : Normalize i = Ok o) :
  Normalize o = Ok o ∧
  (N.of_nat (String.length (sub_Body o)) ≤ 65536)%N ∧ (1 ≤ String.length (sub_IdempotencyKey o) ≤ 128)%nat ∧
  (∀ n v, sub_Headers o !! n = Some v → CanonicalHeaderKey n = n ∧ valid_header (n, v)) ∧
  o = set_headers i (sub_Headers o).
Proof.
  unfold Normalize in *. rewrite Normalize_in_Ok in H.
  destruct H as (H1 & H2 & H3 & H4 & H5 & H6 & H7 & H8 & out & size & Hh & Hs & ->).
  split; [|split; [done|split; [done|split; [|done]]]].
  - apply Normalize_in_Ok. simpl. split_and!; try done; try lia.
    exists out, size. split; [|done]. by eapply normalize_headers_again.
  - simpl. intros n v Hn. apply normalize_headers_spec in Hh as (HF & _ & _ & -> & _).
    rewrite (right_id_L ∅ (∪)) in Hn. apply elem_of_list_to_map_2, list_elem_of_fmap in Hn as ([n' v'] & Heq & Hin).
    injection Heq as -> ->. rewrite CanonicalHeaderKey_idem. split; [done|].
    rewrite Forall_forall in HF. apply (canon_valid (n', v')), HF, Hin.
Qed.

Lemma Normalize_idempotent_witness :
  Normalize (set_headers example_submission {["Accept" := "*/*"; "X-Trace" := "7"]}) =
  Ok (set_headers example_submission {["Accept" := "*/*"; "X-Trace" := "7"]}).
Proof. apply (Normalize_idempotent example_submission). vm_compute. reflexivity. Defined.

(** * A small instance of the JSON class, for the witnesses *)

#[export] Instance Submission_eq_dec : EqDecision Submission.
Proof. solve_decision. Defined.
#[export] Instance Snapshot_eq_dec : EqDecision Snapshot.
Proof. solve_decision. Defined.
#[export] Instance Result_eq_dec : EqDecision Result.
Proof. solve_decision. Defined.

(** A record is coded as the list of the codes of its fields. *)
Ltac decode_fields := intros []; repeat (cbn; rewrite decode_encode); cbn; done.

#[export] Instance Submission_countable : Countable Submission.
Proof.
  apply (inj_countable
    (λ i, [encode (sub_Service i); encode (sub_Method i); encode (sub_Path i); encode (sub_Query i);
           encode (sub_Headers i); encode (sub_Body i); encode (sub_IdempotencyKey i)])
    (λ l, match l with
          | [a; b; c; d; e; f; g] =>
            a ← decode a; b ← decode b; c ← decode c; d ← decode d; e ← decode e; f ← decode f; g ← decode g;
            Some (mkSubmission a b c d e f g)
          | _ => None
          end)). decode_fields.
Defined.

#[export] Instance Snapshot_countable : Countable Snapshot.
Proof.
  apply (inj_countable
    (λ s, [encode (snap_Version s); encode (snap_DeviceID s); encode (snap_ServiceID s); encode (snap_ServiceLabel s);
           encode (snap_Revision s); encode (snap_PermissionID s); encode (snap_CredentialRef s); encode (snap_URL s);
           encode (snap_Method s); encode (snap_Path s); encode (snap_Headers s); encode (snap_Body s);
           encode (snap_Expires s); encode (snap_PrivateCIDR s)])
    (λ x, match x with
          | [a; b; c; d; e; f; g; h; i; j; k; l; m; n] =>
            a ← decode a; b ← decode b; c ← decode c; d ← decode d; e ← decode e; f ← decode f; g ← decode g;
            h ← decode h; i ← decode i; j ← decode j; k ← decode k; l ← decode l; m ← decode m; n ← decode n;
            Some (mkSnapshot a b c d e f g h i j k l m n)
          | _ => None
          end)). decode_fields.
Defined.

#[export] Instance Result_countable : Countable Result.
Proof.
  apply (inj_countable
    (λ r, [encode (res_HTTPStatus r); encode (res_Headers r); encode (res_Body r); encode (res_Encoding r);
           encode (res_Truncated r); encode (res_Incomplete r)])
    (λ x, match x with
          | [a; b; c; d; e; f] =>
            a ← decode a; b ← decode b; c ← decode c; d ← decode d; e ← decode e; f ← decode f;
            Some (mkResult a b c d e f)
          | _ => None
          end)). decode_fields.
Defined.

(** The digits of a positive number, the lowest first. *)
Fixpoint bits (p : positive) : string :=
  match p with xH => EmptyString | xO p => String "0" (bits p) | xI p => String "1" (bits p) end.
Fixpoint unbits (s : string) : positive :=
  match s with
  | EmptyString => xH
  | String c s => if bool_decide (c = "0"%char) then xO (unbits s) else xI (unbits s)
  end.

Lemma unbits_bits p : unbits (bits p) = p.
Proof. induction p as [p IH|p IH|]; simpl; by rewrite ?IH. Qed.

Definition to_text {A} `{Countable A} (a : A) : string := bits (encode a).
Definition of_text {A} `{Countable A} (s : string) : option A := decode (unbits s).

Lemma of_to_text {A} `{Countable A} (a : A) : of_text (to_text a) = Some a.
Proof. unfold of_text, to_text. by rewrite unbits_bits, decode_encode. Qed.

Definition plain_json : GoJSON := {|
  marshal_submission := to_text;
  marshal_snapshot := to_text;
  unmarshal_snapshot := of_text;
  marshal_result := to_text;
  unmarshal_result := of_text;
  marshal_strings := to_text;
  unmarshal_strings := of_text;
  marshal_string s := String "034" s +:+ String "034" EmptyString;
  decode_submission := of_text;
  decode_status_input s := match of_text s with Some (id, n) => Some (mkStatusInput id n) | None => None end;
|}.

Lemma plain_json_laws : @JsonLaws plain_json.
Proof. split; intros; apply of_to_text. Qed.
