(* ===== verification/Db.v ===== *)
(** The SQLite database and the single connection to it.

    The tables are those of src/internal/store/migrations/*.sql, each a finite map
    from its primary key; the two append-only logs are lists.  Columns that no
    query of the program reads (the default timestamps of permissions, approvals
    and the logs) are left out.  A statement runs on the open transaction or on
    the connection itself ([Tx] and [DB]); the store allows one connection, so a
    statement or [Begin] outside the transaction would wait for ever while one is
    open, which is the error [ErrDeadlock].  Every statement, and every step of a
    row iteration, first consults a list of faults, so that the error branches of
    the program are taken for every pattern of I/O failures.  The clock moves
    forward by an arbitrary amount between readings. *)
From S2P Require Import Prelude GoStrings Crypto.

(** * Rows *)

(** Table devices. *)
Record device_row := mkDevice {
  dev_label : string;
  dev_revoked : bool;
  dev_serial : string;
  dev_cert_expires : Z;
}.

(** Table sessions, by the hash of the token. *)
Record session_row := mkSession {
  sess_owner : string;
  sess_csrf : string;
  sess_expires : Z;
}.

(** Table invitations, by the hash of the secret. *)
Record invitation_row := mkInvitation {
  inv_device : string;
  inv_expires : Z;
  inv_used : bool;
}.

(** Table services. *)
Record service_row := mkServiceRow {
  srv_label : string;
  srv_base_url : string;
  srv_revision : Z;
  srv_enabled : bool;
  srv_auth : string;
  srv_credential : string;
  srv_auth_header : string;
  srv_request_headers : string;
  srv_response_headers : string;
  srv_private_cidr : string;
}.

(** Table permissions. *)
Record permission_row := mkPermissionRow {
  pm_device : string;
  pm_service : string;
  pm_revision : Z;
  pm_method : string;
  pm_path : string;
  pm_kind : string;
  pm_mode : string;
  pm_owner : string;
  pm_expires : option Z;
  pm_revoked : bool;
}.

(** The statuses the CHECK constraint of table requests admits. *)
Inductive status :=
| pending_approval
| queued
| dispatching
| completed
| failed
| outcome_unknown
| denied
| expired
| cancelled.

#[export] Instance status_eq_dec : EqDecision status.
Proof. solve_decision. Defined.

Definition status_string (s : status) : string :=
  match s with
  | pending_approval => "pending_approval"
  | queued => "queued"
  | dispatching => "dispatching"
  | completed => "completed"
  | failed => "failed"
  | outcome_unknown => "outcome_unknown"
  | denied => "denied"
  | expired => "expired"
  | cancelled => "cancelled"
  end.

(** Table requests. *)
Record request_row := mkRequestRow {
  req_device : string;
  req_service : string;
  req_revision : Z;
  req_permission : string;
  req_key_hash : string;
  req_submission_digest : string;
  req_snapshot_digest : string;
  req_snapshot : option string;
  req_status : status;
  req_expires : Z;
  req_created : Z;
  req_finished : option Z;
  req_result : option string;
  req_reason : string;
}.

(** Table approvals, by the request. *)
Record approval_row := mkApproval {
  appr_owner : string;
  appr_digest : string;
  appr_decision : string;
}.

(** Table audit. *)
Record audit_row := mkAudit {
  au_owner : string;
  au_device : string;
  au_kind : string;
  au_entity : string;
}.

(** Table http_events. *)
Record http_row := mkHttpEvent {
  he_device : string;
  he_service : string;
  he_permission : string;
  he_method : string;
  he_status : Z;
  he_duration_ms : Z;
  he_request_bytes : Z;
  he_response_bytes : Z;
}.

(** * The database *)

(** The tables; owners by ID with the password record, metadata by key.
    [db_schema] names the tables, indexes and added columns that exist, and
    [db_version] is the number PRAGMA user_version holds. *)
Record database := mkDatabase {
  db_metadata : gmap string string;
  db_version : Z;
  db_schema : gset string;
  db_owners : gmap string string;
  db_sessions : gmap string session_row;
  db_devices : gmap string device_row;
  db_invitations : gmap string invitation_row;
  db_services : gmap string service_row;
  db_permissions : gmap string permission_row;
  db_audit : list audit_row;
  db_http_events : list http_row;
  db_requests : gmap string request_row;
  db_approvals : gmap string approval_row;
}.

Definition empty_db : database := mkDatabase ∅ 0 ∅ ∅ ∅ ∅ ∅ ∅ ∅ [] [] ∅ ∅.

(** Field updates. *)
Definition set_db_metadata (v : gmap string string) (r : database) : database :=
  mkDatabase v (db_version r) (db_schema r) (db_owners r) (db_sessions r) (db_devices r) (db_invitations r) (db_services r) (db_permissions r) (db_audit r) (db_http_events r) (db_requests r) (db_approvals r).
Definition set_db_version (v : Z) (r : database) : database :=
  mkDatabase (db_metadata r) v (db_schema r) (db_owners r) (db_sessions r) (db_devices r) (db_invitations r) (db_services r) (db_permissions r) (db_audit r) (db_http_events r) (db_requests r) (db_approvals r).
Definition set_db_schema (v : gset string) (r : database) : database :=
  mkDatabase (db_metadata r) (db_version r) v (db_owners r) (db_sessions r) (db_devices r) (db_invitations r) (db_services r) (db_permissions r) (db_audit r) (db_http_events r) (db_requests r) (db_approvals r).
Definition set_db_owners (v : gmap string string) (r : database) : database :=
  mkDatabase (db_metadata r) (db_version r) (db_schema r) v (db_sessions r) (db_devices r) (db_invitations r) (db_services r) (db_permissions r) (db_audit r) (db_http_events r) (db_requests r) (db_approvals r).
Definition set_db_sessions (v : gmap string session_row) (r : database) : database :=
  mkDatabase (db_metadata r) (db_version r) (db_schema r) (db_owners r) v (db_devices r) (db_invitations r) (db_services r) (db_permissions r) (db_audit r) (db_http_events r) (db_requests r) (db_approvals r).
Definition set_db_devices (v : gmap string device_row) (r : database) : database :=
  mkDatabase (db_metadata r) (db_version r) (db_schema r) (db_owners r) (db_sessions r) v (db_invitations r) (db_services r) (db_permissions r) (db_audit r) (db_http_events r) (db_requests r) (db_approvals r).
Definition set_db_invitations (v : gmap string invitation_row) (r : database) : database :=
  mkDatabase (db_metadata r) (db_version r) (db_schema r) (db_owners r) (db_sessions r) (db_devices r) v (db_services r) (db_permissions r) (db_audit r) (db_http_events r) (db_requests r) (db_approvals r).
Definition set_db_services (v : gmap string service_row) (r : database) : database :=
  mkDatabase (db_metadata r) (db_version r) (db_schema r) (db_owners r) (db_sessions r) (db_devices r) (db_invitations r) v (db_permissions r) (db_audit r) (db_http_events r) (db_requests r) (db_approvals r).
Definition set_db_permissions (v : gmap string permission_row) (r : database) : database :=
  mkDatabase (db_metadata r) (db_version r) (db_schema r) (db_owners r) (db_sessions r) (db_devices r) (db_invitations r) (db_services r) v (db_audit r) (db_http_events r) (db_requests r) (db_approvals r).
Definition set_db_audit (v : list audit_row) (r : database) : database :=
  mkDatabase (db_metadata r) (db_version r) (db_schema r) (db_owners r) (db_sessions r) (db_devices r) (db_invitations r) (db_services r) (db_permissions r) v (db_http_events r) (db_requests r) (db_approvals r).
Definition set_db_http_events (v : list http_row) (r : database) : database :=
  mkDatabase (db_metadata r) (db_version r) (db_schema r) (db_owners r) (db_sessions r) (db_devices r) (db_invitations r) (db_services r) (db_permissions r) (db_audit r) v (db_requests r) (db_approvals r).
Definition set_db_requests (v : gmap string request_row) (r : database) : database :=
  mkDatabase (db_metadata r) (db_version r) (db_schema r) (db_owners r) (db_sessions r) (db_devices r) (db_invitations r) (db_services r) (db_permissions r) (db_audit r) (db_http_events r) v (db_approvals r).
Definition set_db_approvals (v : gmap string approval_row) (r : database) : database :=
  mkDatabase (db_metadata r) (db_version r) (db_schema r) (db_owners r) (db_sessions r) (db_devices r) (db_invitations r) (db_services r) (db_permissions r) (db_audit r) (db_http_events r) (db_requests r) v.
Definition set_dev_revoked (v : bool) (r : device_row) : device_row :=
  mkDevice (dev_label r) v (dev_serial r) (dev_cert_expires r).
Definition set_inv_used (v : bool) (r : invitation_row) : invitation_row :=
  mkInvitation (inv_device r) (inv_expires r) v.
Definition set_pm_revoked (v : bool) (r : permission_row) : permission_row :=
  mkPermissionRow (pm_device r) (pm_service r) (pm_revision r) (pm_method r) (pm_path r) (pm_kind r) (pm_mode r) (pm_owner r) (pm_expires r) v.

(** * The world of a server function *)

(** The state behind [s.mu]: the throttle windows and the dispatch counters. *)
Record memory := mkMemory {
  mem_throttles : gmap string (list Z);
  mem_global : Z;
  mem_active : gmap string Z;
}.

(** The committed database, the open transaction, the clock (nanoseconds) and the
    steps it will make, the faults and random bytes to come, the in-memory state,
    and the key of the vault. *)
Record world := mkWorld {
  w_db : database;
  w_tx : option database;
  w_clock : Z;
  w_ticks : list N;
  w_faults : list bool;
  w_random : list string;
  w_mem : memory;
  w_key : string;
}.

Definition set_w_db (v : database) (r : world) : world :=
  mkWorld v (w_tx r) (w_clock r) (w_ticks r) (w_faults r) (w_random r) (w_mem r) (w_key r).
Definition set_w_tx (v : option database) (r : world) : world :=
  mkWorld (w_db r) v (w_clock r) (w_ticks r) (w_faults r) (w_random r) (w_mem r) (w_key r).
Definition set_w_clock (v : Z) (r : world) : world :=
  mkWorld (w_db r) (w_tx r) v (w_ticks r) (w_faults r) (w_random r) (w_mem r) (w_key r).
Definition set_w_ticks (v : list N) (r : world) : world :=
  mkWorld (w_db r) (w_tx r) (w_clock r) v (w_faults r) (w_random r) (w_mem r) (w_key r).
Definition set_w_faults (v : list bool) (r : world) : world :=
  mkWorld (w_db r) (w_tx r) (w_clock r) (w_ticks r) v (w_random r) (w_mem r) (w_key r).
Definition set_w_random (v : list string) (r : world) : world :=
  mkWorld (w_db r) (w_tx r) (w_clock r) (w_ticks r) (w_faults r) v (w_mem r) (w_key r).
Definition set_w_mem (v : memory) (r : world) : world :=
  mkWorld (w_db r) (w_tx r) (w_clock r) (w_ticks r) (w_faults r) (w_random r) v (w_key r).

(** [t.Unix()] of a time in nanoseconds. *)
Definition second : Z := 1000000000.
Definition minute : Z := 60 * second.
Definition hour : Z := 60 * minute.
Definition Unix (t : Z) : Z := (t / second)%Z.

(** [time.Now()]. *)
Definition time_Now : M world Z := λ w,
  match w_ticks w with
  | [] => (Ok (w_clock w), w)
  | d :: ds => let t := (w_clock w + Z.of_N d)%Z in (Ok t, set_w_ticks ds (set_w_clock t w))
  end.

(** [time.Now().Unix()]. *)
Definition now_Unix : M world Z := t ← time_Now; mret (Unix t).

(** [Random(n)]: the next [n] random bytes. *)
Fixpoint zeros (n : nat) : string :=
  match n with O => EmptyString | S n => String "000" (zeros n) end.

Definition Random (n : nat) : M world string := λ w,
  match w_random w with
  | [] => (Ok (zeros n), w)
  | s :: rest => (Ok (take_bytes n (s +:+ zeros n)), set_w_random rest w)
  end.

(** Takes the next fault: whether this statement, or this call of a library, fails. *)
Definition fault : M world unit := λ w,
  match w_faults w with
  | [] => (Ok tt, w)
  | b :: bs => (if b then Err ErrIO else Ok tt, set_w_faults bs w)
  end.

(** * Transactions *)

Inductive querier := DB | Tx.

(** The database a statement on [q] sees. *)
Definition current (q : querier) (w : world) : result database :=
  match q, w_tx w with
  | DB, None => Ok (w_db w)
  | DB, Some _ => Err ErrDeadlock
  | Tx, Some d => Ok d
  | Tx, None => Err ErrTxDone
  end.

Definition write (q : querier) (d : database) (w : world) : world :=
  match q with DB => set_w_db d w | Tx => set_w_tx (Some d) w end.

Definition begin_tx : M world unit := λ w,
  match w_tx w with
  | Some _ => (Err ErrDeadlock, w)
  | None =>
    match fault w with
    | (Ok _, w') => (Ok tt, set_w_tx (Some (w_db w')) w')
    | (Err e, w') => (Err e, w')
    end
  end.

Definition rollback (w : world) : world := set_w_tx None w.

(** [tx.Commit()]: a transaction whose commit fails is rolled back. *)
Definition commit : M world unit := λ w,
  match w_tx w with
  | None => (Err ErrTxDone, w)
  | Some d =>
    match fault w with
    | (Ok _, w') => (Ok tt, set_w_tx None (set_w_db d w'))
    | (Err e, w') => (Err e, set_w_tx None w')
    end
  end.

(** [tx, e := s.Store.DB.Begin(); if e != nil {..}; defer tx.Rollback()]. *)
Definition with_tx {A} (opened : M world unit → M world unit) (body : M world A) : M world A :=
  opened begin_tx;; finally body rollback.

(** * Statements *)

(** [QueryRow] and [Scan]: [f] gives the row, or [ErrNoRows]. *)
Definition query {A} (q : querier) (f : database → result A) : M world A := λ w,
  match current q w with
  | Err e => (Err e, w)
  | Ok d => match fault w with
            | (Ok _, w') => (f d, w')
            | (Err e, w') => (Err e, w')
            end
  end.

(** [Exec]: the new database and the number of rows affected, or a constraint. *)
Definition exec (q : querier) (f : database → result (database * Z)) : M world Z := λ w,
  match current q w with
  | Err e => (Err e, w)
  | Ok d => match fault w with
            | (Ok _, w') => match f d with
                            | Ok (d', n) => (Ok n, write q d' w')
                            | Err e => (Err e, w')
                            end
            | (Err e, w') => (Err e, w')
            end
  end.

(** [for rows.Next()]: each step may fail, which ends the loop like the end of
    the rows; [rows.Err()] tells the two apart, and is the flag of the result. *)
Fixpoint fetch {A} (rows : list A) : M world (list A * bool) :=
  match rows with
  | [] => mret ([], false)
  | r :: rest =>
    ok ← attempt fault;
    match ok with
    | Err _ => mret ([], true)
    | Ok _ => '(l, e) ← fetch rest; mret (r :: l, e)
    end
  end.

Definition query_rows {A} (q : querier) (f : database → list A) : M world (list A * bool) :=
  rows ← query q (λ d, Ok (f d)); fetch rows.

Definition row_or {A} (e : error) (o : option A) : result A :=
  match o with Some a => Ok a | None => Err e end.

Definition row {A} (o : option A) : result A := row_or ErrNoRows o.

(** * Statements of the program shared by several components *)

(** [store.Audit]. *)
Definition Audit (q : querier) (owner device kind entity : string) : M world unit :=
  exec q (λ d, Ok (set_db_audit (db_audit d ++ [mkAudit owner device kind entity]) d, 1%Z));; mret tt.

(** [INSERT INTO requests]: the primary key, UNIQUE(device_id,key_hash) and the
    three references. *)
Definition key_taken (d : database) (device key_hash : string) : bool :=
  existsb (λ r : string * request_row, bool_decide (req_device r.2 = device) && bool_decide (req_key_hash r.2 = key_hash))
          (map_to_list (db_requests d)).

Definition insert_request (id : string) (r : request_row) (d : database) : result (database * Z) :=
  if bool_decide (is_Some (db_requests d !! id)) || key_taken d (req_device r) (req_key_hash r)
     || bool_decide (db_devices d !! req_device r = None) || bool_decide (db_services d !! req_service r = None)
     || bool_decide (db_permissions d !! req_permission r = None)
  then Err ErrConstraint
  else Ok (set_db_requests (<[id := r]> (db_requests d)) d, 1%Z).

(** [UPDATE requests SET .. WHERE id=? AND cond]. *)
Definition update_request (id : string) (cond : request_row → bool) (f : request_row → request_row)
    (d : database) : result (database * Z) :=
  match db_requests d !! id with
  | Some r => if cond r then Ok (set_db_requests (<[id := f r]> (db_requests d)) d, 1%Z) else Ok (d, 0%Z)
  | None => Ok (d, 0%Z)
  end.

(** The end of a request: status, reason, result and finishing time. *)
Definition finish_row (s : status) (reason : string) (result : option string) (now : Z) (r : request_row)
    : request_row :=
  mkRequestRow (req_device r) (req_service r) (req_revision r) (req_permission r) (req_key_hash r)
    (req_submission_digest r) (req_snapshot_digest r) (req_snapshot r) s (req_expires r) (req_created r)
    (Some now) result reason.

(** A change of status alone, with the [finished] column as given. *)
Definition set_status (s : status) (finished : option Z) (r : request_row) : request_row :=
  mkRequestRow (req_device r) (req_service r) (req_revision r) (req_permission r) (req_key_hash r)
    (req_submission_digest r) (req_snapshot_digest r) (req_snapshot r) s (req_expires r) (req_created r)
    finished (req_result r) (req_reason r).

(** The purge of a payload. *)
Definition purge_row (r : request_row) : request_row :=
  mkRequestRow (req_device r) (req_service r) (req_revision r) (req_permission r) (req_key_hash r)
    (req_submission_digest r) (req_snapshot_digest r) None (req_status r) (req_expires r) (req_created r)
    (req_finished r) None (req_reason r).

(** [SELECT id FROM requests WHERE p]. *)
Definition select_requests (p : string → request_row → bool) (d : database) : list string :=
  map fst (filter (λ r : string * request_row, p r.1 r.2 = true) (map_to_list (db_requests d))).

(** [status IN ('pending_approval','queued')]. *)
Definition undispatched (s : status) : bool :=
  match s with pending_approval | queued => true | _ => false end.

Section seal.
Context `{GoCrypto}.

(** [Store.Encrypt] and [Store.Decrypt] with the key of the vault. *)
Definition Encrypt (purpose b : string) : M world string := λ w,
  match Random NonceSize w with
  | (Ok nonce, w') => (Ok (Seal (w_key w') purpose b nonce), w')
  | (Err e, w') => (Err e, w')
  end.

Definition Decrypt (purpose b : string) : M world string := λ w,
  (match Unseal (w_key w) purpose b with
   | Some p => Ok p
   | None => Err (ErrMsg "invalid encrypted record")
   end, w).

(** [store.ID] with the random bytes it draws. *)
Definition new_ID (prefix : string) : M world string := r ← Random 18; mret (ID prefix r).

End seal.
