(* ===== verification/Schema.v ===== *)
(** The migrations of src/internal/store/migrations and their application,
    [migrate] of src/internal/store/store.go.

    A migration file is a list of statements of the data definition language;
    [db_schema] holds the names of what they have created (["requests"],
    ["devices.certificate_serial"]).  A table that is created has no rows. *)
From S2P Require Import Prelude GoStrings Crypto Db.

(** * Statements that define data *)

(** [CREATE TABLE], with or without [IF NOT EXISTS]; [CREATE INDEX]; and
    [ALTER TABLE .. ADD COLUMN .. DEFAULT]. *)
Inductive ddl :=
| CreateTable (if_not_exists : bool) (name : string)
| CreateIndex (name table : string)
| AddColumn (table column : string).

(** The rows of a new table. *)
Definition no_rows (name : string) (d : database) : database :=
  if bool_decide (name = "metadata") then set_db_metadata ∅ d else
  if bool_decide (name = "owners") then set_db_owners ∅ d else
  if bool_decide (name = "sessions") then set_db_sessions ∅ d else
  if bool_decide (name = "devices") then set_db_devices ∅ d else
  if bool_decide (name = "invitations") then set_db_invitations ∅ d else
  if bool_decide (name = "services") then set_db_services ∅ d else
  if bool_decide (name = "permissions") then set_db_permissions ∅ d else
  if bool_decide (name = "audit") then set_db_audit [] d else
  if bool_decide (name = "http_events") then set_db_http_events [] d else
  if bool_decide (name = "requests") then set_db_requests ∅ d else
  if bool_decide (name = "approvals") then set_db_approvals ∅ d else d.

(** The default a new column of devices has in the rows there are. *)
Definition default_column (name : string) (r : device_row) : device_row :=
  if bool_decide (name = "devices.certificate_serial") then mkDevice (dev_label r) (dev_revoked r) "" (dev_cert_expires r) else
  if bool_decide (name = "devices.certificate_expires") then mkDevice (dev_label r) (dev_revoked r) (dev_serial r) 0 else r.

Definition run_ddl (s : ddl) (d : database) : result database :=
  let has n := bool_decide (n ∈ db_schema d) in
  let add n d := set_db_schema ({[ n ]} ∪ db_schema d) d in
  match s with
  | CreateTable if_not_exists name =>
    if has name then if if_not_exists then Ok d else Err ErrConstraint
    else Ok (add name (no_rows name d))
  | CreateIndex name table =>
    if negb (has table) || has name then Err ErrConstraint else Ok (add name d)
  | AddColumn table column =>
    let name := table +:+ "." +:+ column in
    if negb (has table) || has name then Err ErrConstraint
    else Ok (add name (set_db_devices (default_column name <$> db_devices d) d))
  end.

(** [tx.Exec(string(b))]: the statements of a file, in order. *)
Fixpoint run_file (l : list ddl) (d : database) : result database :=
  match l with
  | [] => Ok d
  | s :: rest => d' ← run_ddl s d; run_file rest d'
  end.

(** * The files *)

Definition initial : list ddl :=
  map (CreateTable true) ["metadata"; "owners"; "sessions"; "devices"; "invitations"; "services"; "permissions"; "audit"].
Definition http_audit : list ddl := [CreateTable false "http_events"].
Definition requests_ : list ddl :=
  [CreateTable false "requests"; CreateIndex "request_work" "requests"; CreateTable false "approvals"].
Definition certificates : list ddl :=
  [AddColumn "devices" "certificate_serial"; AddColumn "devices" "certificate_expires"].

(** [migrations.ReadDir], sorted by name. *)
Definition files : list (list ddl) := [initial; http_audit; requests_; certificates].

(** * [migrate] *)

(** One turn of the loop, for the file of number [n]. *)
Definition migrate_file (n : Z) (file : list ddl) : M world unit :=
  with_tx (λ m, m) (
    exec Tx (λ d, d' ← run_file file d; Ok (d', 0%Z));;
    exec Tx (λ d, Ok (set_db_version n d, 0%Z));;
    commit).

Fixpoint migrate_from (version : Z) (n : Z) (l : list (list ddl)) : M world unit :=
  match l with
  | [] => mret tt
  | f :: rest =>
    (if (n <=? version)%Z then mret tt else migrate_file n f);;
    migrate_from version (n + 1) rest
  end.

Definition migrate : M world unit :=
  version ← query DB (λ d, Ok (db_version d));
  if (Z.of_nat (length files) <? version)%Z then fail (ErrMsg "database is newer than this binary") else
  migrate_from version 1 files.

(** * Typed schemas *)

(** What exists at a version. *)
Definition names_of (s : ddl) : string :=
  match s with
  | CreateTable _ n => n
  | CreateIndex n _ => n
  | AddColumn t c => t +:+ "." +:+ c
  end.

Definition schema_at (version : Z) : gset string :=
  list_to_set (map names_of (concat (take (Z.to_nat version) files))).

Definition full_schema : gset string := schema_at 4.
