(* ===== verification/Rules.v ===== *)
(** Reasoning rules for the statements of [Db] and for transactions.

    [at_world w0 d t w] says where an execution that started in [w0] stands: the
    committed database is [d], the open transaction is [t], the key and the
    in-memory state are those of [w0], the clock has not gone back, and if no
    fault was to come none is.  Every rule takes a fact of this form and gives it
    back, so the state of a proof is one hypothesis; an error of a statement is
    its own ([f t = Err e]) or an I/O failure that [w0] announced. *)
From S2P Require Import Prelude GoStrings Crypto Db.

Record at_world (w0 : world) (d : database) (t : option database) (w : world) : Prop := {
  at_db : w_db w = d;
  at_tx : w_tx w = t;
  at_key : w_key w = w_key w0;
  at_mem : w_mem w = w_mem w0;
  at_clock : (w_clock w0 <= w_clock w)%Z;
  at_faults : w_faults w0 = [] → w_faults w = [];
}.

Lemma at_self w : at_world w (w_db w) (w_tx w) w.
Proof. split; try done. Qed.

Lemma at_start w : w_tx w = None → at_world w (w_db w) None w.
Proof. intros <-. apply at_self. Qed.

(** A failure is announced by [w0]. *)
Definition io (w0 : world) (e : error) : Prop := e = ErrIO ∧ w_faults w0 ≠ [].

Lemma io_quiet w0 e : w_faults w0 = [] → ¬ io w0 e.
Proof. intros H [_ H']. done. Qed.

(** The start may be moved forward. *)
Lemma at_trans w0 w1 w2 d t d' t' : at_world w0 d t w1 → at_world w1 d' t' w2 → at_world w0 d' t' w2.
Proof.
  intros [? ? ? ? ? Hf] [? ? ? ? ? Hf']. split; [done|done|congruence|congruence|lia|].
  intros Hq. by apply Hf', Hf.
Qed.

Lemma at_here w0 d t w : at_world w0 d t w → at_world w d t w.
Proof. intros [<- <- ? ? ? ?]. apply at_self. Qed.

Lemma io_here w0 d t w e : at_world w0 d t w → io w e → io w0 e.
Proof. intros Hw [-> Hne]. split; [done|]. intros Hq. apply Hne. by apply (at_faults _ _ _ _ Hw). Qed.

Lemma Unix_mono a b : (a <= b)%Z → (Unix a <= Unix b)%Z.
Proof. intros. by apply Z.div_le_mono. Qed.

Lemma length_zeros n : String.length (zeros n) = n.
Proof. induction n as [|n IH]; simpl; [done|by rewrite IH]. Qed.

Lemma take_all n s : (String.length s ≤ n)%nat → take_bytes n s = s.
Proof.
  revert s. induction n as [|n IH]; intros [|c s] Hl; simpl in *; try done; [lia|]. rewrite IH; [done|lia].
Qed.

Lemma length_take_bytes n s : String.length (take_bytes n s) = (n `min` String.length s)%nat.
Proof. revert s. induction n as [|n IH]; intros [|c s]; simpl; try done. by rewrite IH. Qed.

Section rules.
Context (w0 : world).

(** ** Time, randomness and faults *)

Lemma wp_time_Now d t (Q : result Z → world → Prop) w :
  at_world w0 d t w →
  (∀ w', at_world w0 d t w' → (w_clock w <= w_clock w')%Z → Q (Ok (w_clock w')) w') →
  wp time_Now Q w.
Proof.
  intros [Hd Ht Hk Hm Hc Hf] HQ. unfold wp, time_Now.
  destruct (w_ticks w) as [|n ns]; simpl.
  - apply HQ; [by split|lia].
  - apply (HQ (set_w_ticks ns (set_w_clock (w_clock w + Z.of_N n) w))); [split; try done; simpl; lia|simpl; lia].
Qed.

Lemma wp_now_Unix d t (Q : result Z → world → Prop) w :
  at_world w0 d t w →
  (∀ w', at_world w0 d t w' → (w_clock w <= w_clock w')%Z → Q (Ok (Unix (w_clock w'))) w') →
  wp now_Unix Q w.
Proof. intros Hw HQ. apply wp_bind. eapply wp_time_Now; [done|]. intros w' ??. by apply wp_ret, HQ. Qed.

Lemma wp_Random d t n (Q : result string → world → Prop) w :
  at_world w0 d t w →
  (∀ r w', String.length r = n → at_world w0 d t w' → w_clock w' = w_clock w → Q (Ok r) w') → wp (Random n) Q w.
Proof.
  intros [Hd Ht Hk Hm Hc Hf] HQ. unfold wp, Random.
  destruct (w_random w) as [|s rest]; simpl; apply HQ; try done.
  - apply length_zeros.
  - rewrite length_take_bytes, length_app_string, length_zeros. lia.
Qed.

Lemma wp_fault d t (Q : result unit → world → Prop) w :
  at_world w0 d t w →
  (∀ w', at_world w0 d t w' → w_clock w' = w_clock w → Q (Ok tt) w') →
  (∀ e w', io w0 e → at_world w0 d t w' → w_clock w' = w_clock w → Q (Err e) w') → wp fault Q w.
Proof.
  intros [Hd Ht Hk Hm Hc Hf] HQ HE. unfold wp, fault.
  destruct (w_faults w) as [|b bs] eqn:E; simpl; [apply HQ; [by split|done]|].
  assert (w_faults w0 ≠ []) as Hne by (intros H0; specialize (Hf H0); congruence).
  destruct b; [apply HE; [done| |done] | apply HQ; [|done]]; (split; try done).
Qed.

(** ** Transactions *)

Lemma wp_begin d (Q : result unit → world → Prop) w :
  at_world w0 d None w →
  (∀ w', at_world w0 d (Some d) w' → w_clock w' = w_clock w → Q (Ok tt) w') →
  (∀ e w', io w0 e → at_world w0 d None w' → Q (Err e) w') → wp begin_tx Q w.
Proof.
  intros Hw HQ HE. unfold wp, begin_tx. rewrite (at_tx _ _ _ _ Hw).
  assert (wp fault (λ r w', wp (λ w, match r with Ok _ => (Ok tt, set_w_tx (Some (w_db w)) w) | Err e => (Err e, w) end) Q w') w) as H.
  { eapply wp_fault; [done|..].
    - intros w' Hw' Hc. unfold wp; simpl. apply HQ; [|done]. destruct Hw' as [<- ? ? ? ? ?]. by split.
    - intros e w' He Hw' _. unfold wp; simpl. eauto. }
  unfold wp in H. destruct (fault w) as [[?|?] w']; done.
Qed.

Lemma wp_commit d t (Q : result unit → world → Prop) w :
  at_world w0 d (Some t) w →
  (∀ w', at_world w0 t None w' → w_clock w' = w_clock w → Q (Ok tt) w') →
  (∀ e w', io w0 e → at_world w0 d None w' → Q (Err e) w') → wp commit Q w.
Proof.
  intros Hw HQ HE. unfold wp, commit. rewrite (at_tx _ _ _ _ Hw).
  assert (wp fault (λ r w', wp (λ w, match r with Ok _ => (Ok tt, set_w_tx None (set_w_db t w)) | Err e => (Err e, set_w_tx None w) end) Q w') w) as H.
  { eapply wp_fault; [done|..].
    - intros w' [? ? ? ? ? ?] Hc. unfold wp; simpl. apply HQ; [by split|done].
    - intros e w' He [? ? ? ? ? ?] _. unfold wp; simpl. apply HE; [done|]. by split. }
  unfold wp in H. destruct (fault w) as [[?|?] w']; done.
Qed.

Lemma at_rollback d t w : at_world w0 d t w → at_world w0 d None (rollback w).
Proof. intros [? ? ? ? ? ?]. by split. Qed.

(** A transaction: the body runs on a copy of the database, and whatever is left
    open at its end is rolled back. *)
Lemma wp_with_tx {A} (body : M world A) (Q : result A → world → Prop) d w :
  at_world w0 d None w →
  (∀ w', at_world w0 d (Some d) w' → w_clock w' = w_clock w → wp body (λ r w'', Q r (rollback w'')) w') →
  (∀ e w', io w0 e → at_world w0 d None w' → Q (Err e) w') →
  wp (with_tx (λ m, m) body) Q w.
Proof.
  intros Hw HQ HE. apply wp_bind. eapply wp_begin; [done|..].
  - intros w' Hw' Hc. apply wp_finally. by apply HQ.
  - intros e w' He Hw'. by apply HE.
Qed.

Lemma wp_with_tx_or {A} (body : M world A) (Q : result A → world → Prop) d w msg :
  at_world w0 d None w →
  (∀ w', at_world w0 d (Some d) w' → w_clock w' = w_clock w → wp body (λ r w'', Q r (rollback w'')) w') →
  (∀ w', w_faults w0 ≠ [] → at_world w0 d None w' → Q (Err (ErrMsg msg)) w') →
  wp (with_tx (λ m, or_fail m msg) body) Q w.
Proof.
  intros Hw HQ HE. apply wp_bind, wp_or_fail. eapply wp_begin; [done|..]; simpl.
  - intros w' Hw' Hc. apply wp_finally. by apply HQ.
  - intros e w' [_ He] Hw'. by apply HE.
Qed.

(** ** Statements *)

Lemma wp_query {A} (f : database → result A) d t (Q : result A → world → Prop) w :
  at_world w0 d (Some t) w →
  (∀ a w', f t = Ok a → at_world w0 d (Some t) w' → w_clock w' = w_clock w → Q (Ok a) w') →
  (∀ e w', f t = Err e ∨ io w0 e → at_world w0 d (Some t) w' → Q (Err e) w') →
  wp (query Tx f) Q w.
Proof.
  intros Hw HQ HE. unfold wp, query, current. rewrite (at_tx _ _ _ _ Hw).
  assert (wp fault (λ r w', wp (λ w, match r with Ok _ => (f t, w) | Err e => (Err e, w) end) Q w') w) as H.
  { eapply wp_fault; [done|..].
    - intros w' Hw' Hc. unfold wp; simpl. destruct (f t) eqn:E; eauto.
    - intros e w' He Hw' _. unfold wp; simpl. eauto. }
  unfold wp in H. destruct (fault w) as [[?|?] w']; done.
Qed.

(** A statement outside a transaction sees the committed database. *)
Lemma wp_query_db {A} (f : database → result A) d (Q : result A → world → Prop) w :
  at_world w0 d None w →
  (∀ a w', f d = Ok a → at_world w0 d None w' → w_clock w' = w_clock w → Q (Ok a) w') →
  (∀ e w', f d = Err e ∨ io w0 e → at_world w0 d None w' → Q (Err e) w') →
  wp (query DB f) Q w.
Proof.
  intros Hw HQ HE. unfold wp, query, current. rewrite (at_tx _ _ _ _ Hw), (at_db _ _ _ _ Hw).
  assert (wp fault (λ r w', wp (λ w, match r with Ok _ => (f d, w) | Err e => (Err e, w) end) Q w') w) as H.
  { eapply wp_fault; [done|..].
    - intros w' Hw' Hc. unfold wp; simpl. destruct (f d) eqn:E; eauto.
    - intros e w' He Hw' _. unfold wp; simpl. eauto. }
  unfold wp in H. destruct (fault w) as [[?|?] w']; done.
Qed.

Lemma wp_exec f d t (Q : result Z → world → Prop) w :
  at_world w0 d (Some t) w →
  (∀ t' n w', f t = Ok (t', n) → at_world w0 d (Some t') w' → w_clock w' = w_clock w → Q (Ok n) w') →
  (∀ e w', f t = Err e ∨ io w0 e → at_world w0 d (Some t) w' → Q (Err e) w') →
  wp (exec Tx f) Q w.
Proof.
  intros Hw HQ HE. unfold wp, exec, current. rewrite (at_tx _ _ _ _ Hw).
  assert (wp fault (λ r w', wp (λ w, match r with
    | Ok _ => match f t with Ok (d', n) => (Ok n, write Tx d' w) | Err e => (Err e, w) end
    | Err e => (Err e, w) end) Q w') w) as H.
  { eapply wp_fault; [done|..].
    - intros w' Hw' Hc. unfold wp; simpl. destruct (f t) as [[t' n]|e] eqn:E; simpl; eauto.
      eapply HQ; [done| |done]. destruct Hw' as [? ? ? ? ? ?]. by split.
    - intros e w' He Hw' _. unfold wp; simpl. eauto. }
  unfold wp in H. destruct (fault w) as [[?|?] w']; done.
Qed.

Lemma wp_exec_db f d (Q : result Z → world → Prop) w :
  at_world w0 d None w →
  (∀ t' n w', f d = Ok (t', n) → at_world w0 t' None w' → w_clock w' = w_clock w → Q (Ok n) w') →
  (∀ e w', f d = Err e ∨ io w0 e → at_world w0 d None w' → Q (Err e) w') →
  wp (exec DB f) Q w.
Proof.
  intros Hw HQ HE. unfold wp, exec, current. rewrite (at_tx _ _ _ _ Hw), (at_db _ _ _ _ Hw).
  assert (wp fault (λ r w', wp (λ w, match r with
    | Ok _ => match f d with Ok (d', n) => (Ok n, write DB d' w) | Err e => (Err e, w) end
    | Err e => (Err e, w) end) Q w') w) as H.
  { eapply wp_fault; [done|..].
    - intros w' Hw' Hc. unfold wp; simpl. destruct (f d) as [[t' n]|e] eqn:E; simpl; eauto.
      eapply HQ; [done| |done]. destruct Hw' as [? ? ? ? ? ?]. by split.
    - intros e w' He Hw' _. unfold wp; simpl. eauto. }
  unfold wp in H. destruct (fault w) as [[?|?] w']; done.
Qed.

(** The rows an iteration gives are the first ones; all of them unless it fails. *)
Lemma wp_fetch {A} (rows : list A) d t (Q : result (list A * bool) → world → Prop) w :
  at_world w0 d t w →
  (∀ l b w', l `prefix_of` rows → (b = false → l = rows) → (w_faults w0 = [] → b = false) →
     at_world w0 d t w' → w_clock w' = w_clock w → Q (Ok (l, b)) w') →
  wp (fetch rows) Q w.
Proof.
  revert Q w. induction rows as [|r rows IH]; intros Q w Hw HQ; simpl.
  { apply wp_ret, HQ; try done. }
  apply wp_bind, wp_attempt. eapply wp_fault; [done|..]; simpl.
  - intros w' Hw' Hc. apply wp_bind. eapply IH; [done|].
    intros l b w'' Hl Hb Hq Hw'' Hc'. apply wp_ret. eapply HQ; try done; [by apply prefix_cons| |congruence].
    intros ->. by rewrite Hb.
  - intros e w' He Hw' Hc. apply wp_ret, HQ; [apply prefix_nil|done| |done|done].
    intros Hq. by destruct (io_quiet _ _ Hq He).
Qed.

Lemma wp_query_rows {A} (f : database → list A) d t (Q : result (list A * bool) → world → Prop) w :
  at_world w0 d (Some t) w →
  (∀ l b w', l `prefix_of` f t → (b = false → l = f t) → (w_faults w0 = [] → b = false) →
     at_world w0 d (Some t) w' → w_clock w' = w_clock w → Q (Ok (l, b)) w') →
  (∀ e w', io w0 e → at_world w0 d (Some t) w' → Q (Err e) w') →
  wp (query_rows Tx f) Q w.
Proof.
  intros Hw HQ HE. apply wp_bind. eapply wp_query; [done|..].
  - intros a w' [= <-] Hw' Hc. eapply wp_fetch; [done|]. intros l b w'' ??? Hw'' Hc'. apply HQ; try done; congruence.
  - intros e w' [?|?] Hw'; [done|]. by apply HE.
Qed.

Lemma wp_query_rows_db {A} (f : database → list A) d (Q : result (list A * bool) → world → Prop) w :
  at_world w0 d None w →
  (∀ l b w', l `prefix_of` f d → (w_faults w0 = [] → l = f d) → at_world w0 d None w' → w_clock w' = w_clock w →
     Q (Ok (l, b)) w') →
  (∀ e w', io w0 e → at_world w0 d None w' → Q (Err e) w') →
  wp (query_rows DB f) Q w.
Proof.
  intros Hw HQ HE. apply wp_bind. eapply wp_query_db; [done| |intros e w1 [?|?] ?; [done|by eapply HE]].
  intros a w1 [= <-] Hw1 Hc1. eapply wp_fetch; [done|]. intros l b w2 Hp Hb Hq Hw2 Hc2.
  apply HQ; [done|auto|done|congruence].
Qed.

(** ** Statements of [Db] *)

Lemma wp_Audit owner device kind entity d t (Q : result unit → world → Prop) w :
  at_world w0 d (Some t) w →
  (∀ w', at_world w0 d (Some (set_db_audit (db_audit t ++ [mkAudit owner device kind entity]) t)) w' →
     w_clock w' = w_clock w → Q (Ok tt) w') →
  (∀ e w', io w0 e → at_world w0 d (Some t) w' → Q (Err e) w') →
  wp (Audit Tx owner device kind entity) Q w.
Proof.
  intros Hw HQ HE. apply wp_bind. eapply wp_exec; [done|..].
  - intros t' n w' [= <- <-] Hw' Hc. by apply wp_ret, HQ.
  - intros e w' [?|?] Hw'; [done|]. by apply HE.
Qed.

Lemma wp_Encrypt `{GoCrypto} purpose b d t (Q : result string → world → Prop) w :
  at_world w0 d t w →
  (∀ n w', String.length n = NonceSize → at_world w0 d t w' → w_clock w' = w_clock w →
     Q (Ok (Seal (w_key w0) purpose b n)) w') →
  wp (Encrypt purpose b) Q w.
Proof.
  intros Hw HQ.
  assert (wp (Random NonceSize) (λ r w', wp (λ w, match r with Ok n => (Ok (Seal (w_key w) purpose b n), w) | Err e => (Err e, w) end) Q w') w) as Hr.
  { eapply wp_Random; [done|]. intros r w' Hn Hw' Hc. unfold wp; simpl. rewrite (at_key _ _ _ _ Hw'). by apply HQ. }
  unfold wp, Encrypt in *. destruct (Random NonceSize w) as [[?|?] w']; done.
Qed.

Lemma wp_Decrypt `{GoCrypto} purpose b d t (Q : result string → world → Prop) w :
  at_world w0 d t w →
  (∀ p, Unseal (w_key w0) purpose b = Some p → Q (Ok p) w) →
  (Unseal (w_key w0) purpose b = None → Q (Err (ErrMsg "invalid encrypted record")) w) →
  wp (Decrypt purpose b) Q w.
Proof.
  intros Hw HQ HE. unfold wp, Decrypt; simpl. rewrite (at_key _ _ _ _ Hw).
  destruct (Unseal (w_key w0) purpose b); eauto.
Qed.

Lemma wp_new_ID prefix d t (Q : result string → world → Prop) w :
  at_world w0 d t w →
  (∀ r w', String.length r = 18%nat → at_world w0 d t w' → w_clock w' = w_clock w → Q (Ok (ID prefix r)) w') →
  wp (new_ID prefix) Q w.
Proof. intros Hw HQ. apply wp_bind. eapply wp_Random; [done|]. intros r w' ???. by apply wp_ret, HQ. Qed.

End rules.

(** ** Automation *)

(** The rule of the program at the head of the goal; the facts it gives back are
    introduced, the facts of the branch that an error takes come second. *)
Ltac wp_rule :=
  lazymatch goal with
  | |- wp (mbind _ _) _ _ => apply wp_bind
  | |- wp (mret _) _ _ => apply wp_ret
  | |- wp (fail _) _ _ => apply wp_fail
  | |- wp (lift _) _ _ => apply wp_lift
  | |- wp (gets _) _ _ => apply wp_gets
  | |- wp (attempt _) _ _ => apply wp_attempt
  | |- wp (or_fail _ _) _ _ => apply wp_or_fail
  | |- wp time_Now _ _ => eapply wp_time_Now; [eassumption|intros ? ? ?]
  | |- wp now_Unix _ _ => eapply wp_now_Unix; [eassumption|intros ? ? ?]
  | |- wp (Random _) _ _ => eapply wp_Random; [eassumption|intros ? ? ? ? ?]
  | |- wp fault _ _ => eapply wp_fault; [eassumption|intros ? ? ?|intros ? ? ? ? ?]
  | |- wp commit _ _ => eapply wp_commit; [eassumption|intros ? ? ?|intros ? ? ? ?]
  | |- wp (query Tx _) _ _ => eapply wp_query; [eassumption|intros ? ? ? ? ?|intros ? ? ? ?]
  | |- wp (query DB _) _ _ => eapply wp_query_db; [eassumption|intros ? ? ? ? ?|intros ? ? ? ?]
  | |- wp (exec Tx _) _ _ => eapply wp_exec; [eassumption|intros ? ? ? ? ? ?|intros ? ? ? ?]
  | |- wp (exec DB _) _ _ => eapply wp_exec_db; [eassumption|intros ? ? ? ? ? ?|intros ? ? ? ?]
  | |- wp (query_rows Tx _) _ _ => eapply wp_query_rows; [eassumption|intros ? ? ? ? ? ? ? ?|intros ? ? ? ?]
  | |- wp (Audit Tx _ _ _ _) _ _ => eapply wp_Audit; [eassumption|intros ? ? ?|intros ? ? ? ?]
  | |- wp (Encrypt _ _) _ _ => eapply wp_Encrypt; [eassumption|intros ? ? ? ? ?]
  | |- wp (Decrypt _ _) _ _ => eapply wp_Decrypt; [eassumption|intros ? ?|intros ?]
  | |- wp (new_ID _) _ _ => eapply wp_new_ID; [eassumption|intros ? ? ? ? ?]
  end; cbv beta in *; cbv iota; cbn [or_error].

(** A guard of the program: both branches, with the condition as a fact. *)
Ltac wp_case :=
  lazymatch goal with
  | |- wp (if ?b then _ else _) _ _ => let E := fresh "Eb" in destruct b eqn:E
  | |- wp (match ?x with _ => _ end) _ _ => let E := fresh "Em" in destruct x eqn:E
  end.

(** Without announced faults the error of a statement is its own. *)
Ltac no_io Hq :=
  match goal with
  | H : _ ∨ io _ _ |- _ => destruct H as [H|H]; [|exfalso; exact (io_quiet _ _ Hq H)]
  | H : io _ _ |- _ => exfalso; exact (io_quiet _ _ Hq H)
  end.

Ltac wp_steps := repeat wp_rule.
