(* ===== verification/Samples.v ===== *)
(** A small database and the worlds around it, at which the witnesses of the
    server's theorems are evaluated: one owner, two devices (one revoked), one
    service, and one permission of each mode. *)
From S2P Require Import Prelude GoStrings Crypto Types Db Schema.

Definition sample_key : string := "vault-key".

Definition sample_devices : gmap string device_row :=
  {[ "dev_1" := mkDevice "laptop" false "" 0; "dev_2" := mkDevice "lost" true "" 0 ]}.

Definition sample_service : service_row :=
  mkServiceRow "Example" "https://api.example.com" 1 true "bearer"
    (@Seal plain_crypto sample_key "service:api:1" "secret" "abcdefghijkl") ""
    (@marshal_strings plain_json ["Accept"; "Content-Type"])
    (@marshal_strings plain_json ["Content-Type"]) "".

Definition sample_permissions : gmap string permission_row :=
  {[ "perm_1" := mkPermissionRow "dev_1" "api" 1 "GET" "/v1/jobs" "subtree" "standing" "owner_1" None false;
     "perm_2" := mkPermissionRow "dev_1" "api" 1 "POST" "/v1/jobs" "exact" "approval_required" "owner_1" None false ]}.

Definition sample_db : database :=
  mkDatabase ∅ 4 full_schema {[ "owner_1" := "hash" ]} ∅ sample_devices ∅ {[ "api" := sample_service ]}
    sample_permissions [] [] ∅ ∅.

(** Outside and inside a transaction, at the thousandth second. *)
Definition sample_world : world :=
  mkWorld sample_db None (1000 * second) [] [] [] (mkMemory ∅ 0 ∅) sample_key.
Definition sample_tx : world := set_w_tx (Some sample_db) sample_world.

(** A submission that needs no approval, and one that does. *)
Definition sample_get : Submission :=
  mkSubmission "api" "GET" "/v1/jobs/7" "verbose=1" {[ "Accept" := "text/plain" ]} "" "key-1".
Definition sample_post : Submission :=
  mkSubmission "api" "POST" "/v1/jobs" "" ∅ "run" "key-2".
