(* ===== verification/Migrating.v ===== *)
(** Migration keeps the schema typed: at every version the tables, indexes and
    columns are exactly those of the files up to it, and what later files add has
    no rows; so a migration changes nothing but the schema and the version, and
    one that is cut short leaves a database a later start can take on. *)
From S2P Require Import Prelude GoStrings Crypto Db Schema Rules Samples.

(** * The effect of a statement on the names *)

Definition name_step (s : ddl) (l : gset string) : option (gset string) :=
  let name := names_of s in
  match s with
  | CreateTable ine _ => if bool_decide (name ∈ l) then if ine then Some l else None else Some ({[ name ]} ∪ l)
  | CreateIndex _ t | AddColumn t _ =>
    if negb (bool_decide (t ∈ l)) || bool_decide (name ∈ l) then None else Some ({[ name ]} ∪ l)
  end.

Fixpoint name_steps (l : list ddl) (names : gset string) : option (gset string) :=
  match l with
  | [] => Some names
  | s :: rest => names' ← name_step s names; name_steps rest names'
  end.

(** What [s] adds is not there yet: no rows of the table, no values of the column. *)
Definition absent (s : ddl) (d : database) : Prop :=
  match s with
  | CreateTable _ n => no_rows n d = d
  | CreateIndex _ _ => True
  | AddColumn t c => default_column (t +:+ "." +:+ c) <$> db_devices d = db_devices d
  end.

Lemma set_schema_id d : set_db_schema (db_schema d) d = d.
Proof. by destruct d. Qed.

Lemma set_devices_id d : set_db_devices (db_devices d) d = d.
Proof. by destruct d. Qed.

Lemma run_ddl_names s d names :
  absent s d → name_step s (db_schema d) = Some names → run_ddl s d = Ok (set_db_schema names d).
Proof.
  destruct s as [ine n|n t|t c]; simpl; intros Ha.
  - destruct (bool_decide _); [destruct ine; [|done]|]; intros [= <-]; [by rewrite set_schema_id|by rewrite Ha].
  - destruct (_ || _); [done|]. by intros [= <-].
  - destruct (_ || _); [done|]. intros [= <-]. by rewrite Ha, set_devices_id.
Qed.

Lemma no_rows_schema n names d : no_rows n (set_db_schema names d) = set_db_schema names (no_rows n d).
Proof. unfold no_rows. by repeat case_bool_decide. Qed.

Lemma no_rows_version n v d : no_rows n (set_db_version v d) = set_db_version v (no_rows n d).
Proof. unfold no_rows. by repeat case_bool_decide. Qed.

Lemma absent_schema s names d : absent s d → absent s (set_db_schema names d).
Proof. destruct s; simpl; [|done..]. intros H. by rewrite no_rows_schema, H. Qed.

Lemma absent_version s v d : absent s d → absent s (set_db_version v d).
Proof. destruct s; simpl; [|done..]. intros H. by rewrite no_rows_version, H. Qed.

Lemma run_file_names l d names :
  Forall (λ s, absent s d) l → name_steps l (db_schema d) = Some names →
  run_file l d = Ok (set_db_schema names d).
Proof.
  revert d. induction l as [|s l IH]; intros d Ha; simpl.
  { intros [= <-]. by rewrite set_schema_id. }
  apply Forall_cons in Ha as [Hs Hl].
  destruct (name_step s (db_schema d)) as [n1|] eqn:E; [simpl|done]. intros Hn.
  rewrite (run_ddl_names _ _ _ Hs E). simpl. rewrite (IH (set_db_schema n1 d)); [done| |done].
  eapply Forall_impl; [done|]. intros. by apply absent_schema.
Qed.

(** * Typed databases *)

Record typed (d : database) : Prop := {
  ty_version : (0 <= db_version d <= 4)%Z;
  ty_schema : db_schema d = schema_at (db_version d);
  ty_absent : Forall (λ s, absent s d) (concat (drop (Z.to_nat (db_version d)) files));
}.

(** At the newest version nothing is left to add. *)
Lemma typed_full d : db_version d = 4%Z → db_schema d = full_schema → typed d.
Proof. intros Hv Hs. split; rewrite Hv; [lia|done|constructor]. Qed.

(** The same rows at another version. *)
Definition at_version (v : Z) (d : database) : database := set_db_version v (set_db_schema (schema_at v) d).

Lemma at_version_twice v v' d : at_version v (at_version v' d) = at_version v d.
Proof. done. Qed.

Lemma at_version_id d : typed d → at_version (db_version d) d = d.
Proof. intros [_ Hs _]. unfold at_version. rewrite <-Hs. by destruct d. Qed.

Lemma typed_at_version v d : typed d → (db_version d <= v <= 4)%Z → typed (at_version v d).
Proof.
  intros [Hv Hs Ha] Hle. split; simpl; [lia|done|].
  assert (Forall (λ s, absent s d) (concat (drop (Z.to_nat v) files))) as H.
  { rewrite Forall_forall in Ha |- *. intros s Hin. apply Ha.
    replace (Z.to_nat v) with (Z.to_nat (v - db_version d) + Z.to_nat (db_version d))%nat in Hin by lia.
    rewrite Nat.add_comm, <-drop_drop in Hin.
    rewrite <-(take_drop (Z.to_nat (v - db_version d)) (drop (Z.to_nat (db_version d)) files)), concat_app.
    apply elem_of_app. by right. }
  eapply Forall_impl; [exact H|]. intros s ?. by apply absent_version, absent_schema.
Qed.

(** The names of each file, from those of the files before it. *)
Lemma file_names k f :
  files !! k = Some f → name_steps f (schema_at (Z.of_nat k)) = Some (schema_at (Z.of_nat k + 1)).
Proof. do 4 (destruct k as [|k]; [intros [= <-]; apply (bool_decide_unpack _); vm_compute; exact I|]). done. Qed.

Lemma run_next k f d :
  typed d → db_version d = Z.of_nat k → files !! k = Some f →
  run_file f d = Ok (set_db_schema (schema_at (Z.of_nat k + 1)) d).
Proof.
  intros [_ Hs Ha] Hk Hf. apply run_file_names.
  - rewrite Hk, Nat2Z.id, (drop_S _ _ _ Hf) in Ha. simpl in Ha. by apply Forall_app in Ha as [? _].
  - rewrite Hs, Hk. by apply file_names.
Qed.

(** * One file, and all of them *)

Lemma wp_migrate_file k f d w (Hty : typed d) (Hk : db_version d = Z.of_nat k) (Hf : files !! k = Some f)
    w0 (Hw : at_world w0 d None w) :
  wp (migrate_file (Z.of_nat k + 1) f) (λ r w',
    at_world w0 (match r with Ok _ => at_version (Z.of_nat k + 1) d | Err _ => d end) None w'
    ∧ (w_faults w0 = [] → r = Ok tt)) w.
Proof.
  eapply wp_with_tx; [done| |].
  - intros w1 Hw1 _. wp_rule. wp_rule.
    + rewrite (run_next k f d) in H by done. simplify_eq/=. wp_rule. wp_rule.
      * simplify_eq/=. wp_rule; simpl; split; try done; [by apply (at_rollback w0 _ None)|by apply (at_rollback w0 _ None)|].
        intros Hq. no_io Hq.
      * simpl. split; [by eapply at_rollback|]. intros Hq. by no_io Hq.
    + simpl. split; [by eapply at_rollback|]. intros Hq. no_io Hq. by rewrite (run_next k f d) in H.
  - intros e w1 He Hw1. split; [done|]. intros Hq. by no_io Hq.
Qed.

Lemma wp_migrate_from d w0 k w :
  typed d → (db_version d <= Z.of_nat k <= 4)%Z → at_world w0 (at_version (Z.of_nat k) d) None w →
  wp (migrate_from (db_version d) (Z.of_nat k + 1) (drop k files)) (λ r w',
    ∃ v, (Z.of_nat k <= v <= 4)%Z ∧ at_world w0 (at_version v d) None w'
    ∧ (r = Ok tt → v = 4%Z) ∧ (w_faults w0 = [] → r = Ok tt)) w.
Proof.
  intros Hty. remember (4 - k)%nat as m eqn:Hm. revert k Hm w.
  induction m as [|m IH]; intros k Hm w Hk Hw.
  { assert (k = 4%nat) as -> by lia. simpl. apply wp_ret. exists 4%Z. split_and!; try done; lia. }
  destruct (lookup_lt_is_Some_2 files k) as [f Hf]; [simpl; lia|].
  rewrite (drop_S _ _ _ Hf). simpl. apply wp_bind.
  replace (Z.of_nat k + 1 <=? db_version d)%Z with false by (symmetry; apply Z.leb_gt; lia).
  eapply wp_mono; [apply (wp_migrate_file k f (at_version (Z.of_nat k) d))|]; try done.
  { apply typed_at_version; [done|lia]. }
  intros [[]|e] w1 [Hw1 Hq]; simpl in *.
  - replace (Z.of_nat k + 1)%Z with (Z.of_nat (S k)) in * by lia.
    eapply wp_mono; [apply (IH (S k)); [lia|lia|done]|].
    intros r w2 (v & Hv & H). exists v. split; [lia|done].
  - exists (Z.of_nat k). split_and!; try done; try lia.
Qed.

Lemma migrate_skip d k w0 w :
  (Z.of_nat k <= db_version d)%Z → (k <= 4)%nat → at_world w0 d None w →
  migrate_from (db_version d) 1 files w
  = migrate_from (db_version d) (Z.of_nat k + 1) (drop k files) w.
Proof.
  intros Hk H4 Hw. induction k as [|k IH]; [done|].
  rewrite IH by lia. destruct (lookup_lt_is_Some_2 files k) as [f Hf]; [simpl; lia|].
  rewrite (drop_S _ _ _ Hf). simpl.
  replace (Z.of_nat k + 1 <=? db_version d)%Z with true by (symmetry; apply Z.leb_le; lia).
  by replace (Z.of_nat k + 1 + 1)%Z with (Z.of_nat (S k) + 1)%Z by lia.
Qed.

(** [migrate] on a typed database. *)
Lemma wp_migrate d w0 w :
  typed d → at_world w0 d None w →
  wp migrate (λ r w', ∃ v, (db_version d <= v <= 4)%Z ∧ at_world w0 (at_version v d) None w'
    ∧ (r = Ok tt → v = 4%Z) ∧ (w_faults w0 = [] → r = Ok tt)) w.
Proof.
  intros Hty Hw. pose proof (ty_version d Hty) as Hv. unfold migrate. wp_rule. wp_rule.
  - simplify_eq. replace (Z.of_nat (length files) <? db_version d)%Z with false
      by (symmetry; apply Z.ltb_ge; simpl; lia).
    eapply wp_ext; [apply (migrate_skip d (Z.to_nat (db_version d)) w0); (done || lia)|].
    eapply wp_mono; [apply wp_migrate_from; [done|lia|]|].
    { rewrite Z2Nat.id by lia. by rewrite at_version_id. }
    rewrite Z2Nat.id by lia. done.
  - exists (db_version d). rewrite at_version_id by done. split_and!; try done; try lia.
    intros Hq. by no_io Hq.
Qed.

(** C32: Migration keeps the database typed, and its data: from a database whose
    tables, indexes and columns are those of its version, and whatever statement or
    commit fails on the way, [migrate] leaves every row as it was and the schema of
    some version not older — the tables, indexes and columns of exactly the files up
    to it —, so that a later start can go on from there; it reports success only at
    the newest version, which it reaches when nothing fails. *)
Theorem migrate_typed w (Hty : typed (w_db w)) (Htx : w_tx w = None) :
  match migrate w with
  | (r, w') => typed (w_db w') ∧ w_tx w' = None
    ∧ w_db w' = at_version (db_version (w_db w')) (w_db w)
    ∧ (db_version (w_db w) <= db_version (w_db w') <= 4)%Z
    ∧ (r = Ok tt → db_version (w_db w') = 4%Z) ∧ (w_faults w = [] → r = Ok tt)
  end.
Proof.
  pose proof (wp_migrate (w_db w) w w Hty (at_start w Htx)) as H. unfold wp in H.
  destruct (migrate w) as [r w']. simpl in H. destruct H as (v & Hv & [Hd Ht _ _ _ _] & Hok & Hq).
  rewrite Hd. change (db_version (at_version v (w_db w))) with v.
  split_and!; try done; try lia. by apply typed_at_version.
Qed.

(** A database written by a newer program is refused and left alone. *)
Theorem migrate_newer w (Htx : w_tx w = None) (Hv : (4 < db_version (w_db w))%Z) :
  match migrate w with
  | (r, w') => w_db w' = w_db w ∧ (r = Err ErrIO ∨ r = Err (ErrMsg "database is newer than this binary"))
  end.
Proof.
  assert (wp migrate (λ r w', w_db w' = w_db w ∧ (r = Err ErrIO ∨ r = Err (ErrMsg "database is newer than this binary"))) w) as H.
  { pose proof (at_start w Htx) as Hw. unfold migrate. wp_rule. wp_rule.
    - simplify_eq. replace (Z.of_nat (length files) <? db_version (w_db w))%Z with true
        by (symmetry; apply Z.ltb_lt; simpl; lia).
      apply wp_fail. split; [by apply (at_db _ _ _ _ H0)|by right].
    - split; [by apply (at_db _ _ _ _ H0)|]. left. by destruct H as [?|[-> _]]. }
  unfold wp in H. by destruct (migrate w).
Qed.

(** A database of the first two files, opened by this program. *)
Definition old_world : world :=
  set_w_db (set_db_version 2 (set_db_schema (schema_at 2) (set_db_requests ∅ sample_db)))
    (set_w_faults [false; false; false; false; false; true] sample_world).

Lemma typed_old : typed (w_db old_world).
Proof.
  split; [simpl; lia|done|].
  repeat (apply Forall_cons; split; [vm_compute; try exact I; reflexivity|]). apply Forall_nil. exact I.
Qed.

(** The commit of the third file succeeds, then the fourth fails. *)
Lemma migrate_typed_witness :
  db_version (w_db (migrate old_world).2) = 3%Z ∧ typed (w_db (migrate old_world).2).
Proof.
  split; [vm_compute; reflexivity|]. pose proof (migrate_typed old_world typed_old eq_refl) as H.
  destruct (migrate old_world) as [r w']. exact (proj1 H).
Defined.

Lemma migrate_newer_witness :
  match migrate (set_w_db (set_db_version 5 sample_db) sample_world) with
  | (r, w') => w_db w' = set_db_version 5 sample_db ∧ (r = Err ErrIO ∨ r = Err (ErrMsg "database is newer than this binary"))
  end.
Proof. apply (migrate_newer (set_w_db (set_db_version 5 sample_db) sample_world)); [reflexivity|simpl; lia]. Defined.
