(* ===== verification/Opening.v ===== *)
(** Opening the store, [Open] and [Close] of src/internal/store/store.go: the
    lock on the file, the migration, and the unlock secret, which is checked
    against a sealed record and becomes the key of the vault. *)
From S2P Require Import Prelude GoStrings Crypto Db Schema Rules Samples.
From S2P Require Import Migrating.

(** The database file as the processes of one host see it: its mode ([None] when
    there is no file, which reads as an empty database), whether a process holds
    the lock on it, and the world of the process that opens it, whose [w_db] is
    the content of the file. *)
Record site := mkSite {
  si_mode : option Z;
  si_locked : bool;
  si_world : world;
}.

Definition set_si_mode (v : option Z) (s : site) : site := mkSite v (si_locked s) (si_world s).
Definition set_si_locked (v : bool) (s : site) : site := mkSite (si_mode s) v (si_world s).
Definition set_si_world (v : world) (s : site) : site := mkSite (si_mode s) (si_locked s) v.

Definition set_w_key (v : string) (r : world) : world :=
  mkWorld (w_db r) (w_tx r) (w_clock r) (w_ticks r) (w_faults r) (w_random r) (w_mem r) v.

Definition in_world {A} (m : M world A) : M site A := zoom si_world set_si_world m.

(** A system call, which may fail. *)
Definition syscall (f : site → site) : M site unit := in_world fault;; modify f.

Definition owner_only : Z := 384. (* 0600 *)

Section opening.
Context `{GoCrypto}.

Definition metadata_value (key : string) (d : database) : result string :=
  match db_metadata d !! key with Some v => Ok v | None => Err ErrNoRows end.

(** [INSERT INTO metadata(key,value) VALUES('salt',?),('check',?)]. *)
Definition insert_unlock (salt sealed : string) (d : database) : result (database * Z) :=
  match db_metadata d !! "salt", db_metadata d !! "check" with
  | None, None => Ok (set_db_metadata (<["check" := sealed]> (<["salt" := salt]> (db_metadata d))) d, 2%Z)
  | _, _ => Err ErrConstraint
  end.

(** The first opening.  A key of 32 bytes always makes an AES-GCM vault, so [AEAD]
    has no error here or below. *)
Definition first_unlock (unlock : string) : M world unit :=
  salt ← Random 16;
  modify (set_w_key (Key unlock salt));;
  with_tx (λ m, m) (
    sealed ← Encrypt "unlock-check" "budge-v1";
    exec Tx (insert_unlock salt sealed);;
    commit).

(** Every later one. *)
Definition check_unlock (unlock salt : string) : M world unit :=
  modify (set_w_key (Key unlock salt));;
  sealed ← query DB (metadata_value "check");
  b ← or_fail (Decrypt "unlock-check" sealed) "cannot unlock database";
  guard_ (bool_decide (b = "budge-v1")) "cannot unlock database".

Definition unlock_vault (unlock : string) : M world unit :=
  r ← attempt (query DB (metadata_value "salt"));
  match r with
  | Err ErrNoRows => first_unlock unlock
  | Err e => fail e
  | Ok salt => check_unlock unlock salt
  end.

Definition flock : M site unit := λ s,
  if si_locked s then (Err ErrIO, s) else syscall (set_si_locked true) s.

(** [defer func() { if err != nil { opened.Close() } }()] *)
Definition close_on_error {A} (m : M site A) : M site A := λ s,
  match m s with
  | (Ok a, s') => (Ok a, s')
  | (Err e, s') => (Err e, set_si_locked false s')
  end.

Definition Open (unlock : string) : M site unit :=
  guard_ (12 <=? String.length unlock)%nat "unlock secret must have at least 12 characters";;
  syscall id;;                                                        (* MkdirAll *)
  syscall (λ s, set_si_mode (Some (default owner_only (si_mode s))) s);;      (* OpenFile *)
  or_fail flock "database already in use";;
  close_on_error (
    syscall (set_si_mode (Some owner_only));;                                 (* Chmod *)
    syscall id;;                                                      (* sql.Open *)
    syscall id;;                                                      (* PRAGMA *)
    in_world migrate;;
    in_world (unlock_vault unlock)).

(** [Close] of a store that is open. *)
Definition Close (s : site) : site := set_si_locked false s.

End opening.

(** * What opening does to the database *)

Section opening_props.
Context `{GoCrypto}.

(** What a database says of the secret: it is new, or its check record opens. *)
Definition fresh (d : database) : Prop := db_metadata d !! "salt" = None ∧ db_metadata d !! "check" = None.

Definition admits (unlock : string) (d : database) : Prop :=
  ∃ salt sealed, db_metadata d !! "salt" = Some salt ∧ db_metadata d !! "check" = Some sealed
  ∧ Unseal (Key unlock salt) "unlock-check" sealed = Some "budge-v1".

(** A fresh database after its first opening. *)
Definition initialised (unlock salt nonce : string) (d : database) : database :=
  set_db_metadata (<["check" := Seal (Key unlock salt) "unlock-check" "budge-v1" nonce]>
    (<["salt" := salt]> (db_metadata d))) d.

(** The database and the key of a store that opened. *)
Definition opened (unlock : string) (d d' : database) (key : string) : Prop :=
  (admits unlock d ∧ d' = d ∧ Some key = Key unlock <$> db_metadata d !! "salt") ∨
  (fresh d ∧ ∃ salt nonce, String.length salt = 16%nat ∧ String.length nonce = NonceSize
     ∧ d' = initialised unlock salt nonce d ∧ key = Key unlock salt).

Lemma at_key_set w0 d t w k : at_world w0 d t w → at_world (set_w_key k w0) d t (set_w_key k w).
Proof. intros [? ? ? ? ? ?]. by split. Qed.

(** What the secret step leaves behind. *)
Definition unlocked (unlock : string) (d : database) (r : result unit) (w' : world) : Prop :=
  w_tx w' = None ∧ match r with Ok _ => opened unlock d (w_db w') (w_key w') | Err _ => w_db w' = d end.

Lemma wp_check_unlock unlock salt d w0 w :
  db_metadata d !! "salt" = Some salt → at_world w0 d None w →
  wp (check_unlock unlock salt) (λ r w', unlocked unlock d r w'
    ∧ (w_faults w0 = [] → admits unlock d → r = Ok tt)
    ∧ (w_faults w0 = [] → is_Some (db_metadata d !! "check") → ¬ admits unlock d →
       r = Err (ErrMsg "cannot unlock database"))) w.
Proof.
  intros Hs Hw. unfold check_unlock. wp_rule. apply wp_modify.
  pose proof (at_key_set _ _ _ _ (Key unlock salt) Hw) as Hk. clear Hw.
  wp_rule. wp_rule; unfold metadata_value in *; destruct (db_metadata d !! "check") as [sealed|] eqn:Ec.
  - injection H0 as <-. clear Hk. rename H1 into Hk.
    assert (∀ p, Unseal (Key unlock salt) "unlock-check" sealed = Some p → (admits unlock d ↔ p = "budge-v1")) as Hadm.
    { intros p Hp. split; [intros (x & y & Hx & Hy & Hu); congruence|]. intros ->. by exists salt, sealed. }
    wp_rule. wp_rule. eapply wp_Decrypt; [done|simpl; intros p Hp|simpl; intros Hn].
    + pose proof (Hadm p Hp) as Hap. destruct Hk as [<- ? Hkey _ _ _].
      apply wp_guard; intros Hb; unfold unlocked.
      * apply bool_decide_eq_true in Hb. split_and!; try done.
        -- left. rewrite Hap, Hs, Hkey. done.
        -- intros. by rewrite Hap in *.
      * apply bool_decide_eq_false in Hb. split_and!; try done. by rewrite Hap.
    + destruct Hk as [<- ? _ _ _ _]. split_and!; try done.
      intros _ (x & y & Hx & Hy & Hu). congruence.
  - done.
  - destruct H0 as [H0|[_ H0]]; [done|]. destruct H1 as [<- ? _ _ _ _]. by split_and!.
  - destruct H1 as [<- ? _ _ _ _]. split_and!; try done.
    intros _ (x & y & Hx & Hy & Hu). congruence.
Qed.

Lemma wp_first_unlock unlock d w0 w :
  db_metadata d !! "salt" = None → at_world w0 d None w →
  wp (first_unlock unlock) (λ r w', unlocked unlock d r w'
    ∧ (w_faults w0 = [] → fresh d → r = Ok tt)) w.
Proof.
  intros Hs Hw. unfold first_unlock. wp_rule. wp_rule. wp_rule. apply wp_modify.
  pose proof (at_key_set _ _ _ _ (Key unlock r) H1) as Hk.
  eapply (wp_with_tx (set_w_key (Key unlock r) w0)); [done| |].
  - intros w1 Hw1 _. wp_rule. wp_rule. wp_rule. unfold insert_unlock; wp_rule; rewrite Hs in *.
    + destruct (db_metadata d !! "check") eqn:Ec; [done|]. simplify_eq/=. wp_rule.
      * match goal with H : at_world _ _ None ?w |- unlocked _ _ _ (rollback ?w) ∧ _ => destruct H as [Hd ? Hkey _ _ _] end.
        split; [|done]. split; [done|]. right. split; [done|]. exists r, n. simpl. by rewrite Hd, Hkey.
      * match goal with H : at_world _ _ None ?w |- unlocked _ _ _ (rollback ?w) ∧ _ => destruct H as [<- ? _ _ _ _] end.
        split; [done|]. intros Hq. by no_io Hq.
    + match goal with H : at_world _ _ _ ?w |- unlocked _ _ _ (rollback ?w) ∧ _ => destruct H as [<- ? _ _ _ _] end.
      split; [done|]. intros Hq [_ Hc]. rewrite Hc in *. by no_io Hq.
  - intros e w1 He [<- ? _ _ _ _]. split; [done|]. intros Hq. by no_io Hq.
Qed.

Lemma wp_unlock_vault unlock d w0 w :
  at_world w0 d None w →
  wp (unlock_vault unlock) (λ r w', unlocked unlock d r w'
    ∧ (w_faults w0 = [] → fresh d ∨ admits unlock d → r = Ok tt)
    ∧ (w_faults w0 = [] → is_Some (db_metadata d !! "salt") → is_Some (db_metadata d !! "check") →
       ¬ admits unlock d → r = Err (ErrMsg "cannot unlock database"))) w.
Proof.
  intros Hw. unfold unlock_vault. wp_rule. wp_rule. unfold metadata_value at 1. wp_rule.
  - destruct (db_metadata d !! "salt") as [salt|] eqn:Es; [|done]. simplify_eq/=.
    eapply wp_mono; [by apply wp_check_unlock|]. intros r w2 (Hu & Ha & Hn). split_and!; [done| |].
    + intros Hq [[? _]|?]; [congruence|auto].
    + intros. by apply Hn.
  - destruct (db_metadata d !! "salt") as [salt|] eqn:Es.
    + destruct H0 as [?|[-> Hq]]; [done|]. apply wp_fail. destruct H1 as [<- ? _ _ _ _]. split_and!; try done.
    + destruct H0 as [[= <-]|[-> Hq]].
      * eapply wp_mono; [by apply wp_first_unlock|]. intros r w2 (Hu & Ha). split_and!; [done| |].
        -- intros Hq [?|(x & y & Hx & _)]; [auto|congruence].
        -- intros _ [? ?]. done.
      * apply wp_fail. destruct H1 as [<- ? _ _ _ _]. split_and!; try done.
Qed.

(** ** System calls *)

Lemma wp_syscall w0 d t f (Q : result unit → site → Prop) s :
  at_world w0 d t (si_world s) →
  (∀ w, at_world w0 d t w → Q (Ok tt) (f (set_si_world w s))) →
  (∀ e w, io w0 e → at_world w0 d t w → Q (Err e) (set_si_world w s)) →
  wp (syscall f) Q s.
Proof.
  intros Hs HQ HE. unfold syscall. wp_rule. apply wp_zoom. eapply wp_fault; [done|..].
  - intros w Hw _. apply wp_modify. auto.
  - intros e w He Hw _. auto.
Qed.

Lemma wp_close_on_error {A} (m : M site A) Q s :
  wp m (λ r s', match r with Ok a => Q (Ok a) s' | Err e => Q (Err e) (set_si_locked false s') end) s →
  wp (close_on_error m) Q s.
Proof. unfold wp, close_on_error. by destruct (m s) as [[a|e] s']. Qed.

(** How an attempt to open may end. *)
Definition open_outcome (unlock : string) (d : database) (s : site) (r : result unit) (s' : site) : Prop :=
  w_tx (si_world s') = None
  ∧ match r with
    | Ok _ => (12 <= String.length unlock)%nat ∧ si_locked s = false ∧ si_locked s' = true
        ∧ si_mode s' = Some owner_only
        ∧ opened unlock (at_version 4 d) (w_db (si_world s')) (w_key (si_world s'))
    | Err _ => si_locked s' = si_locked s
        ∧ ∃ v, (db_version d <= v <= 4)%Z ∧ w_db (si_world s') = at_version v d
    end.

(** When it succeeds, and when the secret is what is wrong. *)
Definition open_verdict (unlock : string) (d : database) (s : site) (r : result unit) : Prop :=
  w_faults (si_world s) = [] → (12 <= String.length unlock)%nat → si_locked s = false →
  (fresh d ∨ admits unlock d → r = Ok tt)
  ∧ (is_Some (db_metadata d !! "salt") → is_Some (db_metadata d !! "check") → ¬ admits unlock d →
     r = Err (ErrMsg "cannot unlock database")).

Lemma admits_version unlock v d : admits unlock (at_version v d) ↔ admits unlock d.
Proof. done. Qed.

(** The steps under the lock. *)
Lemma wp_open_locked unlock d w0 s :
  typed d → at_world w0 d None (si_world s) →
  wp (syscall (set_si_mode (Some owner_only));; syscall id;; syscall id;; in_world migrate;; in_world (unlock_vault unlock))
    (λ r s', w_tx (si_world s') = None ∧ si_locked s' = si_locked s
      ∧ match r with
        | Ok _ => si_mode s' = Some owner_only ∧ opened unlock (at_version 4 d) (w_db (si_world s')) (w_key (si_world s'))
        | Err _ => ∃ v, (db_version d <= v <= 4)%Z ∧ w_db (si_world s') = at_version v d
        end
      ∧ (w_faults w0 = [] → fresh d ∨ admits unlock d → r = Ok tt)
      ∧ (w_faults w0 = [] → is_Some (db_metadata d !! "salt") → is_Some (db_metadata d !! "check") →
         ¬ admits unlock d → r = Err (ErrMsg "cannot unlock database"))) s.
Proof.
  intros Hty Hs. pose proof (ty_version d Hty) as Hv.
  assert (∀ e w s0, io w0 e → at_world w0 d None w → si_locked s0 = si_locked s →
    w_tx (si_world (set_si_world w s0)) = None ∧ si_locked (set_si_world w s0) = si_locked s
      ∧ (∃ v, (db_version d <= v <= 4)%Z ∧ w_db (si_world (set_si_world w s0)) = at_version v d)
      ∧ (w_faults w0 = [] → fresh d ∨ admits unlock d → Err e = Ok tt)
      ∧ (w_faults w0 = [] → is_Some (db_metadata d !! "salt") → is_Some (db_metadata d !! "check") →
         ¬ admits unlock d → @Err unit e = Err (ErrMsg "cannot unlock database"))) as Hio.
  { intros e w s0 He [<- ? _ _ _ _] Hl. split_and!; try done.
    - exists (db_version (w_db w)). rewrite at_version_id by done. split; [lia|done].
    - intros Hq. by no_io Hq.
    - intros Hq. by no_io Hq. }
  wp_rule. eapply wp_syscall; [done| |intros; by apply Hio]. intros w1 Hw1.
  wp_rule. eapply wp_syscall; [done| |intros; by apply Hio]. intros w2 Hw2.
  wp_rule. eapply wp_syscall; [done| |intros; by apply Hio]. intros w3 Hw3.
  wp_rule. apply wp_zoom. eapply wp_mono; [by apply (wp_migrate d w0)|].
  intros [[]|e] w4 (v & Hle & Hw4 & Hok & Hq4).
  - rewrite Hok in Hw4 by done. apply wp_zoom.
    eapply wp_mono; [by apply (wp_unlock_vault unlock (at_version 4 d) w0)|].
    intros r w5 ([Htx Hr] & Ha & Hn). simpl in *. split_and!; try done.
    destruct r as [[]|e]; [done|]. exists 4%Z. split; [lia|done].
  - destruct Hw4 as [Hd Ht _ _ _ _]. split_and!; try done; [eauto| |]; intros Hq; by specialize (Hq4 Hq).
Qed.

Lemma wp_Open unlock d s :
  typed d → w_db (si_world s) = d → w_tx (si_world s) = None →
  wp (Open unlock) (λ r s', open_outcome unlock d s r s' ∧ open_verdict unlock d s r) s.
Proof.
  intros Hty Hd Htx. set (w0 := si_world s). assert (at_world w0 d None w0) as Hs by (rewrite <-Hd; by apply at_start).
  assert (∀ e s', at_world w0 d None (si_world s') → si_locked s' = si_locked s →
    (w_faults w0 = [] → (12 <= String.length unlock)%nat → si_locked s = false → False) →
    open_outcome unlock d s (Err e) s' ∧ open_verdict unlock d s (Err e)) as Herr.
  { intros e s' [Hd' ? _ _ _ _] Hl Hno. pose proof (ty_version d Hty). split.
    - split; [done|]. split; [done|]. exists (db_version d). rewrite at_version_id by done. split; [lia|done].
    - intros Hq H12 Hf. by destruct (Hno Hq H12 Hf). }
  unfold Open. wp_rule. apply wp_guard; intros H12.
  2: { apply Herr; [done..|]. intros _ ?%Nat.leb_le. congruence. }
  apply Nat.leb_le in H12.
  wp_rule. eapply wp_syscall; [done| |intros e w1 He Hw1; apply Herr; [done..|intros Hq; by no_io Hq]]. intros w1 Hw1.
  wp_rule. eapply wp_syscall; [done| |intros e w2 He Hw2; apply Herr; [done..|intros Hq; by no_io Hq]]. intros w2 Hw2.
  wp_rule. wp_rule. unfold wp at 1, flock; simpl. destruct (si_locked s) eqn:El.
  { apply Herr; done. }
  change (wp (syscall (set_si_locked true)) (λ r s',
    match or_error r "database already in use" with
    | Ok _ => wp (close_on_error (syscall (set_si_mode (Some owner_only));; syscall id;; syscall id;;
        in_world migrate;; in_world (unlock_vault unlock))) (λ r s', open_outcome unlock d s r s' ∧ open_verdict unlock d s r) s'
    | Err e => open_outcome unlock d s (Err e) s' ∧ open_verdict unlock d s (Err e)
    end) (set_si_mode (Some (default owner_only (si_mode (set_si_world w1 s)))) (set_si_world w2 (set_si_world w1 s)))).
  eapply wp_syscall; [done| |intros e w3 He Hw3; apply Herr; [done..|intros Hq; by no_io Hq]]. intros w3 Hw3.
  simpl. apply wp_close_on_error. eapply wp_mono; [by apply (wp_open_locked unlock d w0)|].
  unfold open_outcome, open_verdict. fold w0. rewrite El.
  intros [[]|e] s' (Ht & Hl & Hr & Ha & Hn); simpl in *.
  all: split; [|intros; split; [auto|intros; by apply Hn]].
  - split; [done|]. by destruct Hr.
  - done.
Qed.

(** C24: Opening the store: it succeeds only with a secret of at least 12
    characters, while no other process holds the lock; the file is then locked,
    private to its owner and migrated to the newest schema with every row as it
    was, and the vault's key is the one the secret derives from the stored salt —
    a database without one gets a fresh salt and a check record.  Whatever step
    fails, the lock is given back and the rows are untouched.  Without failures a
    new database, and one whose check record the secret opens, is opened, and a
    wrong secret is reported as such. *)
Theorem Open_correct unlock d s (Hty : typed d) (Hd : w_db (si_world s) = d) (Htx : w_tx (si_world s) = None) :
  open_outcome unlock d s (Open unlock s).1 (Open unlock s).2 ∧ open_verdict unlock d s (Open unlock s).1.
Proof. exact (wp_Open unlock d s Hty Hd Htx). Qed.

End opening_props.

Section reopening.
Context `{GcmLaws}.

Lemma initialised_admits unlock salt nonce d :
  String.length nonce = NonceSize → admits unlock (initialised unlock salt nonce d).
Proof.
  intros Hn. exists salt, (Seal (Key unlock salt) "unlock-check" "budge-v1" nonce). simpl.
  rewrite lookup_insert_eq, lookup_insert_ne, lookup_insert_eq by done. by rewrite Unseal_Seal.
Qed.

(** An open store admits its secret, whose key is the vault's. *)
Lemma opened_admits unlock d d' key :
  opened unlock d d' key → admits unlock d' ∧ Some key = Key unlock <$> db_metadata d' !! "salt".
Proof.
  intros [(Ha & -> & Hk)|(_ & salt & nonce & _ & Hn & -> & ->)]; [done|].
  split; [by apply initialised_admits|]. simpl. by rewrite lookup_insert_ne, lookup_insert_eq.
Qed.

Lemma admits_meta unlock d d' :
  db_metadata d !! "salt" = db_metadata d' !! "salt" → db_metadata d !! "check" = db_metadata d' !! "check" →
  admits unlock d → admits unlock d'.
Proof. intros Es Ec (a & b & ? & ? & ?). exists a, b. by rewrite <-Es, <-Ec. Qed.

(** The unlock secret round-trips: once a store was opened with a secret, and
    whatever happened to the rest of the database since, opening it again with
    that secret succeeds (failures apart) and gives the vault the very same key;
    another secret opens it exactly if the key it derives from the stored salt
    seals the check text to the stored record, byte for byte. *)
Theorem Open_reopen u u' s s' m w
    (Hty : typed (w_db (si_world s))) (Htx : w_tx (si_world s) = None) (Hopen : Open u s = (Ok tt, s'))
    (Hty' : typed (w_db w)) (Htx' : w_tx w = None) (Hq : w_faults w = [])
    (Hsalt : db_metadata (w_db (si_world s')) !! "salt" = db_metadata (w_db w) !! "salt")
    (Hcheck : db_metadata (w_db (si_world s')) !! "check" = db_metadata (w_db w) !! "check")
    (H12 : (12 <= String.length u')%nat) :
  ∃ salt sealed, db_metadata (w_db w) !! "salt" = Some salt ∧ db_metadata (w_db w) !! "check" = Some sealed
  ∧ w_key (si_world s') = Key u salt
  ∧ (u' = u → (Open u' (mkSite m false w)).1 = Ok tt
       ∧ w_key (si_world (Open u' (mkSite m false w)).2) = w_key (si_world s'))
  ∧ ((Open u' (mkSite m false w)).1 = Ok tt ↔
       Seal (Key u' salt) "unlock-check" "budge-v1" (take_bytes NonceSize sealed) = sealed).
Proof.
  destruct (wp_unfold _ _ _ _ _ Hopen (wp_Open u _ s Hty eq_refl Htx)) as [(_ & _ & _ & _ & _ & Ho) _].
  apply opened_admits in Ho as [Ha Hk]. pose proof (admits_meta u _ _ Hsalt Hcheck Ha) as Ha'.
  destruct Ha' as (salt & sealed & Es & Ec & Hu). rewrite Hsalt, Es in Hk. injection Hk as Hk.
  assert ((NonceSize <= String.length sealed)%nat) as Hlen.
  { unfold Unseal in Hu. destruct (_ <? _)%nat eqn:E; [done|]. by apply Nat.ltb_ge in E. }
  destruct (wp_Open u' _ (mkSite m false w) Hty' eq_refl Htx') as [Hout Hver].
  specialize (Hver Hq H12 eq_refl) as [Hyes Hno]. simpl in *. unfold open_outcome in Hout. simpl in Hout.
  assert (admits u' (w_db w) ↔ Seal (Key u' salt) "unlock-check" "budge-v1" (take_bytes NonceSize sealed) = sealed) as Hiff.
  { split.
    - intros (a & b & Hx & Hy & Hz). simplify_eq. by apply Unseal_iff in Hz.
    - intros Hz. exists salt, sealed. split_and!; [done..|]. by apply Unseal_iff. }
  exists salt, sealed. split_and!; try done.
  - intros ->. assert (admits u (w_db w)) as Hau by (exists salt, sealed; done).
    specialize (Hyes (or_intror Hau)). rewrite Hyes in Hout. split; [done|].
    destruct Hout as (_ & _ & _ & _ & _ & [(_ & _ & Ho)|([Hf _] & _)]); simpl in *; [|congruence].
    rewrite Es in Ho. by injection Ho as ->.
  - split; [|intros; by apply Hyes; right; apply Hiff]. intros Hok. apply Hiff. rewrite Hok in Hout.
    by destruct Hout as (_ & _ & _ & _ & _ & [(Hau & _)|([Hf _] & _)]); simpl in *; [|congruence].
Qed.

End reopening.

(** * Witnesses *)

Lemma typed_empty : typed empty_db.
Proof.
  split; [simpl; lia|apply (bool_decide_unpack _); vm_compute; exact I|].
  repeat (apply Forall_cons; split; [vm_compute; try exact I; reflexivity|]). apply Forall_nil. exact I.
Qed.

#[local] Existing Instances plain_crypto plain_laws.

(** A host without a database file, and a secret. *)
Definition new_site : site :=
  mkSite None false (mkWorld empty_db None (1000 * second) [] [] ["0123456789abcdef"; "abcdefghijkl"] (mkMemory ∅ 0 ∅) "").
Definition sample_unlock : string := "unlock-secret".

Lemma Open_correct_witness :
  (Open sample_unlock new_site).1 = Ok tt ∧
  open_outcome sample_unlock empty_db new_site (Open sample_unlock new_site).1 (Open sample_unlock new_site).2.
Proof.
  destruct (Open_correct sample_unlock empty_db new_site typed_empty eq_refl eq_refl) as [Hout Hver].
  split; [|exact Hout]. apply Hver; [reflexivity|vm_compute; lia|reflexivity|left; split; reflexivity].
Defined.

(** The opened store, and its world in a later process. *)
Definition opened_site : site := (Open sample_unlock new_site).2.

Lemma typed_opened : typed (w_db (si_world opened_site)).
Proof. apply typed_full; [reflexivity|apply (bool_decide_unpack _); vm_compute; exact I]. Qed.

Lemma Open_reopen_witness :
  (Open sample_unlock (Close opened_site)).1 = Ok tt ∧ (Open "another-secret" (Close opened_site)).1 ≠ Ok tt.
Proof.
  split.
  - destruct (@Open_reopen plain_crypto plain_laws sample_unlock sample_unlock new_site opened_site (Some owner_only) (si_world opened_site)
      typed_empty eq_refl ltac:(vm_compute; reflexivity) typed_opened ltac:(vm_compute; reflexivity)
      ltac:(vm_compute; reflexivity) eq_refl eq_refl ltac:(vm_compute; lia))
      as (salt & sealed & _ & _ & _ & Hsame & _). exact (proj1 (Hsame eq_refl)).
  - vm_compute. discriminate.
Defined.
