(* ===== verification/Authorize.v ===== *)
(** The authorization queries of src/internal/access/access.go: the active device,
    the enabled service, and the permission that matches a request.

    [Authorize] returns the first match in the order in which the database gives
    the rows, which SQL leaves open; [authorize_in] takes that order. *)
From S2P Require Import Prelude GoStrings Access Crypto Types Db Rules Samples.

Section authorize.
Context `{GoCrypto} `{GoJSON}.

(** [SELECT 1 FROM devices WHERE id=? AND revoked=0] *)
Definition device_active (d : database) (id : string) : bool :=
  match db_devices d !! id with Some r => negb (dev_revoked r) | None => false end.

Definition ActiveDevice (q : querier) (id : string) : M world bool :=
  r ← attempt (query q (λ d, if device_active d id then Ok tt else Err ErrNoRows));
  mret (match r with Ok _ => true | Err _ => false end).

(** [SELECT .. FROM services WHERE id=? AND enabled=1] *)
Definition enabled_service (d : database) (id : string) : option service_row :=
  match db_services d !! id with Some r => if srv_enabled r then Some r else None | None => None end.

(** The service of a row, its header lists decoded. *)
Definition service_of (id : string) (r : service_row) : result Service :=
  match unmarshal_strings (srv_request_headers r), unmarshal_strings (srv_response_headers r) with
  | Some req, Some res =>
    Ok (mkService id (srv_label r) (srv_base_url r) (srv_auth r) (srv_auth_header r) (srv_private_cidr r)
          (srv_revision r) (srv_credential r) req res)
  | _, _ => Err (ErrMsg "json")
  end.

Definition GetService (q : querier) (id : string) : M world Service :=
  r ← query q (λ d, row (enabled_service d id)); lift (service_of id r).

(** [expires IS NULL OR expires>now] *)
Definition live (expires : option Z) (now : Z) : bool :=
  match expires with None => true | Some e => (now <? e)%Z end.

(** The WHERE clause of the permission query. *)
Definition permission_active (device service : string) (revision now : Z) (p : permission_row) : bool :=
  bool_decide (pm_device p = device) && bool_decide (pm_service p = service)
  && (pm_revision p =? revision)%Z && negb (pm_revoked p) && live (pm_expires p) now.

Definition to_permission (id : string) (p : permission_row) : Permission :=
  mkPermission id (pm_device p) (pm_service p) (pm_method p) (pm_path p) (pm_kind p) (pm_mode p)
    (pm_owner p) (pm_revision p) (pm_expires p).

Definition active_rows (device service : string) (revision now : Z) (rows : list (string * permission_row))
    : list Permission :=
  map (λ r, to_permission r.1 r.2) (filter (λ r, permission_active device service revision now r.2 = true) rows).

(** The scanning loop; an error of the iteration ends it like the last row. *)
Fixpoint match_rows (method path : string) (rows : list Permission) : M world Permission :=
  match rows with
  | [] => fail (ErrMsg "permission_denied")
  | p :: rest =>
    ok ← attempt fault;
    match ok with
    | Err _ => fail (ErrMsg "permission_denied")
    | Ok _ => if Match p method path then mret p else match_rows method path rest
    end
  end.

Definition authorize_in (order : gmap string permission_row → list (string * permission_row))
    (q : querier) (device service method path : string) : M world (Service * Permission) :=
  active ← ActiveDevice q device;
  if negb active then fail (ErrMsg "device_revoked") else
  s ← or_fail (GetService q service) "permission_denied";
  now ← now_Unix;
  rows ← query q (λ d, Ok (active_rows device service (svc_Revision s) now (order (db_permissions d))));
  p ← match_rows method path rows;
  mret (s, p).

Definition Authorize : querier → string → string → string → string → M world (Service * Permission) :=
  authorize_in map_to_list.

(** * What an authorisation means *)

(** [s] and [p] authorise the request in [d] at the Unix time [now]. *)
Record authorized (d : database) (device service method path : string) (now : Z) (s : Service) (p : Permission)
    : Prop := {
  auth_device : device_active d device = true;
  auth_service : ∃ r, enabled_service d service = Some r ∧ service_of service r = Ok s;
  auth_permission : ∃ r, db_permissions d !! perm_ID p = Some r
    ∧ permission_active device service (svc_Revision s) now r = true ∧ p = to_permission (perm_ID p) r;
  auth_match : Match p method path = true;
}.

(** The order in which the database gives its rows. *)
Definition row_order (order : gmap string permission_row → list (string * permission_row)) : Prop :=
  ∀ m, order m ≡ₚ map_to_list m.

Lemma elem_of_active order device service revision now d p :
  row_order order →
  p ∈ active_rows device service revision now (order (db_permissions d)) ↔
  ∃ r, db_permissions d !! perm_ID p = Some r
    ∧ permission_active device service revision now r = true ∧ p = to_permission (perm_ID p) r.
Proof.
  unfold row_order. intros Ho. unfold active_rows. rewrite list_elem_of_fmap. split.
  - intros ([k r] & -> & [Ha Hin]%list_elem_of_filter). rewrite Ho in Hin.
    apply elem_of_map_to_list in Hin. by exists r.
  - intros (r & Hr & Ha & ->). exists (perm_ID p, r). split; [done|].
    apply list_elem_of_filter. rewrite Ho. by rewrite elem_of_map_to_list.
Qed.

Lemma wp_ActiveDevice w0 id d t (Q : result bool → world → Prop) w :
  at_world w0 d (Some t) w →
  (∀ b w', (b = true → device_active t id = true) → (w_faults w0 = [] → b = device_active t id) →
     at_world w0 d (Some t) w' → w_clock w' = w_clock w → Q (Ok b) w') →
  wp (ActiveDevice Tx id) Q w.
Proof.
  intros Hw HQ. unfold ActiveDevice. apply wp_bind, wp_attempt. unfold wp, query, current.
  rewrite (at_tx _ _ _ _ Hw).
  assert (wp fault (λ r w', wp (λ w, match r with
    | Ok _ => ((if device_active t id then Ok tt else Err ErrNoRows), w) | Err e => (Err e, w) end)
    (λ r w', wp (mret match r with Ok _ => true | Err _ => false end) Q w') w') w) as H1.
  { eapply wp_fault; [done|..].
    - intros w' Hw' Hc. unfold wp; simpl. apply HQ; try done; by destruct (device_active t id).
    - intros e w' He Hw' Hc. unfold wp; simpl. apply HQ; try done.
      intros Hq. by destruct (io_quiet _ _ Hq He). }
  unfold wp in H1. destruct (fault w) as [[?|?] w']; done.
Qed.

Lemma wp_GetService w0 id d t (Q : result Service → world → Prop) w :
  at_world w0 d (Some t) w →
  (∀ r s w', enabled_service t id = Some r → service_of id r = Ok s →
     at_world w0 d (Some t) w' → w_clock w' = w_clock w → Q (Ok s) w') →
  (∀ e w', (w_faults w0 = [] → ∀ r s, enabled_service t id = Some r → service_of id r ≠ Ok s) →
     at_world w0 d (Some t) w' → Q (Err e) w') →
  wp (GetService Tx id) Q w.
Proof.
  intros Hw HQ HE. unfold GetService. wp_steps.
  - destruct (service_of id a) eqn:Es.
    + eapply HQ; try done. by destruct (enabled_service t id) as [?|]; simplify_eq/=.
    + apply HE; [|done]. intros _ r s Hr. rewrite Hr in *. simplify_eq/=. congruence.
  - apply HE; [|done]. intros Hq r s Hr. no_io Hq. by rewrite Hr in H1.
Qed.

Lemma wp_match_rows w0 method path d t rows (Q : result Permission → world → Prop) w :
  at_world w0 d (Some t) w →
  (∀ p w', p ∈ rows → Match p method path = true → at_world w0 d (Some t) w' →
     w_clock w' = w_clock w → Q (Ok p) w') →
  (∀ e w', (w_faults w0 = [] → ∀ p, p ∈ rows → Match p method path = false) →
     at_world w0 d (Some t) w' → w_clock w' = w_clock w → Q (Err e) w') →
  wp (match_rows method path rows) Q w.
Proof.
  revert w. induction rows as [|p rows IH]; intros w Hw HQ HE; simpl.
  { apply wp_fail, HE; [|done..]. intros _ p Hp. by apply elem_of_nil in Hp. }
  wp_rule. wp_rule. wp_rule.
  - wp_case; [wp_rule; apply HQ; try done; left|].
    apply IH; [done|..].
    + intros q w2 Hq Hm Hw2 Hc. apply HQ; try done; [by right|congruence].
    + intros e w2 Hn Hw2 Hc. apply HE; [|done|congruence].
      intros Hf q [-> | Hq]%elem_of_cons; [done|by apply Hn].
  - wp_rule. apply HE; try done. intros Hq. no_io Hq.
Qed.

(** Whatever order the rows come in, an answer is an authorisation at the time
    read, and without faults a refusal means that there is none. *)
Lemma wp_authorize_in w0 order device service method path d t
    (Q : result (Service * Permission) → world → Prop) w :
  row_order order → at_world w0 d (Some t) w →
  (∀ s p w', authorized t device service method path (Unix (w_clock w')) s p →
     at_world w0 d (Some t) w' → (w_clock w <= w_clock w')%Z → Q (Ok (s, p)) w') →
  (∀ e w', (w_faults w0 = [] → ∃ now, (Unix (w_clock w) <= now)%Z ∧ ∀ s p, ¬ authorized t device service method path now s p) →
     at_world w0 d (Some t) w' → Q (Err e) w') →
  wp (authorize_in order Tx device service method path) Q w.
Proof.
  intros Ho Hw HQ HE. unfold authorize_in.
  wp_rule. eapply wp_ActiveDevice; [done|]. intros b w1 Hb Hb' Hw1 Hc1. destruct b; simpl; last first.
  { wp_rule. apply HE; [|done]. intros Hq. eexists; split; [reflexivity|]. intros s p [Hd _ _ _].
    rewrite <-Hb' in Hd by done. done. }
  wp_rule. wp_rule. eapply wp_GetService; [done| |]; cbn [or_error].
  2: { intros e w2 Hn Hw2. apply HE; [|done]. intros Hq. eexists; split; [reflexivity|].
       intros s p [_ (r & Hr & Hs) _ _]. by eapply Hn. }
  intros r s w2 Hr Hs Hw2 Hc2. wp_rule. wp_rule. wp_rule. wp_rule.
  - simplify_eq/=. wp_rule. eapply wp_match_rows; [done|..].
    + intros p w5 Hp Hm Hw5 Hc5. wp_rule. apply HQ; [|done|lia].
      split; [by auto|by eauto| |done]. replace (w_clock w5) with (w_clock w') by congruence. by apply (elem_of_active order).
    + intros e w5 Hn Hw5 Hc5. apply HE; [|done].
      intros Hq. exists (Unix (w_clock w')). split; [unfold Unix; apply Z.div_le_mono; [done|lia]|].
      intros s' p [_ (r' & Hr' & Hs') Hp Hm]. assert (s' = s) as -> by congruence.
      rewrite Hn in Hm; [done..|]. by apply elem_of_active.
  - apply HE; [|done]. intros Hq. by no_io Hq.
Qed.

Lemma row_order_default : row_order map_to_list.
Proof. by intros m. Qed.

(** * Without faults, in closed form *)

Lemma fault_quiet w : w_faults w = [] → fault w = (Ok tt, w).
Proof. unfold fault. by intros ->. Qed.

Lemma query_quiet {A} (f : database → result A) d w :
  w_tx w = Some d → w_faults w = [] → query Tx f w = (f d, w).
Proof. intros Ht Hf. unfold query, current. by rewrite Ht, (fault_quiet _ Hf). Qed.

Lemma match_rows_quiet method path rows w :
  w_faults w = [] →
  match_rows method path rows w =
  (row_or (ErrMsg "permission_denied") (head (filter (λ p, Match p method path = true) rows)), w).
Proof.
  intros Hf. induction rows as [|p rows IH]; [done|]. cbn [match_rows].
  unfold mbind at 1, M_bind, attempt. rewrite (fault_quiet _ Hf). rewrite filter_cons.
  destruct (Match p method path); simpl; [done|]. by rewrite IH.
Qed.

(** ** The permissions of a database that are live together *)

(** No two permissions that are active for one device and service overlap. *)
Definition no_overlap (d : database) (now : Z) : Prop :=
  ∀ device service revision i j p q,
    db_permissions d !! i = Some p → db_permissions d !! j = Some q → i ≠ j →
    permission_active device service revision now p = true →
    permission_active device service revision now q = true →
    Overlap (to_permission i p) (to_permission j q) = false.

Lemma live_earlier e now now' : (now <= now')%Z → live e now' = true → live e now = true.
Proof. destruct e as [e|]; [|done]. unfold live. rewrite !Z.ltb_lt. lia. Qed.

Lemma permission_active_earlier device service revision now now' p :
  (now <= now')%Z → permission_active device service revision now' p = true →
  permission_active device service revision now p = true.
Proof.
  unfold permission_active. rewrite !andb_true_iff. intros Hn (Hr & Hl). split; [done|].
  by eapply live_earlier.
Qed.

Lemma no_overlap_later d now now' : (now <= now')%Z → no_overlap d now → no_overlap d now'.
Proof. intros Hn Ho dev srv rev i j p q Hp Hq Hij Ap Aq. eapply Ho; eauto using permission_active_earlier. Qed.

(** Then at most one of them matches a request. *)
Lemma match_unique order device service revision method path now d p q :
  row_order order → no_overlap d now →
  p ∈ active_rows device service revision now (order (db_permissions d)) →
  q ∈ active_rows device service revision now (order (db_permissions d)) →
  Match p method path = true → Match q method path = true → p = q.
Proof.
  intros Ho Hn (r & Hr & Ar & Ep)%elem_of_active (r' & Hr' & Ar' & Eq)%elem_of_active Mp Mq; [|done..].
  destruct (decide (perm_ID p = perm_ID q)) as [E|Hne].
  { rewrite Ep, Eq, <-E. f_equal. congruence. }
  specialize (Hn _ _ _ _ _ _ _ Hr Hr' Hne Ar Ar'). rewrite <-Ep, <-Eq in Hn.
  assert (Overlap p q = true) as Ht by (apply Overlap_spec; eauto). congruence.
Qed.

(** Two lists with the same elements, of which at most one satisfies a test, give
    the same first element that does. *)
Lemma head_filter_unique {A} (P : A → Prop) `{∀ x, Decision (P x)} (l1 l2 : list A) :
  l1 ≡ₚ l2 → (∀ x y, x ∈ l1 → y ∈ l1 → P x → P y → x = y) →
  head (filter P l1) = head (filter P l2).
Proof.
  intros Hl Hu. destruct (filter P l1) as [|x1 r1] eqn:E1, (filter P l2) as [|x2 r2] eqn:E2; try done; simpl.
  - assert (x2 ∈ filter P l1) as Hx by (rewrite Hl, E2; left). by rewrite E1 in Hx; apply elem_of_nil in Hx.
  - assert (x1 ∈ filter P l2) as Hx by (rewrite <-Hl, E1; left). by rewrite E2 in Hx; apply elem_of_nil in Hx.
  - assert (x1 ∈ filter P l1 ∧ x2 ∈ filter P l1) as [[P1 I1]%list_elem_of_filter [P2 I2]%list_elem_of_filter].
    { rewrite E1. split; [left|]. rewrite <-E1, Hl, E2. left. }
    by f_equal; apply Hu.
Qed.

(** ** What the row of an authorisation says *)

(** The stored permission is of this device, service and revision, and in force. *)
Record in_force (d : database) (device service : string) (revision now : Z) (id : string) : Prop := {
  if_row : ∃ r, db_permissions d !! id = Some r ∧ pm_device r = device ∧ pm_service r = service
    ∧ pm_revision r = revision ∧ pm_revoked r = false ∧ (∀ e, pm_expires r = Some e → (now < e)%Z);
}.

Lemma permission_active_iff device service revision now p :
  permission_active device service revision now p = true ↔
  pm_device p = device ∧ pm_service p = service ∧ pm_revision p = revision ∧ pm_revoked p = false
  ∧ (∀ e, pm_expires p = Some e → (now < e)%Z).
Proof.
  unfold permission_active. rewrite !andb_true_iff, !bool_decide_eq_true, Z.eqb_eq, negb_true_iff.
  assert (live (pm_expires p) now = true ↔ ∀ e, pm_expires p = Some e → (now < e)%Z) as ->; [|tauto].
  unfold live. destruct (pm_expires p) as [e|]; [|split; done].
  rewrite Z.ltb_lt. split; [by intros ? ? [= <-]|auto].
Qed.

Lemma authorized_in_force d device service method path now s p :
  authorized d device service method path now s p → in_force d device service (svc_Revision s) now (perm_ID p).
Proof. intros [_ _ (r & Hr & Ha & _) _]. split. exists r. split; [done|]. by apply permission_active_iff. Qed.

(** * Properties *)

(** C21: An answer of [Authorize] is sound and complete: the device is active, the
    service is enabled, the permission is stored for this device, service and
    current revision, is neither revoked nor expired at the time read, and
    matches; and when no statement fails a refusal means there is no such
    permission.  It changes neither the database nor the transaction. *)
Theorem Authorize_correct d device service method path w (Htx : w_tx w = Some d) :
  wp (Authorize Tx device service method path) (λ r w',
    w_db w' = w_db w ∧ w_tx w' = Some d ∧
    match r with
    | Ok (s, p) => authorized d device service method path (Unix (w_clock w')) s p
        ∧ in_force d device service (svc_Revision s) (Unix (w_clock w')) (perm_ID p)
    | Err _ => w_faults w = [] →
        ∃ now, (Unix (w_clock w) <= now)%Z ∧ ∀ s p, ¬ authorized d device service method path now s p
    end) w.
Proof.
  pose proof (at_self w) as Hw. rewrite Htx in Hw.
  eapply wp_authorize_in; [apply row_order_default|done|..].
  - intros s p w' Ha [? ? ? ? ? ?] _. split_and!; eauto using authorized_in_force.
  - intros e w' Hn [? ? ? ? ? ?]. by split_and!.
Qed.

(** C33: While no two active permissions of a device and service overlap, the
    answer does not depend on the order in which the database gives the rows,
    which the query leaves open. *)
Theorem Authorize_order order d device service method path w
    (Ho : row_order order) (Htx : w_tx w = Some d) (Hq : w_faults w = []) (Hn : no_overlap d (Unix (w_clock w))) :
  authorize_in order Tx device service method path w = Authorize Tx device service method path w.
Proof.
  unfold Authorize, authorize_in, ActiveDevice, GetService, mbind, M_bind, attempt, or_fail, lift.
  rewrite !(query_quiet _ d w) by done.
  destruct (device_active d device); simpl; [|done].
  rewrite !(query_quiet _ d w) by done.
  destruct (enabled_service d service) as [r|]; simpl; [|done].
  destruct (service_of service r) as [s|]; simpl; [|done].
  pose proof (wp_now_Unix w (w_db w) (Some d) (λ r w', match r with Ok t =>
    w_tx w' = Some d ∧ w_faults w' = [] ∧ (Unix (w_clock w) <= t)%Z | Err _ => True end) w) as Hnow.
  unfold wp in Hnow. destruct (now_Unix w) as [[now|] w']; [|done]. simpl in Hnow.
  destruct Hnow as (Ht' & Hf' & Hle).
  { rewrite <-Htx. apply at_self. }
  { intros w1 [? Ht1 ? ? ? Hf1] Hc. split_and!; [done|by apply Hf1|]. by apply Z.div_le_mono. }
  rewrite !(query_quiet _ d w') by done. rewrite !match_rows_quiet by done.
  rewrite (head_filter_unique _ (active_rows _ _ _ _ (order _))
    (active_rows device service (svc_Revision s) now (map_to_list (db_permissions d)))); [done|..].
  - unfold active_rows. by rewrite (Ho (db_permissions d)).
  - intros p q Hp Hq' Mp Mq. by eapply (match_unique order _ _ _ _ _ now); eauto using no_overlap_later.
Qed.

End authorize.

#[local] Existing Instances plain_crypto plain_json.

Lemma Authorize_correct_witness :
  w_tx sample_tx = Some sample_db ∧
  match (Authorize Tx "dev_1" "api" "GET" "/v1/jobs/7" sample_tx).1 with
  | Ok (s, p) => svc_ID s = "api" ∧ perm_ID p = "perm_1"
  | Err _ => False
  end ∧
  wp (Authorize Tx "dev_1" "api" "GET" "/v1/jobs/7") (λ r w', w_db w' = sample_db ∧ w_tx w' = Some sample_db ∧
    match r with
    | Ok (s, p) => authorized sample_db "dev_1" "api" "GET" "/v1/jobs/7" (Unix (w_clock w')) s p
        ∧ in_force sample_db "dev_1" "api" (svc_Revision s) (Unix (w_clock w')) (perm_ID p)
    | Err _ => w_faults sample_tx = [] →
        ∃ now, (Unix (w_clock sample_tx) <= now)%Z ∧
          ∀ s p, ¬ authorized sample_db "dev_1" "api" "GET" "/v1/jobs/7" now s p
    end) sample_tx.
Proof.
  split; [reflexivity|]. split; [vm_compute; split; reflexivity|].
  apply (Authorize_correct sample_db "dev_1" "api" "GET" "/v1/jobs/7" sample_tx). reflexivity.
Defined.

Lemma sample_no_overlap : no_overlap sample_db 1000.
Proof.
  intros device service revision i j p q Hp Hq Hij _ _. unfold sample_db, sample_permissions in *. simpl in Hp, Hq.
  apply lookup_insert_Some in Hp as [[<- <-]|[_ Hp]], Hq as [[<- <-]|[_ Hq]]; try done;
    [apply lookup_singleton_Some in Hq as [<- <-]|apply lookup_singleton_Some in Hp as [<- <-]|];
    try (vm_compute; reflexivity).
  apply lookup_singleton_Some in Hp as [<- <-], Hq as [<- <-]. done.
Qed.

Lemma Authorize_order_witness :
  row_order (λ m, reverse (map_to_list m)) ∧ w_tx sample_tx = Some sample_db ∧ w_faults sample_tx = [] ∧
  no_overlap sample_db (Unix (w_clock sample_tx)) ∧
  authorize_in (λ m, reverse (map_to_list m)) Tx "dev_1" "api" "POST" "/v1/jobs" sample_tx
  = Authorize Tx "dev_1" "api" "POST" "/v1/jobs" sample_tx.
Proof.
  split; [intros m; apply reverse_Permutation|]. split; [reflexivity|]. split; [reflexivity|].
  split; [exact sample_no_overlap|].
  apply (Authorize_order (λ m, reverse (map_to_list m)) sample_db);
    [intros m; apply reverse_Permutation|reflexivity|reflexivity|exact sample_no_overlap].
Defined.
