(* ===== verification/Lifecycle.v ===== *)
(** The durable request lifecycle of src/internal/server/requests.go: submission,
    status, review decision, claim, dispatch and finish, maintenance, recovery
    and cancellation.

    [dispatch] is the claiming transaction [dispatch_claim] followed by
    [dispatch_run], which sends and records the outcome; the two are separate
    because other transactions run between them. *)
From S2P Require Import Prelude GoStrings NetUrl Http Access Upstream Crypto Types Db Authorize.

Section lifecycle.
Context `{GoCrypto} `{GoJSON}.

(** * Cancellation *)

Inductive scope := by_device | by_service | by_permission.

Definition scope_column (c : scope) (r : request_row) : string :=
  match c with
  | by_device => req_device r
  | by_service => req_service r
  | by_permission => req_permission r
  end.

(** The UPDATE that closes a request without touching its result column. *)
Definition close_row (s : status) (reason : string) (now : Z) (r : request_row) : request_row :=
  finish_row s reason (req_result r) now r.

(** [UPDATE requests SET status=?,reason=?,finished=? WHERE id=?] and its audit. *)
Definition close_request (s : status) (reason id : string) (now : Z) : M world unit :=
  exec Tx (update_request id (λ _, true) (close_row s reason now));;
  Audit Tx "" "" ("request_" +:+ status_string s) id.

(** [cancelRequests]: the iteration's error is not looked at. *)
Definition cancelRequests (column : scope) (id reason : string) : M world unit :=
  '(ids, _) ← query_rows Tx (select_requests (λ _ r, bool_decide (scope_column column r = id) && undispatched (req_status r)));
  for_each (λ rid, now ← now_Unix; close_request cancelled reason rid now) ids.

(** * Submission *)

Definition digest_row (device key_hash : string) (d : database) : option (string * string) :=
  head (map (λ r : string * request_row, (r.1, req_submission_digest r.2))
    (filter (λ r : string * request_row, req_device r.2 = device ∧ req_key_hash r.2 = key_hash)
            (map_to_list (db_requests d)))).

Definition pending_count (device : string) (now : Z) (d : database) : Z :=
  Z.of_nat (length (select_requests (λ _ r, bool_decide (req_device r = device)
    && bool_decide (req_status r = pending_approval) && (now <? req_expires r)%Z) d)).

Definition credential_ref (service : string) (revision : Z) : string :=
  "service:" +:+ service +:+ ":" +:+ itoa revision.

(** The state and deadline of a new request, and the pending limit. *)
Definition admit_request (device : string) (p : Permission) : M world (status * Z) :=
  t0 ← time_Now;
  if bool_decide (perm_Mode p = "approval_required") then
    t ← time_Now;
    now ← now_Unix;
    n ← or_fail (query Tx (λ d, Ok (pending_count device now d))) "storage_unavailable";
    if (20 <=? n)%Z then fail (ErrMsg "pending_limit")
    else mret (pending_approval, Unix (t + 10 * minute))
  else mret (queued, Unix (t0 + minute)).

(** The body of [Submit] inside its transaction. *)
Definition submit_tx (device : string) (i : Submission) : M world string :=
  active ← ActiveDevice Tx device;
  if negb active then fail (ErrMsg "permission_denied") else
  let comparison := SubmissionDigest i in
  found ← attempt (query Tx (λ d, row (digest_row device (Hash (sub_IdempotencyKey i)) d)));
  match found with
  | Ok (id, digest) =>
    if bool_decide (comparison ≠ digest) then fail (ErrMsg "idempotency_conflict") else mret id
  | Err ErrNoRows =>
    '(svc, p) ← or_fail (Authorize Tx device (sub_Service i) (sub_Method i) (sub_Path i)) "permission_denied";
    headers ← lift (ApplicationHeaders i svc);
    target ← lift (or_error (Target (svc_BaseURL svc) (sub_Path i) (sub_Query i)) "invalid_target");
    '(state, expiry) ← admit_request device p;
    let snap := mkSnapshot 1 device (svc_ID svc) (svc_Label svc) (svc_Revision svc) (perm_ID p)
      (credential_ref (svc_ID svc) (svc_Revision svc)) target (sub_Method i) (sub_Path i) headers
      (sub_Body i) expiry (svc_PrivateCIDR svc) in
    let b := marshal_snapshot snap in
    id ← new_ID "req_";
    sealed ← Encrypt ("request:" +:+ id) b;
    created ← gets (λ w, Unix (w_clock w));
    or_fail (exec Tx (insert_request id (mkRequestRow device (svc_ID svc) (svc_Revision svc) (perm_ID p)
      (Hash (sub_IdempotencyKey i)) comparison (Digest b) (Some sealed) state expiry created None None "")))
      "storage_unavailable";;
    or_fail (Audit Tx "" device ("request_" +:+ status_string state) id) "storage_unavailable";;
    or_fail commit "storage_unavailable";;
    mret id
  | Err _ => fail (ErrMsg "storage_unavailable")
  end.

Definition Submit (device : string) (i : Submission) : M world string :=
  i ← lift (Normalize i);
  with_tx (λ m, or_fail m "storage_unavailable") (submit_tx device i).

(** * Status *)

Record Status := mkStatus {
  st_RequestID : string;
  st_Status : status;
  st_Expires : Z;
  st_Digest : string;
  st_Reason : string;
  st_NextAction : string;
  st_PollAfterMS : Z;
  st_Result : option Result;
  st_PayloadPurged : bool;
}.

Definition poll_action : string :=
  "Call budge_request_status with this request_id. Do not resubmit with a new idempotency key.".
Definition unknown_action : string :=
  "The upstream may have performed this request. Check the provider before considering a new request. Budge will not resend it.".

Definition terminal (s : status) : bool :=
  match s with pending_approval | queued | dispatching => false | _ => true end.

(** [RequestStatus]; the owner's calls pass an empty device.  [ExpiresAt] is kept
    as the Unix time it prints. *)
Definition RequestStatus (device id : string) : M world Status :=
  with_tx (λ m, m) (
    active ← (if bool_decide (device ≠ EmptyString) then ActiveDevice Tx device else mret true);
    if negb active then fail (ErrMsg "request_not_found") else
    r ← or_fail (query Tx (λ d, row (db_requests d !! id))) "request_not_found";
    if bool_decide (device ≠ EmptyString) && bool_decide (req_device r ≠ device)
    then fail (ErrMsg "request_not_found") else
    res ← match req_result r with
          | None => mret None
          | Some b =>
            if bool_decide (b = EmptyString) then mret None else
            p ← or_fail (Decrypt ("result:" +:+ id) b) "result_unavailable";
            match unmarshal_result p with
            | Some v => mret (Some v)
            | None => fail (ErrMsg "json")
            end
          end;
    let '(action, poll) :=
      match req_status r with
      | pending_approval | queued | dispatching => (poll_action, 3000%Z)
      | outcome_unknown => (unknown_action, 0%Z)
      | _ => (EmptyString, 0%Z)
      end in
    mret (mkStatus id (req_status r) (req_expires r) (req_snapshot_digest r) (req_reason r) action poll res
      (bool_decide (default EmptyString (req_snapshot r) = EmptyString)))).

(** * The snapshot and its validity *)

Definition snapshot_matches (r : request_row) (s : Snapshot) : bool :=
  (snap_Version s =? 1)%Z && bool_decide (snap_DeviceID s = req_device r)
  && bool_decide (snap_ServiceID s = req_service r) && bool_decide (snap_PermissionID s = req_permission r)
  && (snap_Revision s =? req_revision r)%Z && (snap_Expires s =? req_expires r)%Z
  && bool_decide (snap_CredentialRef s = credential_ref (req_service r) (req_revision r)).

Definition snapshot (id : string) : M world Snapshot :=
  r ← query Tx (λ d, row (db_requests d !! id));
  b ← or_fail (Decrypt ("request:" +:+ id) (default EmptyString (req_snapshot r))) "snapshot_integrity_failed";
  if bool_decide (Digest b ≠ req_snapshot_digest r) then fail (ErrMsg "snapshot_integrity_failed") else
  match unmarshal_snapshot b with
  | None => fail (ErrMsg "json")
  | Some s => if snapshot_matches r s then mret s else fail (ErrMsg "snapshot_integrity_failed")
  end.

Definition validSnapshot (snap : Snapshot) : M world Service :=
  '(svc, p) ← or_fail (Authorize Tx (snap_DeviceID snap) (snap_ServiceID snap) (snap_Method snap) (snap_Path snap))
    "authorization_changed_or_expired";
  if negb (svc_Revision svc =? snap_Revision snap)%Z || bool_decide (perm_ID p ≠ snap_PermissionID snap)
  then fail (ErrMsg "authorization_changed_or_expired") else
  now ← now_Unix;
  if (snap_Expires snap <=? now)%Z then fail (ErrMsg "authorization_changed_or_expired") else
  match Parse (snap_URL snap) with
  | None => fail (ErrMsg "url")
  | Some u =>
    match Target (svc_BaseURL svc) (snap_Path snap) (RawQuery u) with
    | Ok target =>
      if bool_decide (target ≠ snap_URL snap) || bool_decide (snap_PrivateCIDR snap ≠ svc_PrivateCIDR svc)
      then fail (ErrMsg "snapshot_integrity_failed") else mret svc
    | Err _ => fail (ErrMsg "snapshot_integrity_failed")
    end
  end.

(** * The owner's decision *)

(** [INSERT INTO approvals]: one row for a request. *)
Definition insert_approval (id : string) (a : approval_row) (d : database) : result (database * Z) :=
  if bool_decide (is_Some (db_approvals d !! id)) || bool_decide (db_requests d !! id = None)
     || bool_decide (db_owners d !! appr_owner a = None)
  then Err ErrConstraint
  else Ok (set_db_approvals (<[id := a]> (db_approvals d)) d, 1%Z).

Definition Decide (owner id digest decision : string) : M world unit :=
  if bool_decide (decision ≠ "approve") && bool_decide (decision ≠ "deny")
  then fail (ErrMsg "invalid_decision") else
  with_tx (λ m, m) (
    r ← or_fail (query Tx (λ d, row (db_requests d !! id))) "request_digest_mismatch";
    if bool_decide (digest ≠ req_snapshot_digest r) then fail (ErrMsg "request_digest_mismatch") else
    if bool_decide (req_status r ≠ pending_approval) then fail (ErrMsg "request_not_pending") else
    snap ← snapshot id;
    validSnapshot snap;;
    '(next, finished) ← (if bool_decide (decision = "deny") then now ← now_Unix; mret (denied, Some now)
                         else mret (queued, None));
    exec Tx (insert_approval id (mkApproval owner digest decision));;
    exec Tx (update_request id (λ r, bool_decide (req_status r = pending_approval)) (set_status next finished));;
    Audit Tx owner (snap_DeviceID snap) ("request_" +:+ status_string next) id;;
    commit).

(** * Dispatch *)

Definition finishTx (id : string) (s : status) (reason : string) (result : option Result) : M world unit :=
  attempt (
    encrypted ← match result with
                | Some v => e ← Encrypt ("result:" +:+ id) (marshal_result v); mret (Some e)
                | None => mret None
                end;
    now ← now_Unix;
    exec Tx (update_request id (λ _, true) (finish_row s reason encrypted now));;
    Audit Tx "" "" ("request_" +:+ status_string s) id;;
    commit);;
  mret tt.

Definition finish (id : string) (s : status) (reason : string) (result : option Result) : M world unit :=
  attempt (with_tx (λ m, m) (finishTx id s reason result));; mret tt.

(** The approvals that count for a request: an approval of its digest. *)
Definition approval_count (id : string) (d : database) : Z :=
  match db_approvals d !! id, db_requests d !! id with
  | Some a, Some r =>
    if bool_decide (appr_decision a = "approve") && bool_decide (appr_digest a = req_snapshot_digest r) then 1 else 0
  | _, _ => 0
  end.

(** The approval test of a claim: [false] once the request has been failed. *)
Definition claim_approved (id mode : string) : M world bool :=
  if bool_decide (mode = "approval_required") then
    n ← query Tx (λ d, Ok (approval_count id d));
    if (n =? 1)%Z then mret true
    else finishTx id failed "approval_digest_mismatch" None;; mret false
  else mret true.

Definition claim_tx (id : string) : M world (option (Snapshot * Service)) :=
  state ← query Tx (λ d, row (req_status <$> db_requests d !! id));
  if bool_decide (state ≠ queued) then mret None else
  rs ← attempt (snapshot id);
  match rs with
  | Err _ => finishTx id failed "snapshot_integrity_failed" None;; mret None
  | Ok snap =>
    rv ← attempt (validSnapshot snap);
    match rv with
    | Err _ => finishTx id cancelled "authorization_changed_or_expired" None;; mret None
    | Ok svc =>
      mode ← query Tx (λ d, row (pm_mode <$> db_permissions d !! snap_PermissionID snap));
      ok ← claim_approved id mode;
      if negb ok then mret None else
      exec Tx (update_request id (λ r, bool_decide (req_status r = queued))
                 (λ r, set_status dispatching (req_finished r) r));;
      Audit Tx "" (snap_DeviceID snap) "request_dispatching" id;;
      commit;;
      mret (Some (snap, svc))
    end
  end.

(** The first half of [dispatch]: every error of it is a plain return. *)
Definition dispatch_claim (id : string) : M world (option (Snapshot * Service)) :=
  r ← attempt (with_tx (λ m, m) (claim_tx id));
  mret (match r with Ok x => x | Err _ => None end).

(** How the body of an upstream response stops after its bytes: it ends, a further
    read fails, or the read that gives the last bytes fails as well. *)
Inductive body_end := body_ends | body_fails | body_fails_with_last.

Record response := mkResponse {
  rsp_status : Z;
  rsp_header : header;
  rsp_body : string;
  rsp_end : body_end;
}.

Fixpoint take_N (n : N) (s : string) : string :=
  match s with
  | EmptyString => EmptyString
  | String c s' => if (n =? 0)%N then EmptyString else String c (take_N (n - 1) s')
  end.

Fixpoint len (s : string) : N :=
  match s with EmptyString => 0 | String _ s' => 1 + len s' end.

Definition body_limit : N := 1048576.

(** Whether [io.ReadAll], of a reader limited to one byte more than the limit, sees
    the failure: only if it is met within that many bytes. *)
Definition read_fails (res : response) : bool :=
  match rsp_end res with
  | body_ends => false
  | body_fails => (len (rsp_body res) <? body_limit + 1)%N
  | body_fails_with_last => (len (rsp_body res) <=? body_limit + 1)%N
  end.

(** What is stored of a response. *)
Definition read_result (svc : Service) (res : response) : status * string * Result :=
  let b0 := take_N (body_limit + 1) (rsp_body res) in
  let incomplete := read_fails res in
  let truncated := (body_limit <? len b0)%N in
  let b := take_N body_limit b0 in
  let plain := ValidString b && (len (marshal_string b) <=? len b * 4 / 3 + 16)%N in
  let result := mkResult (rsp_status res) (Headers (rsp_header res) (svc_ResponseHeaders svc) (svc_AuthHeader svc))
    (if plain then b else StdEncoding b) (if plain then "utf-8" else "base64") truncated incomplete in
  if incomplete then (outcome_unknown, "incomplete_response_check_provider", result)
  else (completed, EmptyString, result).

(** The second half of [dispatch], after the claim is committed. *)
Definition dispatch_run (id : string) (snap : Snapshot) (svc : Service)
    (transport : outgoing → transport_result response) : M world unit :=
  rs ← attempt (Decrypt (snap_CredentialRef snap) (svc_Credential svc));
  match rs with
  | Err _ => finish id failed "credential_unavailable" None
  | Ok secret =>
    match Send svc (snap_Method snap) (snap_URL snap) (snap_Headers snap) (snap_Body snap) secret transport with
    | NotSent => finish id failed "request_not_sent" None
    | SendError => finish id outcome_unknown "connection_lost_check_provider" None
    | Sent res =>
      let '(state, reason, result) := read_result svc res in
      finish id state reason (Some result)
    end
  end.

Definition dispatch (id : string) (transport : outgoing → transport_result response) : M world unit :=
  c ← dispatch_claim id;
  match c with
  | Some (snap, svc) => dispatch_run id snap svc transport
  | None => mret tt
  end.

(** * Maintenance and recovery *)

Definition purge_payloads (cutoff : Z) (d : database) : database :=
  set_db_requests ((λ r, if match req_finished r with Some f => (f <? cutoff)%Z | None => false end
                          && terminal (req_status r) then purge_row r else r) <$> db_requests d) d.

Definition expire_sessions (now : Z) (d : database) : database :=
  set_db_sessions (filter (λ s : string * session_row, (now < sess_expires s.2)%Z) (db_sessions d)) d.

Definition maintenance : M world unit :=
  attempt (with_tx (λ m, m) (
    now ← now_Unix;
    '(ids, _) ← query_rows Tx (select_requests (λ _ r, undispatched (req_status r) && (req_expires r <=? now)%Z));
    for_each (λ id, close_request expired "deadline_elapsed" id now) ids;;
    exec Tx (λ d, Ok (purge_payloads (now - 24 * 3600) d, 0%Z));;
    attempt (exec Tx (λ d, Ok (expire_sessions now d, 0%Z)));;
    commit));;
  mret tt.

Definition recoverDispatches : M world unit :=
  with_tx (λ m, m) (
    '(ids, _) ← query_rows Tx (select_requests (λ _ r, bool_decide (req_status r = dispatching)));
    for_each (λ id, now ← now_Unix;
      close_request outcome_unknown "server_restarted_during_dispatch_check_provider" id now) ids;;
    commit).

Definition set_device_revoked (id : string) (d : database) : result (database * Z) :=
  match db_devices d !! id with
  | Some r => Ok (set_db_devices (<[id := set_dev_revoked true r]> (db_devices d)) d, 1%Z)
  | None => Ok (d, 0%Z)
  end.

Definition RecoverRestored : M world unit :=
  with_tx (λ m, m) (
    '(ids, _) ← query_rows Tx (λ d, (map_to_list (db_devices d)).*1);
    for_each (λ id, exec Tx (set_device_revoked id);; cancelRequests by_device id "restored_database_recovery") ids;;
    exec Tx (λ d, Ok (set_db_sessions ∅ d, 0%Z));;
    Audit Tx "" "" "restored_database_access_invalidated" "";;
    commit).

End lifecycle.

(** * Lengths *)

Lemma len_length s : len s = N.of_nat (String.length s).
Proof. induction s as [|c s IH]; simpl; [done|]. rewrite IH. lia. Qed.
