(* ===== verification/Life.v ===== *)
(** The abstract specification of the durable store: the life of one request, and
    what may happen to a database as a whole.

    [life_step] is the automaton a request goes through; it says nothing of rows,
    digests or transactions.  [evolves d d'] says that a well-formed database [d]
    became [d'] so that every request made legal steps of that automaton and kept
    its identity, decisions and logs only grew, revoked devices and permissions
    stayed revoked, and a service changed only under a new revision.  The server's
    operations are shown to refine it in the files after this one. *)
From S2P Require Import Prelude GoStrings Access Types Db Authorize Lifecycle.

(** * The automaton *)

(** What matters of a request: its status, whether its permission asks for an
    individual approval, and whether there is one of its digest. *)
Record life := mkLife {
  l_status : status;
  l_needs : bool;
  l_approved : bool;
}.

Inductive life_step : option life → option life → Prop :=
| life_submit (needs : bool) :
    life_step None (Some (mkLife (if needs then pending_approval else queued) needs false))
| life_approve needs a : life_step (Some (mkLife pending_approval needs a)) (Some (mkLife queued needs true))
| life_deny needs a : life_step (Some (mkLife pending_approval needs a)) (Some (mkLife denied needs false))
| life_claim needs a :
    (needs = true → a = true) →
    life_step (Some (mkLife queued needs a)) (Some (mkLife dispatching needs a))
| life_finish needs a s :
    s = completed ∨ s = failed ∨ s = outcome_unknown →
    life_step (Some (mkLife dispatching needs a)) (Some (mkLife s needs a))
| life_reject needs a : life_step (Some (mkLife queued needs a)) (Some (mkLife failed needs a))
| life_close s s' needs a :
    undispatched s = true → s' = cancelled ∨ s' = expired →
    life_step (Some (mkLife s needs a)) (Some (mkLife s' needs a)).

Definition life_steps : option life → option life → Prop := rtc life_step.

#[export] Instance life_steps_preorder : PreOrder life_steps.
Proof. unfold life_steps. apply _. Qed.

(** A request never disappears, and a terminal one never moves. *)
Lemma life_present l o : life_step (Some l) o → is_Some o.
Proof. inversion 1; eauto. Qed.

Lemma life_steps_present l o : life_steps (Some l) o → is_Some o.
Proof.
  remember (Some l) as a eqn:E. intros Hs. revert l E.
  induction Hs as [|a b c Hs _ IH]; intros l ->; [eauto|].
  apply life_present in Hs as [? ->]. eauto.
Qed.

Lemma life_terminal l o : terminal (l_status l) = true → ¬ life_step (Some l) o.
Proof. intros Ht Hs. inversion Hs; subst; simplify_eq/=; try done. by destruct s. Qed.

Lemma life_steps_terminal l o : terminal (l_status l) = true → life_steps (Some l) o → o = Some l.
Proof.
  intros Ht Hs. inversion Hs as [|? b ? H1 H2]; subst; [done|]. by destruct (life_terminal l b).
Qed.

Lemma life_needs l o : life_step (Some l) (Some o) → l_needs o = l_needs l.
Proof. inversion 1; done. Qed.

(** ** Rank: every step goes forward, so a status once left is never seen again *)

Definition rank (o : option life) : nat :=
  match o with
  | None => 0
  | Some l => match l_status l with
              | pending_approval => 1
              | queued => 2
              | dispatching => 3
              | _ => 4
              end
  end%nat.

Lemma life_step_rank a b : life_step a b → (rank a < rank b)%nat.
Proof.
  inversion 1; subst; simpl; try lia.
  - destruct needs; simpl; lia.
  - destruct H0 as [-> | [-> | ->]]; lia.
  - destruct s; try done; destruct H1 as [-> | ->]; lia.
Qed.

Lemma life_steps_rank a b : life_steps a b → a = b ∨ (rank a < rank b)%nat.
Proof. induction 1 as [|a b c H _ IH]; [by left|]. apply life_step_rank in H. destruct IH as [-> |]; right; lia. Qed.

(** What holds of every request that started from nothing. *)
Definition life_ok (o : option life) : Prop :=
  match o with
  | None => True
  | Some l =>
    match l_status l with
    | pending_approval => l_needs l = true ∧ l_approved l = false
    | queued | dispatching | completed | outcome_unknown => l_needs l = true → l_approved l = true
    | _ => True
    end
  end.

Lemma life_step_ok a b : life_step a b → life_ok a → life_ok b.
Proof.
  intros Hs. destruct Hs as [[]| | | |n a s Hs| |s s' n a Hu Hs]; simpl; try done; try (by split).
  - by destruct Hs as [-> | [-> | ->]].
  - by destruct Hs as [-> | ->].
Qed.

Lemma life_steps_ok a b : life_steps a b → life_ok a → life_ok b.
Proof. induction 1; eauto using life_step_ok. Qed.

(** * Lives in a database *)

Definition needs_approval (d : database) (permission : string) : bool :=
  match db_permissions d !! permission with
  | Some p => bool_decide (pm_mode p = "approval_required")
  | None => false
  end.

Definition life_of (d : database) (id : string) : option life :=
  (λ r, mkLife (req_status r) (needs_approval d (req_permission r)) (approval_count id d =? 1)%Z)
    <$> db_requests d !! id.

(** ** Well-formed databases: the constraints of the schema, and what the program
    keeps of them *)

Record wf (d : database) : Prop := {
  wf_request : ∀ id r, db_requests d !! id = Some r →
    is_Some (db_devices d !! req_device r) ∧
    ∃ p, db_permissions d !! req_permission r = Some p ∧ pm_device p = req_device r
      ∧ pm_service p = req_service r ∧ pm_revision p = req_revision r;
  wf_permission : ∀ id p, db_permissions d !! id = Some p →
    is_Some (db_devices d !! pm_device p) ∧
    ∃ s, db_services d !! pm_service p = Some s ∧ (pm_revision p <= srv_revision s)%Z;
  wf_key : ∀ i j r q, db_requests d !! i = Some r → db_requests d !! j = Some q →
    req_device r = req_device q → req_key_hash r = req_key_hash q → i = j;
  wf_approval : ∀ id a, db_approvals d !! id = Some a →
    ∃ r, db_requests d !! id = Some r ∧ req_status r ≠ pending_approval;
  wf_life : ∀ id, life_ok (life_of d id);
}.

(** ** What may happen to a database *)

(** A request keeps its identity; once terminal only its payload may go. *)
Record same_request (r r' : request_row) : Prop := {
  sr_device : req_device r' = req_device r;
  sr_service : req_service r' = req_service r;
  sr_revision : req_revision r' = req_revision r;
  sr_permission : req_permission r' = req_permission r;
  sr_key : req_key_hash r' = req_key_hash r;
  sr_digests : req_submission_digest r' = req_submission_digest r ∧ req_snapshot_digest r' = req_snapshot_digest r;
  sr_times : req_expires r' = req_expires r ∧ req_created r' = req_created r;
  sr_snapshot : req_snapshot r' = req_snapshot r ∨ req_snapshot r' = None ∧ terminal (req_status r') = true;
  sr_terminal : terminal (req_status r) = true →
    req_status r' = req_status r ∧ req_reason r' = req_reason r ∧ req_finished r' = req_finished r
    ∧ (req_result r' = req_result r ∨ req_result r' = None);
}.

#[export] Instance same_request_preorder : PreOrder same_request.
Proof.
  split.
  - intros r. split; auto.
  - intros r r' r'' [? ? ? ? ? [] [] Hs Ht] [? ? ? ? ? [] [] Hs' Ht'].
    split; try congruence; try (split; congruence).
    + destruct Hs' as [-> | ?]; [|by right]. destruct Hs as [-> | [-> Hr]]; [by left|right].
      split; [done|]. by rewrite (proj1 (Ht' Hr)).
    + intros Hd. destruct (Ht Hd) as (E1 & E2 & E3 & E4). rewrite <-E1 in Hd.
      destruct (Ht' Hd) as (F1 & F2 & F3 & F4). split_and!; try congruence.
      destruct F4 as [-> | ?]; [|by right]. destruct E4; [left|right]; congruence.
Qed.

(** A permission changes only by being revoked. *)
Definition same_permission (p p' : permission_row) : Prop := p' = p ∨ p' = set_pm_revoked true p.

#[export] Instance same_permission_preorder : PreOrder same_permission.
Proof.
  split; [by left|]. intros p p' p'' [-> | ->] [-> | ->]; unfold same_permission; auto.
Qed.

(** A service changes only under a higher revision. *)
Definition same_service (s s' : service_row) : Prop :=
  s' = s ∨ (srv_revision s < srv_revision s')%Z.

#[export] Instance same_service_preorder : PreOrder same_service.
Proof.
  split; [by left|]. intros s s' s'' [-> | H] [-> | H']; unfold same_service; auto. right. lia.
Qed.

(** A device once revoked stays revoked. *)
Definition same_device (r r' : device_row) : Prop := dev_revoked r = true → dev_revoked r' = true.

#[export] Instance same_device_preorder : PreOrder same_device.
Proof. split; [by intros r H|]. intros r1 r2 r3 H1 H2 H. by apply H2, H1. Qed.

(** An invitation once used stays used. *)
Definition same_invitation (i i' : invitation_row) : Prop :=
  inv_device i' = inv_device i ∧ inv_expires i' = inv_expires i ∧ (inv_used i = true → inv_used i' = true).

#[export] Instance same_invitation_preorder : PreOrder same_invitation.
Proof. split; [by intros i|]. intros i1 i2 i3 (? & ? & ?) (? & ? & ?). split_and!; [congruence..|auto]. Qed.

(** No row of a table is lost, and each stays related to what it was. *)
Definition kept {A} (R : A → A → Prop) (m m' : gmap string A) : Prop :=
  ∀ k a, m !! k = Some a → ∃ a', m' !! k = Some a' ∧ R a a'.

#[export] Instance kept_preorder {A} (R : A → A → Prop) `{!PreOrder R} : PreOrder (kept R).
Proof.
  split.
  - intros m k a Ha. by exists a.
  - intros m1 m2 m3 H12 H23 k a Ha. destruct (H12 k a Ha) as (b & Hb & Hab).
    destruct (H23 k b Hb) as (c & Hc & Hbc). exists c. split; [done|]. by transitivity b.
Qed.

Lemma kept_insert {A} (R : A → A → Prop) `{!PreOrder R} (m : gmap string A) k a' :
  (∀ a, m !! k = Some a → R a a') → kept R m (<[k := a']> m).
Proof.
  intros Hk i a Ha. destruct (decide (k = i)) as [-> |Hne].
  - exists a'. rewrite lookup_insert_eq. eauto.
  - exists a. by rewrite lookup_insert_ne.
Qed.

Record grows (d d' : database) : Prop := {
  g_life : ∀ id, life_steps (life_of d id) (life_of d' id);
  g_requests : kept same_request (db_requests d) (db_requests d');
  g_approvals : kept eq (db_approvals d) (db_approvals d');
  g_permissions : kept same_permission (db_permissions d) (db_permissions d');
  g_services : kept same_service (db_services d) (db_services d');
  g_devices : kept same_device (db_devices d) (db_devices d');
  g_invitations : kept same_invitation (db_invitations d) (db_invitations d');
  g_owners : kept eq (db_owners d) (db_owners d');
  g_audit : db_audit d `prefix_of` db_audit d';
  g_http : db_http_events d `prefix_of` db_http_events d';
}.

#[export] Instance grows_preorder : PreOrder grows.
Proof.
  split.
  - intros d. split; intros; reflexivity.
  - intros d1 d2 d3 [] []. split; intros; etransitivity; eauto.
Qed.

Definition evolves (d d' : database) : Prop := wf d → wf d' ∧ grows d d'.

#[export] Instance evolves_preorder : PreOrder evolves.
Proof.
  split.
  - intros d Hd. by split.
  - intros d1 d2 d3 H12 H23 H1. destruct (H12 H1) as [H2 G12]. destruct (H23 H2) as [H3 G23].
    split; [done|]. by transitivity d2.
Qed.

(** * Statements that evolve a database *)

Lemma life_of_ext d d' id :
  db_requests d' = db_requests d → db_approvals d' = db_approvals d → db_permissions d' = db_permissions d →
  life_of d' id = life_of d id.
Proof. unfold life_of, needs_approval, approval_count. by intros -> -> ->. Qed.

(** A statement on tables that no invariant is about. *)
Lemma evolves_other d d' :
  db_requests d' = db_requests d → db_approvals d' = db_approvals d → db_permissions d' = db_permissions d →
  db_services d' = db_services d → kept same_device (db_devices d) (db_devices d') →
  kept same_invitation (db_invitations d) (db_invitations d') → kept eq (db_owners d) (db_owners d') →
  db_audit d `prefix_of` db_audit d' → db_http_events d `prefix_of` db_http_events d' → evolves d d'.
Proof.
  intros Er Ea Ep Es Kd Ki Ko Pa Ph [W1 W2 W3 W4 W5].
  assert (∀ id, is_Some (db_devices d !! id) → is_Some (db_devices d' !! id)) as Hdev
    by (intros id [r Hr]; destruct (Kd id r Hr) as (r' & -> & _); eauto).
  split; split; rewrite ?Er, ?Ea, ?Ep, ?Es; try done.
  - intros id r Hr. destruct (W1 id r Hr) as (? & ?). auto.
  - intros id p Hp. destruct (W2 id p Hp) as (? & ?). auto.
  - intros id. by rewrite (life_of_ext d d').
  - intros id. by rewrite (life_of_ext d d').
Qed.

Lemma evolves_audit d l : evolves d (set_db_audit (db_audit d ++ l) d).
Proof. by apply evolves_other; try done; apply prefix_app_r. Qed.

Lemma evolves_http d l : evolves d (set_db_http_events (db_http_events d ++ l) d).
Proof. by apply evolves_other; try done; apply prefix_app_r. Qed.

Lemma evolves_sessions d v : evolves d (set_db_sessions v d).
Proof. by apply evolves_other. Qed.

Lemma evolves_device d id r' :
  (∀ r, db_devices d !! id = Some r → same_device r r') → evolves d (set_db_devices (<[id := r']> (db_devices d)) d).
Proof. intros H. apply evolves_other; try done. simpl. by apply kept_insert; [apply _|]. Qed.

Lemma evolves_invitation d id i' :
  (∀ i, db_invitations d !! id = Some i → same_invitation i i') →
  evolves d (set_db_invitations (<[id := i']> (db_invitations d)) d).
Proof. intros H. apply evolves_other; try done. simpl. by apply kept_insert; [apply _|]. Qed.

Lemma evolves_owner d id v :
  db_owners d !! id = None → evolves d (set_db_owners (<[id := v]> (db_owners d)) d).
Proof. intros H. apply evolves_other; try done. simpl. apply kept_insert; [apply _|]. congruence. Qed.

(** ** One request *)

Definition row_life (d : database) (id : string) (r : request_row) : life :=
  mkLife (req_status r) (needs_approval d (req_permission r)) (approval_count id d =? 1)%Z.

Lemma life_of_row d id r : db_requests d !! id = Some r → life_of d id = Some (row_life d id r).
Proof. unfold life_of. by intros ->. Qed.

(** Changing a request and its approval at once; [d'] is [d] with both set. *)
Lemma evolves_request d d' id r r' :
  db_requests d !! id = Some r → same_request r r' →
  db_requests d' = <[id := r']> (db_requests d) →
  (∀ i, i ≠ id → db_approvals d' !! i = db_approvals d !! i) → kept eq (db_approvals d) (db_approvals d') →
  (∀ a, db_approvals d' !! id = Some a → req_status r' ≠ pending_approval) →
  db_permissions d' = db_permissions d → db_services d' = db_services d → db_devices d' = db_devices d →
  db_invitations d' = db_invitations d → db_owners d' = db_owners d →
  db_audit d `prefix_of` db_audit d' → db_http_events d `prefix_of` db_http_events d' →
  (wf d → life_steps (Some (row_life d id r)) (Some (row_life d' id r'))) →
  evolves d d'.
Proof.
  intros Hr Hs Er Ea Ka Hp Ep Es Ed Ei Eo Pa Ph Hl Hwf. specialize (Hl Hwf).
  assert (∀ i, life_steps (life_of d i) (life_of d' i)) as Hlife.
  { intros i. destruct (decide (i = id)) as [-> |Hne].
    - rewrite (life_of_row d id r), (life_of_row d' id r'); [done| |done]. by rewrite Er, lookup_insert_eq.
    - unfold life_of, needs_approval, approval_count. rewrite Er, Ep, lookup_insert_ne, Ea by done. reflexivity. }
  destruct Hwf as [W1 W2 W3 W4 W5]. destruct Hs as [S1 S2 S3 S4 S5 S6 S7 S8 S9] eqn:E. rename E into _E. clear _E.
  split; split; rewrite ?Er, ?Ep, ?Es, ?Ed, ?Ei, ?Eo; try done.
  - intros i q. rewrite lookup_insert_Some. intros [[<- <-]|[_ Hq]]; [|by apply (W1 i)].
    rewrite S1, S2, S3, S4. by apply (W1 id).
  - intros i j q q' Hi Hj Hd Hk.
    assert (∀ k x, <[id:=r']> (db_requests d) !! k = Some x → ∃ y, db_requests d !! k = Some y
      ∧ req_device y = req_device x ∧ req_key_hash y = req_key_hash x) as Hold.
    { intros k x. rewrite lookup_insert_Some. intros [[<- <-]|[_ Hx]]; eauto. }
    destruct (Hold _ _ Hi) as (y & Hy & ? & ?), (Hold _ _ Hj) as (z & Hz & ? & ?).
    eapply W3; eauto; congruence.
  - intros i a Ha. destruct (decide (i = id)) as [-> |Hne].
    + exists r'. rewrite lookup_insert_eq. eauto.
    + rewrite Ea in Ha by done. rewrite lookup_insert_ne by done. by eapply W4.
  - intros i. eapply life_steps_ok, W5. apply Hlife.
  - apply kept_insert; [apply _|]. intros a Ha. rewrite Hr in Ha. injection Ha as <-. by split.
Qed.

(** Changing a request alone: a status that was not pending does not become so. *)
Lemma evolves_update d id r r' :
  db_requests d !! id = Some r → same_request r r' →
  life_steps (Some (row_life d id r)) (Some (row_life d id r')) →
  evolves d (set_db_requests (<[id := r']> (db_requests d)) d).
Proof.
  intros Hr Hs Hl Hwf. eapply (evolves_request d _ id r r'); try done.
  - intros a Ha Hp. destruct (wf_approval d Hwf id a Ha) as (q & Hq & Hne).
    apply life_steps_rank in Hl. unfold rank, row_life in Hl; simpl in Hl. rewrite Hp in Hl.
    assert (q = r) as -> by congruence. destruct Hl as [Hl|Hl]; [congruence|].
    destruct (req_status r); simpl in Hl; lia.
  - intros _. unfold row_life in *; simpl in *.
    assert (approval_count id (set_db_requests (<[id:=r']> (db_requests d)) d) = approval_count id d) as ->; [|done].
    unfold approval_count; simpl. rewrite lookup_insert_eq, Hr. destruct (db_approvals d !! id); [|done].
    destruct Hs. by rewrite (proj2 sr_digests0).
Qed.

(** [UPDATE requests SET ..]: the row it hits, if it hits one. *)
Lemma update_request_inv id cond f d d' n :
  update_request id cond f d = Ok (d', n) →
  d' = d ∧ n = 0%Z ∨
  ∃ r, db_requests d !! id = Some r ∧ cond r = true ∧ n = 1%Z
       ∧ d' = set_db_requests (<[id := f r]> (db_requests d)) d.
Proof.
  unfold update_request. destruct (db_requests d !! id) as [r|]; [|intros [= <- <-]; by left].
  destruct (cond r) eqn:E; intros [= <- <-]; [right|by left]. by exists r.
Qed.

Lemma update_request_hit id cond f d r :
  db_requests d !! id = Some r → cond r = true →
  update_request id cond f d = Ok (set_db_requests (<[id := f r]> (db_requests d)) d, 1%Z).
Proof. unfold update_request. by intros -> ->. Qed.

Lemma update_request_ok id cond f d : ∃ d' n, update_request id cond f d = Ok (d', n).
Proof. unfold update_request. destruct (db_requests d !! id) as [r|]; [destruct (cond r)|]; eauto. Qed.

(** The three ways a status is written. *)
Lemma same_request_finish s reason result now r :
  terminal (req_status r) = false → same_request r (finish_row s reason result now r).
Proof. intros Ht. split; try done; [by left|]. by rewrite Ht. Qed.

Lemma same_request_status s finished r :
  terminal (req_status r) = false → same_request r (set_status s finished r).
Proof. intros Ht. split; try done; [by left|]. by rewrite Ht. Qed.

Lemma same_request_purge r : terminal (req_status r) = true → same_request r (purge_row r).
Proof. intros Ht. split; try done; [by right|]. intros _. split_and!; try done. by right. Qed.

Lemma undispatched_not_terminal s : undispatched s = true → terminal s = false.
Proof. by destruct s. Qed.

(** Closing, finishing and rejecting a request; the status is the guard. *)
Lemma evolves_close d id r s reason now :
  db_requests d !! id = Some r → undispatched (req_status r) = true → s = cancelled ∨ s = expired →
  evolves d (set_db_requests (<[id := close_row s reason now r]> (db_requests d)) d).
Proof.
  intros Hr Hu Hs. apply (evolves_update _ _ r); [done| |].
  - by apply same_request_finish, undispatched_not_terminal.
  - apply rtc_once. by apply life_close.
Qed.

Lemma evolves_finish d id r s reason result now :
  db_requests d !! id = Some r → req_status r = dispatching →
  s = completed ∨ s = failed ∨ s = outcome_unknown →
  evolves d (set_db_requests (<[id := finish_row s reason result now r]> (db_requests d)) d).
Proof.
  intros Hr Hd Hs. apply (evolves_update _ _ r); [done| |].
  - apply same_request_finish. by rewrite Hd.
  - apply rtc_once. unfold row_life; simpl. rewrite Hd. by apply life_finish.
Qed.

Lemma evolves_reject d id r s reason result now :
  db_requests d !! id = Some r → req_status r = queued → s = failed ∨ s = cancelled →
  evolves d (set_db_requests (<[id := finish_row s reason result now r]> (db_requests d)) d).
Proof.
  intros Hr Hd Hs. apply (evolves_update _ _ r); [done| |].
  - apply same_request_finish. by rewrite Hd.
  - apply rtc_once. unfold row_life; simpl. rewrite Hd.
    destruct Hs as [-> | ->]; [apply life_reject|apply life_close; auto].
Qed.

Lemma evolves_claim d id r finished :
  db_requests d !! id = Some r → req_status r = queued →
  (needs_approval d (req_permission r) = true → approval_count id d = 1%Z) →
  evolves d (set_db_requests (<[id := set_status dispatching finished r]> (db_requests d)) d).
Proof.
  intros Hr Hd Ha. apply (evolves_update _ _ r); [done| |].
  - apply same_request_status. by rewrite Hd.
  - apply rtc_once. unfold row_life; simpl. rewrite Hd. apply life_claim. intros Hn. by rewrite Ha.
Qed.

(** The owner's decision: the approval row and the new status. *)
Lemma evolves_decide d id r a s finished :
  db_requests d !! id = Some r → req_status r = pending_approval → db_approvals d !! id = None →
  (s = queued ∧ appr_decision a = "approve" ∧ appr_digest a = req_snapshot_digest r ∨
   s = denied ∧ appr_decision a ≠ "approve") →
  evolves d (set_db_requests (<[id := set_status s finished r]> (db_requests d))
               (set_db_approvals (<[id := a]> (db_approvals d)) d)).
Proof.
  intros Hr Hd Ha Hs.
  assert (s ≠ pending_approval ∧ ∀ n, life_steps (Some (mkLife pending_approval n false))
    (Some (mkLife s n (bool_decide (appr_decision a = "approve") && bool_decide (appr_digest a = req_snapshot_digest r))))) as [Hp Hl].
  { destruct Hs as [(-> & -> & ->)|(-> & Hne)]; (split; [done|]); intros n; apply rtc_once.
    - rewrite !bool_decide_eq_true_2 by done. apply life_approve.
    - rewrite bool_decide_eq_false_2 by done. apply life_deny. }
  eapply (evolves_request d _ id r (set_status s finished r)); try done; simpl.
  - apply same_request_status. by rewrite Hd.
  - intros i Hi. by rewrite lookup_insert_ne.
  - apply kept_insert; [apply _|]. congruence.
  - intros _. unfold row_life, needs_approval, approval_count; simpl.
    rewrite !lookup_insert_eq, Ha, Hd. simpl. specialize (Hl (needs_approval d (req_permission r))).
    destruct (_ && _); exact Hl.
Qed.

Lemma evolves_submit d id r :
  db_requests d !! id = None → is_Some (db_devices d !! req_device r) →
  (∃ p, db_permissions d !! req_permission r = Some p ∧ pm_device p = req_device r
     ∧ pm_service p = req_service r ∧ pm_revision p = req_revision r
     ∧ req_status r = if bool_decide (pm_mode p = "approval_required") then pending_approval else queued) →
  key_taken d (req_device r) (req_key_hash r) = false →
  evolves d (set_db_requests (<[id := r]> (db_requests d)) d).
Proof.
  intros Hn Hdev (p & Hp & Pd & Ps & Pr & Hst) Hk [W1 W2 W3 W4 W5].
  assert (db_approvals d !! id = None) as Hna.
  { destruct (db_approvals d !! id) as [a|] eqn:E; [|done]. destruct (W4 id a E) as (q & Hq & _). congruence. }
  set (d' := set_db_requests _ d).
  assert (∀ i, life_steps (life_of d i) (life_of d' i)) as Hlife.
  { intros i. destruct (decide (i = id)) as [-> |Hne].
    - assert (life_of d id = None) as -> by (unfold life_of; by rewrite Hn).
      rewrite (life_of_row d' id r) by (simpl; by rewrite lookup_insert_eq).
      unfold row_life, needs_approval, approval_count; simpl. rewrite Hp, Hna, Hst.
      apply rtc_once. apply life_submit.
    - unfold life_of, approval_count; simpl. by rewrite lookup_insert_ne. }
  assert (∀ i q, db_requests d !! i = Some q → req_device q = req_device r → req_key_hash q = req_key_hash r → False) as Hfree.
  { intros i q Hq E1 E2. unfold key_taken in Hk. apply not_true_iff_false in Hk. apply Hk, existsb_exists.
    exists (i, q). rewrite <-list_elem_of_In, elem_of_map_to_list. split; [done|].
    by rewrite !bool_decide_eq_true_2. }
  split; split; simpl; try done.
  - intros i q. rewrite lookup_insert_Some. intros [[<- <-]|[_ Hq]]; [eauto 10|by apply (W1 i)].
  - intros i j q q'. rewrite !lookup_insert_Some. intros [[<- <-]|[? Hi]] [[<- <-]|[? Hj]] E1 E2; try done.
    + by destruct (Hfree j q').
    + by destruct (Hfree i q).
    + by eapply W3.
  - intros i a Hi. destruct (W4 i a Hi) as (q & Hq & ?). exists q. split; [|done].
    rewrite lookup_insert_ne; [done|]. congruence.
  - intros i. eapply life_steps_ok, W5. apply Hlife.
  - apply kept_insert; [apply _|]. congruence.
Qed.

(** The purge touches terminal requests only. *)
Lemma evolves_purge d cutoff : evolves d (purge_payloads cutoff d).
Proof.
  set (f := λ r, if match req_finished r with Some t => (t <? cutoff)%Z | None => false end
                    && terminal (req_status r) then purge_row r else r).
  assert (∀ r, same_request r (f r)) as Hsame.
  { intros r. unfold f. destruct (match req_finished r with Some _ => _ | None => _ end); simpl; [|reflexivity].
    destruct (terminal (req_status r)) eqn:E; [|reflexivity]. by apply same_request_purge. }
  assert (∀ r, req_status (f r) = req_status r) as Hst by (intros r; unfold f; by destruct (_ && _)).
  assert (∀ i r', db_requests (purge_payloads cutoff d) !! i = Some r' →
    ∃ r, db_requests d !! i = Some r ∧ r' = f r) as Hrow.
  { intros i r'. simpl. rewrite lookup_fmap, fmap_Some. eauto. }
  assert (∀ i, life_of (purge_payloads cutoff d) i = life_of d i) as Hlife.
  { intros i. unfold life_of, approval_count; simpl. rewrite !lookup_fmap. fold f.
    destruct (db_requests d !! i) as [r|]; [|done]. simpl. rewrite Hst.
    destruct (Hsame r) as [_ _ _ -> _ [_ Hd] _ _ _]. rewrite Hd. reflexivity. }
  intros [W1 W2 W3 W4 W5]. split; split; try done.
  - intros i r' (r & Hr & ->)%Hrow. destruct (Hsame r) as [-> -> -> -> _ _ _ _ _]. by apply (W1 i).
  - intros i j r' q' (r & Hr & ->)%Hrow (q & Hq & ->)%Hrow E1 E2.
    destruct (Hsame r), (Hsame q). eapply W3; eauto; congruence.
  - intros i a Ha. destruct (W4 i a Ha) as (r & Hr & Hne). exists (f r). split; [|by rewrite Hst].
    simpl. rewrite lookup_fmap, Hr. done.
  - intros i. by rewrite Hlife.
  - intros i. by rewrite Hlife.
  - intros i r Hr. exists (f r). simpl. by rewrite lookup_fmap, Hr.
Qed.

(** Permissions: a new one under a fresh ID, and a revocation. *)
Lemma needs_approval_kept d d' p : kept same_permission (db_permissions d) (db_permissions d') →
  is_Some (db_permissions d !! p) → needs_approval d' p = needs_approval d p.
Proof.
  intros Hk [r Hr]. unfold needs_approval. destruct (Hk p r Hr) as (r' & -> & [-> | ->]); by rewrite Hr.
Qed.

Lemma evolves_permissions d m :
  kept same_permission (db_permissions d) m →
  (∀ id p, m !! id = Some p → is_Some (db_devices d !! pm_device p) ∧
     ∃ s, db_services d !! pm_service p = Some s ∧ (pm_revision p <= srv_revision s)%Z) →
  evolves d (set_db_permissions m d).
Proof.
  intros Hk Hp [W1 W2 W3 W4 W5].
  assert (∀ i, life_of (set_db_permissions m d) i = life_of d i) as Hlife.
  { intros i. unfold life_of; simpl. destruct (db_requests d !! i) as [r|] eqn:Hr; [|done]. simpl.
    destruct (W1 i r Hr) as (_ & p & Hpr & _). by rewrite (needs_approval_kept d). }
  split; split; try done.
  - intros i r Hr. destruct (W1 i r Hr) as (? & p & Hpr & E1 & E2 & E3). split; [done|].
    destruct (Hk _ _ Hpr) as (p' & Hp' & [-> | ->]); eauto.
  - intros i. by rewrite Hlife.
  - intros i. by rewrite Hlife.
Qed.

Lemma evolves_new_permission d id p s :
  db_permissions d !! id = None → is_Some (db_devices d !! pm_device p) →
  db_services d !! pm_service p = Some s → (pm_revision p <= srv_revision s)%Z →
  evolves d (set_db_permissions (<[id := p]> (db_permissions d)) d).
Proof.
  intros Hn Hd Hs Hr Hwf. apply evolves_permissions; [..|done].
  - apply kept_insert; [apply _|]. congruence.
  - intros i q. rewrite lookup_insert_Some. intros [[<- <-]|[_ Hq]]; [by eauto|by apply (wf_permission d Hwf i)].
Qed.

Lemma evolves_revoke_permission d id p :
  db_permissions d !! id = Some p →
  evolves d (set_db_permissions (<[id := set_pm_revoked true p]> (db_permissions d)) d).
Proof.
  intros Hp Hwf. apply evolves_permissions; [..|done].
  - apply kept_insert; [apply _|]. intros q Hq. rewrite Hp in Hq. injection Hq as <-. by right.
  - intros i q. rewrite lookup_insert_Some. intros [[<- <-]|[_ Hq]]; [|by apply (wf_permission d Hwf i)].
    exact (wf_permission d Hwf id p Hp).
Qed.

(** Services: a new one, and a change under a higher revision. *)
Lemma evolves_service d id s' :
  (∀ s, db_services d !! id = Some s → (srv_revision s < srv_revision s')%Z) →
  evolves d (set_db_services (<[id := s']> (db_services d)) d).
Proof.
  intros Hs [W1 W2 W3 W4 W5].
  split; split; try done.
  - intros i p Hp. destruct (W2 i p Hp) as (? & s & Hsv & Hle). split; [done|]. simpl.
    destruct (decide (id = pm_service p)) as [-> |Hne]; [|exists s; by rewrite lookup_insert_ne].
    exists s'. rewrite lookup_insert_eq. split; [done|]. specialize (Hs _ Hsv). lia.
  - apply kept_insert; [apply _|]. intros s H. right. auto.
Qed.
