(* ===== verification/Closing.v ===== *)
(** The operations that close requests in a loop: [cancelRequests] and what uses
    it, [maintenance], [recoverDispatches] and [RecoverRestored].

    A loop over selected rows is the relation [closes]: one [close_in] per row,
    each at its own time.  The lemmas about it give the rows it leaves, what it
    does not touch, and that it evolves the database. *)
From S2P Require Import Prelude GoStrings Access Crypto Types Db Rules Samples Authorize Lifecycle Life.

(** * Selected rows *)

Lemma elem_of_select p d id :
  id ∈ select_requests p d ↔ ∃ r, db_requests d !! id = Some r ∧ p id r = true.
Proof.
  unfold select_requests. rewrite list_elem_of_fmap. split.
  - intros ([i r] & -> & [Hp Hin]%list_elem_of_filter). apply elem_of_map_to_list in Hin. eauto.
  - intros (r & Hr & Hp). exists (id, r). split; [done|]. apply list_elem_of_filter.
    by rewrite elem_of_map_to_list.
Qed.

Lemma NoDup_select p d : NoDup (select_requests p d).
Proof.
  unfold select_requests. apply NoDup_fmap_fst.
  - intros id r r' [_ H]%list_elem_of_filter [_ H']%list_elem_of_filter.
    apply elem_of_map_to_list in H, H'. congruence.
  - apply NoDup_filter, NoDup_map_to_list.
Qed.

Lemma prefix_elem {A} (l k : list A) x : l `prefix_of` k → x ∈ l → x ∈ k.
Proof. intros [m ->] Hx. set_solver. Qed.

Lemma prefix_NoDup {A} (l k : list A) : l `prefix_of` k → NoDup k → NoDup l.
Proof. intros [m ->] [H _]%NoDup_app. done. Qed.

(** * Closing one request and a list of them *)

(** The database after [close_request]. *)
Definition close_in (s : status) (reason : string) (now : Z) (id : string) (t : database) : database :=
  let t' := match db_requests t !! id with
            | Some r => set_db_requests (<[id := close_row s reason now r]> (db_requests t)) t
            | None => t
            end in
  set_db_audit (db_audit t' ++ [mkAudit EmptyString EmptyString ("request_" +:+ status_string s) id]) t'.

Inductive closes (s : status) (reason : string) : list string → database → database → Prop :=
| closes_nil t : closes s reason [] t t
| closes_cons id now ids t t' :
    closes s reason ids (close_in s reason now id t) t' → closes s reason (id :: ids) t t'.

Section closes.
Context (s : status) (reason : string).
Implicit Types (t : database) (ids : list string).

Lemma close_in_other now id t i : i ≠ id → db_requests (close_in s reason now id t) !! i = db_requests t !! i.
Proof. intros Hi. unfold close_in. destruct (db_requests t !! id); simpl; [|done]. by rewrite lookup_insert_ne. Qed.

Lemma closes_other ids t t' i : closes s reason ids t t' → i ∉ ids → db_requests t' !! i = db_requests t !! i.
Proof.
  induction 1 as [|id now ids t t' H IH]; intros Hi; [done|].
  rewrite IH by set_solver. apply close_in_other. set_solver.
Qed.

Lemma closes_row ids t t' i r :
  closes s reason ids t t' → NoDup ids → i ∈ ids → db_requests t !! i = Some r →
  ∃ now, db_requests t' !! i = Some (close_row s reason now r).
Proof.
  induction 1 as [|id now ids t t' H IH]; intros Hn Hi Hr; [by apply elem_of_nil in Hi|].
  apply NoDup_cons in Hn as [Hni Hn]. apply elem_of_cons in Hi as [-> | Hi].
  - exists now. rewrite (closes_other _ _ _ _ H Hni). unfold close_in. rewrite Hr. simpl.
    by rewrite lookup_insert_eq.
  - apply IH; [done..|]. rewrite close_in_other; [done|]. by intros ->.
Qed.

(** Everything but the requests and the audit log. *)
Definition same_rest (t t' : database) : Prop :=
  db_metadata t' = db_metadata t ∧ db_version t' = db_version t ∧ db_owners t' = db_owners t
  ∧ db_sessions t' = db_sessions t ∧ db_devices t' = db_devices t ∧ db_invitations t' = db_invitations t
  ∧ db_services t' = db_services t ∧ db_permissions t' = db_permissions t
  ∧ db_http_events t' = db_http_events t ∧ db_approvals t' = db_approvals t.

Lemma close_in_rest now id t : same_rest t (close_in s reason now id t).
Proof. unfold close_in. by destruct (db_requests t !! id). Qed.

Lemma closes_rest ids t t' : closes s reason ids t t' → same_rest t t'.
Proof.
  induction 1 as [|id now ids t t' H IH]; [done|].
  destruct (close_in_rest now id t) as (?&?&?&?&?&?&?&?&?&?), IH as (?&?&?&?&?&?&?&?&?&?).
  unfold same_rest. split_and!; congruence.
Qed.

Lemma closes_audit ids t t' : closes s reason ids t t' →
  db_audit t' = db_audit t ++ map (mkAudit EmptyString EmptyString ("request_" +:+ status_string s)) ids.
Proof.
  induction 1 as [|id now ids t t' H IH]; simpl; [by rewrite app_nil_r|].
  rewrite IH. unfold close_in. destruct (db_requests t !! id); simpl; by rewrite <-app_assoc.
Qed.

(** It evolves the database if each row may be closed so. *)
Lemma closes_evolves ids t t' :
  closes s reason ids t t' → NoDup ids →
  (∀ d id r now, id ∈ ids → db_requests t !! id = Some r → db_requests d !! id = Some r →
     evolves d (set_db_requests (<[id := close_row s reason now r]> (db_requests d)) d)) →
  evolves t t'.
Proof.
  induction 1 as [|id now ids t t' H IH]; intros Hn Hs; [reflexivity|].
  apply NoDup_cons in Hn as [Hni Hn].
  transitivity (close_in s reason now id t).
  - unfold close_in. etransitivity; [|apply evolves_audit].
    destruct (db_requests t !! id) as [r|] eqn:Hr; [|reflexivity].
    apply Hs; [left|done..].
  - apply IH; [done|]. intros d i r n Hi. rewrite close_in_other by (by intros ->).
    apply Hs. by right.
Qed.

End closes.

(** * The loops of the program *)

Section loops.
Context (w0 : world) (d : database).

(** One round of a loop. *)
Definition close_round (s : status) (reason : string) (f : string → M world unit) : Prop :=
  ∀ id t w, at_world w0 d (Some t) w →
    wp (f id) (λ r w', match r with
      | Ok _ => ∃ now, at_world w0 d (Some (close_in s reason now id t)) w'
      | Err e => io w0 e ∧ ∃ t', at_world w0 d (Some t') w'
      end) w.

Lemma wp_close_request s reason id now t (Q : result unit → world → Prop) w :
  at_world w0 d (Some t) w →
  (∀ w', at_world w0 d (Some (close_in s reason now id t)) w' → Q (Ok tt) w') →
  (∀ e t' w', io w0 e → at_world w0 d (Some t') w' → Q (Err e) w') →
  wp (close_request s reason id now) Q w.
Proof.
  intros Hw HQ HE. unfold close_request. wp_rule. wp_rule.
  - assert (t' = match db_requests t !! id with
            | Some r => set_db_requests (<[id := close_row s reason now r]> (db_requests t)) t | None => t end) as ->.
    { unfold update_request in H. destruct (db_requests t !! id); by simplify_eq/=. }
    wp_rule; [by apply HQ|by eapply HE].
  - destruct H as [H|H]; [|by eapply HE].
    destruct (update_request_ok id (λ _, true) (close_row s reason now) t) as (? & ? & E). congruence.
Qed.

Lemma close_round_now s reason : close_round s reason (λ id, now ← now_Unix; close_request s reason id now).
Proof.
  intros id t w Hw. wp_rule. wp_rule. eapply wp_close_request; [done|..]; eauto.
Qed.

Lemma close_round_at s reason now : close_round s reason (λ id, close_request s reason id now).
Proof. intros id t w Hw. eapply wp_close_request; [done|..]; eauto. Qed.

Lemma wp_close_loop s reason f ids t (Q : result unit → world → Prop) w :
  close_round s reason f → at_world w0 d (Some t) w →
  (∀ t' w', closes s reason ids t t' → at_world w0 d (Some t') w' → Q (Ok tt) w') →
  (∀ e t' w', io w0 e → at_world w0 d (Some t') w' → Q (Err e) w') →
  wp (for_each f ids) Q w.
Proof.
  intros Hf. revert t w Q. induction ids as [|id ids IH]; intros t w Q Hw HQ HE; simpl.
  { wp_rule. eapply HQ; [constructor|done]. }
  wp_rule. eapply wp_mono; [by apply Hf|]. intros [[]|e] w1.
  - intros (now & Hw1). eapply IH; [done| |done]. intros t' w2 Hc Hw2. eapply HQ; [|done].
    by econstructor.
  - intros [He [t' Hw1]]. eauto.
Qed.

End loops.

(** * Cancellation *)

Section cancel.
Context `{GoCrypto} `{GoJSON}.

(** The requests a cancellation is about. *)
Definition in_scope (column : scope) (id : string) (r : request_row) : bool :=
  bool_decide (scope_column column r = id) && undispatched (req_status r).

Lemma wp_cancelRequests w0 column id reason d t (Q : result unit → world → Prop) w :
  at_world w0 d (Some t) w →
  (∀ ids t' w', ids `prefix_of` select_requests (λ _, in_scope column id) t →
     (w_faults w0 = [] → ids = select_requests (λ _, in_scope column id) t) →
     closes cancelled reason ids t t' → at_world w0 d (Some t') w' → Q (Ok tt) w') →
  (∀ e t' w', io w0 e → at_world w0 d (Some t') w' → Q (Err e) w') →
  wp (cancelRequests column id reason) Q w.
Proof.
  intros Hw HQ HE. unfold cancelRequests. wp_rule. wp_rule; [|by eapply HE].
  eapply wp_close_loop; [apply close_round_now|done| |done].
  intros t' w1 Hc Hw1. eapply HQ; [done| |done|done]. auto.
Qed.

(** Cancelling any of them evolves the database. *)
Lemma cancel_evolves column id reason ids t t' :
  ids `prefix_of` select_requests (λ _, in_scope column id) t → closes cancelled reason ids t t' → evolves t t'.
Proof.
  intros Hp Hc. eapply closes_evolves; [done|by eapply prefix_NoDup, NoDup_select|].
  intros d i r now Hi Hr Hr'. apply (prefix_elem _ _ _ Hp), elem_of_select in Hi as (q & Hq & Hs).
  apply evolves_close; [done| |by left].
  assert (q = r) as -> by congruence. by apply andb_true_iff in Hs as [_ ?].
Qed.

(** With all of them, none is left, and no other request has changed. *)
Lemma cancel_complete column id reason t t' i r :
  closes cancelled reason (select_requests (λ _, in_scope column id) t) t t' →
  db_requests t !! i = Some r →
  if in_scope column id r then ∃ now, db_requests t' !! i = Some (close_row cancelled reason now r)
  else db_requests t' !! i = Some r.
Proof.
  intros Hc Hr. destruct (in_scope column id r) eqn:E.
  - eapply closes_row; [done|apply NoDup_select| |done]. apply elem_of_select. eauto.
  - rewrite (closes_other _ _ _ _ _ _ Hc); [done|]. intros (q & Hq & Hs)%elem_of_select. congruence.
Qed.

(** * Recovery after a restart *)

Definition is_dispatching (r : request_row) : bool := bool_decide (req_status r = dispatching).

Definition restart_reason : string := "server_restarted_during_dispatch_check_provider".

Lemma wp_recoverDispatches w0 d (Q : result unit → world → Prop) w :
  at_world w0 d None w →
  (∀ ids d' w', ids `prefix_of` select_requests (λ _, is_dispatching) d →
     (w_faults w0 = [] → ids = select_requests (λ _, is_dispatching) d) →
     closes outcome_unknown restart_reason ids d d' → at_world w0 d' None w' → Q (Ok tt) w') →
  (∀ e w', io w0 e → at_world w0 d None w' → Q (Err e) w') →
  wp recoverDispatches Q w.
Proof.
  intros Hw HQ HE. eapply wp_with_tx; [done| |done]. intros w1 Hw1 _.
  wp_rule. wp_rule; [|apply HE; [done|by eapply at_rollback]].
  wp_rule. eapply wp_close_loop; [apply close_round_now|done| |].
  - intros t' w3 Hc Hw3. wp_rule.
    + eapply HQ; [done| |done|by eapply at_rollback]. auto.
    + apply HE; [done|by eapply at_rollback].
  - intros e t' w3 He Hw3. apply HE; [done|by eapply at_rollback].
Qed.

Lemma recover_evolves ids d d' :
  ids `prefix_of` select_requests (λ _, is_dispatching) d →
  closes outcome_unknown restart_reason ids d d' → evolves d d'.
Proof.
  intros Hp Hc. eapply closes_evolves; [done|by eapply prefix_NoDup, NoDup_select|].
  intros t i r now Hi Hr Hr'. apply (prefix_elem _ _ _ Hp), elem_of_select in Hi as (q & Hq & Hs).
  apply evolves_finish; [done| |auto].
  assert (q = r) as -> by congruence. by apply bool_decide_eq_true in Hs.
Qed.

(** * Maintenance *)

(** The requests whose deadline has passed, and what the pass makes of each row. *)
Definition overdue (now : Z) (r : request_row) : bool := undispatched (req_status r) && (req_expires r <=? now)%Z.

Definition stale (now : Z) (r : request_row) : bool :=
  match req_finished r with Some f => (f <? now - 24 * 3600)%Z | None => false end && terminal (req_status r).

Definition maintained (now : Z) (r : request_row) : request_row :=
  if overdue now r then close_row expired "deadline_elapsed" now r
  else if stale now r then purge_row r else r.

(** The loop of [maintenance] writes the time it read once. *)
Inductive closes_at (now : Z) : list string → database → database → Prop :=
| closes_at_nil t : closes_at now [] t t
| closes_at_cons id ids t t' :
    closes_at now ids (close_in expired "deadline_elapsed" now id t) t' → closes_at now (id :: ids) t t'.

Lemma closes_at_closes now ids t t' : closes_at now ids t t' → closes expired "deadline_elapsed" ids t t'.
Proof. induction 1; econstructor; eauto. Qed.

Lemma closes_at_row now ids t t' i r :
  closes_at now ids t t' → NoDup ids → i ∈ ids → db_requests t !! i = Some r →
  db_requests t' !! i = Some (close_row expired "deadline_elapsed" now r).
Proof.
  induction 1 as [|id ids t t' H' IH]; intros Hn Hi Hr; [by apply elem_of_nil in Hi|].
  apply NoDup_cons in Hn as [Hni Hn]. apply elem_of_cons in Hi as [-> | Hi].
  - rewrite (closes_other _ _ _ _ _ _ (closes_at_closes _ _ _ _ H') Hni). unfold close_in. rewrite Hr. simpl.
    by rewrite lookup_insert_eq.
  - apply IH; [done..|]. rewrite close_in_other; [done|]. by intros ->.
Qed.

Lemma wp_expire_loop w0 d now ids t (Q : result unit → world → Prop) w :
  at_world w0 d (Some t) w →
  (∀ t' w', closes_at now ids t t' → at_world w0 d (Some t') w' → Q (Ok tt) w') →
  (∀ e t' w', io w0 e → at_world w0 d (Some t') w' → Q (Err e) w') →
  wp (for_each (λ id, close_request expired "deadline_elapsed" id now) ids) Q w.
Proof.
  revert t w Q. induction ids as [|id ids IH]; intros t w Q Hw HQ HE; simpl.
  { wp_rule. eapply HQ; [constructor|done]. }
  wp_rule. eapply wp_close_request; [done| |done]. intros w1 Hw1.
  eapply IH; [done| |done]. intros t' w2 Hc Hw2. eapply HQ; [|done]. by econstructor.
Qed.

(** What a pass commits: the overdue requests are expired, old payloads purged, and
    the expired sessions gone unless that statement failed. *)
Definition maintenance_result (now : Z) (t d' : database) : Prop :=
  d' = expire_sessions now (purge_payloads (now - 24 * 3600) t) ∨ d' = purge_payloads (now - 24 * 3600) t.

Lemma wp_maintenance w0 d (Q : result unit → world → Prop) w :
  at_world w0 d None w →
  (∀ now ids t d' w', ids `prefix_of` select_requests (λ _, overdue now) d →
     closes_at now ids d t → maintenance_result now t d' →
     (Unix (w_clock w) <= now <= Unix (w_clock w'))%Z →
     (w_faults w0 = [] → ids = select_requests (λ _, overdue now) d
        ∧ d' = expire_sessions now (purge_payloads (now - 24 * 3600) t)) →
     at_world w0 d' None w' → Q (Ok tt) w') →
  (∀ w', w_faults w0 ≠ [] → at_world w0 d None w' → Q (Ok tt) w') →
  wp maintenance Q w.
Proof.
  intros Hw HQ HE. unfold maintenance.
  assert (∀ e w', io w0 e → at_world w0 d None w' → Q (Ok tt) w') as HE' by (intros e w' [_ ?]; auto).
  wp_rule. wp_rule. eapply wp_with_tx; [done| |intros; wp_rule; by eapply HE'].
  intros w1 Hw1 Hc1. wp_rule. eapply wp_now_Unix; [done|]. intros w2 Hw2 Hc2. cbv beta iota.
  assert (Unix (w_clock w) <= Unix (w_clock w2))%Z as Hle by (apply Unix_mono; lia).
  pose proof (at_here _ _ _ _ Hw2) as Hh.
  assert (∀ e t w', io w2 e → at_world w2 d t w' → Q (Ok tt) (rollback w')) as HEr.
  { intros e t w' He Hw'. eapply HE'; [by eapply io_here|]. eapply at_rollback, at_trans; done. }
  set (now := Unix (w_clock w2)) in *.
  assert (∀ ids t d' w', ids `prefix_of` select_requests (λ _, overdue now) d → closes_at now ids d t →
    maintenance_result now t d' → at_world w2 d' None w' →
    (w_faults w0 = [] → ids = select_requests (λ _, overdue now) d
        ∧ d' = expire_sessions now (purge_payloads (now - 24 * 3600) t)) →
    Q (Ok tt) (rollback w')) as HQr.
  { intros ids t d' w' Hp Hc Hm Hw' Hq. eapply HQ; [done..| | |eapply at_rollback, at_trans; done]; [|done].
    split; [done|]. apply Unix_mono. apply (at_clock _ _ _ _ Hw'). }
  pose proof (at_faults _ _ _ _ Hw2) as Hf. clear HE HE' HQ Hw Hw1 Hc1 Hc2.
  clear Hw2.
  wp_rule. wp_rule; [|wp_rule; by eapply HEr].
  wp_rule. eapply wp_expire_loop; [done| |intros e t' w3 He Hw3; wp_rule; by eapply HEr].
  intros t w3 Hcl Hw3. wp_rule. wp_rule; [|destruct H6 as [?|?]; [done|wp_rule; by eapply HEr]].
  injection H6 as <- <-. wp_rule. wp_rule. wp_rule.
  - injection H6 as <- <-. wp_rule; wp_rule; [|by eapply HEr].
    apply (HQr l _ _ _ H1 Hcl (or_introl eq_refl)); [done|]. intros Hq. split; [|done]. by apply H2, H3, Hf.
  - destruct H6 as [?|?]; [done|]. wp_rule; wp_rule; [|by eapply HEr].
    apply (HQr l _ _ _ H1 Hcl (or_intror eq_refl)); [done|].
    intros Hq. exfalso. eapply io_quiet; [by apply Hf|done].
Qed.

Lemma maintenance_evolves now ids d t d' :
  ids `prefix_of` select_requests (λ _, overdue now) d → closes_at now ids d t →
  maintenance_result now t d' → evolves d d'.
Proof.
  intros Hp Hc Hm. transitivity t.
  { eapply closes_evolves; [by eapply closes_at_closes|by eapply prefix_NoDup, NoDup_select|].
    intros u i r n Hi Hr Hr'. apply (prefix_elem _ _ _ Hp), elem_of_select in Hi as (q & Hq & Hs).
    apply evolves_close; [done| |by right].
    assert (q = r) as -> by congruence. by apply andb_true_iff in Hs as [? _]. }
  destruct Hm as [-> | ->]; (etransitivity; [apply evolves_purge|]); [apply evolves_sessions|reflexivity].
Qed.

(** Row by row, when nothing fails. *)
Lemma maintenance_rows now d t id :
  closes_at now (select_requests (λ _, overdue now) d) d t →
  db_requests (purge_payloads (now - 24 * 3600) t) !! id = maintained now <$> db_requests d !! id.
Proof.
  intros Hc. simpl. rewrite lookup_fmap. unfold maintained.
  destruct (db_requests d !! id) as [r|] eqn:Hr; simpl.
  - destruct (overdue now r) eqn:Ho.
    + rewrite (closes_at_row _ _ _ _ id r Hc); [|apply NoDup_select|apply elem_of_select; eauto|done]. simpl.
      replace (now <? now - 24 * 3600)%Z with false; [done|]. symmetry. apply Z.ltb_ge. lia.
    + rewrite (closes_other _ _ _ _ _ id (closes_at_closes _ _ _ _ Hc)), Hr; [done|].
      intros (q & Hq & Hs)%elem_of_select. congruence.
  - rewrite (closes_other _ _ _ _ _ id (closes_at_closes _ _ _ _ Hc)), Hr; [done|].
    intros (q & Hq & Hs)%elem_of_select. congruence.
Qed.

(** * A restored database *)

Definition restore_reason : string := "restored_database_recovery".

(** The loop over the devices; [full] says that no row iteration was cut short. *)
Inductive restored (full : Prop) : list string → database → database → Prop :=
| restored_nil t : restored full [] t t
| restored_cons id cs ids t t1 n t2 t' :
    set_device_revoked id t = Ok (t1, n) →
    cs `prefix_of` select_requests (λ _, in_scope by_device id) t1 →
    (full → cs = select_requests (λ _, in_scope by_device id) t1) →
    closes cancelled restore_reason cs t1 t2 → restored full ids t2 t' →
    restored full (id :: ids) t t'.

Lemma set_device_revoked_inv id t t1 n :
  set_device_revoked id t = Ok (t1, n) →
  t1 = match db_devices t !! id with
       | Some r => set_db_devices (<[id := set_dev_revoked true r]> (db_devices t)) t
       | None => t
       end.
Proof. unfold set_device_revoked. by destruct (db_devices t !! id); intros [= <- _]. Qed.

Lemma set_device_revoked_evolves id t t1 n : set_device_revoked id t = Ok (t1, n) → evolves t t1.
Proof.
  intros ->%set_device_revoked_inv. destruct (db_devices t !! id); [|reflexivity].
  apply evolves_device. by intros q _ _.
Qed.

Lemma restored_evolves full ids t t' : restored full ids t t' → evolves t t'.
Proof.
  induction 1 as [|id cs ids t t1 n t2 t' Hs Hp _ Hc _ IH]; [reflexivity|].
  etransitivity; [by eapply set_device_revoked_evolves|]. etransitivity; [by eapply cancel_evolves|done].
Qed.

Lemma restored_devices full ids t t' i : restored full ids t t' →
  db_devices t' !! i = (λ r, if decide (i ∈ ids) then set_dev_revoked true r else r) <$> db_devices t !! i.
Proof.
  induction 1 as [t|id cs ids t t1 n t2 t' Hs Hp _ Hc _ IH].
  { by destruct (db_devices t !! i). }
  rewrite IH. destruct (closes_rest _ _ _ _ _ Hc) as (_&_&_&_&->&_). clear IH.
  apply set_device_revoked_inv in Hs as ->.
  destruct (decide (i = id)) as [-> |Hne].
  - destruct (db_devices t !! id) as [r|] eqn:Hr; simpl; [rewrite lookup_insert_eq|by rewrite Hr].
    simpl. destruct (decide (id ∈ id :: ids)) as [_|Hn]; [by destruct (decide (id ∈ ids))|].
    exfalso. apply Hn. left.
  - assert (db_devices (match db_devices t !! id with
      | Some r => set_db_devices (<[id := set_dev_revoked true r]> (db_devices t)) t | None => t end) !! i
      = db_devices t !! i) as ->.
    { destruct (db_devices t !! id); simpl; [by rewrite lookup_insert_ne|done]. }
    destruct (db_devices t !! i); simpl; [|done]. f_equal.
    apply decide_ext. rewrite elem_of_cons. tauto.
Qed.

Lemma restored_requests full ids t t' i r : restored full ids t t' → full →
  db_requests t !! i = Some r →
  if undispatched (req_status r) && bool_decide (req_device r ∈ ids)
  then ∃ now, db_requests t' !! i = Some (close_row cancelled restore_reason now r)
  else db_requests t' !! i = Some r.
Proof.
  intros Hres Hfull. revert r.
  induction Hres as [t|id cs ids t t1 n t2 t' Hs Hp Hcs Hc Hres IH]; intros r Hr.
  { rewrite bool_decide_eq_false_2 by by apply not_elem_of_nil. by rewrite andb_false_r. }
  assert (db_requests t1 !! i = Some r) as Hr1.
  { apply set_device_revoked_inv in Hs as ->. by destruct (db_devices t !! id). }
  rewrite (Hcs Hfull) in Hc. pose proof (cancel_complete _ _ _ _ _ i r Hc Hr1) as H1.
  unfold in_scope in H1. simpl in H1.
  destruct (undispatched (req_status r)) eqn:Hu; rewrite ?andb_true_r, ?andb_false_r in H1; simpl.
  - destruct (decide (req_device r = id)) as [E|E].
    + rewrite bool_decide_eq_true_2 in H1 by done. destruct H1 as [now H1].
      rewrite bool_decide_eq_true_2 by (rewrite E; left). exists now. exact (IH _ H1).
    + rewrite bool_decide_eq_false_2 in H1 by done. specialize (IH _ H1). rewrite Hu in IH. simpl in IH.
      rewrite (bool_decide_ext (req_device r ∈ id :: ids) (req_device r ∈ ids)) by (rewrite elem_of_cons; tauto). done.
  - specialize (IH _ H1). by rewrite Hu in IH.
Qed.

Lemma wp_restore_loop w0 d ids t (Q : result unit → world → Prop) w :
  at_world w0 d (Some t) w →
  (∀ t' w', restored (w_faults w0 = []) ids t t' → at_world w0 d (Some t') w' → Q (Ok tt) w') →
  (∀ e t' w', io w0 e → at_world w0 d (Some t') w' → Q (Err e) w') →
  wp (for_each (λ id, exec Tx (set_device_revoked id);; cancelRequests by_device id restore_reason) ids) Q w.
Proof.
  revert t w Q. induction ids as [|id ids IH]; intros t w Q Hw HQ HE; simpl.
  { wp_rule. eapply HQ; [constructor|done]. }
  wp_rule. wp_rule. wp_rule.
  - eapply wp_cancelRequests; [done| |done]. intros cs t2 w2 Hp Hf Hc Hw2.
    eapply IH; [done| |done]. intros t3 w3 Hr Hw3. eapply HQ; [|done]. by econstructor.
  - destruct H1 as [He|He]; [|by eapply HE].
    unfold set_device_revoked in He. by destruct (db_devices t !! id).
Qed.

(** The database a restoration commits. *)
Definition after_restore (t : database) : database :=
  set_db_audit (db_audit t ++ [mkAudit EmptyString EmptyString "restored_database_access_invalidated" EmptyString])
    (set_db_sessions ∅ t).

Lemma wp_RecoverRestored w0 d (Q : result unit → world → Prop) w :
  at_world w0 d None w →
  (∀ ids t w', ids `prefix_of` (map_to_list (db_devices d)).*1 →
     (w_faults w0 = [] → ids = (map_to_list (db_devices d)).*1) →
     restored (w_faults w0 = []) ids d t → at_world w0 (after_restore t) None w' → Q (Ok tt) w') →
  (∀ e w', io w0 e → at_world w0 d None w' → Q (Err e) w') →
  wp RecoverRestored Q w.
Proof.
  intros Hw HQ HE.
  assert (∀ e t w', io w0 e → at_world w0 d t w' → Q (Err e) (rollback w')) as HEr
    by (intros; eapply HE, at_rollback; done).
  eapply wp_with_tx; [done| |done]. intros w1 Hw1 _.
  wp_rule. wp_rule; [|by eapply HEr]. wp_rule.
  eapply wp_restore_loop; [done| |intros; by eapply HEr]. intros t w3 Hr Hw3.
  wp_rule. wp_rule; [|destruct H6 as [?|?]; [done|by eapply HEr]].
  injection H6 as <- <-. wp_rule. wp_rule; [|by eapply HEr]. wp_rule; [|by eapply HEr].
  eapply HQ; [done| |done|by eapply at_rollback]. auto.
Qed.

Lemma after_restore_evolves t : evolves t (after_restore t).
Proof. etransitivity; [apply evolves_sessions|]. apply (evolves_audit (set_db_sessions ∅ t)). Qed.

(** * Properties *)

(** A maintenance pass expires exactly the requests that are not yet dispatched
    and whose deadline has passed, drops exactly the payloads of terminal requests
    finished more than a day ago, removes exactly the expired sessions, all
    against one reading of the clock, and leaves no transaction open. *)
Theorem maintenance_correct w (Htx : w_tx w = None) (Hq : w_faults w = []) :
  wp maintenance (λ r w', r = Ok tt ∧ w_tx w' = None ∧
    ∃ now, (Unix (w_clock w) <= now <= Unix (w_clock w'))%Z ∧
      (∀ id, db_requests (w_db w') !! id = maintained now <$> db_requests (w_db w) !! id) ∧
      db_sessions (w_db w') = filter (λ s : string * session_row, (now < sess_expires s.2)%Z) (db_sessions (w_db w))) w.
Proof.
  eapply (wp_maintenance w); [by apply at_start| |intros w' Hne; done].
  intros now ids t d' w' Hp Hc Hm Hn Hall [Hd Ht _ _ _ _]. destruct (Hall Hq) as [-> ->].
  split_and!; [done..|]. exists now. split; [done|]. rewrite Hd. split.
  - intros id. by apply (maintenance_rows now).
  - destruct (closes_rest _ _ _ _ _ (closes_at_closes _ _ _ _ Hc)) as (_&_&_&Hs&_). simpl. by rewrite Hs.
Qed.

(** After a restart every request that was being dispatched, and no other, has
    an unknown outcome with the restart as its reason; nothing is sent again. *)
Theorem recoverDispatches_correct w (Htx : w_tx w = None) (Hq : w_faults w = []) :
  wp recoverDispatches (λ res w', res = Ok tt ∧ w_tx w' = None ∧
    ∀ id r, db_requests (w_db w) !! id = Some r →
      if is_dispatching r
      then ∃ now, db_requests (w_db w') !! id = Some (close_row outcome_unknown restart_reason now r)
      else db_requests (w_db w') !! id = Some r) w.
Proof.
  eapply (wp_recoverDispatches w); [by apply at_start| |intros e w' He; by destruct (io_quiet _ _ Hq He)].
  intros ids d' w' _ Hall Hc [Hd Ht _ _ _ _]. rewrite (Hall Hq) in Hc. split_and!; [done..|].
  intros id r Hr. rewrite Hd. destruct (is_dispatching r) eqn:E.
  - eapply closes_row; [done|apply NoDup_select| |done]. apply elem_of_select. eauto.
  - rewrite (closes_other _ _ _ _ _ id Hc); [done|]. intros (q & Hq' & Hs)%elem_of_select. congruence.
Qed.

(** Recovering a restored database revokes every device, ends every session
    and cancels every request that is not yet dispatched, before it serves: of a
    well-formed backup no device is authorised for anything afterwards. *)
Theorem RecoverRestored_correct w (Hwf : wf (w_db w)) (Htx : w_tx w = None) (Hq : w_faults w = []) :
  wp RecoverRestored (λ res w', res = Ok tt ∧ w_tx w' = None ∧
    (∀ device, device_active (w_db w') device = false) ∧ db_sessions (w_db w') = ∅ ∧
    (∀ id r, db_requests (w_db w) !! id = Some r →
      if undispatched (req_status r)
      then ∃ now, db_requests (w_db w') !! id = Some (close_row cancelled restore_reason now r)
      else db_requests (w_db w') !! id = Some r)) w.
Proof.
  eapply (wp_RecoverRestored w); [by apply at_start| |intros e w' He; by destruct (io_quiet _ _ Hq He)].
  intros ids t w' _ Hall Hr [Hd Ht _ _ _ _]. rewrite (Hall Hq) in Hr. rewrite Hd.
  assert (∀ i, is_Some (db_devices (w_db w) !! i) → i ∈ (map_to_list (db_devices (w_db w))).*1) as Hin.
  { intros i [x Hx]. apply list_elem_of_fmap. exists (i, x). by rewrite elem_of_map_to_list. }
  split_and!; [done..| |done|].
  - intros i. unfold device_active. simpl. rewrite (restored_devices _ _ _ _ i Hr).
    destruct (db_devices (w_db w) !! i) as [x|] eqn:Hx; [|done]. simpl.
    by rewrite decide_True by (apply Hin; eauto).
  - intros id r Hreq. pose proof (restored_requests _ _ _ _ id r Hr Hq Hreq) as H1.
    destruct (wf_request _ Hwf id r Hreq) as [Hdev _].
    rewrite bool_decide_eq_true_2 in H1 by by apply Hin. by rewrite andb_true_r in H1.
Qed.

End cancel.

(** * Witnesses *)

#[local] Existing Instances plain_crypto plain_json.

Definition sample_row (s : status) : request_row :=
  mkRequestRow "dev_1" "api" 1 "perm_1" "key" "digest" "digest" (Some "payload") s 900 800 None None EmptyString.

(** A queued request whose deadline has passed, and one that was being dispatched. *)
Definition sample_requests : gmap string request_row :=
  {[ "req_1" := sample_row queued;
     "req_2" := mkRequestRow "dev_1" "api" 1 "perm_1" "key2" "digest" "digest" (Some "payload") dispatching
                  2000 800 None None EmptyString ]}.

Definition busy_world : world := set_w_db (set_db_requests sample_requests sample_db) sample_world.

Lemma maintenance_correct_witness :
  w_tx busy_world = None ∧ w_faults busy_world = [] ∧
  req_status <$> db_requests (w_db (maintenance busy_world).2) !! "req_1" = Some expired ∧
  wp maintenance (λ r w', r = Ok tt ∧ w_tx w' = None ∧
    ∃ now, (Unix (w_clock busy_world) <= now <= Unix (w_clock w'))%Z ∧
      (∀ id, db_requests (w_db w') !! id = maintained now <$> db_requests (w_db busy_world) !! id) ∧
      db_sessions (w_db w') =
        filter (λ s : string * session_row, (now < sess_expires s.2)%Z) (db_sessions (w_db busy_world))) busy_world.
Proof.
  split; [reflexivity|]. split; [reflexivity|]. split; [vm_compute; reflexivity|].
  apply maintenance_correct; reflexivity.
Defined.

Lemma recoverDispatches_correct_witness :
  w_tx busy_world = None ∧ w_faults busy_world = [] ∧
  req_status <$> db_requests (w_db (recoverDispatches busy_world).2) !! "req_2" = Some outcome_unknown ∧
  wp recoverDispatches (λ res w', res = Ok tt ∧ w_tx w' = None ∧
    ∀ id r, db_requests (w_db busy_world) !! id = Some r →
      if is_dispatching r
      then ∃ now, db_requests (w_db w') !! id = Some (close_row outcome_unknown restart_reason now r)
      else db_requests (w_db w') !! id = Some r) busy_world.
Proof.
  split; [reflexivity|]. split; [reflexivity|]. split; [vm_compute; reflexivity|].
  apply recoverDispatches_correct; reflexivity.
Defined.

Lemma sample_wf : wf sample_db.
Proof.
  split; simpl; try (intros; by rewrite lookup_empty in *).
  - intros id p Hp. unfold sample_permissions in Hp.
    apply lookup_insert_Some in Hp as [[<- <-]|[_ Hp]]; [|apply lookup_singleton_Some in Hp as [<- <-]];
      (split; [vm_compute; eauto|exists sample_service; split; [vm_compute; reflexivity|vm_compute; congruence]]).
  - intros id. unfold life_of. simpl. by rewrite lookup_empty.
Qed.

Lemma RecoverRestored_correct_witness :
  wf (w_db sample_world) ∧ w_tx sample_world = None ∧ w_faults sample_world = [] ∧
  device_active (w_db sample_world) "dev_1" = true ∧
  wp RecoverRestored (λ res w', res = Ok tt ∧ w_tx w' = None ∧
    (∀ device, device_active (w_db w') device = false) ∧ db_sessions (w_db w') = ∅ ∧
    (∀ id r, db_requests (w_db sample_world) !! id = Some r →
      if undispatched (req_status r)
      then ∃ now, db_requests (w_db w') !! id = Some (close_row cancelled restore_reason now r)
      else db_requests (w_db w') !! id = Some r)) sample_world.
Proof.
  split; [exact sample_wf|]. split; [reflexivity|]. split; [reflexivity|]. split; [vm_compute; reflexivity|].
  apply RecoverRestored_correct; [exact sample_wf|reflexivity|reflexivity].
Defined.

(** A row iteration that fails is taken for its end: both recovery functions
    return success and commit although a request is still marked as being
    dispatched, and although a device is still active. *)
Theorem recovery_ignores_row_errors :
  (∃ w, w_tx w = None ∧ (recoverDispatches w).1 = Ok tt ∧
     ∃ id r, db_requests (w_db (recoverDispatches w).2) !! id = Some r ∧ req_status r = dispatching) ∧
  (∃ w, w_tx w = None ∧ (RecoverRestored w).1 = Ok tt ∧
     ∃ device, device_active (w_db (RecoverRestored w).2) device = true).
Proof.
  split; exists (set_w_faults [false; false; true] busy_world).
  - split; [reflexivity|]. split; [vm_compute; reflexivity|]. exists "req_2". eexists.
    split; [vm_compute; reflexivity|reflexivity].
  - split; [reflexivity|]. split; [vm_compute; reflexivity|]. exists "dev_1". vm_compute. reflexivity.
Qed.
