(* ===== verification/Submitting.v ===== *)
(** Submission and status: what [Submit] commits and what [RequestStatus] shows.

    [created] is the abstract account of a new request: the authorisation it
    rests on, the snapshot frozen for review, and the row; [replayed] is the
    account of a repeated one.  [wp_Submit] shows that [Submit] ends in one of
    them or leaves the database as it was. *)
From S2P Require Import Prelude GoStrings NetUrl Http Access Crypto Types Db Rules Samples Authorize Lifecycle Life Closing.

Section submit.
Context `{GoCrypto} `{GoJSON}.

(** * The idempotency lookup *)

Lemma digest_row_Some device k d id digest :
  digest_row device k d = Some (id, digest) →
  ∃ r, db_requests d !! id = Some r ∧ req_device r = device ∧ req_key_hash r = k ∧ req_submission_digest r = digest.
Proof.
  unfold digest_row. intros Hh.
  destruct (filter _ (map_to_list (db_requests d))) as [|[i r] l] eqn:E; [done|].
  injection Hh as <- <-.
  assert ((i, r) ∈ filter (λ r : string * request_row, req_device r.2 = device ∧ req_key_hash r.2 = k)
    (map_to_list (db_requests d))) as [[? ?] Hin]%list_elem_of_filter by (rewrite E; left).
  apply elem_of_map_to_list in Hin. eauto.
Qed.

Lemma digest_row_None device k d :
  digest_row device k d = None ↔ ∀ id r, db_requests d !! id = Some r → ¬ (req_device r = device ∧ req_key_hash r = k).
Proof.
  unfold digest_row. split.
  - intros Hh id r Hr Hk. destruct (filter _ _) as [|x l] eqn:E; [|done].
    assert ((id, r) ∈ filter (λ r : string * request_row, req_device r.2 = device ∧ req_key_hash r.2 = k)
      (map_to_list (db_requests d))) as Hin.
    { apply list_elem_of_filter. by rewrite elem_of_map_to_list. }
    rewrite E in Hin. by apply elem_of_nil in Hin.
  - intros Hn. destruct (filter _ _) as [|[i r] l] eqn:E; [done|]. exfalso.
    assert ((i, r) ∈ filter (λ r : string * request_row, req_device r.2 = device ∧ req_key_hash r.2 = k)
      (map_to_list (db_requests d))) as [Hk Hin]%list_elem_of_filter by (rewrite E; left).
    apply elem_of_map_to_list in Hin. by apply (Hn i r).
Qed.

(** A device and a key determine the request. *)
Lemma digest_row_unique d id r :
  wf d → db_requests d !! id = Some r →
  digest_row (req_device r) (req_key_hash r) d = Some (id, req_submission_digest r).
Proof.
  intros Hwf Hr. destruct (digest_row _ _ d) as [[i g]|] eqn:E.
  - destruct (digest_row_Some _ _ _ _ _ E) as (q & Hq & E1 & E2 & <-).
    assert (i = id) as -> by by eapply (wf_key d Hwf i id q r). repeat f_equal. congruence.
  - exfalso. apply (proj1 (digest_row_None _ _ _) E id r Hr). done.
Qed.

(** * What a submission commits *)

Definition request_snapshot (device : string) (i : Submission) (s : Service) (p : Permission)
    (headers : header) (target : string) (expiry : Z) : Snapshot :=
  mkSnapshot 1 device (svc_ID s) (svc_Label s) (svc_Revision s) (perm_ID p)
    (credential_ref (svc_ID s) (svc_Revision s)) target (sub_Method i) (sub_Path i) headers
    (sub_Body i) expiry (svc_PrivateCIDR s).

Definition request_row_of (device : string) (i : Submission) (snap : Snapshot) (sealed : string) (state : status)
    (created : Z) : request_row :=
  mkRequestRow device (snap_ServiceID snap) (snap_Revision snap) (snap_PermissionID snap)
    (Hash (sub_IdempotencyKey i)) (SubmissionDigest i) (Digest (marshal_snapshot snap)) (Some sealed) state
    (snap_Expires snap) created None None EmptyString.

(** How a request starts: at once, or pending under the limit of twenty. *)
Inductive admitted (d : database) (device : string) (t0 t1 : Z) (p : Permission) : status → Z → Prop :=
| admit_standing t : perm_Mode p ≠ "approval_required" → (t0 <= t <= t1)%Z →
    admitted d device t0 t1 p queued (Unix (t + minute))
| admit_pending t now : perm_Mode p = "approval_required" → (t0 <= t <= t1)%Z → (Unix t0 <= now <= Unix t1)%Z →
    (pending_count device now d < 20)%Z → admitted d device t0 t1 p pending_approval (Unix (t + 10 * minute)).

Lemma admitted_widen d device t0 t1 u0 u1 p s e :
  admitted d device t0 t1 p s e → (u0 <= t0)%Z → (t1 <= u1)%Z → admitted d device u0 u1 p s e.
Proof.
  intros [t Hm Ht|t now Hm Ht Hn Hc] H1 H2; [apply admit_standing; [done|lia]|].
  pose proof (Unix_mono _ _ H1). pose proof (Unix_mono _ _ H2). apply (admit_pending _ _ _ _ _ t now); [done|lia|lia|done].
Qed.

(** A new request of an accepted submission [i], made between the clocks [t0] and
    [t1]. *)
Record created (key : string) (d : database) (device : string) (i : Submission) (t0 t1 : Z) (id : string)
    (d' : database) : Prop := {
  cr_device : device_active d device = true;
  cr_content : ∃ s p headers target state expiry now created nonce,
    let snap := request_snapshot device i s p headers target expiry in
    let r := request_row_of device i snap (Seal key ("request:" +:+ id) (marshal_snapshot snap) nonce) state created in
    authorized d device (sub_Service i) (sub_Method i) (sub_Path i) now s p ∧ (Unix t0 <= now <= Unix t1)%Z ∧
    String.length nonce = NonceSize ∧ ApplicationHeaders i s = Ok headers ∧ Target (svc_BaseURL s) (sub_Path i) (sub_Query i) = Ok target ∧
    admitted d device t0 t1 p state expiry ∧
    d' = set_db_audit (db_audit d ++ [mkAudit EmptyString device ("request_" +:+ status_string state) id])
           (set_db_requests (<[id := r]> (db_requests d)) d);
  cr_fresh : db_requests d !! id = None;
  cr_key : ∀ j r, db_requests d !! j = Some r → ¬ (req_device r = device ∧ req_key_hash r = Hash (sub_IdempotencyKey i));
}.

(** A submission that was made before. *)
Definition replayed (d : database) (device : string) (i : Submission) (id : string) : Prop :=
  device_active d device = true ∧
  ∃ r, db_requests d !! id = Some r ∧ req_device r = device ∧ req_key_hash r = Hash (sub_IdempotencyKey i)
    ∧ req_submission_digest r = SubmissionDigest i.

Lemma insert_request_Ok id r d d' n :
  insert_request id r d = Ok (d', n) →
  d' = set_db_requests (<[id := r]> (db_requests d)) d ∧ db_requests d !! id = None
  ∧ key_taken d (req_device r) (req_key_hash r) = false
  ∧ is_Some (db_devices d !! req_device r) ∧ is_Some (db_permissions d !! req_permission r).
Proof.
  unfold insert_request. destruct (_ || _) eqn:E; [done|]. intros [= <- <-].
  apply orb_false_iff in E as [[[[E1 E2]%orb_false_iff E3]%orb_false_iff E4]%orb_false_iff E5].
  apply bool_decide_eq_false in E1, E3, E4, E5.
  split_and!; [done|by apply eq_None_not_Some|done|by apply not_eq_None_Some..].
Qed.

(** Every error of a submission is one of its own codes. *)
Definition submit_error (e : error) : Prop :=
  e ∈ map ErrMsg ["permission_denied"; "idempotency_conflict"; "header_not_allowed"; "invalid_target";
                  "pending_limit"; "storage_unavailable"].

Ltac code := unfold submit_error; cbn [map]; rewrite !elem_of_cons; auto 10.

Lemma wp_admit_request w0 device p d t (Q : result (status * Z) → world → Prop) w :
  at_world w0 d (Some t) w →
  (∀ state expiry w', admitted t device (w_clock w) (w_clock w') p state expiry → at_world w0 d (Some t) w' →
     (w_clock w <= w_clock w')%Z → Q (Ok (state, expiry)) w') →
  (∀ e w', submit_error e → (w_faults w0 = [] → e = ErrMsg "pending_limit" ∧ perm_Mode p = "approval_required"
       ∧ ∃ now, (Unix (w_clock w) <= now)%Z ∧ (20 <= pending_count device now t)%Z) →
     at_world w0 d (Some t) w' → Q (Err e) w') →
  wp (admit_request device p) Q w.
Proof.
  intros Hw HQ HE. unfold admit_request. wp_rule. eapply wp_time_Now; [done|]. intros w1 Hw1 Hc1. cbv beta iota.
  wp_case; [apply bool_decide_eq_true in Eb|apply bool_decide_eq_false in Eb].
  - wp_rule. eapply wp_time_Now; [done|]. intros w2 Hw2 Hc2. cbv beta iota.
    wp_rule. eapply wp_now_Unix; [done|]. intros w3 Hw3 Hc3. cbv beta iota.
    wp_rule. wp_rule. wp_rule.
    + injection H1 as <-. wp_case.
      * wp_rule. eapply HE; [code| |done]. intros _. split_and!; [done..|].
        exists (Unix (w_clock w3)). split; [apply Unix_mono; lia|by apply Z.leb_le].
      * wp_rule. apply HQ; [|done|lia]. apply Z.leb_gt in Eb0.
        eapply admit_pending; [done|lia| |done]. split; apply Unix_mono; lia.
    + eapply HE; [code| |done]. intros Hq. by no_io Hq.
  - wp_rule. apply HQ; [|done|lia]. apply admit_standing; [done|lia].
Qed.

(** No request of the device has the submission's key. *)
Definition key_free (d : database) (device : string) (i : Submission) : Prop :=
  ∀ j r, db_requests d !! j = Some r → ¬ (req_device r = device ∧ req_key_hash r = Hash (sub_IdempotencyKey i)).

(** The reasons for which a submission is refused when nothing fails. *)
Inductive refused (d : database) (device : string) (i : Submission) (t0 : Z) : error → Prop :=
| ref_device : device_active d device = false → refused d device i t0 (ErrMsg "permission_denied")
| ref_conflict id r : db_requests d !! id = Some r → req_device r = device →
    req_key_hash r = Hash (sub_IdempotencyKey i) → req_submission_digest r ≠ SubmissionDigest i →
    refused d device i t0 (ErrMsg "idempotency_conflict")
| ref_permission now : key_free d device i → (Unix t0 <= now)%Z →
    (∀ s p, ¬ authorized d device (sub_Service i) (sub_Method i) (sub_Path i) now s p) →
    refused d device i t0 (ErrMsg "permission_denied")
| ref_header s p now : key_free d device i → authorized d device (sub_Service i) (sub_Method i) (sub_Path i) now s p →
    (∀ h, ApplicationHeaders i s ≠ Ok h) → refused d device i t0 (ErrMsg "header_not_allowed")
| ref_target s p now e : key_free d device i → authorized d device (sub_Service i) (sub_Method i) (sub_Path i) now s p →
    Target (svc_BaseURL s) (sub_Path i) (sub_Query i) = Err e → refused d device i t0 (ErrMsg "invalid_target")
| ref_limit s p n now : key_free d device i → authorized d device (sub_Service i) (sub_Method i) (sub_Path i) n s p →
    perm_Mode p = "approval_required" → (Unix t0 <= now)%Z → (20 <= pending_count device now d)%Z →
    refused d device i t0 (ErrMsg "pending_limit")
| ref_id id : key_free d device i → is_Some (db_requests d !! id) → refused d device i t0 (ErrMsg "storage_unavailable").

Lemma application_go_error visits s h e : application_go visits s h = Err e → e = ErrMsg "header_not_allowed".
Proof.
  revert h. induction visits as [|[n v] visits IH]; intros h; simpl; [done|].
  destruct (_ || _); [congruence|apply IH].
Qed.

(** The insertion of a new row fails only on an ID that is taken. *)
Lemma insert_request_Err id r d e :
  insert_request id r d = Err e → key_taken d (req_device r) (req_key_hash r) = false →
  is_Some (db_devices d !! req_device r) → is_Some (db_services d !! req_service r) →
  is_Some (db_permissions d !! req_permission r) → is_Some (db_requests d !! id).
Proof.
  unfold insert_request. intros Hi Hk [x Hx] [y Hy] [z Hz]. rewrite Hk, Hx, Hy, Hz in Hi.
  rewrite !(bool_decide_eq_false_2 (Some _ = None)) in Hi by done.
  rewrite !orb_false_r in Hi. by destruct (bool_decide_reflect (is_Some (db_requests d !! id))).
Qed.

Lemma key_taken_false d device k :
  (∀ j r, db_requests d !! j = Some r → ¬ (req_device r = device ∧ req_key_hash r = k)) → key_taken d device k = false.
Proof.
  intros Hn. apply not_true_iff_false. unfold key_taken. rewrite existsb_exists.
  intros ([j r] & Hin & [E1 E2]%andb_true_iff). apply bool_decide_eq_true in E1, E2.
  apply list_elem_of_In, elem_of_map_to_list in Hin. by apply (Hn j r).
Qed.

Lemma device_active_Some d id : device_active d id = true → is_Some (db_devices d !! id).
Proof. unfold device_active. destruct (db_devices d !! id); [eauto|done]. Qed.

Lemma service_of_ID id r s : service_of id r = Ok s → svc_ID s = id ∧ svc_Revision s = srv_revision r
  ∧ svc_Credential s = srv_credential r ∧ svc_BaseURL s = srv_base_url r.
Proof.
  unfold service_of. destruct (unmarshal_strings (srv_request_headers r)), (unmarshal_strings (srv_response_headers r)); try done. by intros [= <-].
Qed.

(** What an authorisation gives of the rows. *)
Lemma authorized_rows d device service method path now s p :
  authorized d device service method path now s p →
  svc_ID s = service ∧ is_Some (db_services d !! service) ∧ is_Some (db_permissions d !! perm_ID p).
Proof.
  intros [_ (r & Hr & Hs) (q & Hq & _) _]. apply service_of_ID in Hs as (? & _).
  split_and!; eauto. unfold enabled_service in Hr. destruct (db_services d !! service); [eauto|done].
Qed.

(** The second half of the transaction: a new request, once it is authorised. *)
Definition submit_new (device : string) (i : Submission) (svc : Service) (p : Permission) : M world string :=
  headers ← lift (ApplicationHeaders i svc);
  target ← lift (or_error (Target (svc_BaseURL svc) (sub_Path i) (sub_Query i)) "invalid_target");
  '(state, expiry) ← admit_request device p;
  let snap := request_snapshot device i svc p headers target expiry in
  id ← new_ID "req_";
  sealed ← Encrypt ("request:" +:+ id) (marshal_snapshot snap);
  created ← gets (λ w, Unix (w_clock w));
  or_fail (exec Tx (insert_request id (request_row_of device i snap sealed state created))) "storage_unavailable";;
  or_fail (Audit Tx EmptyString device ("request_" +:+ status_string state) id) "storage_unavailable";;
  or_fail commit "storage_unavailable";;
  mret id.

Lemma wp_submit_new w0 device i s p now d (Q : result string → world → Prop) w :
  at_world w0 d (Some d) w → device_active d device = true →
  authorized d device (sub_Service i) (sub_Method i) (sub_Path i) now s p → (Unix (w_clock w0) <= now <= Unix (w_clock w))%Z →
  (∀ j r, db_requests d !! j = Some r → ¬ (req_device r = device ∧ req_key_hash r = Hash (sub_IdempotencyKey i))) →
  (∀ id d' w', created (w_key w0) d device i (w_clock w0) (w_clock w') id d' → at_world w0 d' None w' → Q (Ok id) w') →
  (∀ e t w', submit_error e → (w_faults w0 = [] → refused d device i (w_clock w0) e) →
     at_world w0 d t w' → Q (Err e) w') →
  wp (submit_new device i s p) Q w.
Proof.
  intros Hw Hact Ha Hnow Hfree HC HE. unfold submit_new.
  destruct (ApplicationHeaders i s) as [headers|e] eqn:Eh; wp_rule; wp_rule; last first.
  { pose proof (application_go_error _ _ _ _ Eh) as ->. eapply HE; [code| |done]. intros _.
    eapply ref_header; [done..|]. intros h. by rewrite Eh. }
  destruct (Target _ _ _) as [target|e] eqn:Et; wp_rule; wp_rule; last first.
  { eapply HE; [code| |done]. intros _. by eapply ref_target. }
  wp_rule. eapply wp_admit_request; [done| |]; last first.
  { intros e w1 He Hl Hw1. eapply HE; [done| |done]. intros Hq. destruct (Hl Hq) as (-> & Hm & n & Hn & Hc).
    eapply ref_limit; [done..| |done]. pose proof (Unix_mono _ _ (at_clock _ _ _ _ Hw)). lia. }
  intros state expiry w1 Hadm Hw1 Hc1. cbv beta iota.
  set (snap := request_snapshot device i s p headers target expiry). cbv zeta.
  wp_rule. eapply wp_new_ID; [done|]. intros rnd w2 Hrnd Hw2 Hc2. cbv beta iota.
  wp_rule. eapply wp_Encrypt; [done|]. intros nonce w3 Hnonce Hw3 Hc3. cbv beta iota.
  wp_rule. wp_rule. set (id := ID "req_" rnd).
  wp_rule. wp_rule. eapply wp_exec; [done| |]; cbn [or_error]; cbv beta iota; last first.
  { intros e w4 He Hw4. eapply HE; [code| |done]. intros Hq. no_io Hq. apply (ref_id _ _ _ _ id); [done|].
    destruct (authorized_rows _ _ _ _ _ _ _ _ Ha) as (Hid & Hsv & Hpm).
    eapply insert_request_Err; [done|by apply key_taken_false|by apply device_active_Some| |done].
    simpl. by rewrite Hid. }
  intros d' n w4 (-> & Hfresh & _ & _ & _)%insert_request_Ok Hw4 Hc4.
  wp_rule. wp_rule. eapply wp_Audit; [done| |]; cbn [or_error]; cbv beta iota; last first.
  { intros e w5 He Hw5. eapply HE; [code| |done]. intros Hq. no_io Hq. }
  intros w5 Hw5 Hc5. wp_rule. wp_rule. eapply wp_commit; [done| |]; cbn [or_error]; cbv beta iota; last first.
  { intros e w6 He Hw6. eapply HE; [code| |done]. intros Hq. no_io Hq. }
  intros w6 Hw6 Hc6. wp_rule. eapply HC; [|done]. split; try done.
  exists s, p, headers, target, state, expiry, now, (Unix (w_clock w3)), nonce. cbv zeta.
  split_and!; try done.
  - lia.
  - etransitivity; [apply Hnow|]. apply Unix_mono. lia.
  - eapply admitted_widen; [done|apply (at_clock _ _ _ _ Hw)|lia].
Qed.

Lemma wp_submit_tx w0 device i d (Q : result string → world → Prop) w :
  at_world w0 d (Some d) w →
  (∀ id w', replayed d device i id → at_world w0 d None w' → Q (Ok id) w') →
  (∀ id d' w', created (w_key w0) d device i (w_clock w0) (w_clock w') id d' → at_world w0 d' None w' → Q (Ok id) w') →
  (∀ e w', submit_error e → (w_faults w0 = [] → refused d device i (w_clock w0) e) →
     at_world w0 d None w' → Q (Err e) w') →
  wp (submit_tx device i) (λ r w', Q r (rollback w')) w.
Proof.
  intros Hw HR HC HE.
  assert (∀ e t w', submit_error e → (w_faults w0 = [] → refused d device i (w_clock w0) e) →
    at_world w0 d t w' → Q (Err e) (rollback w')) as HEr by (intros; eapply HE, at_rollback; done).
  unfold submit_tx. wp_rule. eapply wp_ActiveDevice; [done|]. intros b w1 Hb Hb' Hw1 Hc1.
  destruct b; cbn [negb]; cbv iota; last first.
  { wp_rule. eapply HEr; [code| |done]. intros Hq. apply ref_device. by rewrite <-Hb'. }
  specialize (Hb eq_refl). wp_rule. wp_rule. wp_rule.
  - (* the key is known *)
    rename w' into w2. destruct a as [id g].
    destruct (digest_row device (Hash (sub_IdempotencyKey i)) d) as [x|] eqn:Eg; [|done].
    injection H1 as ->. destruct (digest_row_Some _ _ _ _ _ Eg) as (r & Hr & E1 & E2 & E3).
    wp_case; [apply bool_decide_eq_true in Eb|apply bool_decide_eq_false in Eb].
    + wp_rule. eapply HEr; [code| |done]. intros _. eapply ref_conflict; eauto. congruence.
    + wp_rule. apply HR; [|by eapply at_rollback]. split; [done|]. exists r. split_and!; try done.
      destruct (decide (SubmissionDigest i = g)); [congruence|done].
  - (* the lookup failed, or the key is new *)
    rename w' into w2, e into e2. destruct (decide (e2 = ErrNoRows)) as [-> |Hne]; last first.
    { assert (∀ Q', Q' (Err (ErrMsg "storage_unavailable")) w2 →
        wp (fail (A := string) (ErrMsg "storage_unavailable")) Q' w2) as Hfail by (intros; by apply wp_fail).
      assert (Q (Err (ErrMsg "storage_unavailable")) (rollback w2)) as HQe.
      { eapply HEr; [code| |done]. intros Hq. no_io Hq.
        unfold row, row_or in H1. destruct (digest_row _ _ d); simplify_eq. }
      destruct e2; try done; by apply wp_fail. }
    assert (∀ j r, db_requests d !! j = Some r → ¬ (req_device r = device ∧ req_key_hash r = Hash (sub_IdempotencyKey i))) as Hfree.
    { destruct H1 as [H1|[? _]]; [|done]. apply digest_row_None.
      unfold row, row_or in H1. by destruct (digest_row _ _ d). }
    wp_rule. wp_rule. eapply wp_authorize_in; [apply row_order_default|done|..].
    2: { intros e w3 Hn Hw3. eapply HEr; [code| |done]. intros Hq. destruct (Hn Hq) as (now & Hle & Hno).
         eapply ref_permission; [done| |done]. pose proof (Unix_mono _ _ (at_clock _ _ _ _ H2)). lia. }
    intros s p w3 Ha Hw3 Hc3. cbv beta iota.
    pose proof (Unix_mono _ _ (at_clock _ _ _ _ Hw3)) as Hnow.
    assert (Unix (w_clock w0) <= Unix (w_clock w3) <= Unix (w_clock w3))%Z as Hnow' by lia.
    change (wp (submit_new device i s p) (λ r w', Q r (rollback w')) w3).
    eapply wp_submit_new; [done..| |done]. intros id d' w4 Hcr Hw4. eapply HC; [done|by eapply at_rollback].
Qed.

Lemma wp_Submit w0 device i d (Q : result string → world → Prop) w :
  at_world w0 d None w →
  (∀ i' id w', Normalize i = Ok i' → replayed d device i' id → at_world w0 d None w' → Q (Ok id) w') →
  (∀ i' id d' w', Normalize i = Ok i' → created (w_key w0) d device i' (w_clock w0) (w_clock w') id d' →
     at_world w0 d' None w' → Q (Ok id) w') →
  (∀ e w', Normalize i = Err e ∨ submit_error e ∧
       (w_faults w0 = [] → ∃ i', Normalize i = Ok i' ∧ refused d device i' (w_clock w0) e) →
     at_world w0 d None w' → Q (Err e) w') →
  wp (Submit device i) Q w.
Proof.
  intros Hw HR HC HE. unfold Submit. wp_rule. wp_rule. destruct (Normalize i) as [i'|e] eqn:Ei; [|by apply HE; auto].
  eapply wp_with_tx_or; [done| |].
  - intros w1 Hw1 _. eapply wp_submit_tx; [done|..]; eauto.
    intros e w2 He Hr Hw2. eapply HE; [|done]. right. split; [done|]. eauto.
  - intros w1 Hne Hw1. apply HE; [|done]. right. split; [code|done].
Qed.

(** A new request evolves the database. *)
Lemma created_evolves key d device i t0 t1 id d' : created key d device i t0 t1 id d' → evolves d d'.
Proof.
  intros [Hact (s & p & headers & target & state & expiry & now & cr & nonce & Hc) Hfresh Hkey].
  cbv zeta in Hc. destruct Hc as ([_ (sr & Hsr & Hso) (q & Hq & Hpa & Hp) _] & _ & _ & _ & _ & Hadm & ->).
  etransitivity; [|apply (evolves_audit (set_db_requests _ d))].
  apply evolves_submit; simpl; [done|by apply device_active_Some| |by apply key_taken_false].
  exists q. unfold permission_active in Hpa.
  apply andb_true_iff in Hpa as [[[[E1 E2]%andb_true_iff E3]%andb_true_iff _]%andb_true_iff _].
  apply bool_decide_eq_true in E1, E2. apply Z.eqb_eq in E3.
  destruct (service_of_ID _ _ _ Hso) as (Eid & _). split_and!; [done|done|congruence|done|].
  assert (perm_Mode p = pm_mode q) as Hmode by by rewrite Hp. rewrite <-Hmode.
  destruct Hadm; [rewrite bool_decide_eq_false_2 by done|rewrite bool_decide_eq_true_2 by done]; done.
Qed.

(** ** The pending limit *)

Lemma pending_later device now now' d : (now <= now')%Z → (pending_count device now' d <= pending_count device now d)%Z.
Proof.
  intros Hn. unfold pending_count, select_requests. rewrite !length_map. apply inj_le.
  generalize (map_to_list (db_requests d)). intros l. induction l as [|[k r] l IH]; [done|].
  rewrite !filter_cons. simpl.
  destruct (decide (bool_decide (req_device r = device) && bool_decide (req_status r = pending_approval)
    && (now' <? req_expires r)%Z = true)) as [E|E]; simpl.
  - rewrite decide_True; simpl; [lia|]. apply andb_true_iff in E as [-> E]. apply Z.ltb_lt in E.
    simpl. apply Z.ltb_lt. lia.
  - destruct (decide _); simpl; lia.
Qed.

Lemma pending_insert device now d id r :
  db_requests d !! id = None →
  pending_count device now (set_db_requests (<[id := r]> (db_requests d)) d) =
  (pending_count device now d + if bool_decide (req_device r = device) && bool_decide (req_status r = pending_approval)
    && (now <? req_expires r)%Z then 1 else 0)%Z.
Proof.
  intros Hn. unfold pending_count, select_requests. rewrite !length_map. simpl.
  rewrite (map_to_list_insert _ _ _ Hn), filter_cons. simpl.
  destruct (bool_decide _ && bool_decide _ && _) eqn:E; simpl; lia.
Qed.

Lemma pending_ext device now d d' : db_requests d' = db_requests d → pending_count device now d' = pending_count device now d.
Proof. unfold pending_count, select_requests. by intros ->. Qed.

(** At most twenty requests of a device are pending and not expired. *)
Definition pending_bounded (d : database) (now : Z) : Prop := ∀ device, (pending_count device now d <= 20)%Z.

Lemma created_bounded key d device i t0 t1 id d' : created key d device i t0 t1 id d' → (t0 <= t1)%Z →
  pending_bounded d (Unix t0) → pending_bounded d' (Unix t1).
Proof.
  intros [_ (s & p & headers & target & state & expiry & now & cr & nonce & Hc) Hfresh _] Ht Hb dev.
  cbv zeta in Hc. destruct Hc as (_ & _ & _ & _ & _ & Hadm & ->).
  pose proof (Unix_mono _ _ Ht) as Hu.
  rewrite (pending_ext _ _ (set_db_requests (<[id := _]> (db_requests d)) d)) by done.
  rewrite (pending_insert _ _ _ _ _ Hfresh). simpl.
  pose proof (pending_later dev _ _ d Hu). specialize (Hb dev).
  destruct Hadm as [t Hm Htt|t n Hm Htt Hn Hcount].
  - rewrite (bool_decide_eq_false_2 (queued = pending_approval)) by done. rewrite andb_false_r. simpl. lia.
  - destruct (decide (device = dev)) as [-> |Hne]; last first.
    { rewrite (bool_decide_eq_false_2 (device = dev)) by done. simpl. lia. }
    pose proof (pending_later dev _ _ d (proj2 Hn)).
    destruct (_ && _); lia.
Qed.

(** * Status *)

(** Who may see a request: the owner (no device), or the active device it is of. *)
Definition visible (d : database) (device id : string) : bool :=
  match db_requests d !! id with
  | None => false
  | Some r => bool_decide (device = EmptyString) || (device_active d device && bool_decide (req_device r = device))
  end.

(** The stored result of a row, opened and decoded. *)
Definition stored_result (key id : string) (r : request_row) : result (option Result) :=
  match req_result r with
  | None => Ok None
  | Some b =>
    if bool_decide (b = EmptyString) then Ok None else
    match Unseal key ("result:" +:+ id) b with
    | None => Err (ErrMsg "result_unavailable")
    | Some p => match unmarshal_result p with
                | Some v => Ok (Some v)
                | None => Err (ErrMsg "json")
                end
    end
  end.

Definition status_view (id : string) (r : request_row) (res : option Result) : Status :=
  let '(action, poll) :=
    if negb (terminal (req_status r)) then (poll_action, 3000%Z)
    else if bool_decide (req_status r = outcome_unknown) then (unknown_action, 0%Z) else (EmptyString, 0%Z) in
  mkStatus id (req_status r) (req_expires r) (req_snapshot_digest r) (req_reason r) action poll res
    (bool_decide (default EmptyString (req_snapshot r) = EmptyString)).

(** The answer when nothing fails. *)
Definition status_answer (key : string) (d : database) (device id : string) : result Status :=
  if visible d device id then
    match db_requests d !! id with
    | Some r => res ← stored_result key id r; Ok (status_view id r res)
    | None => Err (ErrMsg "request_not_found")
    end
  else Err (ErrMsg "request_not_found").

Lemma wp_RequestStatus w0 device id d (Q : result Status → world → Prop) w :
  at_world w0 d None w →
  (∀ r w', at_world w0 d None w' →
     (w_faults w0 = [] → r = status_answer (w_key w0) d device id) →
     (∀ st, r = Ok st → status_answer (w_key w0) d device id = Ok st) → Q r w') →
  wp (RequestStatus device id) Q w.
Proof.
  intros Hw HQ.
  assert (∀ e t w', (w_faults w0 = [] → status_answer (w_key w0) d device id = Err e) →
    at_world w0 d t w' → Q (Err e) (rollback w')) as HE.
  { intros e t w' He Hw'. apply HQ; [by eapply at_rollback| |done]. intros Hq. symmetry. auto. }
  unfold RequestStatus. eapply wp_with_tx; [done| |].
  2: { intros e w' He Hw'. apply HQ; [done| |done]. intros Hq. no_io Hq. }
  intros w1 Hw1 _. wp_rule.
  assert (wp (if bool_decide (device ≠ "") then ActiveDevice Tx device else mret true)
    (λ r w', match r with
      | Ok b => at_world w0 d (Some d) w' ∧ (b = true → device = EmptyString ∨ device_active d device = true)
                ∧ (w_faults w0 = [] → b = bool_decide (device = EmptyString) || device_active d device)
      | Err _ => False end) w1) as Hact.
  { destruct (decide (device = EmptyString)) as [E|E].
    - rewrite bool_decide_eq_false_2 by tauto. wp_rule. rewrite bool_decide_eq_true_2 by done. auto.
    - rewrite bool_decide_eq_true_2 by done. eapply wp_ActiveDevice; [done|]. intros b w' Hb Hb' Hw' _.
      rewrite bool_decide_eq_false_2 by done. auto. }
  eapply wp_mono; [exact Hact|]. intros [b|] w2; [|done]. intros (Hw2 & Hb & Hb').
  destruct b; cbn [negb]; cbv iota; last first.
  { wp_rule. eapply HE; [|done]. intros Hq. specialize (Hb' Hq). unfold status_answer, visible.
    symmetry in Hb'. apply orb_false_iff in Hb' as [E1 E2]. rewrite E1, E2. by destruct (db_requests d !! id). }
  wp_rule. wp_rule. wp_rule; last first.
  { eapply HE; [|done]. intros Hq. no_io Hq. unfold status_answer, visible, row, row_or in *.
    by destruct (db_requests d !! id). }
  unfold row, row_or in H1. destruct (db_requests d !! id) as [r|] eqn:Hr; [|done]. injection H1 as <-.
  rename w' into w3, H2 into Hw3. wp_case.
  { wp_rule. eapply HE; [|done]. intros _. apply andb_true_iff in Eb as [E1 E2].
    apply bool_decide_eq_true in E1, E2. unfold status_answer, visible. rewrite Hr.
    rewrite (bool_decide_eq_false_2 (device = _)), (bool_decide_eq_false_2 (req_device r = _)) by done.
    by rewrite andb_false_r. }
  assert (visible d device id = true) as Hvis.
  { unfold visible. rewrite Hr. destruct (decide (device = EmptyString)) as [E|E]; [by rewrite bool_decide_eq_true_2|].
    rewrite (bool_decide_eq_true_2 (device ≠ "")) in Eb by done. simpl in Eb.
    apply bool_decide_eq_false, dec_stable in Eb. destruct Hb as [|Hb]; [done..|].
    rewrite Hb, (bool_decide_eq_true_2 (req_device r = device)) by done. by rewrite orb_true_r. }
  wp_rule.
  assert (status_answer (w_key w0) d device id =
    (res ← stored_result (w_key w0) id r; Ok (status_view id r res))) as Hans.
  { unfold status_answer. by rewrite Hvis, Hr. }
  assert (∀ res w', stored_result (w_key w0) id r = Ok res → at_world w0 d (Some d) w' →
    wp (let '(action, poll) :=
      match req_status r with
      | pending_approval | queued | dispatching => (poll_action, 3000%Z)
      | outcome_unknown => (unknown_action, 0%Z)
      | _ => (EmptyString, 0%Z)
      end in
      mret (mkStatus id (req_status r) (req_expires r) (req_snapshot_digest r) (req_reason r) action poll res
      (bool_decide (default EmptyString (req_snapshot r) = EmptyString)))) (λ r w', Q r (rollback w')) w') as Hend.
  { intros res w' Hs Hw'. assert (status_answer (w_key w0) d device id = Ok (status_view id r res)) as Hok by by rewrite Hans, Hs.
    assert (Q (Ok (status_view id r res)) (rollback w')) as HQok.
    { apply HQ; [by eapply at_rollback|done|]. intros st [= <-]. done. }
    unfold status_view in HQok. by destruct (req_status r). }
  unfold stored_result in Hans, Hend. destruct (req_result r) as [b|].
  2: { wp_rule. by apply Hend. }
  wp_case; [wp_rule; by apply Hend|]. cbv beta iota in Hans, Hend.
  wp_rule. wp_rule. wp_rule; rewrite H1 in Hans, Hend; [|by eapply HE].
  wp_case; wp_rule; [by apply Hend|by eapply HE].
Qed.

(** * Properties *)

(** C4: A submission either repeats one that is stored under its key, changing
    nothing, or commits one new request that rests on an authorisation of this
    moment and is frozen in a sealed snapshot, or fails with the database as it
    was; when no statement fails, the error names the reason. *)
Theorem Submit_correct device i w (Htx : w_tx w = None) :
  wp (Submit device i) (λ r w', w_tx w' = None ∧
    match r with
    | Ok id => ∃ i', Normalize i = Ok i' ∧
        (replayed (w_db w) device i' id ∧ w_db w' = w_db w ∨
         created (w_key w) (w_db w) device i' (w_clock w) (w_clock w') id (w_db w'))
    | Err e => w_db w' = w_db w ∧
        (Normalize i = Err e ∨ submit_error e ∧
         (w_faults w = [] → ∃ i', Normalize i = Ok i' ∧ refused (w_db w) device i' (w_clock w) e))
    end) w.
Proof.
  eapply (wp_Submit w); [by apply at_start|..].
  - intros i' id w' Hi Hr [? ? ? ? ? ?]. eauto 10.
  - intros i' id d' w' Hi Hc [<- ? ? ? ? ?]. eauto 10.
  - intros e w' He [? ? ? ? ? ?]. auto.
Qed.

(** What a repetition is answered: the request, or a conflict. *)
Definition repeated (i j : Submission) (id : string) : result string :=
  if decide (SubmissionDigest j = SubmissionDigest i) then Ok id else Err (ErrMsg "idempotency_conflict").

(** C27: Submitting is idempotent however much later it is repeated: once a request
    is stored, and as long as the device is active, any submission of that device
    under the same key gives the same request if its digest is the same, and is a
    conflict otherwise; neither changes anything, whatever has become of the
    request, its permission or its service. *)
Theorem Submit_idempotent device i i' j j' id w v
    (Hwf : wf (w_db w)) (Htx : w_tx w = None) (Hok : (Submit device i w).1 = Ok id) (Hi : Normalize i = Ok i')
    (Hev : evolves (w_db (Submit device i w).2) (w_db v)) (Hvtx : w_tx v = None) (Hq : w_faults v = [])
    (Hact : device_active (w_db v) device = true)
    (Hj : Normalize j = Ok j') (Hkey : sub_IdempotencyKey j' = sub_IdempotencyKey i') :
  wp (Submit device j) (λ r v', w_db v' = w_db v ∧ r = repeated i' j' id) v.
Proof.
  assert (wp (Submit device i) (λ r w', match r with
    | Ok id => wf (w_db w') ∧ ∃ q, db_requests (w_db w') !! id = Some q ∧ req_device q = device
        ∧ req_key_hash q = Hash (sub_IdempotencyKey i') ∧ req_submission_digest q = SubmissionDigest i'
    | Err _ => True end) w) as H1.
  { eapply (wp_Submit w); [by apply at_start| | |done].
    - intros k id' w' Hk [_ (q & Hr)] [-> ? ? ? ? ?]. assert (k = i') as -> by congruence. eauto.
    - intros k id' d' w' Hk Hc [-> ? ? ? ? ?]. assert (k = i') as -> by congruence.
      split; [by apply (created_evolves _ _ _ _ _ _ _ _ Hc)|].
      destruct (cr_content _ _ _ _ _ _ _ _ Hc) as (s & p & h & t & st & ex & n & cr & nc & E). cbv zeta in E.
      destruct E as (_ & _ & _ & _ & _ & _ & ->). eexists. simpl. rewrite lookup_insert_eq. done. }
  unfold wp in H1. rewrite Hok in H1. destruct H1 as (Hwf1 & q & Hq1 & E1 & E2 & E3).
  destruct (Hev Hwf1) as [Hwf2 Hg]. destruct (g_requests _ _ Hg id q Hq1) as (r & Hr & Hs).
  destruct Hs as [S1 _ _ _ S5 [S6 _] _ _ _].
  eapply (wp_Submit v); [by apply at_start|..].
  - intros k id' v' Hk [_ (x & Hx & X1 & X2 & X3)] [? ? ? ? ? ?]. assert (k = j') as -> by congruence.
    assert (id' = id) as -> by (eapply (wf_key _ Hwf2 id' id x r); congruence).
    split; [done|]. unfold repeated. rewrite decide_True; [done|]. congruence.
  - intros k id' d' v' Hk Hc _. assert (k = j') as -> by congruence.
    exfalso. apply (cr_key _ _ _ _ _ _ _ _ Hc id r Hr). split; congruence.
  - intros e v' He [? ? ? ? ? ?]. split; [done|]. destruct He as [He|[_ He]]; [congruence|].
    destruct (He Hq) as (k & Hk & Href). assert (k = j') as -> by congruence.
    assert (∀ (P : Prop), key_free (w_db v) device j' → P) as Hfree.
    { intros P Hf. exfalso. apply (Hf id r Hr). split; congruence. }
    destruct Href as [Hd|id' x Hx X1 X2 X3|now Hf|s p now Hf|s p now e Hf|s p n now Hf|id' Hf];
      try by apply Hfree.
    + congruence.
    + assert (id' = id) as -> by (eapply (wf_key _ Hwf2 id' id x r); congruence).
      unfold repeated. rewrite decide_False; [done|]. congruence.
Qed.

(** A device never has more than twenty pending requests that have not
    expired: a submission keeps that bound, at whatever later time it is read. *)
Theorem Submit_pending_limit device i w (Htx : w_tx w = None) (Hb : pending_bounded (w_db w) (Unix (w_clock w))) :
  wp (Submit device i) (λ _ w', ∀ now, (Unix (w_clock w') <= now)%Z → pending_bounded (w_db w') now) w.
Proof.
  assert (∀ w' d, (Unix (w_clock w') <= d)%Z → (w_clock w <= w_clock w')%Z →
    pending_bounded (w_db w) d) as Hold.
  { intros w' now Hn Hc dev. pose proof (Unix_mono _ _ Hc).
    etransitivity; [apply (pending_later dev (Unix (w_clock w))); lia|done]. }
  eapply (wp_Submit w); [by apply at_start|..].
  - intros k id w' _ _ [-> ? ? ? ? ?] now Hn. eauto.
  - intros k id d' w' _ Hc [-> ? ? ? ? ?] now Hn dev.
    etransitivity; [apply (pending_later dev _ _ _ Hn)|]. by apply (created_bounded _ _ _ _ _ _ _ _ Hc).
  - intros e w' _ [-> ? ? ? ? ?] now Hn. eauto.
Qed.

(** Reading a status changes nothing and answers with the row, its opened
    result and the next action; a device sees its own requests only while it is
    active, and another device's request looks exactly like one that does not
    exist. *)
Theorem RequestStatus_correct device id w (Htx : w_tx w = None) (Hq : w_faults w = []) :
  wp (RequestStatus device id) (λ r w', w_db w' = w_db w ∧ w_tx w' = None ∧
    r = status_answer (w_key w) (w_db w) device id ∧
    (visible (w_db w) device id = false → r = Err (ErrMsg "request_not_found"))) w.
Proof.
  eapply (wp_RequestStatus w); [by apply at_start|]. intros r w' [? ? ? ? ? ?] Hr _.
  specialize (Hr Hq). subst r. split_and!; [done..|]. intros Hv. unfold status_answer. by rewrite Hv.
Qed.

End submit.

(** * Witnesses *)

#[local] Existing Instances plain_crypto plain_json.

Definition submitted_world : world := (Submit "dev_1" sample_post sample_world).2.
Definition submitted_id : string := ID "req_" (zeros 18).

Lemma Submit_correct_witness :
  w_tx sample_world = None ∧ (Submit "dev_1" sample_post sample_world).1 = Ok submitted_id ∧
  wp (Submit "dev_1" sample_post) (λ r w', w_tx w' = None ∧
    match r with
    | Ok id => ∃ i', Normalize sample_post = Ok i' ∧
        (replayed (w_db sample_world) "dev_1" i' id ∧ w_db w' = w_db sample_world ∨
         created (w_key sample_world) (w_db sample_world) "dev_1" i' (w_clock sample_world) (w_clock w') id (w_db w'))
    | Err e => w_db w' = w_db sample_world ∧
        (Normalize sample_post = Err e ∨ submit_error e ∧
         (w_faults sample_world = [] →
          ∃ i', Normalize sample_post = Ok i' ∧ refused (w_db sample_world) "dev_1" i' (w_clock sample_world) e))
    end) sample_world.
Proof.
  split; [reflexivity|]. split; [vm_compute; reflexivity|].
  apply (Submit_correct "dev_1" sample_post sample_world). reflexivity.
Defined.

Lemma Submit_idempotent_witness :
  (Submit "dev_1" sample_post sample_world).1 = Ok submitted_id ∧
  device_active (w_db submitted_world) "dev_1" = true ∧
  wp (Submit "dev_1" sample_post) (λ r v', w_db v' = w_db submitted_world ∧
    r = repeated sample_post sample_post submitted_id) submitted_world.
Proof.
  split; [vm_compute; reflexivity|]. split; [vm_compute; reflexivity|].
  apply (Submit_idempotent "dev_1" sample_post sample_post sample_post sample_post submitted_id sample_world submitted_world).
  - exact sample_wf.
  - reflexivity.
  - vm_compute. reflexivity.
  - vm_compute. reflexivity.
  - unfold submitted_world. reflexivity.
  - vm_compute. reflexivity.
  - vm_compute. reflexivity.
  - vm_compute. reflexivity.
  - vm_compute. reflexivity.
  - reflexivity.
Defined.

Lemma Submit_pending_limit_witness :
  w_tx sample_world = None ∧ pending_bounded (w_db sample_world) (Unix (w_clock sample_world)) ∧
  (∃ device, pending_count device 1000 (w_db submitted_world) = 1%Z) ∧
  wp (Submit "dev_1" sample_post) (λ _ w', ∀ now, (Unix (w_clock w') <= now)%Z → pending_bounded (w_db w') now) sample_world.
Proof.
  assert (pending_bounded (w_db sample_world) (Unix (w_clock sample_world))) as Hb.
  { intros dev. unfold pending_count, select_requests. simpl. vm_compute. congruence. }
  split; [reflexivity|]. split; [exact Hb|]. split; [exists "dev_1"; vm_compute; reflexivity|].
  apply (Submit_pending_limit "dev_1" sample_post sample_world); [reflexivity|exact Hb].
Defined.

Lemma RequestStatus_correct_witness :
  w_tx submitted_world = None ∧ w_faults submitted_world = [] ∧
  visible (w_db submitted_world) "dev_1" submitted_id = true ∧
  visible (w_db submitted_world) "dev_2" submitted_id = false ∧
  wp (RequestStatus "dev_2" submitted_id) (λ r w', w_db w' = w_db submitted_world ∧ w_tx w' = None ∧
    r = status_answer (w_key submitted_world) (w_db submitted_world) "dev_2" submitted_id ∧
    (visible (w_db submitted_world) "dev_2" submitted_id = false → r = Err (ErrMsg "request_not_found"))) submitted_world.
Proof.
  split; [vm_compute; reflexivity|]. split; [vm_compute; reflexivity|].
  split; [vm_compute; reflexivity|]. split; [vm_compute; reflexivity|].
  apply (RequestStatus_correct "dev_2" submitted_id submitted_world); vm_compute; reflexivity.
Defined.
