(* ===== verification/Reviewing.v ===== *)
(** Review: the stored snapshot and its validity, and the owner's decision.

    [intact] says that a row still holds the snapshot it was made with, [valid]
    that the authorisation it rests on is still the one in force; both are what
    the two checks of the program establish, before a decision and before a
    dispatch. *)
From S2P Require Import Prelude GoStrings NetUrl Http Access Crypto Types Db Rules Samples Authorize.
From S2P Require Import Lifecycle Life Closing Submitting.

Section review.
Context `{GoCrypto} `{GoJSON}.

(** The sealed snapshot of request [id] opens to [s], has the stored digest, and
    agrees with the row. *)
Record intact (key : string) (d : database) (id : string) (r : request_row) (s : Snapshot) : Prop := {
  in_row : db_requests d !! id = Some r;
  in_bytes : ∃ b, Unseal key ("request:" +:+ id) (default EmptyString (req_snapshot r)) = Some b
    ∧ Digest b = req_snapshot_digest r ∧ unmarshal_snapshot b = Some s;
  in_match : snapshot_matches r s = true;
}.

(** The service and permission of a snapshot are the ones in force between the
    times [t0] and [t1], its deadline has not passed, and its target and private
    network are what the service gives now. *)
Record valid (d : database) (t0 t1 : Z) (s : Snapshot) (svc : Service) : Prop := {
  va_auth : ∃ p now, authorized d (snap_DeviceID s) (snap_ServiceID s) (snap_Method s) (snap_Path s) now svc p
    ∧ perm_ID p = snap_PermissionID s ∧ (Unix t0 <= now <= Unix t1)%Z;
  va_revision : svc_Revision svc = snap_Revision s;
  va_expires : (Unix t0 < snap_Expires s)%Z;
  va_target : ∃ u, Parse (snap_URL s) = Some u
    ∧ Target (svc_BaseURL svc) (snap_Path s) (RawQuery u) = Ok (snap_URL s);
  va_cidr : snap_PrivateCIDR s = svc_PrivateCIDR svc;
}.

Lemma snapshot_matches_spec r s : snapshot_matches r s = true ↔
  snap_Version s = 1%Z ∧ snap_DeviceID s = req_device r ∧ snap_ServiceID s = req_service r
  ∧ snap_PermissionID s = req_permission r ∧ snap_Revision s = req_revision r ∧ snap_Expires s = req_expires r
  ∧ snap_CredentialRef s = credential_ref (req_service r) (req_revision r).
Proof.
  unfold snapshot_matches. rewrite !andb_true_iff, !bool_decide_eq_true, !Z.eqb_eq. tauto.
Qed.

Lemma wp_snapshot w0 id d t (Q : result Snapshot → world → Prop) w :
  at_world w0 d (Some t) w →
  (∀ r s w', intact (w_key w0) t id r s → at_world w0 d (Some t) w' → w_clock w' = w_clock w → Q (Ok s) w') →
  (∀ e w', (w_faults w0 = [] → ∀ r s, ¬ intact (w_key w0) t id r s) → e ≠ ErrDeadlock →
     at_world w0 d (Some t) w' → Q (Err e) w') →
  wp (snapshot id) Q w.
Proof.
  intros Hw HQ HE. unfold snapshot. wp_rule. wp_rule; last first.
  { apply HE; [| |done].
    - intros Hq r s [Hr _ _]. no_io Hq. by rewrite Hr in H1.
    - destruct H1 as [H1|[-> _]]; [|done]. unfold row, row_or in H1. by destruct (db_requests t !! id); simplify_eq. }
  unfold row, row_or in H1. destruct (db_requests t !! id) as [r|] eqn:Hr; [|done]. injection H1 as <-.
  rename w' into w1, H2 into Hw1, H3 into Hc1.
  assert (∀ e, (∀ r' s, ¬ intact (w_key w0) t id r' s) → e ≠ ErrDeadlock → Q (Err e) w1) as HE' by auto.
  wp_rule. wp_rule. wp_rule; last first.
  { apply HE'; [|done]. intros r' s [Hr' (b & Hb & _) _]. congruence. }
  rename p into b. wp_case.
  { wp_rule. apply HE'; [|done]. apply bool_decide_eq_true in Eb. intros r' s [Hr' (b' & Hb & Hd & _) _]. congruence. }
  apply bool_decide_eq_false, dec_stable in Eb. wp_case; last first.
  { wp_rule. apply HE'; [|done]. intros r' s [Hr' (b' & Hb & Hd & Hu) _]. congruence. }
  wp_case; wp_rule.
  - eapply HQ; [|done|done]. split; eauto.
  - apply HE'; [|done]. intros r' s' [Hr' (b' & Hb & Hd & Hu) Hm]. congruence.
Qed.

Lemma wp_validSnapshot w0 s d t (Q : result Service → world → Prop) w :
  at_world w0 d (Some t) w →
  (∀ svc w', valid t (w_clock w) (w_clock w') s svc → at_world w0 d (Some t) w' → (w_clock w <= w_clock w')%Z →
     Q (Ok svc) w') →
  (∀ e w', at_world w0 d (Some t) w' → (w_clock w <= w_clock w')%Z → e ≠ ErrDeadlock → Q (Err e) w') →
  wp (validSnapshot s) Q w.
Proof.
  intros Hw HQ HE. unfold validSnapshot. wp_rule. wp_rule.
  pose proof (at_here _ _ _ _ Hw) as Hh.
  eapply (wp_authorize_in w); [apply row_order_default|done|..].
  2: { intros e w1 _ Hw1. apply HE; [by eapply at_trans|apply (at_clock _ _ _ _ Hw1)|done]. }
  intros svc p w1 Ha Hw1 Hc1. cbv beta iota. cbn [or_error]. cbv iota.
  assert (at_world w0 d (Some t) w1) as Hw1' by by eapply at_trans. clear Hw1 Hh.
  wp_case; [wp_rule; by apply HE|].
  apply orb_false_iff in Eb as [E1 E2]. apply negb_false_iff, Z.eqb_eq in E1.
  apply bool_decide_eq_false, dec_stable in E2.
  wp_rule. eapply wp_now_Unix; [done|]. intros w2 Hw2 Hc2. cbv beta iota.
  assert (w_clock w <= w_clock w2)%Z as Hle by lia.
  wp_case; [wp_rule; by apply HE|]. apply Z.leb_gt in Eb.
  wp_case; [|wp_rule; by apply HE]. wp_case; [|wp_rule; by apply HE].
  wp_case; [wp_rule; by apply HE|]. wp_rule.
  apply orb_false_iff in Eb0 as [E3 E4]. apply bool_decide_eq_false, dec_stable in E3, E4.
  apply HQ; [|done..]. split; [|done| |by exists u; subst|done].
  - exists p, (Unix (w_clock w1)). split_and!; [done..| |]; apply Unix_mono; lia.
  - eapply Z.le_lt_trans; [|exact Eb]. by apply Unix_mono.
Qed.

(** * The decision *)

Definition decision_status (decision : string) : status := if bool_decide (decision = "deny") then denied else queued.

(** What a decision commits. *)
Record decided (key : string) (d : database) (t0 t1 : Z) (owner id digest decision : string) (d' : database) : Prop := {
  de_decision : decision = "approve" ∨ decision = "deny";
  de_content : ∃ r s svc finished, intact key d id r s ∧ req_status r = pending_approval
    ∧ digest = req_snapshot_digest r ∧ valid d t0 t1 s svc ∧ db_approvals d !! id = None
    ∧ is_Some (db_owners d !! owner) ∧ (finished = None ↔ decision = "approve")
    ∧ d' = set_db_audit
        (db_audit d ++ [mkAudit owner (snap_DeviceID s) ("request_" +:+ status_string (decision_status decision)) id])
        (set_db_requests (<[id := set_status (decision_status decision) finished r]> (db_requests d))
           (set_db_approvals (<[id := mkApproval owner digest decision]> (db_approvals d)) d));
}.

Lemma insert_approval_Ok id a d d' n : insert_approval id a d = Ok (d', n) →
  d' = set_db_approvals (<[id := a]> (db_approvals d)) d ∧ db_approvals d !! id = None
  ∧ is_Some (db_owners d !! appr_owner a).
Proof.
  unfold insert_approval. destruct (_ || _) eqn:E; [done|]. intros [= <- <-].
  apply orb_false_iff in E as [[E1 E2]%orb_false_iff E3]. apply bool_decide_eq_false in E1, E2, E3.
  split_and!; [done|by apply eq_None_not_Some|by apply not_eq_None_Some].
Qed.

Lemma wp_Decide w0 owner id digest decision d (Q : result unit → world → Prop) w :
  at_world w0 d None w →
  (∀ d' w', decided (w_key w0) d (w_clock w0) (w_clock w') owner id digest decision d' →
     at_world w0 d' None w' → Q (Ok tt) w') →
  (∀ e w', e ≠ ErrDeadlock → at_world w0 d None w' → Q (Err e) w') →
  wp (Decide owner id digest decision) Q w.
Proof.
  intros Hw HQ HE0. unfold Decide. wp_case; [wp_rule; by apply HE0|].
  assert (decision = "approve" ∨ decision = "deny") as Hdec.
  { apply andb_false_iff in Eb as [E|E]; apply bool_decide_eq_false, dec_stable in E; auto. }
  assert (∀ e t w', e ≠ ErrDeadlock → at_world w0 d t w' → Q (Err e) (rollback w')) as HE
    by (intros; eapply HE0, at_rollback; done).
  eapply wp_with_tx; [done| |intros e w' [-> _] ?; by apply HE0]. intros w1 Hw1 _.
  wp_rule. wp_rule. wp_rule; [|by eapply HE].
  unfold row, row_or in H1. destruct (db_requests d !! id) as [r|] eqn:Hr; [|done]. injection H1 as <-.
  rename w' into w2, H2 into Hw2, H3 into Hc2.
  wp_case; [wp_rule; by eapply HE|]. apply bool_decide_eq_false, dec_stable in Eb0.
  wp_case; [wp_rule; by eapply HE|]. apply bool_decide_eq_false, dec_stable in Eb1.
  wp_rule. eapply wp_snapshot; [done| |intros; by eapply HE]. intros r' s w3 Hin Hw3 Hc3.
  assert (r' = r) as -> by (pose proof (in_row _ _ _ _ _ Hin); congruence).
  wp_rule. eapply wp_validSnapshot; [done| |intros; by eapply HE]. intros svc w4 Hv Hw4 Hc4.
  wp_rule.
  assert (wp (if bool_decide (decision = "deny") then now ← now_Unix; mret (denied, Some now) else mret (queued, None))
    (λ r w', at_world w0 d (Some d) w' ∧ (w_clock w4 <= w_clock w')%Z ∧ ∃ finished,
       r = Ok (decision_status decision, finished) ∧ (finished = None ↔ decision = "approve")) w4) as Hnext.
  { unfold decision_status. destruct Hdec as [-> | ->].
    - rewrite !bool_decide_eq_false_2 by done. wp_rule. split_and!; [done|done|by exists None].
    - rewrite !bool_decide_eq_true_2 by done. wp_rule. wp_rule. wp_rule. split_and!; [done|done|]. by eexists. }
  eapply wp_mono; [exact Hnext|]. intros x w5 (Hw5 & Hc5 & finished & -> & Hfin). cbv beta iota.
  wp_rule. eapply wp_exec; [done| |]; cbv beta iota; last first.
  { intros e w6 He Hw6. eapply HE; [|done]. destruct He as [He|[-> _]]; [|done].
    unfold insert_approval in He. destruct (_ || _); congruence. }
  intros d1 n w6 (-> & Hna & Hown)%insert_approval_Ok Hw6 Hc6.
  wp_rule. eapply wp_exec; [done| |]; cbv beta iota; last first.
  { intros e w7 He Hw7. eapply HE; [|done]. destruct He as [He|[-> _]]; [|done].
    destruct (update_request_ok id (λ r, bool_decide (req_status r = pending_approval))
      (set_status (decision_status decision) finished) (set_db_approvals (<[id := mkApproval owner digest decision]> (db_approvals d)) d))
      as (? & ? & E). congruence. }
  intros d2 n2 w7 Hup Hw7 Hc7.
  rewrite (update_request_hit _ _ _ _ r) in Hup by (simpl; rewrite ?Eb1; done). injection Hup as <- <-.
  wp_rule. eapply wp_Audit; [done| |]; cbv beta iota; last first.
  { intros e w8 [-> _] Hw8. by eapply HE. }
  intros w8 Hw8 Hc8. eapply wp_commit; [done| |]; last first.
  { intros e w9 [-> _] Hw9. by eapply HE. }
  intros w9 Hw9 Hc9. eapply HQ; [|by eapply at_rollback]. split; [done|].
  exists r, s, svc, finished. split_and!; try done.
  destruct Hv as [(p & now & ? & ? & ?) ? Hexp ? ?]. pose proof (at_clock _ _ _ _ Hw3) as Hk.
  assert (Unix (w_clock w4) <= Unix (w_clock (rollback w9)))%Z by (apply Unix_mono; simpl; lia).
  apply Unix_mono in Hk. split; [|done|lia|done|done]. exists p, now. split_and!; try done; lia.
Qed.

Lemma decided_evolves key d t0 t1 owner id digest decision d' :
  decided key d t0 t1 owner id digest decision d' → evolves d d'.
Proof.
  intros [Hdec (r & s & svc & fin & [Hr _ _] & Hp & Hdg & _ & Hna & _ & _ & ->)].
  etransitivity; [|apply (evolves_audit (set_db_requests _ (set_db_approvals _ d)))].
  apply evolves_decide; [done..|]. simpl. unfold decision_status.
  destruct Hdec as [-> | ->]; [left|right]; done.
Qed.

(** * Properties *)

(** C6: A decision is recorded only for a pending request whose digest the owner
    named, whose snapshot is intact and whose authorisation, service revision,
    target and deadline still hold at that moment, and only once; it commits the
    decision with that digest, the new status and the audit entry together, and
    any other outcome leaves the database as it was. *)
Theorem Decide_correct owner id digest decision w (Htx : w_tx w = None) :
  wp (Decide owner id digest decision) (λ r w', w_tx w' = None ∧
    match r with
    | Ok _ => decided (w_key w) (w_db w) (w_clock w) (w_clock w') owner id digest decision (w_db w')
    | Err e => w_db w' = w_db w ∧ e ≠ ErrDeadlock
    end) w.
Proof.
  eapply (wp_Decide w); [by apply at_start|..].
  - intros d' w' Hd [<- ? ? ? ? ?]. auto.
  - intros e w' He [? ? ? ? ? ?]. auto.
Qed.

(** Deciding twice is impossible: once a decision is recorded for a request, no
    later decision on it, by any owner and with any digest, succeeds or changes
    the database, however the database has evolved in between. *)
Theorem Decide_once owner id digest decision owner' digest' decision' w v
    (Hwf : wf (w_db w)) (Htx : w_tx w = None) (Hok : (Decide owner id digest decision w).1 = Ok tt)
    (Hev : evolves (w_db (Decide owner id digest decision w).2) (w_db v)) (Hvtx : w_tx v = None) :
  wp (Decide owner' id digest' decision') (λ r v', w_db v' = w_db v ∧ r ≠ Ok tt) v.
Proof.
  assert (wp (Decide owner id digest decision) (λ r w', match r with
    | Ok _ => wf (w_db w') ∧ is_Some (db_approvals (w_db w') !! id) | Err _ => True end) w) as H1.
  { eapply (wp_Decide w); [by apply at_start| |done]. intros d' w' Hd [-> ? ? ? ? ?].
    split; [by apply (decided_evolves _ _ _ _ _ _ _ _ _ Hd)|].
    destruct Hd as [_ (r & s & svc & fin & _ & _ & _ & _ & _ & _ & _ & ->)]. simpl. rewrite lookup_insert_eq. eauto. }
  unfold wp in H1. rewrite Hok in H1. destruct H1 as (Hwf1 & a & Ha).
  destruct (Hev Hwf1) as [Hwf2 Hg]. destruct (g_approvals _ _ Hg id a Ha) as (a' & Ha' & _).
  eapply (wp_Decide v); [by apply at_start|..].
  - intros d' v' [_ (r & s & svc & fin & _ & _ & _ & _ & Hna & _)] _. congruence.
  - intros e v' _ [? ? ? ? ? ?]. done.
Qed.

End review.

Section roundtrip.
Context `{GcmLaws} `{JsonLaws}.

(** A new request is intact, whatever its snapshot says. *)
Lemma created_intact key d device i t0 t1 id d' : created key d device i t0 t1 id d' →
  ∃ s p headers target expiry, let snap := request_snapshot device i s p headers target expiry in
    Target (svc_BaseURL s) (sub_Path i) (sub_Query i) = Ok target ∧ ApplicationHeaders i s = Ok headers ∧
    (utf8_snapshot snap = true → ∃ r, intact key d' id r snap).
Proof.
  intros [_ (s & p & headers & target & state & expiry & now & cr & nonce & Hc) _ _]. cbv zeta in Hc.
  destruct Hc as (Ha & _ & Hn & Hh & Ht & _ & ->). exists s, p, headers, target, expiry.
  cbv zeta. split_and!; [done..|]. intros Hu. eexists. split; [simpl; by rewrite lookup_insert_eq| |].
  - simpl. exists (marshal_snapshot (request_snapshot device i s p headers target expiry)).
    split_and!; [by apply Unseal_Seal|done|by apply snapshot_roundtrip].
  - apply snapshot_matches_spec. by split_and!.
Qed.

(** What the owner reviews is what was submitted: a new request's stored
    snapshot opens, passes every integrity check, and decodes to the submitted
    method, path and body with the target and headers computed for it. *)
Theorem Submit_snapshot_roundtrip device i w (Htx : w_tx w = None) :
  wp (Submit device i) (λ r w', match r with
    | Ok id => w_db w' = w_db w ∨ ∃ i' s snap, Normalize i = Ok i'
        ∧ snap_DeviceID snap = device ∧ snap_Method snap = sub_Method i' ∧ snap_Path snap = sub_Path i'
        ∧ snap_Body snap = sub_Body i' ∧ ApplicationHeaders i' s = Ok (snap_Headers snap)
        ∧ Target (svc_BaseURL s) (sub_Path i') (sub_Query i') = Ok (snap_URL snap)
        ∧ (utf8_snapshot snap = true → ∃ r, intact (w_key w) (w_db w') id r snap)
    | Err _ => True
    end) w.
Proof.
  eapply (wp_Submit w); [by apply at_start|..].
  - intros i' id w' _ _ [? ? ? ? ? ?]. by left.
  - intros i' id d' w' Hi Hc [<- ? ? ? ? ?]. right.
    destruct (created_intact _ _ _ _ _ _ _ _ Hc) as (s & p & headers & target & expiry & Ht & Hh & Hu).
    exists i', s, (request_snapshot device i' s p headers target expiry). by split_and!.
  - done.
Qed.

End roundtrip.

(** * Witnesses *)

#[local] Existing Instances plain_crypto plain_json.

Definition submitted_digest : string :=
  match db_requests (w_db submitted_world) !! submitted_id with Some r => req_snapshot_digest r | None => EmptyString end.
Definition approved_world : world := (Decide "owner_1" submitted_id submitted_digest "approve" submitted_world).2.

Lemma submitted_wf : wf (w_db submitted_world).
Proof.
  assert (wp (Submit "dev_1" sample_post) (λ _ w', wf (w_db w')) sample_world) as H; [|exact H].
  eapply (wp_Submit sample_world); [by apply at_start|..].
  - intros k id w' _ _ [-> ? ? ? ? ?]. apply sample_wf.
  - intros k id d' w' _ Hc [-> ? ? ? ? ?]. apply (created_evolves _ _ _ _ _ _ _ _ Hc), sample_wf.
  - intros e w' _ [-> ? ? ? ? ?]. apply sample_wf.
Qed.

Lemma Decide_correct_witness :
  w_tx submitted_world = None ∧
  (Decide "owner_1" submitted_id submitted_digest "approve" submitted_world).1 = Ok tt ∧
  wp (Decide "owner_1" submitted_id submitted_digest "approve") (λ r w', w_tx w' = None ∧
    match r with
    | Ok _ => decided (w_key submitted_world) (w_db submitted_world) (w_clock submitted_world) (w_clock w')
                "owner_1" submitted_id submitted_digest "approve" (w_db w')
    | Err e => w_db w' = w_db submitted_world ∧ e ≠ ErrDeadlock
    end) submitted_world.
Proof.
  split; [vm_compute; reflexivity|]. split; [vm_compute; reflexivity|].
  apply (Decide_correct "owner_1" submitted_id submitted_digest "approve" submitted_world). vm_compute. reflexivity.
Defined.

Lemma Decide_once_witness :
  (Decide "owner_1" submitted_id submitted_digest "approve" submitted_world).1 = Ok tt ∧
  wp (Decide "owner_1" submitted_id submitted_digest "deny")
    (λ r v', w_db v' = w_db approved_world ∧ r ≠ Ok tt) approved_world.
Proof.
  split; [vm_compute; reflexivity|].
  apply (Decide_once "owner_1" submitted_id submitted_digest "approve" "owner_1" submitted_digest "deny"
           submitted_world approved_world).
  - exact submitted_wf.
  - vm_compute. reflexivity.
  - vm_compute. reflexivity.
  - unfold approved_world. reflexivity.
  - vm_compute. reflexivity.
Defined.

Lemma Submit_snapshot_roundtrip_witness :
  w_tx sample_world = None ∧ w_db submitted_world ≠ w_db sample_world ∧
  wp (Submit "dev_1" sample_post) (λ r w', match r with
    | Ok id => w_db w' = w_db sample_world ∨ ∃ i' s snap, Normalize sample_post = Ok i'
        ∧ snap_DeviceID snap = "dev_1" ∧ snap_Method snap = sub_Method i' ∧ snap_Path snap = sub_Path i'
        ∧ snap_Body snap = sub_Body i' ∧ ApplicationHeaders i' s = Ok (snap_Headers snap)
        ∧ Target (svc_BaseURL s) (sub_Path i') (sub_Query i') = Ok (snap_URL snap)
        ∧ (utf8_snapshot snap = true → ∃ r, intact (w_key sample_world) (w_db w') id r snap)
    | Err _ => True
    end) sample_world.
Proof.
  split; [reflexivity|]. split.
  - intros E. apply (f_equal (λ d, length (db_audit d))) in E. vm_compute in E. discriminate.
  - apply (@Submit_snapshot_roundtrip plain_crypto plain_laws plain_json plain_json_laws "dev_1" sample_post sample_world).
    reflexivity.
Defined.
