(* ===== verification/Dispatching.v ===== *)
(** Dispatch: the claim of a queued request, the one send, and its durable
    outcome.

    [claimed] is the account of a successful claim and [rejected] of one that
    ends the request instead; [run_outcome] is, as a function of the snapshot, the
    service and the transport, the status, reason and result that [dispatch_run]
    records. *)
From S2P Require Import Prelude GoStrings NetUrl Http Access Upstream Crypto Types Db Rules Samples Authorize.
From S2P Require Import Lifecycle Life Closing Submitting Reviewing.

Section dispatch.
Context `{GoCrypto} `{GoJSON}.

(** * Finishing *)

(** The database after [finishTx]. *)
Definition finished_db (s : status) (reason : string) (enc : option string) (now : Z) (id : string) (t : database)
    : database :=
  let t' := match db_requests t !! id with
            | Some r => set_db_requests (<[id := finish_row s reason enc now r]> (db_requests t)) t
            | None => t
            end in
  set_db_audit (db_audit t' ++ [mkAudit EmptyString EmptyString ("request_" +:+ status_string s) id]) t'.

(** The sealed form of an outcome's result. *)
Definition sealed_result (key id : string) (res : option Result) (enc : option string) : Prop :=
  match res with
  | None => enc = None
  | Some v => ∃ n, String.length n = NonceSize ∧ enc = Some (Seal key ("result:" +:+ id) (marshal_result v) n)
  end.

(** [finishTx] either commits the outcome or leaves a transaction to roll back. *)
Lemma wp_finishTx w0 id s reason res d t (Q : result unit → world → Prop) w :
  at_world w0 d (Some t) w →
  (∀ enc now w', sealed_result (w_key w0) id res enc → (Unix (w_clock w) <= now <= Unix (w_clock w'))%Z →
     at_world w0 (finished_db s reason enc now id t) None w' → Q (Ok tt) w') →
  (∀ t' w', w_faults w0 ≠ [] → at_world w0 d t' w' → Q (Ok tt) w') →
  wp (finishTx id s reason res) Q w.
Proof.
  intros Hw HQ HE. unfold finishTx. wp_rule. wp_rule. wp_rule.
  assert (wp (match res with
    | Some v => e ← Encrypt ("result:" +:+ id) (marshal_result v); mret (Some e) | None => mret None end)
    (λ r w', at_world w0 d (Some t) w' ∧ w_clock w' = w_clock w ∧ ∃ enc, r = Ok enc ∧ sealed_result (w_key w0) id res enc) w) as Henc.
  { destruct res as [v|].
    - wp_rule. eapply wp_Encrypt; [done|]. intros n w1 Hn Hw1 Hc1. wp_rule. split_and!; [done|done|].
      eexists. split; [done|]. by exists n.
    - wp_rule. split_and!; [done|done|]. by exists None. }
  eapply wp_mono; [exact Henc|]. intros x w1 (Hw1 & Hc1 & enc & -> & Hs). cbv beta iota.
  wp_rule. eapply wp_now_Unix; [done|]. intros w2 Hw2 Hc2. cbv beta iota.
  wp_rule. wp_rule.
  2: { wp_rule. eapply HE; [|done]. destruct H1 as [H1|[_ ?]]; [|done].
       destruct (update_request_ok id (λ _, true) (finish_row s reason enc (Unix (w_clock w2))) t) as (? & ? & E). congruence. }
  assert (t' = match db_requests t !! id with
          | Some r => set_db_requests (<[id := finish_row s reason enc (Unix (w_clock w2)) r]> (db_requests t)) t
          | None => t end) as ->.
  { unfold update_request in H1. by destruct (db_requests t !! id); simplify_eq. }
  wp_rule. wp_rule; [|wp_rule; by eapply HE; [destruct H4|]]. wp_rule; [|wp_rule; by eapply HE; [destruct H6|]].
  wp_rule. eapply HQ; [done| |done]. split; apply Unix_mono; lia.
Qed.

Lemma wp_finish w0 id s reason res d (Q : result unit → world → Prop) w :
  at_world w0 d None w →
  (∀ enc now w', sealed_result (w_key w0) id res enc → (Unix (w_clock w) <= now <= Unix (w_clock w'))%Z →
     at_world w0 (finished_db s reason enc now id d) None w' → Q (Ok tt) w') →
  (∀ w', w_faults w0 ≠ [] → at_world w0 d None w' → Q (Ok tt) w') →
  wp (finish id s reason res) Q w.
Proof.
  intros Hw HQ HE. unfold finish. wp_rule. wp_rule. eapply wp_with_tx; [done| |].
  - intros w1 Hw1 Hc1. eapply wp_finishTx; [done|..].
    + intros enc now w2 Hs Hn Hw2. wp_rule. eapply HQ; [done| |by eapply at_rollback]. simpl. by rewrite <-Hc1.
    + intros t' w2 Hne Hw2. wp_rule. apply HE; [done|by eapply at_rollback].
  - intros e w1 [_ Hne] Hw1. wp_rule. by apply HE.
Qed.

Lemma finished_evolves s reason enc now id d :
  (∀ r, db_requests d !! id = Some r →
     req_status r = dispatching ∧ (s = completed ∨ s = failed ∨ s = outcome_unknown) ∨
     req_status r = queued ∧ (s = failed ∨ s = cancelled)) →
  evolves d (finished_db s reason enc now id d).
Proof.
  intros Hs. unfold finished_db. etransitivity; [|apply evolves_audit].
  destruct (db_requests d !! id) as [r|] eqn:Hr; [|reflexivity].
  destruct (Hs r eq_refl) as [[? ?]|[? ?]]; [by apply evolves_finish|by apply evolves_reject].
Qed.

(** * The claim *)

(** The permission of the snapshot needs no approval or has one of its digest. *)
Definition approved (d : database) (id : string) (s : Snapshot) : Prop :=
  ∃ p, db_permissions d !! snap_PermissionID s = Some p
    ∧ (pm_mode p = "approval_required" → approval_count id d = 1%Z).

Record claimed (key : string) (d : database) (t0 t1 : Z) (id : string) (s : Snapshot) (svc : Service) (d' : database)
    : Prop := {
  cl_valid : valid d t0 t1 s svc;
  cl_approved : approved d id s;
  cl_content : ∃ r, intact key d id r s ∧ req_status r = queued
    ∧ d' = set_db_audit (db_audit d ++ [mkAudit EmptyString (snap_DeviceID s) "request_dispatching" id])
             (set_db_requests (<[id := set_status dispatching (req_finished r) r]> (db_requests d)) d);
}.

(** A claim that ends the request instead, and why. *)
Inductive rejected (key : string) (d : database) (id : string) (quiet : Prop) : status → string → Prop :=
| reject_integrity : (quiet → ∀ r s, ¬ intact key d id r s) →
    rejected key d id quiet failed "snapshot_integrity_failed"
| reject_authorization r s : intact key d id r s →
    rejected key d id quiet cancelled "authorization_changed_or_expired"
| reject_approval r s : intact key d id r s → ¬ approved d id s →
    rejected key d id quiet failed "approval_digest_mismatch".

Lemma wp_claim_tx w0 id d (Q : result (option (Snapshot * Service)) → world → Prop) w :
  at_world w0 d (Some d) w →
  (∀ s svc d' w', claimed (w_key w0) d (w_clock w0) (w_clock w') id s svc d' → at_world w0 d' None w' →
     Q (Ok (Some (s, svc))) w') →
  (∀ st reason r now w', db_requests d !! id = Some r → req_status r = queued →
     rejected (w_key w0) d id (w_faults w0 = []) st reason →
     at_world w0 (finished_db st reason None now id d) None w' → Q (Ok None) w') →
  (∀ x t w', x = Ok None ∨ (∃ e, x = Err e) → at_world w0 d t w' →
     (w_faults w0 = [] → req_status <$> db_requests d !! id ≠ Some queued) → Q x w') →
  wp (claim_tx id) Q w.
Proof.
  intros Hw HC HR HE. unfold claim_tx. wp_rule. wp_rule; last first.
  { eapply HE; [by eauto|done|]. intros Hq. no_io Hq. unfold row, row_or in H1.
    by destruct (db_requests d !! id). }
  unfold row, row_or in H1. destruct (db_requests d !! id) as [r|] eqn:Hr; [|done]. injection H1 as <-.
  rename w' into w1, H2 into Hw1, H3 into Hc1.
  wp_case; [wp_rule; eapply HE; [by auto|done|]|].
  { intros _. apply bool_decide_eq_true in Eb. simpl. congruence. }
  apply bool_decide_eq_false, dec_stable in Eb.
  assert (∀ st reason w', rejected (w_key w0) d id (w_faults w0 = []) st reason → at_world w0 d (Some d) w' →
    wp (finishTx id st reason None;; mret None) Q w') as Hrej.
  { intros st reason w' Hre Hw'. wp_rule. eapply wp_finishTx; [done|..].
    - intros enc now w2 Hs _ Hw2. simpl in Hs. subst enc. wp_rule. by eapply HR.
    - intros t' w2 Hne Hw2. wp_rule. eapply HE; [by auto|done|done]. }
  wp_rule. wp_rule. eapply wp_snapshot; [done| |].
  2: { intros e w2 Hn _ Hw2. apply Hrej; [by apply reject_integrity|done]. }
  intros r' s w2 Hin Hw2 Hc2. assert (r' = r) as -> by (pose proof (in_row _ _ _ _ _ Hin); congruence).
  cbv beta iota. wp_rule. wp_rule. eapply wp_validSnapshot; [done| |].
  2: { intros e w3 Hw3 _ _. eapply Hrej; [by eapply reject_authorization|done]. }
  intros svc w3 Hv Hw3 Hc3. cbv beta iota.
  assert (db_permissions d !! snap_PermissionID s ≠ None) as Hpm.
  { destruct Hv as [(p & now & [_ _ (q & Hq & _) _] & <- & _) _ _ _ _]. congruence. }
  wp_rule. wp_rule; last first.
  { eapply HE; [by eauto|done|]. intros Hq. no_io Hq. unfold row, row_or in H1.
    by destruct (db_permissions d !! snap_PermissionID s). }
  unfold row, row_or in H1. destruct (db_permissions d !! snap_PermissionID s) as [p|] eqn:Hp; [|done].
  injection H1 as <-. rename w' into w4, H2 into Hw4, H3 into Hc4.
  wp_rule.
  assert (wp (claim_approved id (pm_mode p)) (λ x w', match x with
    | Ok true => at_world w0 d (Some d) w' ∧ w_clock w' = w_clock w4 ∧ approved d id s
    | Ok false => Q (Ok None) w'
    | Err e => Q (Err e) w' end) w4) as Hap.
  { unfold claim_approved. wp_case; [apply bool_decide_eq_true in Eb0|apply bool_decide_eq_false in Eb0].
    - wp_rule. wp_rule; [|eapply HE; [by eauto|done|intros Hq; by no_io Hq]].
      injection H1 as <-. wp_case.
      + wp_rule. split_and!; [done..|]. exists p. split; [done|]. intros _. by apply Z.eqb_eq.
      + wp_rule. eapply wp_finishTx; [done|..].
        * intros enc now w6 Hs _ Hw6. simpl in Hs. subst enc. wp_rule. eapply HR; [done..| |done].
          eapply reject_approval; [done|]. intros (p' & Hp' & Hc). rewrite Hp in Hp'. injection Hp' as <-.
          apply Z.eqb_neq in Eb1. auto.
        * intros t' w6 Hne Hw6. wp_rule. eapply HE; [by auto|done|done].
    - wp_rule. split_and!; [done..|]. exists p. split; [done|]. by intros. }
  eapply wp_mono; [exact Hap|]. intros [[]|e] w5; [|intros HQ; cbn [negb]; cbv iota; by wp_rule|done].
  intros (Hw5 & Hc5 & Happ). cbn [negb]. cbv iota.
  assert (∀ x t w', x = Ok None ∨ (∃ e, x = Err e) → w_faults w0 ≠ [] → at_world w0 d t w' → Q x w') as HE'
    by (intros; eapply HE; done).
  wp_rule. eapply wp_exec; [done| |]; cbv beta iota; last first.
  { intros e w6 He Hw6. eapply HE'; [by eauto| |done]. destruct He as [He|[_ ?]]; [|done].
    rewrite (update_request_hit _ _ _ _ r) in He; [done..|]. by rewrite Eb. }
  intros d1 n w6 Hup Hw6 Hc6. rewrite (update_request_hit _ _ _ _ r) in Hup by (simpl; rewrite ?Eb; done).
  injection Hup as <- <-. wp_rule. wp_rule; [|eapply HE'; [by eauto|by destruct H1|done]].
  wp_rule. wp_rule; [|eapply HE'; [by eauto|by destruct H3|done]].
  wp_rule. eapply HC; [|done]. split; [|done|eauto].
  destruct Hv as [(q & now & ? & ? & Hnow) ? Hexp ? ?]. pose proof (at_clock _ _ _ _ Hw2) as Hk. apply Unix_mono in Hk.
  split; [|done|lia|done|done]. exists q, now. split_and!; try done; [lia|].
  etransitivity; [apply Hnow|]. apply Unix_mono. lia.
Qed.

Lemma wp_dispatch_claim w0 id d (Q : result (option (Snapshot * Service)) → world → Prop) w :
  at_world w0 d None w →
  (∀ s svc d' w', claimed (w_key w0) d (w_clock w0) (w_clock w') id s svc d' → at_world w0 d' None w' →
     Q (Ok (Some (s, svc))) w') →
  (∀ st reason r now w', db_requests d !! id = Some r → req_status r = queued →
     rejected (w_key w0) d id (w_faults w0 = []) st reason →
     at_world w0 (finished_db st reason None now id d) None w' → Q (Ok None) w') →
  (∀ w', at_world w0 d None w' → (w_faults w0 = [] → req_status <$> db_requests d !! id ≠ Some queued) →
     Q (Ok None) w') →
  wp (dispatch_claim id) Q w.
Proof.
  intros Hw HC HR HE. unfold dispatch_claim. wp_rule. wp_rule. eapply wp_with_tx; [done| |].
  2: { intros e w1 He Hw1. wp_rule. apply HE; [done|]. intros Hq. no_io Hq. }
  intros w1 Hw1 _. eapply wp_claim_tx; [done|..].
  - intros s svc d' w2 Hc Hw2. wp_rule. eapply HC; [done|by eapply at_rollback].
  - intros st reason r now w2 Hr Hs Hre Hw2. wp_rule. eapply HR; [done..|by eapply at_rollback].
  - intros x t w2 [-> | [e ->]] Hw2 Hn; wp_rule; (apply HE; [by eapply at_rollback|done]).
Qed.

Lemma claimed_evolves key d t0 t1 id s svc d' : claimed key d t0 t1 id s svc d' → evolves d d'.
Proof.
  intros [_ (p & Hp & Ha) (r & [Hr _ Hm] & Hs & ->)].
  etransitivity; [|apply (evolves_audit (set_db_requests _ d))].
  apply evolves_claim; [done..|]. apply snapshot_matches_spec in Hm as (_ & _ & _ & E & _).
  rewrite <-E. unfold needs_approval. rewrite Hp. intros Hn%bool_decide_eq_true. auto.
Qed.

Lemma rejected_evolves key d id quiet st reason r now :
  db_requests d !! id = Some r → req_status r = queued → rejected key d id quiet st reason →
  evolves d (finished_db st reason None now id d).
Proof.
  intros Hr Hs Hre. apply finished_evolves. intros q Hq. right. split; [congruence|].
  destruct Hre; auto.
Qed.

(** * The outcome of the send *)

Definition run_outcome (key : string) (snap : Snapshot) (svc : Service)
    (transport : outgoing → transport_result response) : status * string * option Result :=
  match Unseal key (snap_CredentialRef snap) (svc_Credential svc) with
  | None => (failed, "credential_unavailable", None)
  | Some secret =>
    match Send svc (snap_Method snap) (snap_URL snap) (snap_Headers snap) (snap_Body snap) secret transport with
    | NotSent => (failed, "request_not_sent", None)
    | SendError => (outcome_unknown, "connection_lost_check_provider", None)
    | Sent res => let '(st, reason, r) := read_result svc res in (st, reason, Some r)
    end
  end.

Lemma run_outcome_final key snap svc transport :
  let '(st, _, _) := run_outcome key snap svc transport in st = completed ∨ st = failed ∨ st = outcome_unknown.
Proof.
  unfold run_outcome, read_result. destruct (Unseal _ _ _); [|auto].
  destruct (Send _ _ _ _ _ _ _); auto. destruct (read_fails _); auto.
Qed.

Lemma wp_dispatch_run w0 id snap svc transport d (Q : result unit → world → Prop) w :
  at_world w0 d None w →
  (∀ st reason res enc now w', run_outcome (w_key w0) snap svc transport = (st, reason, res) →
     sealed_result (w_key w0) id res enc → (Unix (w_clock w) <= now <= Unix (w_clock w'))%Z →
     at_world w0 (finished_db st reason enc now id d) None w' → Q (Ok tt) w') →
  (∀ w', w_faults w0 ≠ [] → at_world w0 d None w' → Q (Ok tt) w') →
  wp (dispatch_run id snap svc transport) Q w.
Proof.
  intros Hw HQ HE. unfold dispatch_run. wp_rule. wp_rule.
  unfold run_outcome in HQ.
  wp_rule; rewrite H1 in HQ; [|eapply wp_finish; [done| |done]; intros; by eapply HQ].
  destruct (Send _ _ _ _ _ _ _) as [res| |]; [destruct (read_result svc res) as [[st reason] r]|..];
    (eapply wp_finish; [done| |done]; intros; by eapply HQ).
Qed.

(** * What is stored of a response *)

Lemma take_N_take n s : take_N n s = take_bytes (N.to_nat n) s.
Proof.
  revert n. induction s as [|c s IH]; intros n; simpl; [by destruct (N.to_nat n)|].
  destruct (n =? 0)%N eqn:E; [apply N.eqb_eq in E as ->; done|]. apply N.eqb_neq in E.
  replace (N.to_nat n) with (S (N.to_nat (n - 1))) by lia. simpl. by rewrite IH.
Qed.

Lemma take_take n m s : (n ≤ m)%nat → take_bytes n (take_bytes m s) = take_bytes n s.
Proof.
  revert m s. induction n as [|n IH]; intros m s Hm; [by destruct m|].
  destruct m as [|m]; [lia|]. destruct s as [|c s]; [done|]. simpl. rewrite IH; [done|lia].
Qed.

(** The padded encoding determines the bytes, and is a third longer. *)
Lemma StdEncoding_inj s t : StdEncoding s = StdEncoding t → s = t.
Proof.
  assert (∀ s, head (Split "=" (StdEncoding s)) = Some (RawStdEncoding s)) as Hh.
  { intros u. unfold StdEncoding.
    assert (all_bytes (not_byte "=") (RawStdEncoding u) = true) as Hb by by apply b64_raw_bytes.
    destruct (String.length u mod 3)%nat as [|[|[|n]]]; rewrite ?app_empty_r;
      try (rewrite Split_none by done; done); by rewrite Split_app. }
  intros E. pose proof (Hh s) as Hs. rewrite E, Hh in Hs. injection Hs as Hs.
  pose proof (RawStd_roundtrip s) as R. rewrite <-Hs, RawStd_roundtrip in R. by injection R.
Qed.

Lemma StdEncoding_length s : (3 * String.length (StdEncoding s) ≤ 4 * String.length s + 8)%nat.
Proof.
  unfold StdEncoding. rewrite length_app_string. unfold RawStdEncoding.
  induction s as [| | |a b c s IH] using string_ind3; [simpl; lia..|].
  assert (String.length (String a (String b (String c s))) mod 3 = String.length s mod 3)%nat as ->.
  { change (String.length (String a (String b (String c s)))) with (3 + String.length s)%nat.
    rewrite <-(Nat.Div0.mod_add (String.length s) 1 3). f_equal. lia. }
  simpl in *. destruct (String.length s mod 3)%nat as [|[|[|n]]]; simpl in *; lia.
Qed.

(** * Properties *)

(** C5: A claim commits the dispatching status only for a queued request whose
    snapshot is intact, whose authorisation is in force at that moment, and which
    has an approval of its digest if its permission asks for one; otherwise it
    ends the request with the reason or leaves the database as it was, and never
    hands out anything to send. *)
Theorem dispatch_claim_correct id w (Htx : w_tx w = None) :
  wp (dispatch_claim id) (λ x w', w_tx w' = None ∧
    match x with
    | Ok (Some (s, svc)) => claimed (w_key w) (w_db w) (w_clock w) (w_clock w') id s svc (w_db w')
    | Ok None =>
      (∃ st reason r now, db_requests (w_db w) !! id = Some r ∧ req_status r = queued
         ∧ rejected (w_key w) (w_db w) id (w_faults w = []) st reason
         ∧ w_db w' = finished_db st reason None now id (w_db w)) ∨
      w_db w' = w_db w ∧ (w_faults w = [] → req_status <$> db_requests (w_db w) !! id ≠ Some queued)
    | Err _ => False
    end) w.
Proof.
  eapply (wp_dispatch_claim w); [by apply at_start|..].
  - intros s svc d' w' Hc [<- ? ? ? ? ?]. auto.
  - intros st reason r now w' Hr Hs Hre [? ? ? ? ? ?]. split; [done|]. left. eauto 10.
  - intros w' [? ? ? ? ? ?] Hn. auto.
Qed.

(** The bytes of a response that are kept. *)
Definition kept_bytes (res : response) : string := take_bytes (N.to_nat 1048576) (rsp_body res).

(** What is stored of an upstream response: the first mebibyte of its body,
    marked truncated exactly when there was more, as text only if it is valid
    UTF-8 and otherwise in a base64 form that determines the bytes, never longer
    than 1398104 bytes, with the filtered headers; a body that could not be read
    to its end or limit makes the outcome unknown, and any other one complete. *)
Theorem read_result_correct svc res :
  match read_result svc res with (st, reason, r) =>
  (res_Truncated r = true ↔ (1048576 < N.of_nat (String.length (rsp_body res)))%N) ∧
  (res_Encoding r = "utf-8" ∧ res_Body r = kept_bytes res ∧ ValidString (kept_bytes res) = true ∨
   res_Encoding r = "base64" ∧ ∀ b', res_Body r = StdEncoding b' ↔ b' = kept_bytes res) ∧
  (N.of_nat (String.length (res_Body r)) ≤ 1398104)%N ∧
  res_HTTPStatus r = rsp_status res ∧
  res_Headers r = Headers (rsp_header res) (svc_ResponseHeaders svc) (svc_AuthHeader svc) ∧
  res_Incomplete r = read_fails res ∧
  st = (if read_fails res then outcome_unknown else completed)
  end.
Proof.
  assert (∃ n, N.to_nat 1048576 = n ∧ N.of_nat n = 1048576%N) as (n & Hn & Hn')
    by (eexists; split; [reflexivity|apply N2Nat.id]).
  unfold read_result, kept_bytes. rewrite !take_N_take, !len_length. change body_limit with 1048576%N. rewrite Hn.
  replace (N.to_nat (1048576 + 1)) with (S n) by lia. clear Hn.
  rewrite take_take by lia. rewrite (length_take_bytes (S n)).
  pose proof (length_take_bytes n (rsp_body res)) as Hb. set (b := take_bytes n (rsp_body res)) in *.
  pose proof (StdEncoding_length b) as Henc.
  assert (∀ b', StdEncoding b = StdEncoding b' ↔ b' = b) as Hinj
    by (intros b'; split; [by intros ?%StdEncoding_inj|by intros ->]).
  assert ((1048576 <? N.of_nat (S n `min` String.length (rsp_body res)))%N = true ↔
    (1048576 < N.of_nat (String.length (rsp_body res)))%N) as Htr by (rewrite N.ltb_lt; lia).
  assert (N.of_nat (String.length b) ≤ 1398104)%N as Hl1 by lia.
  assert (N.of_nat (String.length (StdEncoding b)) ≤ 1398104)%N as Hl2 by lia.
  destruct (ValidString b) eqn:Hv, (N.leb _ _), (read_fails res); cbn; split_and!; auto.
Qed.

(** C26: The outcome of a dispatch is durable and follows from the one send: when no
    statement fails, the request ends with the status and reason that the
    transport's answer determines and its sealed result, every other request is
    as it was, and it is finished at a time of this run. *)
Theorem dispatch_run_correct id snap svc transport r w
    (Htx : w_tx w = None) (Hq : w_faults w = []) (Hr : db_requests (w_db w) !! id = Some r) :
  wp (dispatch_run id snap svc transport) (λ x w', x = Ok tt ∧ w_tx w' = None ∧
    ∃ st reason res enc now, run_outcome (w_key w) snap svc transport = (st, reason, res)
      ∧ (st = completed ∨ st = failed ∨ st = outcome_unknown)
      ∧ sealed_result (w_key w) id res enc ∧ (Unix (w_clock w) <= now <= Unix (w_clock w'))%Z
      ∧ db_requests (w_db w') = <[id := finish_row st reason enc now r]> (db_requests (w_db w))) w.
Proof.
  eapply (wp_dispatch_run w); [by apply at_start| |done].
  intros st reason res enc now w' Ho Hs Hn [-> ? ? ? ? ?]. split_and!; [done..|].
  exists st, reason, res, enc, now.
  pose proof (run_outcome_final (w_key w) snap svc transport) as Hf. rewrite Ho in Hf. cbv beta iota in Hf.
  split_and!; try done; try lia. unfold finished_db. by rewrite Hr.
Qed.

End dispatch.

Section visible.
Context `{GcmLaws} `{JsonLaws}.

Lemma wp_result_visible device id snap svc transport r w :
  w_tx w = None → w_faults w = [] → db_requests (w_db w) !! id = Some r → visible (w_db w) device id = true →
  match (run_outcome (w_key w) snap svc transport).2 with Some v => utf8_result v = true | None => True end →
  wp (dispatch_run id snap svc transport) (λ x w', at_world w (w_db w') None w' ∧
    ∃ out, status_answer (w_key w) (w_db w') device id = Ok out ∧ st_RequestID out = id
      ∧ st_Expires out = req_expires r ∧ st_Digest out = req_snapshot_digest r ∧ (st_NextAction out = EmptyString ∨ st_NextAction out = unknown_action)
      ∧ st_PollAfterMS out = 0%Z
      ∧ (st_Status out, st_Reason out, st_Result out) = run_outcome (w_key w) snap svc transport) w.
Proof.
  intros Htx Hq Hr Hv Hu.
  eapply (wp_dispatch_run w); [by apply at_start| |done].
  intros st reason res enc now w' Ho Hs Hn Hat. pose proof (at_db _ _ _ _ Hat) as Edb. rewrite Edb.
  split; [done|]. clear Hat Edb.
  pose proof (run_outcome_final (w_key w) snap svc transport) as Hf. rewrite Ho in *. simpl in Hu.
  unfold finished_db. rewrite Hr. unfold status_answer, visible in *. simpl.
  rewrite Hr in Hv. rewrite lookup_insert_eq. simpl. unfold device_active in *. simpl. rewrite Hv.
  assert (stored_result (w_key w) id (finish_row st reason enc now r) = Ok res) as ->.
  { unfold stored_result, finish_row. simpl. destruct res as [v|]; simpl in Hs; [|by rewrite Hs].
    destruct Hs as (n & Hlen & ->). rewrite Unseal_Seal, result_roundtrip by done.
    rewrite bool_decide_eq_false_2; [done|]. intros E. unfold Seal in E.
    apply (f_equal String.length) in E. rewrite length_app_string, Hlen in E. done. }
  simpl. eexists. split; [done|]. unfold status_view. simpl.
  by destruct Hf as [->|[->| ->]]; simpl; split_and!; auto.
Qed.

(** The stored result can be read back: after a dispatch without failures the
    device (while active) and the owner are shown the status, the reason and
    exactly the result that was recorded. *)
Theorem dispatch_result_visible device id snap svc transport r w
    (Htx : w_tx w = None) (Hq : w_faults w = []) (Hr : db_requests (w_db w) !! id = Some r)
    (Hv : visible (w_db w) device id = true)
    (Hu : match (run_outcome (w_key w) snap svc transport).2 with Some v => utf8_result v = true | None => True end) :
  wp (dispatch_run id snap svc transport) (λ _ w',
    ∃ out, status_answer (w_key w) (w_db w') device id = Ok out ∧
      (st_Status out, st_Reason out, st_Result out) = run_outcome (w_key w) snap svc transport) w.
Proof.
  eapply wp_mono; [by apply (wp_result_visible device id snap svc transport r)|].
  intros x w' (_ & out & Ha & _ & _ & _ & _ & _ & Ho). eauto.
Qed.

End visible.

(** * Witnesses *)

#[local] Existing Instances plain_crypto plain_json.

(** An upstream that answers a request with its target. *)
Definition echo (o : outgoing) : transport_result response :=
  TResponse (mkResponse 200 {[ "Content-Type" := ["text/plain"] ]} (o_url o) body_ends).

Definition claimed_world : world := (dispatch_claim submitted_id approved_world).2.

Definition claimed_pair : Snapshot * Service :=
  match (dispatch_claim submitted_id approved_world).1 with
  | Ok (Some p) => p
  | _ => (mkSnapshot 0 "" "" "" 0 "" "" "" "" "" ∅ "" 0 "", mkService "" "" "" "" "" "" 0 "" [] [])
  end.

Definition claimed_row : request_row :=
  match db_requests (w_db claimed_world) !! submitted_id with Some r => r | None => sample_row queued end.

Lemma dispatch_claim_correct_witness :
  w_tx approved_world = None ∧
  (dispatch_claim submitted_id approved_world).1 = Ok (Some claimed_pair) ∧
  wp (dispatch_claim submitted_id) (λ x w', w_tx w' = None ∧
    match x with
    | Ok (Some (s, svc)) => claimed (w_key approved_world) (w_db approved_world) (w_clock approved_world)
                              (w_clock w') submitted_id s svc (w_db w')
    | Ok None =>
      (∃ st reason r now, db_requests (w_db approved_world) !! submitted_id = Some r ∧ req_status r = queued
         ∧ rejected (w_key approved_world) (w_db approved_world) submitted_id (w_faults approved_world = []) st reason
         ∧ w_db w' = finished_db st reason None now submitted_id (w_db approved_world)) ∨
      w_db w' = w_db approved_world ∧
        (w_faults approved_world = [] → req_status <$> db_requests (w_db approved_world) !! submitted_id ≠ Some queued)
    | Err _ => False
    end) approved_world.
Proof.
  split; [vm_compute; reflexivity|]. split; [vm_compute; reflexivity|].
  apply (dispatch_claim_correct submitted_id approved_world). vm_compute. reflexivity.
Defined.

Lemma dispatch_run_correct_witness :
  w_tx claimed_world = None ∧ w_faults claimed_world = [] ∧
  db_requests (w_db claimed_world) !! submitted_id = Some claimed_row ∧
  wp (dispatch_run submitted_id claimed_pair.1 claimed_pair.2 echo) (λ x w', x = Ok tt ∧ w_tx w' = None ∧
    ∃ st reason res enc now, run_outcome (w_key claimed_world) claimed_pair.1 claimed_pair.2 echo = (st, reason, res)
      ∧ (st = completed ∨ st = failed ∨ st = outcome_unknown)
      ∧ sealed_result (w_key claimed_world) submitted_id res enc
      ∧ (Unix (w_clock claimed_world) <= now <= Unix (w_clock w'))%Z
      ∧ db_requests (w_db w') = <[submitted_id := finish_row st reason enc now claimed_row]>
          (db_requests (w_db claimed_world))) claimed_world.
Proof.
  split; [vm_compute; reflexivity|]. split; [vm_compute; reflexivity|]. split; [vm_compute; reflexivity|].
  apply (dispatch_run_correct submitted_id claimed_pair.1 claimed_pair.2 echo claimed_row claimed_world);
    vm_compute; reflexivity.
Defined.

Lemma dispatch_result_visible_witness :
  (run_outcome (w_key claimed_world) claimed_pair.1 claimed_pair.2 echo).1 = (completed, EmptyString) ∧
  visible (w_db claimed_world) "dev_1" submitted_id = true ∧
  wp (dispatch_run submitted_id claimed_pair.1 claimed_pair.2 echo) (λ _ w',
    ∃ out, status_answer (w_key claimed_world) (w_db w') "dev_1" submitted_id = Ok out ∧
      (st_Status out, st_Reason out, st_Result out) =
        run_outcome (w_key claimed_world) claimed_pair.1 claimed_pair.2 echo) claimed_world.
Proof.
  split; [vm_compute; reflexivity|]. split; [vm_compute; reflexivity|].
  apply (@dispatch_result_visible plain_crypto plain_laws plain_json plain_json_laws
           "dev_1" submitted_id claimed_pair.1 claimed_pair.2 echo claimed_row claimed_world).
  - vm_compute. reflexivity.
  - vm_compute. reflexivity.
  - vm_compute. reflexivity.
  - vm_compute. reflexivity.
  - vm_compute. reflexivity.
Defined.
