(* ===== verification/Limits.v ===== *)
(** The in-memory limits of src/internal/server/server.go: the sliding-window
    throttle and the dispatch slots, both under [s.mu].

    A call is atomic, since it holds the mutex from its first to its last
    access.  The slots are shown to implement the abstract multiset of dispatches
    in flight, here a list of devices. *)
From S2P Require Import Prelude Db Rules Samples.

(** * Operations *)

(** [s.throttles[key]] and [s.active[device]]: a missing key reads as zero. *)
Definition throttles_of (m : memory) (key : string) : list Z := default [] (mem_throttles m !! key).
Definition active_of (m : memory) (device : string) : Z := default 0%Z (mem_active m !! device).

(** The calls of the last minute. *)
Definition live_calls (now : Z) (l : list Z) : list Z := filter (λ t, (now - t < minute)%Z) l.

(** What [throttle] does between locking and unlocking the mutex. *)
Definition throttle_step (key : string) (limit : nat) (now : Z) (m : memory) : bool * memory :=
  let l := live_calls now (throttles_of m key) in
  if (limit <=? length l)%nat then (false, m)
  else (true, mkMemory (<[key := l ++ [now]]> (mem_throttles m)) (mem_global m) (mem_active m)).

Definition throttle (key : string) (limit : nat) : M world bool :=
  now ← time_Now;
  '(b, m) ← gets (λ w, throttle_step key limit now (w_mem w));
  modify (set_w_mem m);;
  mret b.

Definition acquire (device : string) : M world bool := λ w,
  let m := w_mem w in
  if (32 <=? mem_global m)%Z || (4 <=? active_of m device)%Z then (Ok false, w)
  else (Ok true, set_w_mem (mkMemory (mem_throttles m) (mem_global m + 1)
                              (<[device := (active_of m device + 1)%Z]> (mem_active m))) w).

Definition release (device : string) : M world unit := λ w,
  let m := w_mem w in
  let n := (active_of m device - 1)%Z in
  (Ok tt, set_w_mem (mkMemory (mem_throttles m) (mem_global m - 1)
            (if (n =? 0)%Z then delete device (mem_active m) else <[device := n]> (mem_active m))) w).

(** * The window *)

(** A sequence of calls (key and clock) with their verdicts; [limit] gives the limit
    that the program uses with a key. *)
Fixpoint throttle_calls (limit : string → nat) (calls : list (string * Z)) (m : memory)
    : list (string * Z * bool) * memory :=
  match calls with
  | [] => ([], m)
  | (key, now) :: rest =>
    let '(b, m') := throttle_step key (limit key) now m in
    let '(trace, m'') := throttle_calls limit rest m' in
    ((key, now, b) :: trace, m'')
  end.

(** The times of the accepted calls of a key. *)
Definition accepted (key : string) (trace : list (string * Z * bool)) : list Z :=
  map (λ c, c.1.2) (filter (λ c, c.1.1 = key ∧ c.2 = true) trace).

(** The calls of a window that begins at [t]. *)
Definition in_window (t : Z) (l : list Z) : list Z := filter (λ a, (t <= a < t + minute)%Z) l.

Lemma filter_length_le {A} (P Q : A → Prop) `{∀ x, Decision (P x)} `{∀ x, Decision (Q x)} (l : list A) :
  (∀ x, x ∈ l → P x → Q x) → (length (filter P l) ≤ length (filter Q l))%nat.
Proof.
  induction l as [|x l IH]; intros HPQ; [done|].
  assert (length (filter P l) ≤ length (filter Q l))%nat by (apply IH; intros; apply HPQ; [by right|done]).
  rewrite !filter_cons. destruct (decide (P x)), (decide (Q x)); simpl; try lia.
  exfalso. eauto using list_elem_of_here.
Qed.

(** A list of what the map holds stands for all accepted calls [past]: it has those
    of the last minute. *)
Definition stands_for (now : Z) (kept past : list Z) : Prop :=
  live_calls now kept = live_calls now past ∧ Forall (λ t, (t <= now)%Z) past.

Lemma live_live now now' l : (now <= now')%Z → live_calls now' (live_calls now l) = live_calls now' l.
Proof.
  intros Hn. unfold live_calls. rewrite list_filter_filter_l; [done|]. intros x Hx. lia.
Qed.

Lemma stands_for_later now now' kept past : (now <= now')%Z → stands_for now kept past → stands_for now' kept past.
Proof.
  intros Hn [He Hf]. split.
  - by rewrite <-(live_live now now' kept), He, live_live.
  - eapply Forall_impl; [done|]. simpl. lia.
Qed.

Lemma stands_for_accept now kept past : stands_for now kept past → stands_for now (live_calls now kept ++ [now]) (past ++ [now]).
Proof.
  intros [He Hf]. split.
  - unfold live_calls in *. rewrite !filter_app, <-He. f_equal. by rewrite list_filter_filter_l.
  - apply Forall_app. split; [done|]. by apply Forall_singleton.
Qed.

(** Every window of the accepted calls has at most [limit] of them. *)
Definition window_bound (limit : nat) (l : list Z) : Prop := ∀ t, (length (in_window t l) ≤ limit)%nat.

Lemma window_accept limit now past :
  Forall (λ t, (t <= now)%Z) past → (length (live_calls now past) < limit)%nat →
  window_bound limit past → window_bound limit (past ++ [now]).
Proof.
  intros Hp Hl Hw t. unfold in_window. rewrite filter_app, length_app, filter_cons. simpl.
  destruct (decide (t <= now < t + minute)%Z) as [Ht|Ht]; simpl.
  - assert (length (filter (λ a, t <= a < t + minute)%Z past) ≤ length (live_calls now past))%nat; [|lia].
    apply filter_length_le. intros a Ha [? ?]. lia.
  - rewrite Nat.add_0_r. apply Hw.
Qed.

(** After the calls of [past], every key's list stands for its accepted calls. *)
Definition throttle_inv (limit : string → nat) (now : Z) (past : list (string * Z * bool)) (m : memory) : Prop :=
  ∀ key, stands_for now (throttles_of m key) (accepted key past) ∧ window_bound (limit key) (accepted key past).

Lemma accepted_app key t1 t2 : accepted key (t1 ++ t2) = accepted key t1 ++ accepted key t2.
Proof. unfold accepted. by rewrite filter_app, map_app. Qed.

Lemma accepted_one key k now b :
  accepted key [(k, now, b)] = if bool_decide (k = key) && b then [now] else [].
Proof.
  unfold accepted. rewrite filter_cons. simpl. destruct b; [destruct (decide (k = key)) as [-> |Hne]|].
  - by rewrite decide_True, bool_decide_eq_true_2.
  - rewrite decide_False by tauto. by rewrite bool_decide_eq_false_2.
  - rewrite decide_False by (intros [_ ?]; done). by rewrite andb_false_r.
Qed.

Lemma throttle_step_inv limit now now' past m key b m' :
  throttle_inv limit now past m → (now <= now')%Z → throttle_step key (limit key) now' m = (b, m') →
  throttle_inv limit now' (past ++ [(key, now', b)]) m' ∧
  (b = true ↔ (length (live_calls now' (accepted key past)) < limit key)%nat).
Proof.
  intros Hinv Hn Hs. unfold throttle_step in Hs.
  destruct (Hinv key) as [Hst Hw]. apply (stands_for_later _ now') in Hst; [|done].
  destruct (limit key <=? _)%nat eqn:E; injection Hs as <- <-.
  - apply Nat.leb_le in E. split; [|rewrite <-(proj1 Hst); split; [done|lia]].
    intros k. rewrite accepted_app, accepted_one, andb_false_r, app_nil_r.
    destruct (Hinv k). eauto using stands_for_later.
  - apply Nat.leb_gt in E. split; [|rewrite <-(proj1 Hst); split; [lia|done]].
    intros k. rewrite accepted_app, accepted_one. unfold throttles_of; simpl.
    destruct (decide (key = k)) as [<-|Hne].
    + rewrite bool_decide_eq_true_2, lookup_insert_eq by done. simpl. split; [by apply stands_for_accept|].
      apply window_accept; [apply Hst|by rewrite <-(proj1 Hst)|done].
    + rewrite bool_decide_eq_false_2, lookup_insert_ne by done. simpl. rewrite app_nil_r.
      destruct (Hinv k). eauto using stands_for_later.
Qed.

Lemma throttle_calls_inv limit calls now past m :
  throttle_inv limit now past m → Sorted Z.le (now :: map snd calls) →
  ∃ last, throttle_inv limit last (past ++ (throttle_calls limit calls m).1) (throttle_calls limit calls m).2.
Proof.
  revert now past m. induction calls as [|[key t] calls IH]; intros now past m Hinv Hs; simpl.
  { exists now. by rewrite app_nil_r. }
  apply Sorted_inv in Hs as [Hs Hh]. apply HdRel_inv in Hh.
  destruct (throttle_step key (limit key) t m) as [b m'] eqn:E.
  destruct (throttle_step_inv _ _ _ _ _ _ _ _ Hinv Hh E) as [Hinv' _].
  destruct (IH t _ _ Hinv' Hs) as [last Hlast].
  destruct (throttle_calls limit calls m') as [trace m'']. simpl in *. exists last. by rewrite <-app_assoc in Hlast.
Qed.

Lemma throttle_calls_verdict limit calls now past m pre key t b post :
  throttle_inv limit now past m → Sorted Z.le (now :: map snd calls) →
  (throttle_calls limit calls m).1 = pre ++ (key, t, b) :: post →
  b = true ↔ (length (live_calls t (accepted key (past ++ pre))) < limit key)%nat.
Proof.
  revert now past m pre. induction calls as [|[k u] calls IH]; intros now past m pre Hinv Hs; simpl.
  { by destruct pre. }
  apply Sorted_inv in Hs as [Hs Hh]. apply HdRel_inv in Hh.
  destruct (throttle_step k (limit k) u m) as [b' m'] eqn:E.
  destruct (throttle_step_inv _ _ _ _ _ _ _ _ Hinv Hh E) as [Hinv' Hv].
  pose proof (λ p, IH u _ _ p Hinv' Hs) as IH'.
  destruct (throttle_calls limit calls m') as [trace m'']. simpl in *.
  destruct pre as [|c pre]; simpl.
  - intros [= -> -> -> _]. by rewrite app_nil_r.
  - intros [= <- Htr]. rewrite (IH' pre Htr), <-app_assoc. done.
Qed.

(** * The slots *)

(** How many of the dispatches in flight are of a device. *)
Definition count (device : string) (flight : list string) : Z :=
  Z.of_nat (length (filter (λ d, d = device) flight)).

(** The counters of [s.mu] stand for the dispatches in flight. *)
Record slots (m : memory) (flight : list string) : Prop := {
  sl_global : mem_global m = Z.of_nat (length flight);
  sl_active : ∀ d, mem_active m !! d = if (count d flight =? 0)%Z then None else Some (count d flight);
}.

Lemma count_perm d l l' : l ≡ₚ l' → count d l = count d l'.
Proof. unfold count. by intros ->. Qed.

Lemma slots_perm m l l' : l ≡ₚ l' → slots m l → slots m l'.
Proof.
  intros Hp [Hg Ha]. split; [by rewrite <-Hp|]. intros d. by rewrite <-(count_perm d _ _ Hp).
Qed.

Lemma count_cons d e l : count d (e :: l) = (count d l + if bool_decide (e = d) then 1 else 0)%Z.
Proof.
  unfold count. rewrite filter_cons. destruct (decide (e = d)) as [-> |Hne].
  - rewrite bool_decide_eq_true_2 by done. simpl. lia.
  - rewrite bool_decide_eq_false_2 by done. simpl. lia.
Qed.

Lemma count_nonneg d l : (0 <= count d l)%Z.
Proof. unfold count. lia. Qed.

Lemma active_of_slots m l d : slots m l → active_of m d = count d l.
Proof.
  intros [_ Ha]. unfold active_of. rewrite Ha. destruct (count d l =? 0)%Z eqn:E; [|done].
  apply Z.eqb_eq in E. by rewrite E.
Qed.

Lemma acquire_slots device w flight : slots (w_mem w) flight →
  acquire device w =
    (if (32 <=? Z.of_nat (length flight))%Z || (4 <=? count device flight)%Z then (Ok false, w)
    else (Ok true, set_w_mem (w_mem (acquire device w).2) w)) ∧
  ((acquire device w).1 = Ok true → slots (w_mem (acquire device w).2) (device :: flight)).
Proof.
  intros Hs. unfold acquire. rewrite (active_of_slots _ _ device Hs), (sl_global _ _ Hs).
  destruct (_ || _); [by split|]. split; [done|]. intros _. simpl.
  split; simpl; [lia|]. intros d. rewrite count_cons. pose proof (count_nonneg d flight).
  destruct (decide (device = d)) as [<-|Hne].
  - rewrite bool_decide_eq_true_2, lookup_insert_eq by done. by rewrite (proj2 (Z.eqb_neq _ _)) by lia.
  - rewrite bool_decide_eq_false_2, lookup_insert_ne, (sl_active _ _ Hs) by done. by rewrite Z.add_0_r.
Qed.

Lemma release_slots device w flight : slots (w_mem w) (device :: flight) →
  (release device w).1 = Ok tt ∧ slots (w_mem (release device w).2) flight.
Proof.
  intros Hs. split; [done|]. unfold release. rewrite (active_of_slots _ _ device Hs).
  pose proof (sl_active _ _ Hs) as Ha. pose proof (sl_global _ _ Hs) as Hg. simpl in Hg.
  rewrite count_cons, bool_decide_eq_true_2 by done.
  replace (count device flight + 1 - 1)%Z with (count device flight) by lia.
  split; simpl; [lia|]. intros d. specialize (Ha d). rewrite count_cons in Ha.
  destruct (count device flight =? 0)%Z eqn:E; destruct (decide (device = d)) as [<-|Hne].
  - by rewrite lookup_delete_eq, E.
  - rewrite lookup_delete_ne, Ha, bool_decide_eq_false_2 by done. by rewrite Z.add_0_r.
  - by rewrite lookup_insert_eq, E.
  - rewrite lookup_insert_ne, Ha, bool_decide_eq_false_2 by done. by rewrite Z.add_0_r.
Qed.

(** Calls of any number of goroutines, one after the other; a device is released
    only by a dispatch in flight for it. *)
Inductive slot_step : world * list string → world * list string → Prop :=
| step_acquire device w w' flight :
    acquire device w = (Ok true, w') → slot_step (w, flight) (w', device :: flight)
| step_refused device w w' flight :
    acquire device w = (Ok false, w') → slot_step (w, flight) (w', flight)
| step_release device w w' flight flight' :
    flight ≡ₚ device :: flight' → release device w = (Ok tt, w') → slot_step (w, flight) (w', flight').

Definition within_limits (flight : list string) : Prop :=
  (length flight ≤ 32)%nat ∧ ∀ d, (count d flight <= 4)%Z.

Lemma slot_step_inv w flight w' flight' :
  slot_step (w, flight) (w', flight') → slots (w_mem w) flight → within_limits flight →
  slots (w_mem w') flight' ∧ within_limits flight'.
Proof.
  intros Hstep Hs [Hl Hc].
  inversion Hstep as [device ? ? ? Ha|device ? ? ? Ha|device ? ? ? ? Hp Hr]; subst.
  - destruct (acquire_slots device w flight Hs) as [He Hslots]. rewrite Ha in *. simpl in *.
    split; [by apply Hslots|]. destruct (_ || _) eqn:E in He; [done|].
    apply orb_false_iff in E as [E1 E2]. apply Z.leb_gt in E1, E2. split; [simpl; lia|].
    intros d. rewrite count_cons. specialize (Hc d). destruct (decide (device = d)) as [<-|Hne].
    + rewrite bool_decide_eq_true_2 by done. lia.
    + rewrite bool_decide_eq_false_2 by done. lia.
  - destruct (acquire_slots device w flight' Hs) as [He _]. rewrite Ha in He.
    destruct (_ || _) in He; [|done]. injection He as ->. done.
  - apply (slots_perm _ _ _ Hp) in Hs. destruct (release_slots device w flight' Hs) as [_ Hs'].
    rewrite Hr in Hs'. split; [done|]. rewrite Hp in Hl. simpl in Hl. split; [lia|].
    intros d. specialize (Hc d). rewrite (count_perm d _ _ Hp), count_cons in Hc.
    destruct (bool_decide (device = d)); lia.
Qed.

Lemma slot_steps_inv x y : rtc slot_step x y →
  slots (w_mem x.1) x.2 → within_limits x.2 → slots (w_mem y.1) y.2 ∧ within_limits y.2.
Proof.
  induction 1 as [x|[w f] [w' f'] z Hs _ IH]; intros Hx Hl; [done|].
  destruct (slot_step_inv _ _ _ _ Hs Hx Hl). by apply IH.
Qed.

(** * Properties *)

(** C37: The throttle is an exact sliding window: whatever keys are called in
    between, a call is accepted exactly when fewer than the key's limit were
    accepted in the minute before it, and no minute, wherever it starts, has more
    accepted calls than the limit. *)
Theorem throttle_window limit calls m
    (Hm : mem_throttles m = ∅) (Hsorted : Sorted Z.le (map snd calls)) :
  let trace := (throttle_calls limit calls m).1 in
  (∀ key, window_bound (limit key) (accepted key trace)) ∧
  (∀ pre key t b post, trace = pre ++ (key, t, b) :: post →
     b = true ↔ (length (live_calls t (accepted key pre)) < limit key)%nat).
Proof.
  assert (∃ t0, Sorted Z.le (t0 :: map snd calls)) as [t0 Hs].
  { destruct calls as [|[k t] calls]; [exists 0%Z; by repeat constructor|].
    exists t. constructor; [done|]. by constructor. }
  assert (throttle_inv limit t0 [] m) as Hinv.
  { intros key. unfold throttles_of. rewrite Hm, lookup_empty. split; [by split|]. intros t. unfold in_window. simpl. lia. }
  split.
  - intros key. destruct (throttle_calls_inv _ _ _ _ _ Hinv Hs) as [last Hl]. apply (Hl key).
  - intros pre key t b post Htr. by apply (throttle_calls_verdict _ _ _ _ _ _ _ _ _ _ Hinv Hs) in Htr.
Qed.

(** C36: The dispatch slots count exactly the dispatches in flight: over every
    sequence of calls the two counters are the number in flight and the number of
    each device (with no entry at zero), there are never more than 32 and four,
    and a slot is refused exactly when one of these is reached. *)
Theorem slots_exact w0 w flight
    (Hm : w_mem w0 = mkMemory ∅ 0 ∅) (Hreach : rtc slot_step (w0, []) (w, flight)) :
  slots (w_mem w) flight ∧ within_limits flight ∧
  ∀ device, (acquire device w).1 = Ok (negb ((32 <=? Z.of_nat (length flight))%Z || (4 <=? count device flight)%Z)).
Proof.
  assert (slots (w_mem w) flight ∧ within_limits flight) as [Hs Hl].
  { apply (slot_steps_inv _ _ Hreach); simpl; [rewrite Hm|].
    - split; [done|]. intros d. simpl. by rewrite lookup_empty.
    - split; [simpl; lia|]. by intros d. }
  split_and!; [done..|].
  intros device. destruct (acquire_slots device w flight Hs) as [-> _]. by destruct (_ || _).
Qed.

(** * Witnesses *)

Definition no_calls : memory := mkMemory ∅ 0 ∅.
Definition login_calls : list (string * Z) := [("login", 0%Z); ("login", 5%Z); ("enroll", 6%Z); ("login", 7%Z); ("login", minute)].

Lemma throttle_window_witness :
  mem_throttles no_calls = ∅ ∧ Sorted Z.le (map snd login_calls) ∧
  map snd (throttle_calls (λ _, 2%nat) login_calls no_calls).1 = [true; true; true; false; true] ∧
  ∀ key, window_bound 2 (accepted key (throttle_calls (λ _, 2%nat) login_calls no_calls).1).
Proof.
  assert (Sorted Z.le (map snd login_calls)) as Hs.
  { unfold login_calls. simpl. repeat constructor; vm_compute; discriminate. }
  split; [reflexivity|]. split; [exact Hs|]. split; [vm_compute; reflexivity|].
  exact (proj1 (throttle_window (λ _, 2%nat) login_calls no_calls eq_refl Hs)).
Defined.

Lemma slots_exact_witness :
  w_mem sample_world = mkMemory ∅ 0 ∅ ∧
  rtc slot_step (sample_world, []) ((acquire "dev_1" sample_world).2, ["dev_1"]) ∧
  slots (w_mem (acquire "dev_1" sample_world).2) ["dev_1"] ∧ within_limits ["dev_1"].
Proof.
  assert (rtc slot_step (sample_world, []) ((acquire "dev_1" sample_world).2, ["dev_1"])) as Hr.
  { apply rtc_once. apply step_acquire. reflexivity. }
  split; [reflexivity|]. split; [exact Hr|].
  destruct (slots_exact sample_world (acquire "dev_1" sample_world).2 ["dev_1"] eq_refl Hr) as (H1 & H2 & _).
  split; assumption.
Defined.
