(* ===== verification/Owner.v ===== *)
(** The owner's side, src/internal/server/owner.go (and the invitation of tls.go):
    services, permissions, revocations, login, and the handler that guards them.

    Rendering a page reads the database and nothing else; a reply keeps what the
    handler decides, not the HTML. *)
From S2P Require Import Prelude GoStrings NetUrl Http GoTime Access Upstream Crypto Types Db Rules Samples.
From S2P Require Import Authorize Lifecycle Limits.

(** * Forms *)

(** [r.PostForm] and its [Get]. *)
Definition form : Type := gmap string (list string).
Definition form_Get (f : form) (key : string) : string :=
  match f !! key with Some (v :: _) => v | _ => EmptyString end.

Section owner.
Context `{GoCrypto} `{GoJSON}.

(** * Services *)

(** [headerList]: the loop with the names already taken. *)
Fixpoint header_names (credential : string) (names out : list string) : option (list string) :=
  match names with
  | [] => Some out
  | n :: rest =>
    let n := CanonicalHeaderKey (TrimSpace n) in
    if negb (HeaderName n) || Reserved n || EqualFold n credential then None
    else header_names credential rest (if bool_decide (n ∈ out) then out else out ++ [n])
  end.

Definition headerList (raw : string) (defaults : list string) (credential : string) : result string :=
  match header_names credential (if bool_decide (raw ≠ EmptyString) then Split "," raw else defaults) [] with
  | Some out => Ok (marshal_strings out)
  | None => Err (ErrMsg "reserved or invalid application header")
  end.

(** What the form of a service asks for, once it is checked. *)
Record service_form := mkServiceForm {
  sf_id : string;
  sf_label : string;
  sf_base : string;
  sf_auth : string;
  sf_credential : string;
  sf_header : string;
  sf_request : string;
  sf_response : string;
  sf_cidr : string;
}.

(** The switch over the authentication kinds: the credential that is kept. *)
Definition auth_credential (auth credential header : string) : result string :=
  if bool_decide (auth = "none") then Ok EmptyString else
  if bool_decide (auth = "bearer") then
    if bool_decide (credential = EmptyString) then Err (ErrMsg "credential required") else Ok credential
  else if bool_decide (auth = "header") then
    if bool_decide (credential = EmptyString) || negb (HeaderName header) || Reserved header
    then Err (ErrMsg "invalid authentication header") else Ok credential
  else if bool_decide (auth = "basic") then
    if negb (Contains credential ":") then Err (ErrMsg "basic credential requires username:password") else Ok credential
  else Err (ErrMsg "unsupported authentication").

(** [addService] up to its transaction. *)
Definition check_service (f : form) : result service_form :=
  let id := form_Get f "id" in
  if negb (Slug id) || (100 <? String.length (form_Get f "label"))%nat then Err (ErrMsg "invalid service identity") else
  Base (form_Get f "base_url");;
  let auth := form_Get f "auth" in
  let credential := form_Get f "credential" in
  let header := CanonicalHeaderKey (form_Get f "auth_header") in
  if negb (HeaderValue credential) then Err (ErrMsg "invalid credential") else
  credential ← auth_credential auth credential header;
  let header := if bool_decide (auth ≠ "header") then EmptyString else header in
  req ← headerList (form_Get f "request_headers") ["Accept"; "Content-Type"] header;
  res ← headerList (form_Get f "response_headers") ["Content-Type"; "Content-Encoding"; "Retry-After"] header;
  CIDR (form_Get f "private_cidr");;
  Ok (mkServiceForm id (form_Get f "label") (form_Get f "base_url") auth credential header req res
        (form_Get f "private_cidr")).

Definition service_row_of (sf : service_form) (encrypted : string) (revision : Z) : service_row :=
  mkServiceRow (sf_label sf) (sf_base sf) revision true (sf_auth sf) encrypted (sf_header sf) (sf_request sf)
    (sf_response sf) (sf_cidr sf).

(** [INSERT INTO services] and [UPDATE services SET .. WHERE id=?]. *)
Definition insert_service (id : string) (r : service_row) (d : database) : result (database * Z) :=
  match db_services d !! id with
  | Some _ => Err ErrConstraint
  | None => Ok (set_db_services (<[id := r]> (db_services d)) d, 1%Z)
  end.

Definition update_service (id : string) (f : service_row → service_row) (d : database) : result (database * Z) :=
  match db_services d !! id with
  | Some r => Ok (set_db_services (<[id := f r]> (db_services d)) d, 1%Z)
  | None => Ok (d, 0%Z)
  end.

(** The transaction of [addService]; [revise] is the path [/service-revise]. *)
Definition add_service_tx (owner : string) (revise : bool) (sf : service_form) : M world unit :=
  revision ← (if revise then
                r ← or_fail (query Tx (λ d, row (srv_revision <$> db_services d !! sf_id sf))) "service not found";
                mret (r + 1)%Z
              else mret 1%Z);
  encrypted ← Encrypt (credential_ref (sf_id sf) revision) (sf_credential sf);
  or_fail (if (revision =? 1)%Z
           then exec Tx (insert_service (sf_id sf) (service_row_of sf encrypted 1))
           else exec Tx (update_service (sf_id sf) (λ _, service_row_of sf encrypted revision)))
          "service could not be saved; verify its ID";;
  (if (1 <? revision)%Z then cancelRequests by_service (sf_id sf) "service_revised" else mret tt);;
  Audit Tx owner EmptyString (if revise then "service_revised" else "service_created") (sf_id sf);;
  commit.

Definition addService (owner : string) (revise : bool) (f : form) : M world unit :=
  sf ← lift (check_service f);
  with_tx (λ m, or_fail m "storage unavailable") (add_service_tx owner revise sf).

(** * Permissions *)

Record permission_form := mkPermissionForm {
  pf_device : string;
  pf_service : string;
  pf_methods : string;
  pf_path : string;
  pf_kind : string;
  pf_mode : string;
  pf_expires : option Z;
}.

Definition or_default (s default : string) : string := if bool_decide (s = EmptyString) then default else s.

(** [addPermission] up to its transaction. *)
Definition check_permission (f : form) : M world permission_form :=
  methods ← lift (or_error (Methods (form_Get f "method")) "unsupported method or path");
  let path := form_Get f "path" in
  if negb (Path path) then fail (ErrMsg "unsupported method or path") else
  let kind := or_default (form_Get f "path_kind") "exact" in
  let mode := or_default (form_Get f "mode") "standing" in
  if negb (bool_decide (kind = "exact") || bool_decide (kind = "subtree"))
     || negb (bool_decide (mode = "standing") || bool_decide (mode = "approval_required"))
  then fail (ErrMsg "invalid permission kind or mode") else
  expiry ← (if bool_decide (form_Get f "expires" ≠ EmptyString) then
              match ParseRFC3339 (form_Get f "expires") with
              | None => fail (ErrMsg "expiry must be a future RFC3339 timestamp")
              | Some t =>
                now ← time_Now;
                if negb (now <? t)%Z then fail (ErrMsg "expiry must be a future RFC3339 timestamp")
                else mret (Some (Unix t))
              end
            else mret None);
  mret (mkPermissionForm (form_Get f "device") (form_Get f "service") methods path kind mode expiry).

(** The rows the new permission is compared with; [Overlap] reads the method, path
    and kind that the query selects. *)
Definition rival_rows (device service : string) (revision now : Z) (d : database) : list Permission :=
  active_rows device service revision now (map_to_list (db_permissions d)).

(** [INSERT INTO permissions]: the primary key and the three references. *)
Definition insert_permission (id : string) (p : permission_row) (d : database) : result (database * Z) :=
  if bool_decide (is_Some (db_permissions d !! id)) || bool_decide (db_devices d !! pm_device p = None)
     || bool_decide (db_services d !! pm_service p = None) || bool_decide (db_owners d !! pm_owner p = None)
  then Err ErrConstraint
  else Ok (set_db_permissions (<[id := p]> (db_permissions d)) d, 1%Z).

Definition candidate (pf : permission_form) : Permission :=
  mkPermission EmptyString EmptyString EmptyString (pf_methods pf) (pf_path pf) (pf_kind pf) EmptyString EmptyString 0 None.

Definition permission_row_of (pf : permission_form) (service : string) (revision : Z) (owner : string) : permission_row :=
  mkPermissionRow (pf_device pf) service revision (pf_methods pf) (pf_path pf) (pf_kind pf) (pf_mode pf) owner
    (pf_expires pf) false.

Definition add_permission_tx (owner : string) (pf : permission_form) : M world unit :=
  svc ← or_fail (GetService Tx (pf_service pf)) "active service and device required";
  active ← ActiveDevice Tx (pf_device pf);
  if negb active then fail (ErrMsg "active service and device required") else
  now ← now_Unix;
  '(rows, bad) ← query_rows Tx (rival_rows (pf_device pf) (svc_ID svc) (svc_Revision svc) now);
  if (bad : bool) then fail ErrIO else
  if existsb (Overlap (candidate pf)) rows then fail (ErrMsg "permission overlaps an active rule") else
  id ← new_ID "perm_";
  or_fail (exec Tx (insert_permission id (permission_row_of pf (svc_ID svc) (svc_Revision svc) owner)))
    "permission could not be created";;
  Audit Tx owner (pf_device pf) "permission_created" id;;
  commit.

Definition addPermission (owner : string) (f : form) : M world unit :=
  pf ← check_permission f;
  with_tx (λ m, m) (add_permission_tx owner pf).

(** * Revocation *)

Definition set_permission_revoked (id : string) (d : database) : result (database * Z) :=
  match db_permissions d !! id with
  | Some p => Ok (set_db_permissions (<[id := set_pm_revoked true p]> (db_permissions d)) d, 1%Z)
  | None => Ok (d, 0%Z)
  end.

Definition revokePermission (owner id : string) : M world unit :=
  with_tx (λ m, m) (
    n ← exec Tx (set_permission_revoked id);
    if (n =? 0)%Z then fail (ErrMsg "permission not found") else
    cancelRequests by_permission id "permission_revoked";;
    Audit Tx owner EmptyString "permission_revoked" id;;
    commit).

(** [SET enabled=0,revision=revision+1]. *)
Definition disable_row (r : service_row) : service_row :=
  mkServiceRow (srv_label r) (srv_base_url r) (srv_revision r + 1) false (srv_auth r) (srv_credential r)
    (srv_auth_header r) (srv_request_headers r) (srv_response_headers r) (srv_private_cidr r).

Definition disableService (owner id : string) : M world unit :=
  with_tx (λ m, m) (
    n ← exec Tx (update_service id disable_row);
    if (n =? 0)%Z then fail (ErrMsg "service not found") else
    cancelRequests by_service id "service_disabled";;
    Audit Tx owner EmptyString "service_disabled" id;;
    commit).

Definition revoke (owner id : string) : M world unit :=
  with_tx (λ m, m) (
    n ← exec Tx (set_device_revoked id);
    if (n =? 0)%Z then fail ErrNoRows else
    cancelRequests by_device id "device_revoked";;
    Audit Tx owner id "device_revoked" id;;
    commit).

(** * Invitations *)

Definition insert_device (id label : string) (d : database) : result (database * Z) :=
  match db_devices d !! id with
  | Some _ => Err ErrConstraint
  | None => Ok (set_db_devices (<[id := mkDevice label false EmptyString 0]> (db_devices d)) d, 1%Z)
  end.

Definition insert_invitation (hash device : string) (expires : Z) (d : database) : result (database * Z) :=
  if bool_decide (is_Some (db_invitations d !! hash)) || bool_decide (db_devices d !! device = None)
  then Err ErrConstraint
  else Ok (set_db_invitations (<[hash := mkInvitation device expires false]> (db_invitations d)) d, 1%Z).

(** The secret of the invitation; the address and the root come from the authority. *)
Definition Invitation (owner label : string) : M world string :=
  id ← new_ID "dev_";
  secret ← new_ID EmptyString;
  with_tx (λ m, m) (
    exec Tx (insert_device id label);;
    now ← time_Now;
    exec Tx (insert_invitation (Hash secret) id (Unix (now + 5 * minute)));;
    Audit Tx owner id "invitation_created" id;;
    commit;;
    mret secret).

(** * Sessions *)

Definition insert_session (hash : string) (s : session_row) (d : database) : result (database * Z) :=
  if bool_decide (is_Some (db_sessions d !! hash)) || bool_decide (db_owners d !! sess_owner s = None)
  then Err ErrConstraint
  else Ok (set_db_sessions (<[hash := s]> (db_sessions d)) d, 1%Z).

(** What a reply to the owner's browser decides.  [SeeOther] carries the session
    token that the login sets as a cookie. *)
Inductive owner_reply :=
| Refuse (status : Z) (code : string)
| StaticFile
| Review (csrf : string) (st : Status) (snap : option Snapshot)
| Home (csrf : string) (logged_in : bool)
| InvitationPage (csrf secret : string)
| FormError (csrf message : string)
| SeeOther (session : option string).

(** [SELECT id,password_hash FROM owners LIMIT 1] *)
Definition first_owner (d : database) : result (string * string) := row (head (map_to_list (db_owners d))).

Definition login (password : string) : M world owner_reply :=
  ok ← throttle "login" 10;
  if negb ok then mret (Refuse 429 "throttled") else
  r ← attempt (query DB first_owner);
  match r with
  | Ok (id, hash) =>
    if negb (CheckPassword hash password) then mret (Refuse 401 "invalid_login") else
    token ← new_ID EmptyString;
    csrf ← new_ID EmptyString;
    now ← time_Now;
    r ← attempt (exec DB (insert_session (Hash token) (mkSession id csrf (Unix (now + 8 * hour)))));
    match r with
    | Ok _ => mret (SeeOther (Some token))
    | Err _ => mret (Refuse 503 "storage_unavailable")
    end
  | Err _ => mret (Refuse 401 "invalid_login")
  end.

(** [review]: the status and, unless it is purged, the snapshot. *)
Definition review (id csrf : string) : M world owner_reply :=
  r ← attempt (RequestStatus EmptyString id);
  match r with
  | Err _ => mret (Refuse 404 "request_not_found")
  | Ok st =>
    if st_PayloadPurged st then mret (Review csrf st None) else
    b ← attempt begin_tx;
    match b with
    | Err _ => mret (Refuse 503 "storage_unavailable")
    | Ok _ =>
      s ← attempt (finally (snapshot id) rollback);
      match s with
      | Err _ => mret (Refuse 409 "snapshot_integrity_failed")
      | Ok snap => mret (Review csrf st (Some snap))
      end
    end
  end.

(** * The handler *)

(** A request to the owner's listener: the two cookies, the [id] of the query, and
    the form if the body parses. *)
Record owner_request := mkOwnerRequest {
  or_request : request;
  or_tls : bool;
  or_session : option string;
  or_login : option string;
  or_query_id : string;
  or_form : option form;
}.

(** The Host, Origin and Sec-Fetch-Site checks. *)
Definition origin_ok (host : string) (r : owner_request) : bool :=
  let q := or_request r in
  let origin := (if or_tls r then "https://" else "http://") +:+ host in
  bool_decide (rHost q = host)
  && (bool_decide (Get (rHeader q) "Origin" = EmptyString) || bool_decide (Get (rHeader q) "Origin" = origin))
  && negb (bool_decide (Get (rHeader q) "Sec-Fetch-Site" = "cross-site")).

(** The session of the cookie; every failure of the query is no session. *)
Definition session_row_at (hash : string) (now : Z) (d : database) : result (string * string) :=
  match db_sessions d !! hash with
  | Some s => if (now <? sess_expires s)%Z then Ok (sess_owner s, sess_csrf s) else Err ErrNoRows
  | None => Err ErrNoRows
  end.

Definition current_session (cookie : option string) : M world (string * string) :=
  match cookie with
  | None => mret (EmptyString, EmptyString)
  | Some c =>
    now ← now_Unix;
    r ← attempt (query DB (session_row_at (Hash c) now));
    mret (match r with Ok s => s | Err _ => (EmptyString, EmptyString) end)
  end.

(** The switch over the paths of a checked form; [None] is an unknown path. *)
Definition owner_action (owner path : string) (cookie : option string) (f : form) : option (M world (option string)) :=
  if bool_decide (path = "/decision") then
    Some (Decide owner (form_Get f "id") (form_Get f "digest") (form_Get f "decision");; mret None)
  else if bool_decide (path = "/service") || bool_decide (path = "/service-revise") then
    Some (addService owner (bool_decide (path = "/service-revise")) f;; mret None)
  else if bool_decide (path = "/permission") then Some (addPermission owner f;; mret None)
  else if bool_decide (path = "/invite") then
    Some (if (String.length (form_Get f "label") <? 1)%nat || (100 <? String.length (form_Get f "label"))%nat
          then fail (ErrMsg "invalid device label")
          else secret ← Invitation owner (form_Get f "label"); mret (Some secret))
  else if bool_decide (path = "/revoke-device") then Some (revoke owner (form_Get f "id");; mret None)
  else if bool_decide (path = "/revoke-permission") then Some (revokePermission owner (form_Get f "id");; mret None)
  else if bool_decide (path = "/disable-service") then Some (disableService owner (form_Get f "id");; mret None)
  else if bool_decide (path = "/logout") then
    Some (exec DB (λ d, Ok (set_db_sessions (delete (Hash (default EmptyString cookie)) (db_sessions d)) d, 1%Z));; mret None)
  else None.

Definition error_text (e : error) : string := match e with ErrMsg m => m | ErrNoRows => "sql: no rows in result set" | _ => "storage" end.

Definition OwnerHandler (host : string) (r : owner_request) : M world owner_reply :=
  let q := or_request r in
  let path := UPath (rURL q) in
  if negb (origin_ok host r) then mret (Refuse 403 "owner_origin_rejected") else
  if bool_decide (rMethod q = "GET") && (bool_decide (path = "/static/style.css") || bool_decide (path = "/static/poll.js"))
  then mret StaticFile else
  '(owner, csrf) ← current_session (or_session r);
  if bool_decide (rMethod q = "GET") && bool_decide (path = "/request") then
    if bool_decide (owner = EmptyString) then mret (Refuse 401 "owner_login_required")
    else review (or_query_id r) csrf
  else if bool_decide (rMethod q = "GET") && (bool_decide (path = "/") || bool_decide (path = "/inbox")) then
    if bool_decide (owner = EmptyString) then fresh ← new_ID EmptyString; mret (Home fresh false)
    else mret (Home csrf true)
  else if bool_decide (rMethod q ≠ "POST") then mret (Refuse 404 "not_found") else
  match or_form r with
  | None => mret (Refuse 400 "invalid_form")
  | Some f =>
    if bool_decide (path = "/login") then
      let pre := default EmptyString (or_login r) in
      if bool_decide (pre = EmptyString) || bool_decide (pre ≠ form_Get f "csrf") then mret (Refuse 403 "csrf_rejected")
      else login (form_Get f "password")
    else if bool_decide (owner = EmptyString) then mret (Refuse 401 "owner_login_required")
    else if bool_decide (csrf = EmptyString) || bool_decide (csrf ≠ form_Get f "csrf") then mret (Refuse 403 "csrf_rejected")
    else match owner_action owner path (or_session r) f with
         | None => mret (Refuse 404 "not_found")
         | Some action =>
           x ← attempt action;
           mret (match x with
                 | Ok None => SeeOther None
                 | Ok (Some secret) => InvitationPage csrf secret
                 | Err e => FormError csrf (error_text e)
                 end)
         end
  end.

End owner.
