(* ===== verification/Device.v ===== *)
(** The devices' side, src/internal/server/server.go and the handlers of
    requests.go and renewal.go: certificate authentication, enrolment, renewal,
    the list of scopes, submission and status over HTTP, and the ordinary request
    that is checked, audited and streamed.

    A certificate is what the program reads of it; the X.509 encoding, the
    signature of a request and its key are the library's and come with the
    request.  The transport is an argument. *)
From S2P Require Import Prelude GoStrings NetUrl Http Access Upstream Crypto Types Db Rules Samples Authorize.
From S2P Require Import Lifecycle Limits.

(** * Certificates *)

(** A client certificate the TLS layer verified: name and validity (nanoseconds). *)
Record certificate := mkCertificate {
  c_name : string;
  c_not_before : Z;
  c_not_after : Z;
}.

(** A certificate signing request that parses: whether its signature verifies and
    whether its key is on P-256. *)
Record csr := mkCsr { csr_signature : bool; csr_p256 : bool }.

(** A certificate the authority issued; the parsed [NotAfter] has whole seconds. *)
Record issued := mkIssued {
  i_name : string;
  i_serial : string;
  i_expires : Z;
}.

Section device.
Context `{GoCrypto} `{GoJSON}.

(** [serial()]: a random number below 2^128, as its sixteen bytes. *)
Definition serial : M world string := Random 16.

Definition issue (device : string) (request : option csr) : M world issued :=
  match request with
  | None => fail (ErrMsg "invalid CSR")
  | Some c =>
    if negb (csr_signature c) then fail (ErrMsg "invalid CSR") else
    if negb (csr_p256 c) then fail (ErrMsg "CSR requires P-256 key") else
    n ← serial;
    time_Now;;
    now ← time_Now;
    fault;;                                             (* [x509.CreateCertificate] *)
    mret (mkIssued device n (Unix (now + 30 * 24 * hour)))
  end.

(** [x509.ParseCertificate] of what was issued; that its failure is not one of the
    handler's own checks makes it one of those that the world has in store. *)
Definition parse_issued : M world unit := fault.

(** * Replies *)

Record scope_entry := mkScope {
  sc_service : string;
  sc_label : string;
  sc_permission : string;
  sc_methods : list string;
  sc_path : string;
  sc_kind : string;
  sc_mode : string;
  sc_expires : option Z;
}.

(** What a handler writes.  [Proxied] is the upstream's status, the filtered headers,
    the bytes streamed, and whether the stream ended well ([false]: the connection
    is aborted); [Dropped] is a wait that its client gave up. *)
Inductive device_reply :=
| DRefuse (status : Z) (code : string)
| Certificate (c : issued)
| Scopes (l : list scope_entry)
| StatusReply (st : Status)
| Proxied (status : Z) (h : header) (n : nat) (ok : bool)
| Dropped.

(** * Authentication *)

Definition device (tls : option certificate) : M world string :=
  match tls with
  | None => fail (ErrMsg "device_unauthenticated")
  | Some c =>
    now ← time_Now;
    if (now <? c_not_before c)%Z || negb (now <? c_not_after c)%Z then fail (ErrMsg "device_revoked") else
    active ← ActiveDevice DB (c_name c);
    if negb active then fail (ErrMsg "device_revoked") else mret (c_name c)
  end.

(** * Enrolment and renewal *)

(** The join of the invitation and its device. *)
Definition open_invitation (hash : string) (now : Z) (d : database) : result string :=
  match db_invitations d !! hash with
  | Some i => if negb (inv_used i) && (now <? inv_expires i)%Z && device_active d (inv_device i)
              then Ok (inv_device i) else Err ErrNoRows
  | None => Err ErrNoRows
  end.

Definition use_invitation (hash : string) (d : database) : result (database * Z) :=
  match db_invitations d !! hash with
  | Some i => Ok (set_db_invitations (<[hash := set_inv_used true i]> (db_invitations d)) d, 1%Z)
  | None => Ok (d, 0%Z)
  end.

Definition set_certificate (id : string) (c : issued) (d : database) : result (database * Z) :=
  match db_devices d !! id with
  | Some r => Ok (set_db_devices (<[id := mkDevice (dev_label r) (dev_revoked r) (i_serial c) (i_expires c)]> (db_devices d)) d, 1%Z)
  | None => Ok (d, 0%Z)
  end.

(** [attempt] with the reply of the error branch: [if e != nil { Error(w,..); return }]. *)
Definition try_ {A} (m : M world A) (status : Z) (code : string) (k : A → M world device_reply) : M world device_reply :=
  r ← attempt m;
  match r with Ok a => k a | Err _ => mret (DRefuse status code) end.

(** [tx, e := Begin(); if e != nil {..503..}; defer tx.Rollback()] around a handler. *)
Definition in_tx (k : M world device_reply) : M world device_reply :=
  try_ begin_tx 503 "storage_unavailable" (λ _, finally k rollback).

Definition enroll_tx (secret : string) (request : option csr) : M world device_reply :=
  now ← now_Unix;
  try_ (query Tx (open_invitation (Hash secret) now)) 403 "invitation_invalid" (λ id,
  try_ (issue id request) 400 "invalid_csr" (λ c,
  try_ (exec Tx (use_invitation (Hash secret))) 503 "storage_unavailable" (λ _,
  try_ parse_issued 500 "certificate_failed" (λ _,
  try_ (exec Tx (set_certificate id c)) 503 "storage_unavailable" (λ _,
  try_ (Audit Tx EmptyString id "enrolled" id) 503 "storage_unavailable" (λ _,
  try_ commit 503 "storage_unavailable" (λ _, mret (Certificate c)))))))).

Definition enroll (body : option (string * option csr)) : M world device_reply :=
  ok ← throttle "enroll" 20;
  if negb ok then mret (DRefuse 429 "throttled") else
  match body with
  | None => mret (DRefuse 400 "invalid_enrollment")
  | Some (secret, request) => in_tx (enroll_tx secret request)
  end.

(** [renew] of renewal.go, for an authenticated device and its certificate. *)
Definition renew_tx (device : string) (request : option csr) : M world device_reply :=
  active ← ActiveDevice Tx device;
  if negb active then mret (DRefuse 401 "device_revoked") else
  try_ (issue device request) 400 "invalid_csr" (λ c,
  try_ parse_issued 500 "certificate_failed" (λ _,
  try_ (exec Tx (set_certificate device c)) 503 "storage_unavailable" (λ _,
  try_ (Audit Tx EmptyString device "certificate_renewed" device) 503 "storage_unavailable" (λ _,
  try_ commit 503 "storage_unavailable" (λ _, mret (Certificate c)))))).

Definition renew (device : string) (c : certificate) (body : option (option csr)) : M world device_reply :=
  ok ← throttle ("renew:" +:+ device) 5;
  if negb ok then mret (DRefuse 429 "throttled") else
  now ← time_Now;
  if (7 * 24 * hour <? c_not_after c - now)%Z then mret (DRefuse 409 "renewal_not_due") else
  match body with
  | None => mret (DRefuse 400 "invalid_csr")
  | Some request => in_tx (renew_tx device request)
  end.

(** * Scopes *)

Definition scope_le (a b : scope_entry) : Prop :=
  String.le (sc_service a) (sc_service b) ∧ (sc_service a = sc_service b → String.le (sc_permission a) (sc_permission b)).

#[export] Instance scope_le_dec : RelDecision scope_le.
Proof. intros a b. unfold scope_le. apply _. Defined.

(** The rows of the join, in the order of the service and the permission. *)
Definition scope_of (d : database) (device : string) (now : Z) (r : string * permission_row) : option scope_entry :=
  s ← db_services d !! pm_service r.2;
  if bool_decide (pm_device r.2 = device) && srv_enabled s && (pm_revision r.2 =? srv_revision s)%Z
     && negb (pm_revoked r.2) && live (pm_expires r.2) now
  then Some (mkScope (pm_service r.2) (srv_label s) r.1 (Split "," (pm_method r.2)) (pm_path r.2) (pm_kind r.2)
               (pm_mode r.2) (pm_expires r.2))
  else None.

Definition scope_rows (device : string) (now : Z) (d : database) : list scope_entry :=
  merge_sort scope_le (omap (scope_of d device now) (map_to_list (db_permissions d))).

Definition services (device : string) : M world device_reply :=
  now ← now_Unix;
  try_ (query_rows DB (scope_rows device now)) 503 "storage_unavailable" (λ '(l, _), mret (Scopes l)).

(** * Submission and status *)

(** [decode]: the body within the limit of [MaxBytesReader], one JSON value without
    unknown fields and nothing after it, which is what [strict] accepts. *)
Definition decode {A} (limit : N) (strict : string → option A) (body : string) : option A :=
  if (limit <? len body)%N then None else strict body.

Definition submit_status (e : error) : Z :=
  match e with
  | ErrMsg m => if bool_decide (m = "idempotency_conflict") then 409
                else if bool_decide (m = "permission_denied") then 403
                else if bool_decide (m = "pending_limit") then 429 else 400
  | _ => 400
  end.

Definition error_code (e : error) : string := match e with ErrMsg m => m | _ => "storage" end.

Definition submit (device : string) (body : string) : M world device_reply :=
  ok ← throttle ("submit:" +:+ device) 30;
  if negb ok then mret (DRefuse 429 "throttled") else
  match decode 524288 decode_submission body with
  | None => mret (DRefuse 400 "invalid_submission")
  | Some i =>
    match Normalize i with
    | Err e => mret (DRefuse 400 (error_code e))
    | Ok i =>
      r ← attempt (Submit device i);
      match r with
      | Err e => mret (DRefuse (submit_status e) (error_code e))
      | Ok id => try_ (RequestStatus device id) 503 "storage_unavailable" (λ st, mret (StatusReply st))
      end
    end
  end.

(** The polling loop.  A wait either is given up by the client ([None]) or lasts
    200 ms in which the rest of the server does what it does. *)
Fixpoint status_loop (device id : string) (wait deadline : Z) (waits : list (option (world → world)))
    : M world device_reply :=
  try_ (RequestStatus device id) 404 "request_not_found" (λ st,
    over ← (if (wait =? 0)%Z then mret true else now ← time_Now; mret (deadline <? now)%Z);
    if over || terminal (st_Status st) then mret (StatusReply st) else
    match waits with
    | Some f :: rest => modify f;; status_loop device id wait deadline rest
    | _ => mret Dropped
    end).

Definition status_ (device : string) (body : string) (waits : list (option (world → world))) : M world device_reply :=
  match decode 4096 decode_status_input body with
  | Some i =>
    if (si_WaitSeconds i <? 0)%Z || (15 <? si_WaitSeconds i)%Z then mret (DRefuse 400 "invalid_status_request") else
    now ← time_Now;
    status_loop device (si_RequestID i) (si_WaitSeconds i) (now + si_WaitSeconds i * second)%Z waits
  | None => mret (DRefuse 400 "invalid_status_request")
  end.

(** * The ordinary request *)

(** An upstream response as it is streamed. *)
Record http_response := mkHttpResponse {
  hr_status : Z;
  hr_header : header;
  hr_turns : list turn;
}.

(** A request to the devices' listener, with what its body decodes to where the
    handler decodes it. *)
Record device_request := mkDeviceRequest {
  dr_request : request;
  dr_tls : option certificate;
  dr_body : string;
  dr_enroll : option (string * option csr);
  dr_renew : option (option csr);
}.

Definition body_max : N := 8388608.

(** The transaction that authorises and audits a request: what to send, or the
    refusal. *)
Definition http_claim (device service method path query : string)
    : M world (device_reply + Service * Permission * string) :=
  a ← attempt (Authorize Tx device service method path);
  match a with
  | Err _ => mret (inl (DRefuse 403 "permission_denied"))
  | Ok (svc, p) =>
    if bool_decide (perm_Mode p ≠ "standing") then mret (inl (DRefuse 403 "approval_required")) else
    match Target (svc_BaseURL svc) path query with
    | Err _ => mret (inl (DRefuse 400 "invalid_request"))
    | Ok target =>
      u ← attempt (Audit Tx EmptyString device "http_claim" (perm_ID p));
      match u with
      | Err _ => mret (inl (DRefuse 503 "storage_unavailable"))
      | Ok _ =>
        c ← attempt commit;
        match c with
        | Err _ => mret (inl (DRefuse 503 "storage_unavailable"))
        | Ok _ => mret (inr (svc, p, target))
        end
      end
    end
  end.

Definition httpAudit (device service permission method : string) (status started req res : Z) : M world unit :=
  now ← time_Now;
  attempt (exec DB (λ d, Ok (set_db_http_events (db_http_events d ++
    [mkHttpEvent device service permission method status ((now - started) / 1000000)%Z req res]) d, 1%Z)));;
  mret tt.

(** The send and the stream, after the claim is committed. *)
Definition http_send (device : string) (r : request) (body : string) (svc : Service) (p : Permission) (target : string)
    (transport : outgoing → transport_result http_response) : M world device_reply :=
  try_ (Decrypt (credential_ref (svc_ID svc) (svc_Revision svc)) (svc_Credential svc)) 500 "credential_unavailable" (λ secret,
  started ← time_Now;
  match Send svc (rMethod r) target (rHeader r) body secret transport with
  | Sent res =>
    let '(h, (n, ok)) := Stream (Del (hr_header res) (svc_AuthHeader svc)) (svc_ResponseHeaders svc) (hr_turns res) in
    httpAudit device (svc_ID svc) (perm_ID p) (rMethod r) (hr_status res) started (Z.of_N (len body)) (Z.of_nat n);;
    mret (Proxied (hr_status res) h n ok)
  | NotSent | SendError =>
    httpAudit device (svc_ID svc) (perm_ID p) (rMethod r) 502 started (Z.of_N (len body)) 0;;
    mret (DRefuse 502 "upstream_unavailable")
  end).

Definition http_request (device : string) (r : request) (body service path : string)
    (transport : outgoing → transport_result http_response) : M world device_reply :=
  ok ← acquire device;
  if negb ok then mret (DRefuse 429 "overloaded") else
  finally (
    if (body_max <? len body)%N then mret (DRefuse 413 "body_too_large") else
    try_ begin_tx 503 "storage_unavailable" (λ _,
      c ← finally (http_claim device service (rMethod r) path (RawQuery (rURL r))) rollback;
      match c with
      | inl reply => mret reply
      | inr (svc, p, target) => http_send device r body svc p target transport
      end))
    (λ w, (release device w).2).

Definition DeviceHandler (r : device_request) (waits : list (option (world → world)))
    (transport : outgoing → transport_result http_response) : M world device_reply :=
  let q := dr_request r in
  let path := UPath (rURL q) in
  if bool_decide (path = "/enroll") && bool_decide (rMethod q = "POST") then enroll (dr_enroll r) else
  d ← attempt (device (dr_tls r));
  match d, dr_tls r with
  | Ok device, Some cert =>
    if bool_decide (path = "/device/renew") && bool_decide (rMethod q = "POST") then renew device cert (dr_renew r) else
    if bool_decide (path = "/device/services") && bool_decide (rMethod q = "GET") then services device else
    if bool_decide (path = "/device/request") && bool_decide (rMethod q = "POST") then submit device (dr_body r) else
    if bool_decide (path = "/device/status") && bool_decide (rMethod q = "POST") then status_ device (dr_body r) waits else
    match Route q with
    | None => mret (DRefuse 400 "invalid_request")
    | Some (service, path) => http_request device q (dr_body r) service path transport
    end
  | Err e, _ => mret (DRefuse 401 (error_code e))
  | Ok _, None => mret (DRefuse 401 "device_unauthenticated")
  end.

End device.
