(* ===== verification/Refusals.v ===== *)
(** The refusals of the devices' handler: every one is an entry of a fixed table of
    status and code, whatever the request and whatever fails, so that no text of a
    failing statement or library reaches a device.

    [Raises E m]: an error of [m] has its code in [E]; [Refuses R m]: a refusal that
    [m] replies with is in [R]. *)
From S2P Require Import Prelude GoStrings NetUrl Http Access Upstream Crypto Types Db Rules Samples.
From S2P Require Import Authorize Lifecycle Limits Device.

Class Raises {A} (E : list string) (m : M world A) : Prop := raises w e : (m w).1 = Err e → error_code e ∈ E.
Class Refuses (R : list (Z * string)) (m : M world device_reply) : Prop :=
  refuses w s c : (m w).1 = Ok (DRefuse s c) → (s, c) ∈ R.
#[export] Hint Mode Raises ! - ! : typeclass_instances.
#[export] Hint Mode Refuses - ! : typeclass_instances.

(** Membership in a table of constants is computed. *)
Ltac member := apply (bool_decide_unpack _); vm_compute; exact I.
#[export] Hint Extern 1 (_ ∈ _) => first [assumption | member] : typeclass_instances.

(** * Errors *)

Section raises.
Context {A B : Type} (E : list string).

#[export] Instance raises_ret (a : A) : Raises E (mret a).
Proof. by intros w e. Qed.

#[export] Instance raises_fail e : error_code e ∈ E → Raises E (@fail world A e).
Proof. by intros He w e' [= <-]. Qed.

#[export] Instance raises_bind (m : M world A) (f : A → M world B) :
  Raises E m → (∀ a, Raises E (f a)) → Raises E (m ≫= f).
Proof.
  intros Hm Hf w e. unfold mbind, M_bind. pose proof (Hm w) as H. destruct (m w) as [[a|x] w']; [apply Hf|].
  intros [= <-]. by apply H.
Qed.

#[export] Instance raises_attempt (m : M world A) : Raises E (attempt m).
Proof. intros w e. unfold attempt. by destruct (m w). Qed.

#[export] Instance raises_or_fail (m : M world A) msg : msg ∈ E → Raises E (or_fail m msg).
Proof. intros Hm w e. unfold or_fail. destruct (m w) as [[a|x] w']; [done|]. by intros [= <-]. Qed.

#[export] Instance raises_finally (m : M world A) fin : Raises E m → Raises E (finally m fin).
Proof. intros Hm w e. pose proof (Hm w) as H. unfold finally. destruct (m w). apply H. Qed.

Lemma raises_lift (r : result A) : (∀ e, r = Err e → error_code e ∈ E) → Raises E (@lift world A r).
Proof. intros Hr w e. apply Hr. Qed.

(** Computations without errors. *)
Lemma raises_never (m : M world A) : (∀ w, ∃ a w', m w = (Ok a, w')) → Raises E m.
Proof. intros Hm w e. by destruct (Hm w) as (a & w' & ->). Qed.

#[export] Instance raises_gets (f : world → A) : Raises E (gets f).
Proof. apply raises_never. intros w. by do 2 eexists. Qed.
End raises.

#[export] Instance raises_time_Now E : Raises E time_Now.
Proof. apply raises_never. intros w. unfold time_Now. destruct (w_ticks w); by do 2 eexists. Qed.

#[export] Instance raises_now_Unix E : Raises E now_Unix.
Proof. unfold now_Unix. apply _. Qed.

#[export] Instance raises_Random E n : Raises E (Random n).
Proof. apply raises_never. intros w. unfold Random. destruct (w_random w); by do 2 eexists. Qed.

#[export] Instance raises_new_ID E prefix : Raises E (new_ID prefix).
Proof. unfold new_ID. apply _. Qed.

#[export] Hint Extern 5 (Raises _ (match ?x with _ => _ end)) => destruct x : typeclass_instances.
#[export] Hint Extern 5 (Raises _ (let _ := _ in _)) => cbv zeta : typeclass_instances.

(** * Refusals *)

Section refuses.
Context (R : list (Z * string)).

#[export] Instance refuses_refusal s c : (s, c) ∈ R → Refuses R (mret (DRefuse s c)).
Proof. by intros Hr w ? ? [= <- <-]. Qed.

Lemma refuses_other r : (∀ s c, r ≠ DRefuse s c) → Refuses R (mret r).
Proof. intros Hr w s c [= ->]. by destruct (Hr s c). Qed.

#[export] Instance refuses_status st : Refuses R (mret (StatusReply st)).
Proof. by apply refuses_other. Qed.
#[export] Instance refuses_scopes l : Refuses R (mret (Scopes l)).
Proof. by apply refuses_other. Qed.
#[export] Instance refuses_certificate c : Refuses R (mret (Certificate c)).
Proof. by apply refuses_other. Qed.
#[export] Instance refuses_proxied s h n ok : Refuses R (mret (Proxied s h n ok)).
Proof. by apply refuses_other. Qed.
#[export] Instance refuses_dropped : Refuses R (mret Dropped).
Proof. by apply refuses_other. Qed.

#[export] Instance refuses_bind {A} (m : M world A) f : (∀ a, Refuses R (f a)) → Refuses R (m ≫= f).
Proof. intros Hf w s c. unfold mbind, M_bind. destruct (m w) as [[a|e] w']; [apply Hf|done]. Qed.

(** An error whose code is told. *)
Lemma refuses_told {A} E (m : M world A) f :
  Raises E m → (∀ a, Refuses R (f (Ok a))) → (∀ e, error_code e ∈ E → Refuses R (f (Err e))) → Refuses R (attempt m ≫= f).
Proof.
  intros Hm Ho He w s c. unfold mbind, M_bind, attempt. pose proof (Hm w) as H.
  destruct (m w) as [[a|e] w']; [apply Ho|]. apply He. by apply H.
Qed.

#[export] Instance refuses_finally m fin : Refuses R m → Refuses R (finally m fin).
Proof. intros Hm w s c. pose proof (Hm w) as H. unfold finally. destruct (m w). apply H. Qed.

#[export] Instance refuses_try {A} (m : M world A) s c k : (s, c) ∈ R → (∀ a, Refuses R (k a)) → Refuses R (try_ m s c k).
Proof. intros Hr Hk. unfold try_. apply refuses_bind. intros [a|e]; apply _. Qed.

End refuses.

#[export] Hint Extern 5 (Refuses _ (match ?x with _ => _ end)) => destruct x : typeclass_instances.

(** * The table *)

(** The errors of [Normalize] and of [Submit]. *)
Definition normalize_errors : list string :=
  ["invalid_submission"; "invalid_idempotency_key"; "invalid_query"; "invalid_header"; "duplicate_header"; "headers_too_large"].
Definition submit_errors : list string :=
  normalize_errors ++ ["permission_denied"; "idempotency_conflict"; "header_not_allowed"; "invalid_target"; "pending_limit";
    "storage_unavailable"].

Definition device_refusals : list (Z * string) :=
  map (pair 400%Z) ("storage_unavailable" :: "invalid_target" :: "header_not_allowed" :: normalize_errors) ++
  [(400, "invalid_request"); (400, "invalid_status_request"); (400, "invalid_csr"); (400, "invalid_enrollment");
   (401, "device_unauthenticated"); (401, "device_revoked");
   (403, "permission_denied"); (403, "approval_required"); (403, "invitation_invalid");
   (404, "request_not_found"); (409, "idempotency_conflict"); (409, "renewal_not_due"); (413, "body_too_large");
   (429, "throttled"); (429, "pending_limit"); (429, "overloaded");
   (500, "credential_unavailable"); (500, "certificate_failed"); (502, "upstream_unavailable"); (503, "storage_unavailable")]%Z.

Lemma normalize_headers_errors visits out size e :
  normalize_headers visits out size = Err e → error_code e ∈ normalize_errors.
Proof.
  revert out size. induction visits as [|[n v] visits IH]; intros out size; simpl; [done|].
  destruct (_ || _); [intros [= <-]; member|]. destruct (out !! _); [intros [= <-]; member|]. apply IH.
Qed.

Lemma Normalize_errors i e : Normalize i = Err e → error_code e ∈ normalize_errors.
Proof.
  unfold Normalize, Normalize_in. destruct (_ || _); [intros [= <-]; member|].
  destruct (negb _); [intros [= <-]; member|]. destruct (Target _ _ _); [|intros [= <-]; member].
  destruct (normalize_headers _ _ _) as [[out size]|x] eqn:E; simpl.
  - destruct (_ <? _)%N; [intros [= <-]; member|done].
  - intros [= <-]. by eapply normalize_headers_errors.
Qed.

Lemma ApplicationHeaders_errors i s e : ApplicationHeaders i s = Err e → error_code e ∈ submit_errors.
Proof.
  unfold ApplicationHeaders. generalize (∅ : header). induction (map_to_list (sub_Headers i)) as [|[n v] l IH]; intros h; simpl; [done|].
  destruct (_ || _); [intros [= <-]; member|apply IH].
Qed.

Section refusals.
Context `{GoCrypto} `{GoJSON}.

#[export] Instance raises_ActiveDevice E q id : Raises E (ActiveDevice q id).
Proof. unfold ActiveDevice. apply _. Qed.

#[export] Instance raises_Encrypt E purpose b : Raises E (Encrypt purpose b).
Proof. unfold Encrypt. apply _. Qed.

#[export] Instance raises_admit device p : Raises submit_errors (admit_request device p).
Proof. unfold admit_request. apply _. Qed.

#[export] Instance raises_Normalize i : Raises submit_errors (lift (Normalize i)).
Proof. apply raises_lift. intros e He. apply elem_of_app. left. by apply Normalize_errors in He. Qed.

#[export] Instance raises_ApplicationHeaders i s : Raises submit_errors (lift (ApplicationHeaders i s)).
Proof. apply raises_lift. apply ApplicationHeaders_errors. Qed.

#[export] Instance raises_Submit device i : Raises submit_errors (Submit device i).
Proof.
  unfold Submit, with_tx, submit_tx.
  assert (∀ b p q, Raises submit_errors (lift (or_error (Target b p q) "invalid_target"))) as Ht.
  { intros b p q. apply raises_lift. intros e. destruct (Target b p q); [done|]. intros [= <-]. member. }
  apply _.
Qed.

#[export] Instance raises_device tls : Raises ["device_unauthenticated"; "device_revoked"] (device tls).
Proof. unfold device. apply _. Qed.

Lemma submit_refusal e : error_code e ∈ submit_errors → (submit_status e, error_code e) ∈ device_refusals.
Proof.
  destruct e as [| | | | |m]; [intros Hc; exfalso; revert Hc; apply (bool_decide_unpack _); vm_compute; exact I..|].
  cbn [error_code]. unfold submit_errors, normalize_errors. rewrite elem_of_app, !elem_of_cons, elem_of_nil.
  intros Hc. assert (∀ x, m = x → (submit_status (ErrMsg x), x) ∈ device_refusals → (submit_status (ErrMsg m), m) ∈ device_refusals)
    as Hx by by intros x ->.
  destruct_or! Hc; try done; (eapply Hx; [exact Hc|member]).
Qed.

(** * The handlers *)

#[export] Instance refuses_enroll body : Refuses device_refusals (enroll body).
Proof. unfold enroll, in_tx, enroll_tx. apply _. Qed.

#[export] Instance refuses_renew device c body : Refuses device_refusals (renew device c body).
Proof. unfold renew, in_tx, renew_tx. apply _. Qed.

#[export] Instance refuses_services device : Refuses device_refusals (services device).
Proof. unfold services. apply _. Qed.

(** What follows the normalisation of a submission. *)
Lemma refuses_submission device i (k : string → M world device_reply) :
  (∀ id, Refuses device_refusals (k id)) →
  Refuses device_refusals (r ← attempt (Submit device i);
    match r with Err e => mret (DRefuse (submit_status e) (error_code e)) | Ok id => k id end).
Proof.
  intros Hk. apply (refuses_told _ submit_errors); [apply _|done|]. intros e He. by apply refuses_refusal, submit_refusal.
Qed.

#[export] Instance refuses_submit device body : Refuses device_refusals (submit device body).
Proof.
  unfold submit. apply refuses_bind. intros ok. destruct (negb ok); [apply _|].
  destruct (decode _ _ _) as [i|]; [|apply _]. destruct (Normalize i) as [n|e] eqn:En; [apply refuses_submission; apply _|].
  apply refuses_refusal. apply Normalize_errors in En. unfold device_refusals. rewrite elem_of_app. left.
  apply list_elem_of_fmap. exists (error_code e). split; [done|]. by do 3 right.
Qed.

#[export] Instance refuses_status_loop device id wait deadline waits :
  Refuses device_refusals (status_loop device id wait deadline waits).
Proof.
  induction waits as [|[f|] waits IH]; cbn [status_loop]; [apply _| |apply _].
  apply refuses_try; [member|]. intros st. apply refuses_bind. intros over. destruct (_ || _); apply _.
Qed.

#[export] Instance refuses_status_ device body waits : Refuses device_refusals (status_ device body waits).
Proof. unfold status_. destruct (decode _ _ _); apply _. Qed.

#[export] Instance refuses_http_send device r body svc p target transport :
  Refuses device_refusals (http_send device r body svc p target transport).
Proof.
  unfold http_send. apply refuses_try; [member|]. intros secret. apply refuses_bind. intros started.
  destruct (Send _ _ _ _ _ _ _) as [res| |]; [|apply _..]. destruct (Stream _ _ _) as [h [n ok]]. apply _.
Qed.

(** The refusals that the claim of an ordinary request hands to its handler. *)
Lemma http_claim_refusals device service method path query w r :
  (http_claim device service method path query w).1 = Ok (inl r) → ∃ s c, r = DRefuse s c ∧ (s, c) ∈ device_refusals.
Proof.
  assert (∀ s c w0, (s, c) ∈ device_refusals → ∀ r0, (Ok (@inl device_reply (Service * Permission * string) (DRefuse s c)), w0 : world).1
    = Ok (inl r0) → ∃ s c, r0 = DRefuse s c ∧ (s, c) ∈ device_refusals) as Hr.
  { intros s c w0 Hin r0 [= <-]. eauto. }
  unfold http_claim, attempt, mbind, M_bind. destruct (Authorize _ _ _ _ _ w) as [[[svc p]|e] w1]; [|apply Hr; member].
  destruct (bool_decide _); [apply Hr; member|]. destruct (Target _ _ _); [|apply Hr; member].
  destruct (Audit _ _ _ _ _ w1) as [[[]|e] w2]; [|apply Hr; member].
  destruct (commit w2) as [[[]|e] w3]; [done|apply Hr; member].
Qed.

#[export] Instance refuses_http_request device r body service path transport :
  Refuses device_refusals (http_request device r body service path transport).
Proof.
  unfold http_request. apply refuses_bind. intros ok. destruct (negb ok); [apply _|]. apply refuses_finally.
  destruct (_ <? _)%N; [apply _|]. apply refuses_try; [member|]. intros _ w s c.
  unfold mbind, M_bind, finally.
  destruct (http_claim device service (rMethod r) path (RawQuery (rURL r)) w) as [[[reply|[[svc p] target]]|e] w'] eqn:Hc; [|apply refuses|done].
  intros [= ->]. destruct (http_claim_refusals device service (rMethod r) path (RawQuery (rURL r)) w (DRefuse s c)) as (s' & c' & [= <- <-] & Hin);
    [by rewrite Hc|done].
Qed.

#[export] Instance refuses_DeviceHandler r waits transport : Refuses device_refusals (DeviceHandler r waits transport).
Proof.
  unfold DeviceHandler. cbv zeta. destruct (_ && _); [apply _|].
  apply (refuses_told _ ["device_unauthenticated"; "device_revoked"]); [apply _| |].
  - intros a. destruct (dr_tls r); [|apply _]. repeat (destruct (_ && _); [apply _|]). destruct (Route _) as [[? ?]|]; apply _.
  - intros e He. apply refuses_refusal. revert He. rewrite !elem_of_cons, elem_of_nil. intros [->|[->|[]]]; member.
Qed.

(** C12: The error contract of the devices' handler: whatever the request, the state
    and the failures, a refusal is one of twenty-nine pairs of a status and a code —
    never the text of a statement or library that failed. *)
Theorem DeviceHandler_refusals r waits transport w s c (Hr : (DeviceHandler r waits transport w).1 = Ok (DRefuse s c)) :
  (s, c) ∈ device_refusals.
Proof. by apply refuses in Hr. Qed.

End refusals.

(** * A witness: the database fails when a submission begins its transaction *)

#[local] Existing Instances plain_crypto plain_json.

Definition submitting_request : device_request :=
  mkDeviceRequest (mkRequest "POST" (mkURL "" "" None "" "/device/request" "" false "" "") "gateway" ∅)
    (Some (mkCertificate "dev_1" 0 (2000 * second))) (marshal_submission sample_get) None None.

(** A failing database is told as an error of the client here, while every other
    operation tells it as one of the server. *)
Lemma DeviceHandler_refusals_witness :
  (DeviceHandler submitting_request [] (λ _, TError true) (set_w_faults [false; true] sample_world)).1
    = Ok (DRefuse 400 "storage_unavailable") ∧
  (400%Z, "storage_unavailable") ∈ device_refusals.
Proof.
  assert ((DeviceHandler submitting_request [] (λ _, TError true) (set_w_faults [false; true] sample_world)).1
    = Ok (DRefuse 400 "storage_unavailable")) as H by (vm_compute; reflexivity).
  split; [exact H|]. exact (DeviceHandler_refusals _ _ _ _ _ _ H).
Defined.
