(* ===== verification/Authority.v ===== *)
(** The server's own certificates, src/internal/server/tls.go and renewal.go: the
    authority that is created at the first start and kept sealed in the database,
    and the leaf certificate of the devices' listener, renewed when seven days or
    less are left of it.

    X.509, PEM and the key pairs are the library's: the class [GoX509] has the
    operations the code calls, on DER and PEM texts; a certificate is what the
    program reads and writes of it. *)
From S2P Require Import Prelude GoStrings NetUrl NetIP GoTime Crypto Db Schema Rules Samples.
From S2P Require Import Migrating Opening Limits Device.

(** * The library *)

(** The fields of an [x509.Certificate] the program sets or reads; times in
    nanoseconds. *)
Record x509_certificate := mkX509 {
  x_serial : string;
  x_name : string;
  x_not_before : Z;
  x_not_after : Z;
  x_is_ca : bool;
  x_server_auth : bool;
  x_ip : option Addr;
  x_dns : list string;
}.

Class GoX509 := {
  GenerateKey : string → string;
  PublicKey : string → string;
  MarshalPKCS8 : string → string;
  ParsePKCS8 : string → option string;
  (** template, parent (the template itself when self-signed), public key, signer *)
  CreateCertificate : x509_certificate → x509_certificate → string → string → option string;
  ParseCertificate : string → option x509_certificate;
  pem_Encode : string → string → string;
  pem_Decode : string → option string;
  X509KeyPair : string → string → option (string * string);
}.

(** A parsed time has whole seconds. *)
Definition in_seconds (c : x509_certificate) : x509_certificate :=
  mkX509 (x_serial c) (x_name c) (Unix (x_not_before c) * second) (Unix (x_not_after c) * second)
    (x_is_ca c) (x_server_auth c) (x_ip c) (x_dns c).

(** What the code relies on: a block is read back from its PEM text, a key from its
    encoding, a certificate from what was created, and a certificate and the key
    it was created for are a pair. *)
Class X509Laws `{GoX509} : Prop := {
  pem_roundtrip kind b : pem_Decode (pem_Encode kind b) = Some b;
  pkcs8_roundtrip r : ParsePKCS8 (MarshalPKCS8 (GenerateKey r)) = Some (GenerateKey r);
  certificate_created t parent pub key der :
    CreateCertificate t parent pub key = Some der → ParseCertificate der = Some (in_seconds t);
  key_pair t parent r key der :
    CreateCertificate t parent (PublicKey (GenerateKey r)) key = Some der →
    is_Some (X509KeyPair (pem_Encode "CERTIFICATE" der) (pem_Encode "PRIVATE KEY" (MarshalPKCS8 (GenerateKey r))));
}.

(** * State *)

(** [authority]: PEM texts and the URL. *)
Record authority := mkAuthority {
  a_Root : string;
  a_RootKey : string;
  a_Leaf : string;
  a_LeafKey : string;
  a_URL : string;
}.

Definition no_authority : authority := mkAuthority "" "" "" "" "".
Definition set_a_leaf (leaf key : string) (a : authority) : authority :=
  mkAuthority (a_Root a) (a_RootKey a) leaf key (a_URL a).

(** The JSON of the record: its text fields come back if the URL is UTF-8 (the
    others are base64). *)
Class AuthorityJSON := {
  marshal_authority : authority → string;
  unmarshal_authority : string → option authority;
}.
Class AuthorityJSONLaws `{AuthorityJSON} : Prop := {
  authority_roundtrip a : ValidString (a_URL a) = true → unmarshal_authority (marshal_authority a) = Some a;
}.

(** The fields [ca], [root] and [rootKey] of the server, and its world. *)
Record tls_server := mkTls {
  ts_ca : authority;
  ts_root : option x509_certificate;
  ts_rootKey : string;
  ts_world : world;
}.

Definition set_ts_ca (v : authority) (s : tls_server) : tls_server := mkTls v (ts_root s) (ts_rootKey s) (ts_world s).
Definition set_ts_root (v : option x509_certificate) (s : tls_server) : tls_server :=
  mkTls (ts_ca s) v (ts_rootKey s) (ts_world s).
Definition set_ts_rootKey (v : string) (s : tls_server) : tls_server := mkTls (ts_ca s) (ts_root s) v (ts_world s).
Definition set_ts_world (v : world) (s : tls_server) : tls_server := mkTls (ts_ca s) (ts_root s) (ts_rootKey s) v.

Definition on_world {A} (m : M world A) : M tls_server A := zoom ts_world set_ts_world m.

(** A library call that returns an error. *)
Definition need {S A} (o : option A) (e : string) : M S A := match o with Some a => mret a | None => fail (ErrMsg e) end.

(** [net.ParseIP]: an address without a zone. *)
Definition ParseIP (s : string) : option Addr :=
  match ParseAddr s with
  | Some (Addr6 v zone) => if bool_decide (zone = EmptyString) then Some (Addr6 v zone) else None
  | o => o
  end.

Section authority.
Context `{GoCrypto} `{GoX509} `{AuthorityJSON}.

Definition certPEM (b : string) : string := pem_Encode "CERTIFICATE" b.
Definition keyPEM (k : string) : string := pem_Encode "PRIVATE KEY" (MarshalPKCS8 k).

(** [ecdsa.GenerateKey]. *)
Definition new_key : M world string := r ← Random 32; mret (GenerateKey r).

Definition week : Z := 7 * 24 * hour.

(** * The parts of [initTLS] *)

Definition server_origin (serverURL : string) : option URL :=
  match Parse serverURL with
  | None => None
  | Some u =>
    if bool_decide (Scheme u ≠ "https") || bool_decide (Hostname u = EmptyString) || bool_decide (User u ≠ None)
       || bool_decide (UPath u ≠ EmptyString) || bool_decide (RawQuery u ≠ EmptyString)
       || bool_decide (Fragment u ≠ EmptyString)
    then None else Some u
  end.

Definition root_template (serial : string) (now : Z) : x509_certificate :=
  mkX509 serial "Budge trust root" (now - minute) (AddYears now 10) true false None [].

Definition new_authority (serverURL : string) : M tls_server unit :=
  k ← on_world new_key;
  now ← on_world time_Now;
  n ← on_world serial;
  let root := root_template n now in
  der ← need (CreateCertificate root root (PublicKey k) k) "x509";
  modify (set_ts_ca (mkAuthority (certPEM der) (keyPEM k) "" "" serverURL)).

(** The stored authority, for the server's own URL. *)
Definition load_authority (serverURL encrypted : string) : M tls_server unit :=
  b ← on_world (Decrypt "authority" encrypted);
  a ← need (unmarshal_authority b) "json";
  modify (set_ts_ca a);;
  guard_ (bool_decide (a_URL a = serverURL)) "server URL differs from initialized identity".

(** [s.root] and [s.rootKey]. *)
Definition parse_root : M tls_server unit :=
  a ← gets ts_ca;
  match pem_Decode (a_Root a), pem_Decode (a_RootKey a) with
  | Some cert, Some key =>
    root ← need (ParseCertificate cert) "x509";
    modify (set_ts_root (Some root));;
    k ← need (ParsePKCS8 key) "x509";
    modify (set_ts_rootKey k)
  | _, _ => fail (ErrMsg "invalid authority")
  end.

(** Whether the leaf is missing, unreadable, or has seven days or less left. *)
Definition leaf_due : M tls_server bool :=
  a ← gets ts_ca;
  match pem_Decode (a_Leaf a) ≫= ParseCertificate with
  | None => mret true
  | Some c => now ← on_world time_Now; mret (negb (week <? x_not_after c - now)%Z)
  end.

Definition leaf_template (serial host : string) (before after : Z) : x509_certificate :=
  mkX509 serial "" (before - minute) (after + 30 * 24 * hour) false true (ParseIP host)
    (match ParseIP host with Some _ => [] | None => [host] end).

(** A new leaf for a host, signed by the root: the PEM texts of it and its key. *)
Definition sign_leaf (key host : string) : M tls_server (string * string) :=
  n ← on_world serial;
  before ← on_world time_Now;
  after ← on_world time_Now;
  root ← gets ts_root;
  k ← gets ts_rootKey;
  root ← need root "x509";
  der ← need (CreateCertificate (leaf_template n host before after) root (PublicKey key) k) "x509";
  mret (certPEM der, keyPEM key).

(** [INSERT .. ON CONFLICT(key) DO UPDATE SET value=excluded.value]. *)
Definition upsert_authority (sealed : string) (d : database) : result (database * Z) :=
  Ok (set_db_metadata (<["authority" := sealed]> (db_metadata d)) d, 1%Z).

(** [UPDATE metadata SET value=? WHERE key='authority']. *)
Definition update_authority (sealed : string) (d : database) : result (database * Z) :=
  match db_metadata d !! "authority" with
  | Some _ => Ok (set_db_metadata (<["authority" := sealed]> (db_metadata d)) d, 1%Z)
  | None => Ok (d, 0%Z)
  end.

Definition store_authority (how : string → database → result (database * Z)) (a : authority) : M tls_server unit :=
  sealed ← on_world (Encrypt "authority" (marshal_authority a));
  on_world (exec DB (how sealed));; mret tt.

Definition initTLS (serverURL : string) : M tls_server unit :=
  u ← need (server_origin serverURL) "server URL must be an HTTPS origin";
  r ← attempt (on_world (query DB (metadata_value "authority")));
  (match r with
   | Ok encrypted => load_authority serverURL encrypted
   | Err ErrNoRows => new_authority serverURL
   | Err e => fail e
   end);;
  parse_root;;
  due ← leaf_due;
  (if due : bool then
     key ← on_world new_key;
     leaf ← sign_leaf key (Hostname u);
     modify (λ s, set_ts_ca (set_a_leaf leaf.1 leaf.2 (ts_ca s)) s)
   else mret tt);;
  a ← gets ts_ca;
  store_authority upsert_authority a.

(** * The leaf of a handshake *)

Definition renewLeaf : M tls_server unit :=
  key ← on_world new_key;
  a ← gets ts_ca;
  u ← need (Parse (a_URL a)) "url";
  leaf ← sign_leaf key (Hostname u);
  let next := set_a_leaf leaf.1 leaf.2 a in
  store_authority update_authority next;;
  modify (λ s, set_ts_ca (set_a_leaf (a_Leaf next) (a_LeafKey next) (ts_ca s)) s).

(** [currentCertificate], under its own mutex: the pair a handshake presents. *)
Definition currentCertificate : M tls_server (string * string) :=
  a ← gets ts_ca;
  der ← need (pem_Decode (a_Leaf a)) "invalid server leaf";
  cert ← need (ParseCertificate der) "x509";
  now ← on_world time_Now;
  (if (x_not_after cert - now <=? week)%Z then renewLeaf else mret tt);;
  a ← gets ts_ca;
  need (X509KeyPair (a_Leaf a) (a_LeafKey a)) "tls".

(** [TLSConfig]: the first certificate and the pool for client certificates; each
    handshake then asks [currentCertificate] again. *)
Definition TLSConfig : M tls_server ((string * string) * string) :=
  cert ← currentCertificate;
  a ← gets ts_ca;
  mret (cert, a_Root a).

End authority.
