(* ===== verification/Certifying.v ===== *)
(** What the server's authority and leaf certificate keep: memory and database hold
    the same authority at every moment, its root never changes, and a handshake
    never presents a certificate with seven days or less left. *)
From S2P Require Import Prelude GoStrings Coding NetUrl NetIP GoTime Crypto Types Db Schema Rules Samples.
From S2P Require Import Migrating Opening Limits Device Authority.

Section certifying.
Context `{GoCrypto} `{X509Laws} `{AuthorityJSON}.

(** The database holds this authority, sealed under the vault's key. *)
Definition mirrored (key : string) (a : authority) (d : database) : Prop :=
  ∃ nonce, String.length nonce = NonceSize
    ∧ db_metadata d !! "authority" = Some (Seal key "authority" (marshal_authority a) nonce).

(** The leaf is a certificate with more than seven days left at [now]. *)
Definition leaf_good (a : authority) (now : Z) : Prop :=
  ∃ c, pem_Decode (a_Leaf a) ≫= ParseCertificate = Some c ∧ (week < x_not_after c - now)%Z.

(** Only the record of the authority may differ. *)
Definition same_but_authority (d d' : database) : Prop :=
  d' = d ∨ ∃ v, d' = set_db_metadata (<["authority" := v]> (db_metadata d)) d.

(** The root of an authority stays. *)
Definition same_root (a a' : authority) : Prop :=
  a_Root a' = a_Root a ∧ a_RootKey a' = a_RootKey a ∧ a_URL a' = a_URL a.

Lemma wp_on_world {A} (m : M world A) Q s :
  wp m (λ r w, Q r (set_ts_world w s)) (ts_world s) → wp (on_world m) Q s.
Proof. apply wp_zoom. Qed.

Lemma wp_need {S A} (o : option A) e (Q : result A → S → Prop) s :
  (∀ a, o = Some a → Q (Ok a) s) → (o = None → Q (Err (ErrMsg e)) s) → wp (need o e) Q s.
Proof. destruct o; intros HS HN; [by apply wp_ret, HS|by apply wp_fail, HN]. Qed.

Lemma wp_serial w0 d t (Q : result string → world → Prop) w :
  at_world w0 d t w → (∀ r w', at_world w0 d t w' → w_clock w' = w_clock w → Q (Ok r) w') → wp serial Q w.
Proof. intros Hw HQ. unfold serial. eapply wp_Random; [done|]. auto. Qed.

Lemma wp_new_key w0 d t (Q : result string → world → Prop) w :
  at_world w0 d t w → (∀ r w', at_world w0 d t w' → w_clock w' = w_clock w → Q (Ok (GenerateKey r)) w') → wp new_key Q w.
Proof. intros Hw HQ. unfold new_key. wp_rule. eapply wp_Random; [done|]. intros r w1 _ Hw1 Hc. apply wp_ret. auto. Qed.

(** ** A new leaf *)

(** What a signed leaf is worth when it was signed. *)
Definition signed (leaf key : string) (now : Z) : Prop :=
  (∃ c, pem_Decode leaf ≫= ParseCertificate = Some c ∧ (week < x_not_after c - now)%Z) ∧ is_Some (X509KeyPair leaf key).

Lemma signed_good a leaf key now : signed leaf key now → leaf_good (set_a_leaf leaf key a) now.
Proof. by intros [? _]. Qed.

Lemma Unix_below t : (Unix t * second <= t < Unix t * second + second)%Z.
Proof.
  unfold Unix, second. pose proof (Z.div_mod t 1000000000 ltac:(lia)).
  pose proof (Z.mod_pos_bound t 1000000000 ltac:(lia)). lia.
Qed.

Lemma wp_sign_leaf w0 d k host (Q : result (string * string) → tls_server → Prop) s :
  at_world w0 d None (ts_world s) →
  (∀ leaf key w', at_world w0 d None w' → (w_clock (ts_world s) <= w_clock w')%Z → signed leaf key (w_clock w') →
     Q (Ok (leaf, key)) (set_ts_world w' s)) →
  (∀ e w', at_world w0 d None w' → Q (Err e) (set_ts_world w' s)) →
  wp (sign_leaf (GenerateKey k) host) Q s.
Proof.
  intros Hs HQ HE. unfold sign_leaf.
  wp_rule. apply wp_on_world. eapply wp_serial; [done|]. intros n w1 Hw1 Hc1.
  wp_rule. apply wp_on_world. eapply wp_time_Now; [exact Hw1|]. intros w2 Hw2 Hc2.
  wp_rule. apply wp_on_world. eapply wp_time_Now; [exact Hw2|]. intros w3 Hw3 Hc3.
  wp_rule. wp_rule. wp_rule. wp_rule. wp_rule. apply wp_need; [|intros _; by apply (HE _ w3)].
  intros root Hroot. wp_rule. apply wp_need; [|intros _; by apply (HE _ w3)].
  intros der Hder. wp_rule. apply (HQ _ _ w3); [done|simpl in *; lia|]. split; [|by eapply key_pair].
  eexists. unfold certPEM. rewrite pem_roundtrip. simpl. rewrite (certificate_created _ _ _ _ _ Hder). split; [done|].
  simpl. pose proof (Unix_below (w_clock w3 + 30 * 24 * hour)). simpl in *. unfold week, hour, minute, second in *. lia.
Qed.

(** ** Storing *)

Lemma wp_store_upsert w0 d a (Q : result unit → tls_server → Prop) s :
  at_world w0 d None (ts_world s) →
  (∀ n w', String.length n = NonceSize →
     at_world w0 (set_db_metadata (<["authority" := Seal (w_key w0) "authority" (marshal_authority a) n]> (db_metadata d)) d) None w' →
     w_clock w' = w_clock (ts_world s) → Q (Ok tt) (set_ts_world w' s)) →
  (∀ e w', io w0 e → at_world w0 d None w' → Q (Err e) (set_ts_world w' s)) →
  ∀ how, (∀ v, how v d = Ok (set_db_metadata (<["authority" := v]> (db_metadata d)) d, 1%Z)) →
  wp (store_authority how a) Q s.
Proof.
  intros Hs HQ HE how Hhow. unfold store_authority.
  wp_rule. apply wp_on_world. eapply wp_Encrypt; [done|]. intros n w1 Hn Hw1 Hc1.
  wp_rule. apply wp_on_world. eapply wp_exec_db; [exact Hw1| |].
  - intros d' k w2 Hd' Hw2 Hc2. rewrite Hhow in Hd'. injection Hd' as <- <-. wp_rule. apply (HQ n w2); [done..|].
    simpl in *. congruence.
  - intros e w2 [He|He] Hw2; [by rewrite Hhow in He|]. by apply HE.
Qed.

Lemma mirrored_store key a n d :
  String.length n = NonceSize →
  mirrored key a (set_db_metadata (<["authority" := Seal key "authority" (marshal_authority a) n]> (db_metadata d)) d).
Proof. intros Hn. exists n. split; [done|]. simpl. by rewrite lookup_insert_eq. Qed.

Lemma mirrored_update key a d v :
  mirrored key a d → update_authority v d = Ok (set_db_metadata (<["authority" := v]> (db_metadata d)) d, 1%Z).
Proof. intros (n & _ & E). unfold update_authority. by rewrite E. Qed.

(** * The certificate of a handshake *)

(** How an attempt to present a certificate may end. *)
Definition presented (s : tls_server) (r : result (string * string)) (s' : tls_server) : Prop :=
  mirrored (w_key (ts_world s')) (ts_ca s') (w_db (ts_world s'))
  ∧ w_tx (ts_world s') = None ∧ same_root (ts_ca s) (ts_ca s')
  ∧ ts_root s' = ts_root s ∧ ts_rootKey s' = ts_rootKey s
  ∧ same_but_authority (w_db (ts_world s)) (w_db (ts_world s'))
  ∧ match r with
    | Ok cert => X509KeyPair (a_Leaf (ts_ca s')) (a_LeafKey (ts_ca s')) = Some cert
        ∧ leaf_good (ts_ca s') (w_clock (ts_world s'))
    | Err _ => ts_ca s' = ts_ca s ∧ w_db (ts_world s') = w_db (ts_world s)
    end.

Lemma presented_unchanged s w' e :
  mirrored (w_key (ts_world s)) (ts_ca s) (w_db (ts_world s)) →
  at_world (ts_world s) (w_db (ts_world s)) None w' → presented s (Err e) (set_ts_world w' s).
Proof.
  intros Hm [Hd Ht Hk _ _ _]. split_and!; simpl; try done; [by rewrite Hk, Hd|by left].
Qed.

Lemma wp_currentCertificate s :
  w_tx (ts_world s) = None → mirrored (w_key (ts_world s)) (ts_ca s) (w_db (ts_world s)) →
  wp currentCertificate (presented s) s.
Proof.
  intros Htx Hm.
  assert (at_world (ts_world s) (w_db (ts_world s)) None (ts_world s)) as Hs by by apply at_start.
  assert (∀ e w', at_world (ts_world s) (w_db (ts_world s)) None w' → presented s (Err e) (set_ts_world w' s)) as HE
    by (intros; by apply presented_unchanged).
  assert (s = set_ts_world (ts_world s) s) as Hid by by destruct s.
  unfold currentCertificate. wp_rule. wp_rule. wp_rule. apply wp_need; [|intros _; rewrite Hid; by apply HE].
  intros der Hder. wp_rule. apply wp_need; [|intros _; rewrite Hid; by apply HE]. intros c Hc.
  wp_rule. apply wp_on_world. eapply wp_time_Now; [done|]. intros w1 Hw1 Hc1.
  destruct (x_not_after c - w_clock w1 <=? week)%Z eqn:Edue.
  - wp_rule. unfold renewLeaf. wp_rule. apply wp_on_world. eapply wp_new_key; [exact Hw1|]. intros k w2 Hw2 Hc2.
    wp_rule. wp_rule. wp_rule. apply wp_need; [|intros _; by apply (HE _ w2)]. intros u Hu.
    wp_rule. eapply wp_sign_leaf; [exact Hw2| |intros e w3 Hw3; by apply (HE _ w3)].
    intros leaf key w3 Hw3 Hc3 Hsig. cbv zeta. wp_rule.
    eapply wp_store_upsert; [exact Hw3| |intros e w4 _ Hw4; by apply (HE _ w4)|intros v; by eapply mirrored_update].
    intros n w4 Hn Hw4 Hc4. apply wp_modify. wp_rule. wp_rule.
    pose proof Hw4 as [Hd4 Ht4 Hk4 _ _ _]. destruct Hsig as [Hgood [p Hp]].
    apply wp_need; simpl; [|intros E; simpl in E; congruence].
    intros cert Hcert. split_and!; simpl; try done.
    + rewrite Hd4, Hk4. by apply mirrored_store.
    + right. rewrite Hd4. eauto.
    + simpl in Hc4. rewrite Hc4. destruct Hgood as (c' & ? & ?). by exists c'.
  - wp_rule. wp_rule. wp_rule. wp_rule. apply wp_need; [|intros _; by apply (HE _ w1)].
    intros cert Hcert. pose proof Hw1 as [Hd1 Ht1 Hk1 _ _ _]. split_and!; simpl; try done.
    + by rewrite Hd1, Hk1.
    + by left.
    + exists c. rewrite Hder. split; [done|]. apply Z.leb_gt in Edue. lia.
Qed.

(** C25: The certificate a handshake presents: it has more than seven days left, is
    the one memory and database both hold, and its key is the one it was issued
    for.  A renewal is in the database before it is in memory: whatever fails, the
    two hold the same authority, with the root it always had, and after an error
    both are as before. *)
Theorem currentCertificate_correct s
    (Htx : w_tx (ts_world s) = None)
    (Hm : mirrored (w_key (ts_world s)) (ts_ca s) (w_db (ts_world s))) :
  wp currentCertificate (presented s) s.
Proof. by apply wp_currentCertificate. Qed.

(** * Start *)

Context `{!GcmLaws} `{!AuthorityJSONLaws}.

Lemma mirrored_opens key a d :
  mirrored key a d → ValidString (a_URL a) = true →
  ∃ enc, db_metadata d !! "authority" = Some enc ∧ Unseal key "authority" enc ≫= unmarshal_authority = Some a.
Proof.
  intros (n & Hn & E) Hu. eexists; split; [exact E|]. rewrite Unseal_Seal by done. simpl. by rewrite authority_roundtrip.
Qed.

(** The authority a start works with: the stored one, or a new one. *)
Definition chosen (key url : string) (d : database) (a : authority) : Prop :=
  a_URL a = url ∧
  match db_metadata d !! "authority" with
  | Some enc => Unseal key "authority" enc ≫= unmarshal_authority = Some a
  | None => True
  end.

Lemma wp_choose w0 d url (Q : result unit → tls_server → Prop) s :
  at_world w0 d None (ts_world s) →
  (∀ a w', chosen (w_key w0) url d a → at_world w0 d None w' → Q (Ok tt) (set_ts_world w' (set_ts_ca a s))) →
  (∀ e s', at_world w0 d None (ts_world s') →
     (∀ a, w_faults w0 = [] → ValidString (a_URL a) = true → mirrored (w_key w0) a d → a_URL a ≠ url ∧
        e = ErrMsg "server URL differs from initialized identity") → Q (Err e) s') →
  wp (r ← attempt (on_world (query DB (metadata_value "authority")));
      match r with
      | Ok encrypted => load_authority url encrypted
      | Err ErrNoRows => new_authority url
      | Err e => fail e
      end) Q s.
Proof.
  intros Hs HQ HE. wp_rule. wp_rule. apply wp_on_world. eapply wp_query_db; [done| |].
  - intros enc w1 Henc Hw1 _. cbv beta iota. unfold metadata_value in Henc.
    destruct (db_metadata d !! "authority") as [enc'|] eqn:E; [|done]. injection Henc as ->.
    unfold load_authority. wp_rule. apply wp_on_world. eapply wp_Decrypt; [exact Hw1| |].
    + intros b Hb. wp_rule. apply wp_need.
      * intros a Ha. wp_rule. apply wp_modify. apply wp_guard; intros Hurl.
        -- apply bool_decide_eq_true in Hurl. apply (HQ a w1); [|done]. split; [done|]. rewrite E, Hb. done.
        -- apply bool_decide_eq_false in Hurl. apply HE; [done|]. intros a' _ Hv Hm.
           destruct (mirrored_opens _ _ _ Hm Hv) as (x & Hx & Hu). rewrite E in Hx. injection Hx as <-.
           rewrite Hb in Hu. simpl in Hu. assert (a' = a) as -> by congruence. done.
      * intros Hn. apply HE; [done|]. intros a' _ Hv Hm.
        destruct (mirrored_opens _ _ _ Hm Hv) as (x & Hx & Hu). rewrite E in Hx. injection Hx as <-.
        rewrite Hb in Hu. simpl in Hu. congruence.
    + intros Hn. apply HE; [done|]. intros a' _ Hv Hm.
      destruct (mirrored_opens _ _ _ Hm Hv) as (x & Hx & Hu). rewrite E in Hx. injection Hx as <-. by rewrite Hn in Hu.
  - intros e w1 He Hw1. cbv beta iota.
    assert (db_metadata d !! "authority" = None ∨ io w0 e) as [E|Hio].
    { unfold metadata_value in He. destruct (db_metadata d !! "authority"); [|by left].
      destruct He as [He|He]; [done|by right]. }
    + assert (∀ (P : Prop) a, mirrored (w_key w0) a d → P) as Hno.
      { intros P a (n & _ & Hx). congruence. }
      destruct e; try (apply wp_fail, HE; [done|intros; by eapply Hno]). unfold new_authority.
      wp_rule. apply wp_on_world. eapply wp_new_key; [exact Hw1|]. intros k w2 Hw2 _.
      wp_rule. apply wp_on_world. eapply wp_time_Now; [exact Hw2|]. intros w3 Hw3 _.
      wp_rule. apply wp_on_world. eapply wp_serial; [exact Hw3|]. intros n w4 Hw4 _. cbv zeta.
      wp_rule. apply wp_need; [|intros _; apply HE; [done|intros; by eapply Hno]]. intros der Hder.
      apply wp_modify. apply (HQ _ w4); [|done]. split; [done|]. by rewrite E.
    + destruct Hio as [-> Hq]. apply wp_fail, HE; [done|]. intros. congruence.
Qed.

Lemma wp_parse_root (Q : result unit → tls_server → Prop) s :
  (∀ root k, pem_Decode (a_Root (ts_ca s)) ≫= ParseCertificate = Some root →
     Q (Ok tt) (set_ts_rootKey k (set_ts_root (Some root) s))) →
  (∀ e s', ts_world s' = ts_world s → Q (Err e) s') → wp parse_root Q s.
Proof.
  intros HQ HE. unfold parse_root. wp_rule. wp_rule.
  destruct (pem_Decode (a_Root (ts_ca s))) as [cert|]; [|by apply wp_fail, HE].
  destruct (pem_Decode (a_RootKey (ts_ca s))) as [key|]; [|by apply wp_fail, HE].
  wp_rule. apply wp_need; [|intros _; by apply HE]. intros root Hroot. wp_rule. apply wp_modify.
  wp_rule. apply wp_need; [|intros _; by apply HE]. intros k Hk. apply wp_modify. by apply HQ.
Qed.

Lemma wp_leaf_due w0 d (Q : result bool → tls_server → Prop) s :
  at_world w0 d None (ts_world s) →
  (∀ b w', at_world w0 d None w' → (b = false → leaf_good (ts_ca s) (w_clock w')) →
     (b = true → ∀ now, (w_clock w' <= now)%Z → ¬ leaf_good (ts_ca s) now) → Q (Ok b) (set_ts_world w' s)) →
  wp leaf_due Q s.
Proof.
  intros Hs HQ. unfold leaf_due. wp_rule. wp_rule.
  destruct (pem_Decode (a_Leaf (ts_ca s)) ≫= ParseCertificate) as [c|] eqn:E.
  - wp_rule. apply wp_on_world. eapply wp_time_Now; [done|]. intros w1 Hw1 _. wp_rule. apply HQ; [done|..].
    + intros Hb%negb_false_iff%Z.ltb_lt. by exists c.
    + intros Hb%negb_true_iff%Z.ltb_ge now Hn (c' & Hc' & Hl). rewrite E in Hc'. injection Hc' as <-. lia.
  - wp_rule. assert (s = set_ts_world (ts_world s) s) as -> by by destruct s. apply HQ; [done..|].
    intros _ now _ (c' & Hc' & _). simpl in Hc'. congruence.
Qed.

(** How a start with this URL may end. *)
Definition started (url : string) (s : tls_server) (r : result unit) (s' : tls_server) : Prop :=
  w_tx (ts_world s') = None
  ∧ match r with
    | Err _ => w_db (ts_world s') = w_db (ts_world s)
    | Ok _ => same_but_authority (w_db (ts_world s)) (w_db (ts_world s'))
        ∧ mirrored (w_key (ts_world s')) (ts_ca s') (w_db (ts_world s'))
        ∧ a_URL (ts_ca s') = url ∧ leaf_good (ts_ca s') (w_clock (ts_world s'))
        ∧ ts_root s' = pem_Decode (a_Root (ts_ca s')) ≫= ParseCertificate
    end.

(** What it makes of a stored authority. *)
Definition continued (url : string) (a : authority) (s : tls_server) (r : result unit) (s' : tls_server) : Prop :=
  match r with
  | Ok _ => same_root a (ts_ca s') ∧ (leaf_good a (w_clock (ts_world s')) → ts_ca s' = a)
  | Err e => w_faults (ts_world s) = [] → a_URL a ≠ url → server_origin url ≠ None →
      e = ErrMsg "server URL differs from initialized identity"
  end.

Lemma wp_initTLS url s : w_tx (ts_world s) = None →
  wp (initTLS url) (λ r s', started url s r s' ∧
    ∀ a, mirrored (w_key (ts_world s)) a (w_db (ts_world s)) → ValidString (a_URL a) = true →
      continued url a s r s') s.
Proof.
  intros Htx.
  set (w0 := ts_world s). set (d := w_db w0). assert (at_world w0 d None w0) as Hs by by apply at_start.
  assert (∀ e s', at_world w0 d None (ts_world s') →
    (∀ a, w_faults w0 = [] → mirrored (w_key w0) a d → ValidString (a_URL a) = true → a_URL a ≠ url → server_origin url ≠ None →
       e = ErrMsg "server URL differs from initialized identity") →
    started url s (Err e) s' ∧ ∀ a, mirrored (w_key w0) a d → ValidString (a_URL a) = true → continued url a s (Err e) s') as HE.
  { intros e s' [Hd Ht _ _ _ _] Hall. split; [by split|]. intros a Hm Hv Hq Hne Ho. by eapply Hall. }
  unfold initTLS. wp_rule. apply wp_need; [|intros Ho; apply HE; [done|by intros]].
  intros u Hu. eapply wp_ext; [symmetry; apply bind_bind|]. wp_rule.
  eapply wp_choose; [done| |].
  2: { intros e s1 Hs1 Hall. apply HE; [done|]. intros a Hq Hm Hv _ _. by eapply Hall. }
  intros a w1 [Hurl Hch] Hw1. wp_rule. apply wp_parse_root.
  2: { intros e s1 Hs1. apply HE; [by rewrite Hs1|]. intros a' Hq Hm Hv Hne _.
       destruct (mirrored_opens _ _ _ Hm Hv) as (x & Hx & Ha). rewrite Hx in Hch. congruence. }
  intros root k Hroot. wp_rule. eapply wp_leaf_due; [exact Hw1|]. intros b w2 Hw2 Hgood Hbad. simpl in Hroot, Hgood, Hbad.
  assert (∀ e s', at_world w0 d None (ts_world s') →
    started url s (Err e) s' ∧ ∀ a, mirrored (w_key w0) a d → ValidString (a_URL a) = true → continued url a s (Err e) s') as HE'.
  { intros e s' Hs'. apply HE; [done|]. intros a' _ Hm Hv Hne _.
    destruct (mirrored_opens _ _ _ Hm Hv) as (x & Hx & Ha). rewrite Hx in Hch. congruence. }
  (** storing an authority that has this root and a good leaf *)
  assert (∀ a' s', at_world w0 d None (ts_world s') → ts_ca s' = a' → ts_root s' = Some root →
    same_root a a' → leaf_good a' (w_clock (ts_world s')) → (∀ now, (w_clock (ts_world s') <= now)%Z → leaf_good a now → a' = a) →
    wp (store_authority upsert_authority a') (λ r s'', started url s r s'' ∧
      ∀ x, mirrored (w_key w0) x d → ValidString (a_URL x) = true → continued url x s r s'') s') as Hstore.
  { intros a' s' Hs' Hca Hr' Hsame Hlg Hkeep.
    eapply wp_store_upsert; [done| |intros e w3 _ Hw3; by apply HE'|done].
    intros n w3 Hn [Hd3 Ht3 Hk3 _ _ _] Hc3. pose proof Hsame as (ER & ERK & EU). split.
    - split; [done|]. simpl. fold w0 d. rewrite Hd3, Hk3, Hca. split_and!.
      + right. eauto.
      + by apply mirrored_store.
      + congruence.
      + by rewrite Hc3.
      + by rewrite Hr', ER.
    - intros x Hm Hv. destruct (mirrored_opens _ _ _ Hm Hv) as (y & Hy & Ha). rewrite Hy in Hch.
      assert (x = a) as -> by congruence. simpl. rewrite Hca. split; [done|]. intros Hl. apply (Hkeep (w_clock w3)); [by rewrite Hc3|exact Hl]. }
  wp_rule. destruct b.
  - wp_rule. apply wp_on_world. eapply wp_new_key; [exact Hw2|]. intros kk w3 Hw3 Hc3.
    wp_rule. eapply wp_sign_leaf; [exact Hw3| |intros e w4 Hw4; by apply HE'].
    intros leaf key w4 Hw4 Hc4 Hsig. apply wp_modify. wp_rule. wp_rule. simpl in Hc3, Hc4.
    apply Hstore; simpl; try done; [by apply signed_good|].
    intros now Hle Hl. exfalso. apply (Hbad eq_refl now); [lia|done].
  - wp_rule. wp_rule. wp_rule. apply Hstore; simpl; auto. by split_and!.
Qed.

(** Starting with a server URL: the authority in memory is the one stored, for
    that URL, with its root certificate parsed and a leaf that has more than seven
    days left; nothing else in the database changes, and nothing at all when the
    start fails.  An authority that was stored keeps its root and, while it is
    good, its leaf, over every restart; one of another URL is refused. *)
Theorem initTLS_correct url s (Htx : w_tx (ts_world s) = None) :
  wp (initTLS url) (λ r s', started url s r s' ∧
    ∀ a, mirrored (w_key (ts_world s)) a (w_db (ts_world s)) → ValidString (a_URL a) = true →
      continued url a s r s') s.
Proof. by apply wp_initTLS. Qed.

End certifying.

(** * A library for the witnesses *)

(** Certificates as text, keys as they are drawn, PEM as a mark in front. *)
Definition addr_code (a : option Addr) : list string :=
  match a with
  | None => [""; ""; ""]
  | Some AddrZero => ["z"; ""; ""]
  | Some (Addr4 v) => ["4"; Z_text v; ""]
  | Some (Addr6 v z) => ["6"; Z_text v; z]
  end.
Definition addr_of (k v z : string) : option Addr :=
  if bool_decide (k = "z") then Some AddrZero else if bool_decide (k = "4") then Some (Addr4 (text_Z v)) else
  if bool_decide (k = "6") then Some (Addr6 (text_Z v) z) else None.

Definition x509_code (c : x509_certificate) : string :=
  fields ([x_serial c; x_name c; Z_text (x_not_before c); Z_text (x_not_after c); bool_text (x_is_ca c); bool_text (x_server_auth c)]
          ++ addr_code (x_ip c) ++ x_dns c).
Definition x509_of (s : string) : option x509_certificate :=
  match unfields s with
  | Some (serial :: name :: before :: after :: ca :: auth :: k :: v :: z :: dns) =>
    Some (mkX509 serial name (text_Z before) (text_Z after) (text_bool ca) (text_bool auth) (addr_of k v z) dns)
  | _ => None
  end.

Lemma x509_of_code c : x509_of (x509_code c) = Some c.
Proof.
  destruct c as [s n b a i v ip dns]. unfold x509_of, x509_code. rewrite unfields_fields.
  destruct ip as [[|x|x zone]|]; simpl; rewrite !text_Z_text, !text_bool_text; unfold addr_of; simpl; by rewrite ?text_Z_text.
Qed.

Definition plain_x509 : GoX509 := {|
  GenerateKey r := r;
  PublicKey k := k;
  MarshalPKCS8 k := k;
  ParsePKCS8 := Some;
  CreateCertificate t _ _ _ := Some (x509_code (in_seconds t));
  ParseCertificate := x509_of;
  pem_Encode _ b := "PEM:" +:+ b;
  pem_Decode b := if HasPrefix b "PEM:" then Some (TrimPrefix b "PEM:") else None;
  X509KeyPair c k := Some (c, k);
|}.

Lemma plain_x509_laws : @X509Laws plain_x509.
Proof.
  split; [done|done| |].
  - intros t parent pub key der Hder. injection Hder as <-.
    cbn [ParseCertificate plain_x509]. apply x509_of_code.
  - intros t parent r key der _. by eexists.
Qed.

Definition plain_authority : AuthorityJSON := {|
  marshal_authority a := fields [a_Root a; a_RootKey a; a_Leaf a; a_LeafKey a; a_URL a];
  unmarshal_authority s :=
    match unfields s with Some [r; rk; l; lk; u] => Some (mkAuthority r rk l lk u) | _ => None end;
|}.

Lemma plain_authority_laws : @AuthorityJSONLaws plain_authority.
Proof. split. intros a _. cbn [unmarshal_authority marshal_authority plain_authority]. rewrite unfields_fields. by destruct a. Qed.

#[local] Existing Instances plain_crypto plain_laws plain_x509 plain_x509_laws plain_authority plain_authority_laws.

(** * Witnesses *)

Definition sample_url : string := "https://budge.example:18781".
Definition sample_tls : tls_server :=
  mkTls no_authority None "" (set_w_random ["k1"; "s1"; "k2"; "s2"; "abcdefghijkl"] sample_world).
Definition booted : tls_server := (initTLS sample_url sample_tls).2.

Lemma initTLS_correct_witness :
  (initTLS sample_url sample_tls).1 = Ok tt ∧ started sample_url sample_tls (Ok tt) booted.
Proof.
  assert ((initTLS sample_url sample_tls).1 = Ok tt) as E by (vm_compute; reflexivity).
  split; [exact E|].
  pose proof (initTLS_correct sample_url sample_tls eq_refl) as [H _]. rewrite E in H. exact H.
Defined.

(** The same server 25 days later: the leaf is due. *)
Definition late_tls : tls_server := set_ts_world (set_w_clock ((1000 + 25 * 86400) * second) (ts_world booted)) booted.

Lemma late_tx : w_tx (ts_world late_tls) = None.
Proof. vm_compute. reflexivity. Qed.

Lemma late_mirrored : mirrored (w_key (ts_world late_tls)) (ts_ca late_tls) (w_db (ts_world late_tls)).
Proof. exists "abcdefghijkl". split; [reflexivity|]. apply (bool_decide_unpack _). vm_compute. exact I. Qed.

Lemma currentCertificate_correct_witness :
  a_Leaf (ts_ca (currentCertificate late_tls).2) ≠ a_Leaf (ts_ca late_tls) ∧
  presented late_tls (currentCertificate late_tls).1 (currentCertificate late_tls).2.
Proof.
  split; [apply (bool_decide_unpack _); vm_compute; exact I|].
  change (wp currentCertificate (presented late_tls) late_tls).
  exact (currentCertificate_correct late_tls late_tx late_mirrored).
Defined.
