(* ===== verification/Files.v ===== *)
(** The directory that holds a client's identity file, with what a crash may leave
    of it.

    Names lead to inodes.  A change of the directory (a new name, a rename, a
    removal) is visible at once but only pending on disk until the directory is
    synchronised; a crash keeps the first ones of the pending changes, in order.
    The content of a file is safe once the file was synchronised, and arbitrary
    after a crash otherwise.  Every operation records the state it leaves, so that
    theorems can speak of a crash at any moment.  The other effects of a client —
    the clock, randomness, failures — are those of a [world], whose database a
    client does not use. *)
From S2P Require Import Prelude GoStrings Crypto Db Rules.

(** * The directory *)

Record inode := mkInode { in_data : string; in_synced : bool }.

Inductive dirop :=
| Link (name : string) (n : nat)
| Unlink (name : string)
| Move (from to : string).

Definition apply_op (names : gmap string nat) (o : dirop) : gmap string nat :=
  match o with
  | Link p n => <[p := n]> names
  | Unlink p => delete p names
  | Move a b => match names !! a with Some n => <[b := n]> (delete a names) | None => names end
  end.

Record fsys := mkFs {
  fs_disk : gmap string nat;
  fs_pending : list dirop;
  fs_inodes : gmap nat inode;
  fs_next : nat;
}.

Definition names_after (k : nat) (fs : fsys) : gmap string nat := foldl apply_op (fs_disk fs) (take k (fs_pending fs)).

(** What the processes see. *)
Definition names (fs : fsys) : gmap string nat := foldl apply_op (fs_disk fs) (fs_pending fs).

Definition content (fs : fsys) (path : string) : option string :=
  n ← names fs !! path; in_data <$> fs_inodes fs !! n.

(** What a crash may leave. *)
Definition crash (fs fs' : fsys) : Prop :=
  (∃ k, fs_disk fs' = names_after k fs) ∧ fs_pending fs' = []
  ∧ ∀ n i, fs_inodes fs !! n = Some i → in_synced i = true → fs_inodes fs' !! n = Some i.

(** ** Changes *)

Definition push (o : dirop) (fs : fsys) : fsys := mkFs (fs_disk fs) (fs_pending fs ++ [o]) (fs_inodes fs) (fs_next fs).
Definition set_inode (n : nat) (i : inode) (fs : fsys) : fsys :=
  mkFs (fs_disk fs) (fs_pending fs) (<[n := i]> (fs_inodes fs)) (fs_next fs).
Definition create (path : string) (fs : fsys) : fsys :=
  push (Link path (fs_next fs))
    (mkFs (fs_disk fs) (fs_pending fs) (<[fs_next fs := mkInode "" false]> (fs_inodes fs)) (S (fs_next fs))).
Definition sync_names (fs : fsys) : fsys := mkFs (names fs) [] (fs_inodes fs) (fs_next fs).

(** * A client's machine *)

(** The directory, the states it went through, the requests that were sent, and
    the clock, randomness and failures to come. *)
Record machine := mkMachine {
  mc_fs : fsys;
  mc_trail : list fsys;
  mc_sent : list (string * string);
  mc_env : world;
}.

Definition set_mc_env (v : world) (s : machine) : machine := mkMachine (mc_fs s) (mc_trail s) (mc_sent s) v.
Definition update_fs (f : fsys → fsys) (s : machine) : machine :=
  mkMachine (f (mc_fs s)) (mc_trail s ++ [f (mc_fs s)]) (mc_sent s) (mc_env s).
Definition log_sent (x : string * string) (s : machine) : machine :=
  mkMachine (mc_fs s) (mc_trail s) (mc_sent s ++ [x]) (mc_env s).

Definition on_env {A} (m : M world A) : M machine A := zoom mc_env set_mc_env m.

(** A system call that changes the directory, or fails and does not. *)
Definition os_call (f : fsys → fsys) : M machine unit := on_env fault;; modify (update_fs f).

(** [os.OpenFile] with [O_CREATE|O_EXCL]: the inode of the new file. *)
Definition open_excl (path : string) : M machine nat :=
  s ← gets id;
  match names (mc_fs s) !! path with
  | Some _ => fail ErrIO
  | None => os_call (create path);; mret (fs_next (mc_fs s))
  end.

(** [f.Write]: a failed one leaves some of the bytes, here [torn] of them. *)
Definition write_file (torn : nat) (n : nat) (data : string) : M machine unit :=
  r ← attempt (on_env fault);
  match r with
  | Ok _ => modify (update_fs (set_inode n (mkInode data false)))
  | Err e => modify (update_fs (set_inode n (mkInode (take_bytes torn data) false)));; fail e
  end.

(** [f.Sync]. *)
Definition sync_file (n : nat) (fs : fsys) : fsys :=
  match fs_inodes fs !! n with Some i => set_inode n (mkInode (in_data i) true) fs | None => fs end.

(** [os.ReadFile]. *)
Definition read_file (path : string) : M machine string :=
  on_env fault;; s ← gets id;
  match content (mc_fs s) path with Some b => mret b | None => fail ErrIO end.

(** * What survives a crash *)

(** Whatever a crash leaves, the file at [path] is there, whole, and [P] of it. *)
Definition survives (P : string → Prop) (path : string) (fs : fsys) : Prop :=
  ∀ fs', crash fs fs' → ∃ b, content fs' path = Some b ∧ P b.

(** The same as a property of the directory itself. *)
Definition safe (P : string → Prop) (path : string) (fs : fsys) : Prop :=
  ∀ k, ∃ n i, names_after k fs !! path = Some n ∧ fs_inodes fs !! n = Some i ∧ in_synced i = true ∧ P (in_data i).

Lemma safe_survives P path fs : safe P path fs → survives P path fs.
Proof.
  intros Hs fs' ([k Hk] & Hp & Hi). destruct (Hs k) as (n & i & Hn & Hin & Hsy & HP).
  exists (in_data i). split; [|done]. unfold content, names. rewrite Hp, Hk. simpl. rewrite Hn. simpl.
  by rewrite (Hi _ _ Hin Hsy).
Qed.

Lemma safe_content P path fs : safe P path fs → ∃ b, content fs path = Some b ∧ P b.
Proof.
  intros Hs. destruct (Hs (length (fs_pending fs))) as (n & i & Hn & Hin & _ & HP).
  unfold names_after in Hn. rewrite firstn_all in Hn. exists (in_data i). split; [|done].
  unfold content, names. rewrite Hn. simpl. by rewrite Hin.
Qed.

Lemma safe_mono (P Q : string → Prop) path fs : (∀ b, P b → Q b) → safe P path fs → safe Q path fs.
Proof. intros HPQ Hs k. destruct (Hs k) as (n & i & ? & ? & ? & ?). exists n, i. auto. Qed.

(** Inodes are numbered in order. *)
Definition numbered (fs : fsys) : Prop := ∀ n i, fs_inodes fs !! n = Some i → (n < fs_next fs)%nat.

(** A directory change, judged by what it makes visible. *)
Lemma safe_push P path o fs :
  safe P path fs →
  (∃ n i, apply_op (names fs) o !! path = Some n ∧ fs_inodes fs !! n = Some i ∧ in_synced i = true ∧ P (in_data i)) →
  safe P path (push o fs).
Proof.
  intros Hs Ho k. unfold names_after; simpl.
  destruct (decide (k <= length (fs_pending fs))%nat) as [Hk|Hk].
  - rewrite take_app_le by done. apply Hs.
  - rewrite take_ge by (rewrite length_app; simpl; lia). rewrite foldl_app. exact Ho.
Qed.

Lemma safe_push_other P path o fs :
  safe P path fs → apply_op (names fs) o !! path = names fs !! path → safe P path (push o fs).
Proof.
  intros Hs Ho. apply safe_push; [done|]. rewrite Ho. specialize (Hs (length (fs_pending fs))).
  unfold names_after in Hs. by rewrite firstn_all in Hs.
Qed.

Lemma safe_sync_names P path fs : safe P path fs → safe P path (sync_names fs).
Proof.
  intros Hs k. destruct (Hs (length (fs_pending fs))) as (n & i & Hn & H). exists n, i. split; [|done].
  unfold names_after in Hn |- *. simpl. rewrite firstn_all in Hn. by destruct k.
Qed.

(** ** A new file *)

(** The directory with one more file, under the next inode. *)
Definition with_file (path : string) (i : inode) (fs : fsys) : fsys :=
  push (Link path (fs_next fs))
    (mkFs (fs_disk fs) (fs_pending fs) (<[fs_next fs := i]> (fs_inodes fs)) (S (fs_next fs))).

Lemma create_with_file path fs : create path fs = with_file path (mkInode "" false) fs.
Proof. done. Qed.

Lemma set_with_file path i j fs : set_inode (fs_next fs) j (with_file path i fs) = with_file path j fs.
Proof. unfold set_inode, with_file, push; simpl. by rewrite insert_insert_eq. Qed.

Lemma sync_with_file path b c fs :
  sync_file (fs_next fs) (with_file path (mkInode b c) fs) = with_file path (mkInode b true) fs.
Proof. unfold sync_file. simpl. rewrite lookup_insert_eq. apply set_with_file. Qed.

Lemma names_with_file path i fs : names (with_file path i fs) = <[path := fs_next fs]> (names fs).
Proof. unfold names, with_file; simpl. by rewrite foldl_app. Qed.

Lemma content_with_file path i fs : content (with_file path i fs) path = Some (in_data i).
Proof.
  unfold content. rewrite names_with_file, lookup_insert_eq. simpl. by rewrite lookup_insert_eq.
Qed.

Lemma content_with_file_ne path i fs q b :
  numbered fs → q ≠ path → content fs q = Some b → content (with_file path i fs) q = Some b.
Proof.
  intros Hn Hne. unfold content. rewrite names_with_file, lookup_insert_ne by done.
  intros (n & Hq & (j & Hj & ->)%fmap_Some)%bind_Some. rewrite Hq. simpl.
  rewrite lookup_insert_ne; [by rewrite Hj|]. intros <-. specialize (Hn _ _ Hj). lia.
Qed.

Lemma numbered_with_file path i fs : numbered fs → numbered (with_file path i fs).
Proof. intros Hn n j. simpl. intros [[<- _]|[_ Hi]]%lookup_insert_Some; [lia|]. apply Hn in Hi. lia. Qed.

Lemma safe_named P path fs : safe P path fs → is_Some (names fs !! path).
Proof. intros Hs. destruct (Hs (length (fs_pending fs))) as (n & i & Hn & _). unfold names_after in Hn. rewrite firstn_all in Hn. eauto. Qed.

Lemma safe_with_file P q path i fs :
  numbered fs → safe P q fs → q ≠ path → safe P q (with_file path i fs).
Proof.
  intros Hnum Hs Hne. apply safe_push_other; [|simpl; by rewrite lookup_insert_ne].
  intros k. destruct (Hs k) as (m & j & Hm & Hj & Hsy & HP). exists m, j. split; [done|]. simpl.
  rewrite lookup_insert_ne; [done|]. intros <-. specialize (Hnum _ _ Hj). lia.
Qed.

(** While a file is being written under a name that was free. *)
Definition writing (path : string) (fs f : fsys) : Prop :=
  f = fs ∨ (names fs !! path = None ∧ ∃ i, f = with_file path i fs).

Lemma writing_safe P q path fs f : numbered fs → writing path fs f → safe P q fs → safe P q f.
Proof.
  intros Hn [-> |[Hp [i ->]]] Hs; [done|]. apply safe_with_file; [done..|]. intros ->.
  destruct (safe_named _ _ _ Hs) as [? ?]. congruence.
Qed.

Lemma writing_numbered path fs f : numbered fs → writing path fs f → numbered f.
Proof. intros Hn [-> |[_ [i ->]]]; [done|by apply numbered_with_file]. Qed.
