(* ===== verification/Identity.v ===== *)
(** A device's identity, src/internal/client/client.go: the encrypted file it is
    kept in ([Save] and [Load]) and the enrolment that makes one ([Enroll]).

    The network is an argument: what a POST to a URL with a payload gives.  Names
    are those of one directory, that of the identity file. *)
From S2P Require Import Prelude GoStrings NetUrl Crypto Assign Types Db Rules Limits Device Authority.
From S2P Require Import Files.

Record Identity := mkIdentity {
  id_URL : string;
  id_Root : string;
  id_Certificate : string;
  id_PrivateKey : string;
  id_DeviceID : string;
}.

(** [encryptedIdentity]. *)
Record envelope := mkEnvelope { ev_Version : Z; ev_Salt : string; ev_Data : string }.

(** What an invitation decodes to. *)
Record invitation := mkInvite { iv_URL : string; iv_Root : string; iv_Secret : string }.

(** The JSON of the client; byte fields are base64, so only text fields need to be
    UTF-8 to come back. *)
Class ClientJSON := {
  marshal_identity : Identity → string;
  unmarshal_identity : string → option Identity;
  marshal_envelope : envelope → string;
  unmarshal_envelope : string → option envelope;
  marshal_invitation : invitation → string;
  unmarshal_invitation : string → option invitation;
  marshal_enrollment : string → string → string;
  marshal_renewal : string → string;
  decode_certificate : string → option (string * string);
}.

Class ClientJSONLaws `{ClientJSON} : Prop := {
  identity_roundtrip i : ValidString (id_URL i) = true → ValidString (id_DeviceID i) = true →
    unmarshal_identity (marshal_identity i) = Some i;
  envelope_roundtrip e : is_int (ev_Version e) = true → unmarshal_envelope (marshal_envelope e) = Some e;
  invitation_roundtrip i : ValidString (iv_URL i) = true → ValidString (iv_Secret i) = true →
    unmarshal_invitation (marshal_invitation i) = Some i;
}.

(** The library operations of the client: a signing request for a key, whether a
    text has a certificate for the trust pool, the first certificate of a pair, and
    the verification of a client certificate under a root at a time. *)
Class ClientX509 := {
  CreateRequest : string → option string;
  AppendCerts : string → bool;
  pair_leaf : string * string → string;
  VerifyClient : string → x509_certificate → Z → bool;
}.

Section identity.
Context `{GoCrypto} `{GoX509} `{ClientX509} `{ClientJSON}.

(** The bytes of a file a failed write leaves. *)
Context (torn : nat).

Definition identity_purpose : string := "budge-client-identity-v1".

(** The sealed text of an identity, for a salt and a nonce. *)
Definition sealed_identity (pass : string) (i : Identity) (salt nonce : string) : string :=
  marshal_envelope (mkEnvelope 1 salt (Seal (Key pass salt) identity_purpose (marshal_identity i) nonce)).

(** [defer f.Close()] and the mode 0600 of the new file have no further effect. *)
Definition Save (path pass : string) (i : Identity) : M machine unit :=
  guard_ (12 <=? String.length pass)%nat "identity passphrase must have at least 12 characters";;
  salt ← on_env (Random 16);
  nonce ← on_env (Random NonceSize);
  let out := sealed_identity pass i salt nonce in
  os_call id;;                                                    (* MkdirAll *)
  n ← open_excl path;
  write_file torn n out;;
  os_call (sync_file n).

(** [Load], on the bytes of the file. *)
Definition open_identity (pass b : string) : result Identity :=
  match unmarshal_envelope b with
  | None => Err (ErrMsg "invalid identity file")
  | Some v =>
    if negb (ev_Version v =? 1)%Z || negb (String.length (ev_Salt v) =? 16)%nat then Err (ErrMsg "invalid identity file") else
    match Unseal (Key pass (ev_Salt v)) identity_purpose (ev_Data v) with
    | None => Err (ErrMsg "cannot unlock identity")
    | Some p => match unmarshal_identity p with Some i => Ok i | None => Err (ErrMsg "json") end
    end
  end.

Definition Load (path pass : string) : M machine Identity :=
  b ← read_file path; lift (open_identity pass b).

(** [Transport]: the pair a connection presents, and the roots it accepts. *)
Definition Transport (i : Identity) : result (string * string) :=
  match X509KeyPair (id_Certificate i) (id_PrivateKey i) with
  | None => Err (ErrMsg "tls")
  | Some p => if AppendCerts (id_Root i) then Ok p else Err (ErrMsg "invalid identity root")
  end.

(** * Enrolment *)

(** [base64.RawURLEncoding.DecodeString]. *)
Definition RawURLDecode (s : string) : option string := b64_decode b64_url (strip_newlines s).

Definition client_origin (raw : string) : option URL :=
  match Parse raw with
  | None => None
  | Some u =>
    if bool_decide (Scheme u ≠ "https") || bool_decide (Host u = EmptyString) || bool_decide (UPath u ≠ EmptyString)
       || bool_decide (User u ≠ None) || bool_decide (RawQuery u ≠ EmptyString) || bool_decide (Fragment u ≠ EmptyString)
    then None else Some u
  end.

(** A POST that does not follow redirects: the status and the body, or no response. *)
Definition network : Type := string → string → option (Z * string).

Definition post (net : network) (url payload : string) : M machine (option (Z * string)) :=
  modify (log_sent (url, payload));; mret (net url payload).

Definition response_limit : nat := N.to_nat 32768.
#[global] Opaque response_limit.

(** The body of a [200] response, as much of it as is read. *)
Definition accept_certificate (r : option (Z * string)) (unreachable rejected invalid : string) : result (string * string) :=
  match r with
  | None => Err (ErrMsg unreachable)
  | Some (status, body) =>
    if negb (status =? 200)%Z then Err (ErrMsg rejected) else
    match decode_certificate (take_bytes response_limit body) with
    | Some out => Ok out
    | None => Err (ErrMsg invalid)
    end
  end.

Definition Enroll (net : network) (text : string) : M machine Identity :=
  b ← need (RawURLDecode (TrimSpace text)) "invalid invitation";
  inv ← need (unmarshal_invitation b) "invalid invitation";
  need (client_origin (iv_URL inv)) "invalid server origin";;
  guard_ (AppendCerts (iv_Root inv)) "invalid trust root";;
  key ← on_env new_key;
  csr ← need (CreateRequest key) "x509";
  need (Parse (iv_URL inv +:+ "/enroll")) "url";;
  res ← post net (iv_URL inv +:+ "/enroll") (marshal_enrollment (iv_Secret inv) csr);
  out ← lift (accept_certificate res "enrollment connection failed" "enrollment rejected" "json");
  let i := mkIdentity (iv_URL inv) (iv_Root inv) out.2 (keyPEM key) out.1 in
  lift (Transport i);;
  mret i.

End identity.
