(* ===== verification/Keeping.v ===== *)
(** What the identity file promises: it is never overwritten by an enrolment, it
    comes back with the passphrase that sealed it, and an enrolment speaks to the
    origin of its invitation only. *)
From S2P Require Import Prelude GoStrings Coding NetUrl Crypto Types Db Schema Rules Samples Limits Device Authority.
From S2P Require Import Certifying Files Identity.

(** * Rules for a client's machine *)

Lemma wp_os_call w0 d t f (Q : result unit → machine → Prop) s :
  at_world w0 d t (mc_env s) →
  (∀ w, at_world w0 d t w → Q (Ok tt) (update_fs f (set_mc_env w s))) →
  (∀ e w, io w0 e → at_world w0 d t w → Q (Err e) (set_mc_env w s)) →
  wp (os_call f) Q s.
Proof.
  intros Hs HQ HE. unfold os_call. wp_rule. apply wp_zoom. eapply wp_fault; [done|..].
  - intros w Hw _. apply wp_modify. auto.
  - intros e w He Hw _. auto.
Qed.

Lemma wp_read_file w0 d t path (Q : result string → machine → Prop) s :
  at_world w0 d t (mc_env s) →
  (∀ b w, content (mc_fs s) path = Some b → at_world w0 d t w → Q (Ok b) (set_mc_env w s)) →
  (∀ e w, content (mc_fs s) path = None ∨ io w0 e → at_world w0 d t w → Q (Err e) (set_mc_env w s)) →
  wp (read_file path) Q s.
Proof.
  intros Hs HQ HE. unfold read_file. wp_rule. apply wp_zoom. eapply wp_fault; [done|..].
  - intros w Hw _. wp_rule. wp_rule. simpl. destruct (content (mc_fs s) path) as [b|] eqn:E.
    + apply wp_ret. by apply HQ.
    + apply wp_fail. apply HE; auto.
  - intros e w He Hw _. auto.
Qed.

Section saving.
Context `{GoCrypto} `{GoX509} `{ClientX509} `{ClientJSON} (torn : nat).

(** What [Save] leaves of the directory it found, and how it reports. *)
Record saved_file (w0 : world) (path pass : string) (i : Identity) (s : machine) (r : result unit) (s' : machine) : Prop := {
  sf_sent : mc_sent s' = mc_sent s;
  sf_writing : writing path (mc_fs s) (mc_fs s');
  sf_trail : ∃ l, mc_trail s' = mc_trail s ++ l ∧ Forall (writing path (mc_fs s)) l;
  sf_done : r = Ok tt → (12 <= String.length pass)%nat ∧ names (mc_fs s) !! path = None ∧
    ∃ salt nonce, String.length salt = 16%nat ∧ String.length nonce = NonceSize ∧
      mc_fs s' = with_file path (mkInode (sealed_identity pass i salt nonce) true) (mc_fs s);
  sf_quiet : w_faults w0 = [] → (12 <= String.length pass)%nat → names (mc_fs s) !! path = None → r = Ok tt;
}.

Lemma wp_Save w0 d t path pass i s :
  at_world w0 d t (mc_env s) →
  wp (Save torn path pass i) (λ r s', saved_file w0 path pass i s r s' ∧ at_world w0 d t (mc_env s')) s.
Proof.
  intros Hs. unfold Save.
  (** a failure, after the steps recorded in [l] *)
  assert (∀ e fs l w, at_world w0 d t w → writing path (mc_fs s) fs → Forall (writing path (mc_fs s)) l →
    (w_faults w0 = [] → (12 <= String.length pass)%nat → names (mc_fs s) !! path = None → False) →
    saved_file w0 path pass i s (Err e) (mkMachine fs (mc_trail s ++ l) (mc_sent s) w) ∧ at_world w0 d t w) as Herr.
  { intros e fs l w Hw Hf Hl Hno. split; [|done]. split; simpl; eauto; [done|]. intros. by destruct Hno. }
  assert (∀ e w, at_world w0 d t w →
    (w_faults w0 = [] → (12 <= String.length pass)%nat → names (mc_fs s) !! path = None → False) →
    saved_file w0 path pass i s (Err e) (set_mc_env w s) ∧ at_world w0 d t w) as Herr0.
  { intros e w Hw Hno. split; [|done]. split; simpl; [done|by left| |done|intros; by destruct Hno].
    exists []. by rewrite app_nil_r. }
  assert (writing path (mc_fs s) (mc_fs s)) as Hself by by left.
  wp_rule. apply wp_guard; intros H12.
  2: { assert (s = set_mc_env (mc_env s) s) as Hid by by destruct s. rewrite Hid at 2 3. apply Herr0; [done|].
       intros _ ?%Nat.leb_le. congruence. }
  apply Nat.leb_le in H12.
  wp_rule. apply wp_zoom. eapply wp_Random; [done|]. intros salt w1 Hsalt Hw1 _.
  wp_rule. apply wp_zoom. eapply wp_Random; [exact Hw1|]. intros nonce w2 Hnonce Hw2 _. cbv zeta.
  wp_rule. eapply wp_os_call; [exact Hw2| |].
  2: { intros e w3 [_ Hq] Hw3. by apply Herr0. }
  intros w3 Hw3. unfold update_fs, set_mc_env; simpl.
  wp_rule. unfold open_excl. wp_rule. wp_rule. simpl.
  destruct (names (mc_fs s) !! path) as [n|] eqn:En.
  { apply wp_fail. apply Herr; try done. by repeat constructor. }
  assert (∀ x, writing path (mc_fs s) (with_file path x (mc_fs s))) as Hwr by (intros x; right; eauto).
  wp_rule. eapply wp_os_call; [exact Hw3| |].
  2: { intros e w4 [_ Hq] Hw4. apply Herr; try done. by repeat constructor. }
  intros w4 Hw4. rewrite create_with_file || idtac. unfold update_fs, set_mc_env; simpl. wp_rule.
  wp_rule. unfold write_file. wp_rule. wp_rule. apply wp_zoom. simpl.
  change (create path (mc_fs s)) with (with_file path (mkInode "" false) (mc_fs s)).
  eapply wp_fault; [exact Hw4|..].
  - intros w5 Hw5 _. apply wp_modify. unfold update_fs, set_mc_env; simpl. rewrite set_with_file.
    eapply wp_os_call; [exact Hw5| |].
    + intros w6 Hw6. unfold update_fs, set_mc_env; simpl. rewrite sync_with_file, <-!app_assoc. simpl.
      split; [|done]. split; simpl; eauto.
      * eexists; split; [done|]. by repeat (apply Forall_cons; split; [by auto|]).
      * intros _. split; [done|]. split; [done|]. by exists salt, nonce.
    + intros e w6 [_ Hq] Hw6. unfold set_mc_env; simpl. rewrite <-!app_assoc. apply Herr; [done|by auto|by repeat (apply Forall_cons; split; [by auto|])|by intros].
  - intros e w5 [_ Hq] Hw5 _. wp_rule. apply wp_modify. apply wp_fail.
    unfold update_fs, set_mc_env; simpl. rewrite set_with_file, <-!app_assoc. apply Herr; [done|by auto|by repeat (apply Forall_cons; split; [by auto|])|by intros].
Qed.

End saving.

(** * The file round-trips *)

Section keeping.
Context `{GcmLaws} `{GoX509} `{ClientX509} `{ClientJSONLaws} (torn : nat).

Lemma writing_keeps path fs f q b :
  numbered fs → writing path fs f → content fs q = Some b → content f q = Some b.
Proof.
  intros Hn [-> |[Hp [i ->]]] Hq; [done|]. apply content_with_file_ne; [done| |done].
  intros ->. unfold content in Hq. by rewrite Hp in Hq.
Qed.

(** Which passphrases open a sealed identity, and as what: those whose key seals a
    record of it to the very same bytes. *)
Definition reseals (pass pass' : string) (i j : Identity) (salt nonce : string) : Prop :=
  ∃ p, unmarshal_identity p = Some j ∧
    Seal (Key pass' salt) identity_purpose p nonce = Seal (Key pass salt) identity_purpose (marshal_identity i) nonce.

Lemma open_sealed pass pass' i j salt nonce :
  String.length salt = 16%nat → String.length nonce = NonceSize →
  open_identity pass' (sealed_identity pass i salt nonce) = Ok j ↔ reseals pass pass' i j salt nonce.
Proof.
  intros Hsalt Hnonce. unfold open_identity, sealed_identity. rewrite envelope_roundtrip by done. simpl.
  rewrite Hsalt. simpl. set (sealed := Seal (Key pass salt) _ _ _).
  assert (take_bytes NonceSize sealed = nonce ∧ (NonceSize <= String.length sealed)%nat) as [Ht Hl].
  { destruct (Seal_parts (Key pass salt) identity_purpose (marshal_identity i) nonce Hnonce) as (? & _ & Hlt).
    split; [done|]. by apply Nat.ltb_ge in Hlt. }
  assert (∀ p, Unseal (Key pass' salt) identity_purpose sealed = Some p ↔
    Seal (Key pass' salt) identity_purpose p nonce = sealed) as Hiff.
  { intros p. rewrite Unseal_iff by done. by rewrite Ht. }
  split.
  - destruct (Unseal (Key pass' salt) identity_purpose sealed) as [p|] eqn:Eu in |- *; [|done]. apply Hiff in Eu.
    destruct (unmarshal_identity p) as [i'|] eqn:Ei; [|done]. intros [= ->]. exists p. auto.
  - intros (p & Ep & E). rewrite (proj2 (Hiff p) E). by rewrite Ep.
Qed.

(** Loading what a save left. *)
Lemma wp_Load_saved w0 d t path pass i salt nonce s :
  at_world w0 d t (mc_env s) → content (mc_fs s) path = Some (sealed_identity pass i salt nonce) →
  String.length salt = 16%nat → String.length nonce = NonceSize →
  ValidString (id_URL i) = true → ValidString (id_DeviceID i) = true →
  wp (Load path pass) (λ r _, r = Ok i ∨ (r = Err ErrIO ∧ w_faults w0 ≠ [])) s.
Proof.
  intros Hw Hc Hsalt Hnonce Hu Hd. unfold Load. wp_rule. eapply wp_read_file; [exact Hw|..].
  - intros b w Hb _. rewrite Hc in Hb. injection Hb as <-. wp_rule. left. apply open_sealed; [done..|].
    exists (marshal_identity i). split; [by apply identity_roundtrip|done].
  - intros e w [Hn|[-> He]] _; [congruence|by right].
Qed.

(** An identity file round-trips.  However [Save] ends, every file there was
    still has its content, so an enrolment never replaces an identity; when it
    succeeds the passphrase has at least 12 characters, the name was free, and
    [Load] with the passphrase gives the identity back (a failing read apart);
    another passphrase gives an identity only if its key seals a record to the
    stored bytes. *)
Theorem Save_Load path pass i s
    (Hnum : numbered (mc_fs s)) (Hu : ValidString (id_URL i) = true) (Hd : ValidString (id_DeviceID i) = true) :
  match Save torn path pass i s with
  | (r, s') =>
    (∀ q b, content (mc_fs s) q = Some b → content (mc_fs s') q = Some b) ∧
    (r = Ok tt → (12 <= String.length pass)%nat ∧ names (mc_fs s) !! path = None
      ∧ ((Load path pass s').1 = Ok i ∨ (Load path pass s').1 = Err ErrIO)
      ∧ (w_faults (mc_env s) = [] → (Load path pass s').1 = Ok i)
      ∧ ∃ salt nonce, content (mc_fs s') path = Some (sealed_identity pass i salt nonce)
        ∧ ∀ pass' j, open_identity pass' (sealed_identity pass i salt nonce) = Ok j ↔ reseals pass pass' i j salt nonce)
  end.
Proof.
  pose proof (wp_Save torn (mc_env s) (w_db (mc_env s)) (w_tx (mc_env s)) path pass i s (at_self _)) as H'.
  unfold wp in H'. destruct (Save torn path pass i s) as [r s']; simpl in H'. destruct H' as [[Hsent Hwr Htr Hdone Hq] Hw].
  split; [intros q b; by eapply writing_keeps|]. intros Hok. destruct (Hdone Hok) as (H12 & Hfree & salt & nonce & Hsalt & Hnonce & Hfs).
  assert (content (mc_fs s') path = Some (sealed_identity pass i salt nonce)) as Hc by (rewrite Hfs; apply content_with_file).
  pose proof (wp_Load_saved _ _ _ path pass i salt nonce s' Hw Hc Hsalt Hnonce Hu Hd) as Hload.
  unfold wp in Hload. split_and!; [done|done|destruct Hload as [|[? _]]; auto|by intros; destruct Hload as [|[_ ?]]|].
  exists salt, nonce. split; [done|]. intros. by apply open_sealed.
Qed.

End keeping.

(** * Enrolment *)

Section enrolment.
Context `{GoCrypto} `{GoX509} `{ClientX509} `{ClientJSON}.

(** An invitation text that [Enroll] acts on. *)
Definition usable (text : string) (inv : invitation) : Prop :=
  RawURLDecode (TrimSpace text) ≫= unmarshal_invitation = Some inv
  ∧ client_origin (iv_URL inv) ≠ None ∧ AppendCerts (iv_Root inv) = true.

(** The one request it makes. *)
Definition enrolment_request (inv : invitation) (csr : string) : string * string :=
  (iv_URL inv +:+ "/enroll", marshal_enrollment (iv_Secret inv) csr).

(** How an enrolment may end. *)
Definition enrolment (net : network) (text : string) (s : machine) (r : result Identity) (s' : machine) : Prop :=
  mc_fs s' = mc_fs s ∧
  (mc_sent s' = mc_sent s ∨
    ∃ inv key csr, usable text inv ∧ CreateRequest key = Some csr ∧ mc_sent s' = mc_sent s ++ [enrolment_request inv csr]) ∧
  ∀ i, r = Ok i → ∃ inv key csr body out,
    usable text inv ∧ CreateRequest key = Some csr ∧ mc_sent s' = mc_sent s ++ [enrolment_request inv csr]
    ∧ net (iv_URL inv +:+ "/enroll") (marshal_enrollment (iv_Secret inv) csr) = Some (200%Z, body)
    ∧ decode_certificate (take_bytes response_limit body) = Some out
    ∧ i = mkIdentity (iv_URL inv) (iv_Root inv) out.2 (keyPEM key) out.1
    ∧ is_Some (X509KeyPair out.2 (keyPEM key)).

Lemma wp_Enroll w0 d t net text s : at_world w0 d t (mc_env s) →
  wp (Enroll net text) (λ r s', enrolment net text s r s' ∧ at_world w0 d t (mc_env s')) s.
Proof.
  intros Hw. unfold Enroll.
  assert (∀ e w, at_world w0 d t w → enrolment net text s (Err e) (set_mc_env w s) ∧ at_world w0 d t w) as HE.
  { intros e w Hw'. split; [|done]. split_and!; auto; done. }
  assert (∀ e, enrolment net text s (Err e) s ∧ at_world w0 d t (mc_env s)) as HE0.
  { intros e. specialize (HE e (mc_env s) Hw). by destruct s. }
  wp_rule. apply wp_need; [|intros _; apply HE0]. intros b Hb.
  wp_rule. apply wp_need; [|intros _; apply HE0]. intros inv Hinv.
  wp_rule. apply wp_need; [|intros _; apply HE0]. intros u Hu.
  wp_rule. apply wp_guard; intros Hroot; [|apply HE0].
  wp_rule. apply wp_zoom. eapply wp_new_key; [exact Hw|]. intros k w1 Hw1 _.
  wp_rule. apply wp_need; [|intros _; by apply HE]. intros csr Hcsr.
  wp_rule. apply wp_need; [|intros _; by apply HE]. intros u' Hu'.
  assert (usable text inv) as Huse by (split_and!; [by rewrite Hb|congruence|done]).
  wp_rule. unfold post. wp_rule. apply wp_modify. wp_rule. simpl.
  set (s1 := log_sent (enrolment_request inv csr) (set_mc_env w1 s)).
  assert (∀ e, enrolment net text s (Err e) s1 ∧ at_world w0 d t (mc_env s1)) as Herr.
  { intros e. split; [|done]. split_and!; [done| |done]. right. by exists inv, (GenerateKey k), csr. }
  wp_rule. wp_rule. destruct (accept_certificate _ _ _ _) as [out|e] eqn:Eacc; [|apply Herr].
  cbv zeta. wp_rule. wp_rule. destruct (Transport _) as [p|e] eqn:Et; [|apply Herr].
  wp_rule. split; [|done]. split_and!; [done|right; by exists inv, (GenerateKey k), csr|].
  intros i [= <-]. unfold accept_certificate in Eacc.
  destruct (net _ _) as [[status body]|] eqn:En; [|done]. destruct (status =? 200)%Z eqn:Es; [|done]. simpl in Eacc.
  apply Z.eqb_eq in Es as ->. destruct (decode_certificate _) as [out'|] eqn:Ed; [|done]. injection Eacc as ->.
  exists inv, (GenerateKey k), csr, body, out. split_and!; try done.
  unfold Transport in Et. simpl in Et. destruct (X509KeyPair _ _); [eauto|done].
Qed.

(** An enrolment changes no file and speaks to one place: it sends nothing unless
    the text is an invitation for an HTTPS origin with a trust root, and then at
    most one request, to that origin, with the invitation's secret and a request
    for a certificate of the fresh key.  The identity it returns has that origin and
    root, the device and certificate of a 200 response to that request, and the
    fresh key, which is the certificate's. *)
Theorem Enroll_correct net text s : wp (Enroll net text) (enrolment net text s) s.
Proof. eapply wp_mono; [apply wp_Enroll, at_self|]. by intros r s' [? _]. Qed.

End enrolment.

(** * Witnesses *)

Definition plain_client : ClientJSON := {|
  marshal_identity i := fields [id_URL i; id_Root i; id_Certificate i; id_PrivateKey i; id_DeviceID i];
  unmarshal_identity s :=
    match unfields s with Some [u; r; t; k; d] => Some (mkIdentity u r t k d) | _ => None end;
  marshal_envelope e := fields [Z_text (ev_Version e); ev_Salt e; ev_Data e];
  unmarshal_envelope s := match unfields s with Some [v; t; d] => Some (mkEnvelope (text_Z v) t d) | _ => None end;
  marshal_invitation i := fields [iv_URL i; iv_Root i; iv_Secret i];
  unmarshal_invitation s := match unfields s with Some [u; r; t] => Some (mkInvite u r t) | _ => None end;
  marshal_enrollment secret csr := fields [secret; csr];
  marshal_renewal csr := csr;
  decode_certificate s := match unfields s with Some [d; c] => Some (d, c) | _ => None end;
|}.

Lemma plain_client_laws : @ClientJSONLaws plain_client.
Proof.
  split.
  - intros i _ _. cbn [unmarshal_identity marshal_identity plain_client]. rewrite unfields_fields. by destruct i.
  - intros e. cbn [unmarshal_envelope marshal_envelope plain_client]. rewrite unfields_fields, text_Z_text. by destruct e.
  - intros i _ _. cbn [unmarshal_invitation marshal_invitation plain_client]. rewrite unfields_fields. by destruct i.
Qed.

(** A certificate verifies under any root while it is valid. *)
Definition plain_client_x509 : ClientX509 := {|
  CreateRequest := Some;
  AppendCerts s := negb (bool_decide (s = EmptyString));
  pair_leaf p := TrimPrefix p.1 "PEM:";
  VerifyClient _ c now := (x_not_before c <=? now)%Z && (now <=? x_not_after c)%Z;
|}.

#[local] Existing Instances plain_crypto plain_laws plain_x509 plain_client plain_client_laws plain_client_x509.

Definition empty_dir : fsys := mkFs ∅ [] ∅ 0.
Definition client_machine : machine :=
  mkMachine empty_dir [] [] (set_w_random ["0123456789abcdef"; "abcdefghijkl"; "renew-file"; "salt-salt-salt-!"; "nonce-nonce-"] sample_world).
Definition sample_identity : Identity :=
  mkIdentity "https://budge.example:18781" "PEM:root" "PEM:cert" "PEM:key" "dev_1".

Lemma empty_numbered : numbered empty_dir.
Proof. intros n i. simpl. by rewrite lookup_empty. Qed.

Lemma Save_Load_witness :
  (Save 0 "identity.json" "correct horse battery" sample_identity client_machine).1 = Ok tt ∧
  (Load "identity.json" "correct horse battery" (Save 0 "identity.json" "correct horse battery" sample_identity client_machine).2).1
    = Ok sample_identity.
Proof.
  assert ((Save 0 "identity.json" "correct horse battery" sample_identity client_machine).1 = Ok tt) as E
    by (vm_compute; reflexivity).
  split; [exact E|].
  pose proof (Save_Load 0 "identity.json" "correct horse battery" sample_identity client_machine empty_numbered eq_refl eq_refl) as H.
  destruct (Save 0 "identity.json" "correct horse battery" sample_identity client_machine) as [r s'].
  destruct H as [_ H]. destruct (H E) as (_ & _ & _ & Hq & _). apply Hq. reflexivity.
Defined.
