(* ===== verification/Renewal.v ===== *)
(** Renewal of a device's certificate, src/internal/client/renewal.go: the identity
    that handshakes use, and [Refresh], which replaces its certificate in the file
    and then in memory. *)
From S2P Require Import Prelude GoStrings NetUrl Crypto Types Db Schema Rules Samples Limits Device Authority.
From S2P Require Import Certifying Files Identity Keeping.

(** [Renewal]: the identity and the pair new handshakes present, with the machine. *)
Record renewal := mkRenewal {
  rl_id : Identity;
  rl_cert : string * string;
  rl_machine : machine;
}.

Definition set_rl_machine (v : machine) (s : renewal) : renewal := mkRenewal (rl_id s) (rl_cert s) v.
Definition expose (i : Identity) (cert : string * string) (s : renewal) : renewal := mkRenewal i cert (rl_machine s).

Definition on_machine {A} (m : M machine A) : M renewal A := zoom rl_machine set_rl_machine m.

Definition set_certificate_of (cert : string) (i : Identity) : Identity :=
  mkIdentity (id_URL i) (id_Root i) cert (id_PrivateKey i) (id_DeviceID i).

Section renewal.
Context `{GoCrypto} `{GoX509} `{ClientX509} `{ClientJSON} (torn : nat).

(** [NewRenewal]. *)
Definition NewRenewal (i : Identity) (m : machine) : result renewal :=
  match X509KeyPair (id_Certificate i) (id_PrivateKey i) with
  | None => Err (ErrMsg "tls")
  | Some cert => Ok (mkRenewal i cert m)
  end.

(** Asks the server for a certificate of the same key, and checks what it gives. *)
Definition request_certificate (net : network) (i : Identity) : M renewal (string * (string * string)) :=
  keyBlock ← need (pem_Decode (id_PrivateKey i)) "invalid local key";
  key ← need (ParsePKCS8 keyBlock) "x509";
  csr ← need (CreateRequest key) "x509";
  need (Parse (id_URL i +:+ "/device/renew")) "url";;
  res ← on_machine (post net (id_URL i +:+ "/device/renew") (marshal_renewal csr));
  out ← lift (accept_certificate res "certificate renewal connection failed"
                "certificate renewal rejected; check device status" "invalid renewed identity");
  guard_ (bool_decide (out.1 = id_DeviceID i)) "invalid renewed identity";;
  next ← need (X509KeyPair out.2 (id_PrivateKey i)) "tls";
  leaf ← need (ParseCertificate (pair_leaf next)) "x509";
  now ← on_machine (on_env time_Now);
  guard_ (VerifyClient (id_Root i) leaf now && bool_decide (x_name leaf = id_DeviceID i))
    "renewed certificate verification failed";;
  mret (out.2, next).

(** [defer os.Remove(temp)]: a failure of it is not looked at. *)
Definition remove_quietly (path : string) : M machine unit :=
  attempt (os_call (push (Unlink path)));; mret tt.

(** [defer] on the state of a machine. *)
Definition deferred {S A} (m : M S A) (fin : M S unit) : M S A := λ s,
  let '(r, s') := m s in (r, (fin s').2).

(** Writes the new identity beside the old one and renames it over it. *)
Definition persist (path pass : string) (i : Identity) : M machine unit :=
  id ← on_env (new_ID "");
  let temp := ".renew-" +:+ id in
  Save torn temp pass i;;
  deferred (
    os_call (push (Move temp path));;
    os_call Datatypes.id;;                              (* open the directory *)
    os_call sync_names) (remove_quietly temp).

Definition Refresh (net : network) (path pass : string) : M renewal unit :=
  l ← gets Datatypes.id;
  let i := rl_id l in
  block ← need (pem_Decode (id_Certificate i)) "invalid local certificate";
  cert ← need (ParseCertificate block) "x509";
  now ← on_machine (on_env time_Now);
  if (week <? x_not_after cert - now)%Z then mret tt else
  now ← on_machine (on_env time_Now);
  if (x_not_after cert <? now)%Z then fail (ErrMsg "device certificate expired; obtain a new invitation") else
  out ← request_certificate net i;
  let i' := set_certificate_of out.1 i in
  on_machine (persist path pass i');;
  modify (expose i' out.2).

(** The goroutine of the connect command: an attempt at each tick of the hour, whose
    error is only reported.  A tick is what happens before it (time passes, failures
    come) and the network it meets. *)
Fixpoint renewal_loop (path pass : string) (ticks : list ((world → world) * network)) : M renewal unit :=
  match ticks with
  | [] => mret tt
  | (wait, net) :: rest =>
    on_machine (modify (λ m, set_mc_env (wait (mc_env m)) m));;
    attempt (Refresh net path pass);;
    renewal_loop path pass rest
  end.

End renewal.
