(* ===== verification/Refreshing.v ===== *)
(** Renewing a certificate is safe: the file on disk is a whole identity at every
    moment, and memory never runs ahead of it. *)
From S2P Require Import Prelude GoStrings Coding NetUrl Crypto Types Db Schema Rules Samples Limits Device Authority.
From S2P Require Import Certifying Files Identity Keeping Renewal.

(** * Keeping track of the directory *)

(** From [s0] to [s] the file at [path] was, at every moment, safe with [P]. *)
Record track (P : string → Prop) (path : string) (s0 s : machine) : Prop := {
  tr_trail : ∃ l, mc_trail s = mc_trail s0 ++ l ∧ Forall (safe P path) l;
  tr_safe : safe P path (mc_fs s);
  tr_sent : mc_sent s = mc_sent s0;
  tr_numbered : numbered (mc_fs s);
}.

Lemma track_env P path s0 s w : track P path s0 s → track P path s0 (set_mc_env w s).
Proof. intros [? ? ? ?]. by split. Qed.

Lemma track_update P path s0 s f :
  track P path s0 s → safe P path (f (mc_fs s)) → (∀ fs, numbered fs → numbered (f fs)) →
  track P path s0 (update_fs f s).
Proof.
  intros [(l & Hl & Hall) _ Hsent Hn] Hf Hnf. split; [|done|done|by apply Hnf]. simpl. exists (l ++ [f (mc_fs s)]).
  rewrite Hl, <-app_assoc. split; [done|]. apply Forall_app. split; [done|by apply Forall_singleton].
Qed.

Lemma wp_os_track w0 d t P path s0 f (Q : result unit → machine → Prop) s :
  at_world w0 d t (mc_env s) → track P path s0 s → safe P path (f (mc_fs s)) → (∀ fs, numbered fs → numbered (f fs)) →
  (∀ s', at_world w0 d t (mc_env s') → track P path s0 s' → mc_fs s' = f (mc_fs s) → Q (Ok tt) s') →
  (∀ e s', io w0 e → at_world w0 d t (mc_env s') → track P path s0 s' → mc_fs s' = mc_fs s → Q (Err e) s') →
  wp (os_call f) Q s.
Proof.
  intros Hw Ht Hf Hnf HQ HE. eapply wp_os_call; [done|..].
  - intros w Hw'. apply HQ; [done| |done]. apply track_update; [by apply track_env|done|done].
  - intros e w He Hw'. apply HE; [done|done|by apply track_env|done].
Qed.

Lemma wp_deferred {S A} (m : M S A) (fin : M S unit) (Q : result A → S → Prop) s :
  wp m (λ r s', wp fin (λ _ s'', Q r s'') s') s → wp (deferred m fin) Q s.
Proof. unfold wp, deferred. by destruct (m s). Qed.

Section refreshing.
Context `{GoCrypto} `{GoX509} `{ClientX509} `{ClientJSON} (torn : nat).

(** The content of a file that [Save] made of an identity. *)
Definition holds (pass : string) (i : Identity) (b : string) : Prop :=
  ∃ salt nonce, String.length salt = 16%nat ∧ String.length nonce = NonceSize ∧ b = sealed_identity pass i salt nonce.

Lemma wp_remove w0 d t P path temp s0 (Q : machine → Prop) s :
  at_world w0 d t (mc_env s) → track P path s0 s → temp ≠ path →
  (∀ s', track P path s0 s' → (∀ R, safe R path (mc_fs s) → safe R path (mc_fs s')) → Q s') →
  wp (remove_quietly temp) (λ _ s', Q s') s.
Proof.
  intros Hw Ht Hne HQ. unfold remove_quietly. wp_rule. wp_rule.
  assert (∀ R, safe R path (mc_fs s) → safe R path (push (Unlink temp) (mc_fs s))) as Hpush.
  { intros R HR. apply safe_push_other; [done|]. simpl. by rewrite lookup_delete_ne. }
  eapply (wp_os_track w0); [done|done|by apply Hpush, Ht|done|..].
  - intros s' _ Ht' Hfs. wp_rule. apply HQ; [done|]. intros R. rewrite Hfs. apply Hpush.
  - intros e s' _ _ Ht' Hfs. wp_rule. apply HQ; [done|]. intros R. by rewrite Hfs.
Qed.

(** Writing the new identity and renaming it over the old one. *)
Lemma wp_persist w0 d t path pass i (old : string → Prop) s :
  at_world w0 d t (mc_env s) → numbered (mc_fs s) → safe old path (mc_fs s) →
  wp (persist torn path pass i) (λ r s', track (λ b, old b ∨ holds pass i b) path s s'
    ∧ (r = Ok tt → safe (holds pass i) path (mc_fs s'))) s.
Proof.
  intros Hw Hnum Hold. set (P := λ b, old b ∨ holds pass i b).
  assert (∀ fs, safe old path fs → safe P path fs) as HP by (intros fs; apply safe_mono; by left).
  unfold persist. wp_rule. apply wp_zoom. eapply wp_new_ID; [exact Hw|]. intros x w1 _ Hw1 _. simpl.
  wp_rule. eapply wp_mono; [by apply (wp_Save torn w0 d t)|].
  intros r s1 [[Hsent Hwr (l & Hl & Hall) Hdone _] Hw2]; simpl in *.
  assert (track P path s s1) as Ht.
  { split; [|by eapply HP, writing_safe|done|by eapply writing_numbered]. exists l. split; [done|].
    eapply Forall_impl; [done|]. intros f Hf. by eapply HP, writing_safe. }
  destruct r as [[]|e]; [|by split]. destruct (Hdone eq_refl) as (_ & Hfree & salt & nonce & Hs & Hn & Hfs).
  set (temp := ".renew-" +:+ ID "" x) in *. set (n := fs_next (mc_fs s)) in *.
  assert (temp ≠ path) as Hne. { intros ->. destruct (safe_named _ _ _ Hold) as [? ?]. congruence. }
  apply wp_deferred. wp_rule.
  assert (names (mc_fs s1) !! temp = Some n ∧ fs_inodes (mc_fs s1) !! n = Some (mkInode (sealed_identity pass i salt nonce) true)) as [Hnt Hni].
  { rewrite Hfs, names_with_file, lookup_insert_eq. split; [done|]. simpl. by rewrite lookup_insert_eq. }
  assert (holds pass i (sealed_identity pass i salt nonce)) as Hh by by exists salt, nonce.
  assert (names (push (Move temp path) (mc_fs s1)) !! path = Some n) as Hnp.
  { unfold names in *. simpl. rewrite foldl_app. simpl. rewrite Hnt. by rewrite lookup_insert_eq. }
  eapply (wp_os_track w0); [done|exact Ht| |done|..].
  - apply safe_push; [apply Ht|]. exists n, (mkInode (sealed_identity pass i salt nonce) true). simpl. rewrite Hnt.
    rewrite lookup_insert_eq. split_and!; [done|done|done|by right].
  - intros s2 Hw3 Ht2 Hfs2. wp_rule.
    eapply (wp_os_track w0); [done|exact Ht2|apply Ht2|done|..].
    + intros s3 Hw4 Ht3 Hfs3. eapply (wp_os_track w0); [done|exact Ht3|apply safe_sync_names, Ht3|done|..].
      * intros s4 Hw5 Ht4 Hfs4. eapply wp_remove; [done|exact Ht4|done|]. intros s5 Ht5 Hkeep. split; [done|].
        intros _. apply Hkeep. rewrite Hfs4, Hfs3, Hfs2. unfold Datatypes.id.
        intros k. exists n, (mkInode (sealed_identity pass i salt nonce) true).
        unfold names_after. cbn [fs_disk fs_pending fs_inodes sync_names]. rewrite take_nil. by split_and!.
      * intros e s4 _ Hw5 Ht4 Hfs4. eapply wp_remove; [done|exact Ht4|done|]. by intros s5 Ht5 _.
    + intros e s3 _ Hw4 Ht3 Hfs3. eapply wp_remove; [done|exact Ht3|done|]. by intros s5 Ht5 _.
  - intros e s2 _ Hw3 Ht2 Hfs2. eapply wp_remove; [done|exact Ht2|done|]. by intros s5 Ht5 _.
Qed.

(** * [Refresh] *)

(** An identity a renewal may put in the place of [i]: the same but for the
    certificate, which verified under its root, for its device and its key. *)
Record renewed (i i' : Identity) (pair : string * string) : Prop := {
  rn_same : i' = set_certificate_of (id_Certificate i') i;
  rn_pair : X509KeyPair (id_Certificate i') (id_PrivateKey i) = Some pair;
  rn_verified : ∃ leaf now, ParseCertificate (pair_leaf pair) = Some leaf ∧ VerifyClient (id_Root i) leaf now = true
    ∧ x_name leaf = id_DeviceID i;
}.

(** The one request a renewal makes. *)
Definition renewal_request (i : Identity) (csr : string) : string * string :=
  (id_URL i +:+ "/device/renew", marshal_renewal csr).

(** What the steps before the write leave: the directory as it was, at most one
    request more. *)
Definition asked (i : Identity) (m m' : machine) : Prop :=
  mc_fs m' = mc_fs m ∧ mc_trail m' = mc_trail m
  ∧ (mc_sent m' = mc_sent m ∨ ∃ csr, mc_sent m' = mc_sent m ++ [renewal_request i csr]).

Lemma asked_env i m m' w : asked i m m' → asked i m (set_mc_env w m').
Proof. by intros (? & ? & ?). Qed.

Lemma wp_request w0 d t net i m0 (Q : result (string * (string * string)) → renewal → Prop) s :
  at_world w0 d t (mc_env (rl_machine s)) → rl_machine s = m0 →
  (∀ c pair m, at_world w0 d t (mc_env m) → asked i m0 m → renewed i (set_certificate_of c i) pair →
     Q (Ok (c, pair)) (set_rl_machine m s)) →
  (∀ e m, asked i m0 m → Q (Err e) (set_rl_machine m s)) →
  wp (request_certificate net i) Q s.
Proof.
  intros Hw <- HQ HE.
  assert (∀ e, Q (Err e) s) as HE0.
  { intros e. assert (s = set_rl_machine (rl_machine s) s) as -> by by destruct s. apply HE. split_and!; auto. }
  unfold request_certificate.
  wp_rule. apply wp_need; [|intros _; apply HE0]. intros keyBlock _.
  wp_rule. apply wp_need; [|intros _; apply HE0]. intros key _.
  wp_rule. apply wp_need; [|intros _; apply HE0]. intros csr _.
  wp_rule. apply wp_need; [|intros _; apply HE0]. intros u _.
  wp_rule. apply wp_zoom. unfold post. wp_rule. apply wp_modify. wp_rule.
  set (m1 := log_sent _ _).
  assert (asked i (rl_machine s) m1) as Hm1 by (split_and!; [done..|right; by exists csr]).
  wp_rule. wp_rule. destruct (accept_certificate _ _ _ _) as [out|e]; [|by apply HE].
  wp_rule. apply wp_guard; intros Hid; [|by apply HE].
  wp_rule. apply wp_need; [|intros _; by apply HE]. intros next Hnext.
  wp_rule. apply wp_need; [|intros _; by apply HE]. intros leaf Hleaf.
  wp_rule. apply wp_zoom, wp_zoom. eapply wp_time_Now; [exact Hw|]. intros w1 Hw1 _.
  wp_rule. apply wp_guard; intros Hv; [|by apply (HE _ (set_mc_env w1 m1)), asked_env].
  apply andb_true_iff in Hv as [Hv Hn%bool_decide_eq_true].
  wp_rule. apply (HQ _ _ (set_mc_env w1 m1)); [done|by apply asked_env|]. split; simpl; [done|done|eauto].
Qed.

(** The end of an attempt. *)
Record refreshed (pass path : string) (old : string → Prop) (s : renewal) (r : result unit) (s' : renewal) : Prop := {
  rf_sent : mc_sent (rl_machine s') = mc_sent (rl_machine s) ∨
    ∃ csr, mc_sent (rl_machine s') = mc_sent (rl_machine s) ++ [renewal_request (rl_id s) csr];
  rf_always : ∃ l, mc_trail (rl_machine s') = mc_trail (rl_machine s) ++ l ∧
    Forall (survives (λ b, old b ∨ ∃ i pair, renewed (rl_id s) i pair ∧ holds pass i b) path) (mc_fs (rl_machine s') :: l);
  rf_memory : (rl_id s' = rl_id s ∧ rl_cert s' = rl_cert s) ∨
    (r = Ok tt ∧ renewed (rl_id s) (rl_id s') (rl_cert s') ∧
       safe (holds pass (rl_id s')) path (mc_fs (rl_machine s')));
  rf_next : numbered (mc_fs (rl_machine s')) ∧
    safe (λ b, old b ∨ ∃ i pair, renewed (rl_id s) i pair ∧ holds pass i b) path (mc_fs (rl_machine s'));
}.

Lemma wp_Refresh w0 d t net path pass (old : string → Prop) s :
  at_world w0 d t (mc_env (rl_machine s)) →
  numbered (mc_fs (rl_machine s)) → safe old path (mc_fs (rl_machine s)) →
  wp (Refresh torn net path pass) (refreshed pass path old s) s.
Proof.
  intros Hw Hnum Hold. set (i := rl_id s).
  assert (∀ e m, asked i (rl_machine s) m → refreshed pass path old s (Err e) (set_rl_machine m s)) as HE.
  { intros e m (Hfs & Htr & Hsent).
    assert (safe (λ b, old b ∨ ∃ i' pair, renewed i i' pair ∧ holds pass i' b) path (mc_fs m)) as Hs.
    { rewrite Hfs. eapply safe_mono; [|done]. by left. }
    split; simpl; [done| |by left|split; [by rewrite Hfs|done]]. exists []. rewrite app_nil_r. split; [done|].
    by apply Forall_singleton, safe_survives. }
  assert (∀ e, refreshed pass path old s (Err e) s) as HE0.
  { intros e. assert (s = set_rl_machine (rl_machine s) s) as Hid by by destruct s. rewrite Hid at 2.
    apply HE. split_and!; auto. }
  unfold Refresh. wp_rule. wp_rule.
  wp_rule. apply wp_need; [|intros _; apply HE0]. intros block _.
  wp_rule. apply wp_need; [|intros _; apply HE0]. intros cert _.
  wp_rule. apply wp_zoom, wp_zoom. eapply wp_time_Now; [exact Hw|]. intros w1 Hw1 _.
  wp_case.
  { wp_rule. destruct (HE ErrIO (set_mc_env w1 (rl_machine s))) as [H3 H4 _ H5]; [split_and!; auto|].
    split; [exact H3|exact H4|by left|exact H5]. }
  wp_rule. apply wp_zoom, wp_zoom. eapply wp_time_Now; [exact Hw1|]. intros w2 Hw2 _.
  wp_case; [wp_rule; apply (HE _ (set_mc_env w2 (rl_machine s))); split_and!; auto|].
  wp_rule. eapply (wp_request w0); [exact Hw2|done| |].
  2: { intros e m Ha. by apply (HE e m). }
  intros c pair m Hm Ha Hrn. cbv zeta. wp_rule. apply wp_zoom.
  pose proof Ha as (Hfs & Htr & Hsent). simpl in Hfs, Htr, Hsent.
  eapply wp_mono; [eapply (wp_persist w0 d t path pass (set_certificate_of c i) old m); [done|by rewrite Hfs|by rewrite Hfs]|].
  intros r m' [[(l & Hl & Hall) Hsafe Hsent' Hnum'] Hnew]. simpl.
  assert (∀ b, old b ∨ holds pass (set_certificate_of c i) b →
    old b ∨ ∃ i' pair', renewed i i' pair' ∧ holds pass i' b) as Himp.
  { intros b [?|?]; [by left|]. right. by exists (set_certificate_of c i), pair. }
  assert (safe (λ b, old b ∨ ∃ i' pair', renewed i i' pair' ∧ holds pass i' b) path (mc_fs m')) as Hs
    by (eapply safe_mono; [exact Himp|done]).
  assert (∃ l, mc_trail m' = mc_trail (rl_machine s) ++ l ∧
    Forall (survives (λ b, old b ∨ ∃ i' pair', renewed i i' pair' ∧ holds pass i' b) path) (mc_fs m' :: l)) as Halways.
  { exists l. rewrite Hl, Htr. split; [done|]. apply Forall_cons. split.
    - by apply safe_survives.
    - eapply Forall_impl; [exact Hall|]. intros fs Hfs'. eapply safe_survives, safe_mono; [exact Himp|done]. }
  destruct r as [[]|e].
  - apply wp_modify. split; simpl; [by rewrite Hsent'|done| |done]. right. split_and!; [done|done|]. by apply Hnew.
  - split; simpl; [by rewrite Hsent'|done|by left|done].
Qed.

(** Renewing a certificate: whatever fails, and wherever a crash falls, the file
    holds a whole identity — the old one, or one that differs from it only in a
    certificate that verified under its root, for its device and key —; memory
    changes only when the new identity is in the file for good, sealed under the
    passphrase; and nothing is sent but one request to the renewal address of the
    identity's own server. *)
Theorem Refresh_correct net path pass b s
    (Hnum : numbered (mc_fs (rl_machine s))) (Hold : safe (λ x, x = b) path (mc_fs (rl_machine s))) :
  wp (Refresh torn net path pass) (refreshed pass path (λ x, x = b) s) s.
Proof. eapply wp_Refresh; [apply at_self|done|done]. Qed.

(** * Many attempts *)

(** What any number of renewals may make of an identity. *)
Definition renewable (i i' : Identity) : Prop := ∃ pair, renewed i i' pair.

Lemma renewable_same i i' : rtc renewable i i' →
  id_URL i' = id_URL i ∧ id_Root i' = id_Root i ∧ id_PrivateKey i' = id_PrivateKey i ∧ id_DeviceID i' = id_DeviceID i.
Proof.
  induction 1 as [|i j k [pair [-> _ _]] _ (-> & -> & -> & ->)]; [done|]. by unfold set_certificate_of.
Qed.

(** A file that a connector of identity [i] can go on with. *)
Definition continues (pass : string) (i : Identity) (b : string) : Prop := ∃ i', rtc renewable i i' ∧ holds pass i' b.

Lemma continues_renewed pass i i' b : rtc renewable i i' → continues pass i' b → continues pass i b.
Proof. intros Hi (j & Hj & Hb). exists j. split; [by etransitivity|done]. Qed.

(** How the connector stands after any number of attempts. *)
Record lasting (pass path : string) (s s' : renewal) : Prop := {
  la_identity : rtc renewable (rl_id s) (rl_id s');
  la_pair : X509KeyPair (id_Certificate (rl_id s')) (id_PrivateKey (rl_id s')) = Some (rl_cert s');
  la_always : ∃ l, mc_trail (rl_machine s') = mc_trail (rl_machine s) ++ l ∧
    Forall (survives (continues pass (rl_id s)) path) (mc_fs (rl_machine s') :: l);
  la_ahead : safe (continues pass (rl_id s')) path (mc_fs (rl_machine s'));
  la_sent : ∃ l, mc_sent (rl_machine s') = mc_sent (rl_machine s) ++ l ∧
    Forall (λ q : string * string, q.1 = id_URL (rl_id s) +:+ "/device/renew") l;
  la_numbered : numbered (mc_fs (rl_machine s'));
}.

Lemma lasting_start pass path s :
  X509KeyPair (id_Certificate (rl_id s)) (id_PrivateKey (rl_id s)) = Some (rl_cert s) →
  numbered (mc_fs (rl_machine s)) → safe (holds pass (rl_id s)) path (mc_fs (rl_machine s)) → lasting pass path s s.
Proof.
  intros Hp Hn Hs. assert (safe (continues pass (rl_id s)) path (mc_fs (rl_machine s))) as Hc.
  { eapply safe_mono; [|done]. intros b Hb. by exists (rl_id s). }
  split; [done|done| |done|exists []; by rewrite app_nil_r|done].
  exists []. rewrite app_nil_r. split; [done|]. by apply Forall_singleton, safe_survives.
Qed.

Lemma lasting_step pass path s0 s r s' :
  lasting pass path s0 s → refreshed pass path (continues pass (rl_id s)) s r s' → lasting pass path s0 s'.
Proof.
  intros [Hi Hp (l & Hl & Hall) Ha (q & Hq & Hqs) Hn] [Hsent (l' & Hl' & Hall') Hmem [Hn' Hs']].
  assert (∀ b, continues pass (rl_id s) b ∨ (∃ i pair, renewed (rl_id s) i pair ∧ holds pass i b) → continues pass (rl_id s) b) as Hc.
  { intros b [Hb|(i & pair & Hr & Hb)]; [done|]. exists i. split; [|done]. apply rtc_once. by exists pair. }
  assert (∀ fs, survives (λ b, continues pass (rl_id s) b ∨ ∃ i pair, renewed (rl_id s) i pair ∧ holds pass i b) path fs →
    survives (continues pass (rl_id s0)) path fs) as Hup.
  { intros fs Hf fs' Hcr. destruct (Hf fs' Hcr) as (b & Hb & Hbs). exists b. split; [done|].
    eapply continues_renewed; [done|]. by apply Hc. }
  apply Forall_cons in Hall as [_ Hall]. apply Forall_cons in Hall' as [Hlast Hall'].
  split.
  - destruct Hmem as [[-> _]|(_ & Hr & _)]; [done|]. eapply rtc_r; [done|by eexists].
  - destruct Hmem as [[-> ->]|(_ & [Hsame Hpair _] & _)]; [done|]. by rewrite Hsame at 2.
  - exists (l ++ l'). rewrite Hl', Hl, app_assoc. split; [done|]. apply Forall_cons. split; [by apply Hup|].
    apply Forall_app. split; [done|]. eapply Forall_impl; [done|]. exact Hup.
  - destruct Hmem as [[-> _]|(_ & _ & Hs)]; [eapply safe_mono; [exact Hc|exact Hs']|]. eapply safe_mono; [|exact Hs]. intros b Hb. exists (rl_id s'). by split.
  - destruct Hsent as [->|[csr ->]]; [eauto|]. exists (q ++ [renewal_request (rl_id s) csr]).
    rewrite Hq, app_assoc. split; [done|]. apply Forall_app. split; [done|]. apply Forall_singleton. simpl.
    by rewrite (proj1 (renewable_same _ _ Hi)).
  - done.
Qed.

Lemma lasting_env pass path s0 s w : lasting pass path s0 s →
  lasting pass path s0 (set_rl_machine (set_mc_env w (rl_machine s)) s).
Proof. by intros [? ? ? ? ? ?]. Qed.

Lemma wp_renewal_loop pass path ticks s0 s : lasting pass path s0 s →
  wp (renewal_loop torn path pass ticks) (λ r s', r = Ok tt ∧ lasting pass path s0 s') s.
Proof.
  revert s. induction ticks as [|[wait net] ticks IH]; intros s Hl; cbn [renewal_loop]; [by apply wp_ret|].
  wp_rule. apply wp_zoom, wp_modify. wp_rule. apply wp_attempt.
  set (s1 := set_rl_machine _ s). assert (lasting pass path s0 s1) as Hl1 by by apply lasting_env.
  eapply wp_mono; [eapply (wp_Refresh (mc_env (rl_machine s1)) _ _ net path pass (continues pass (rl_id s1)) s1);
    [apply at_self|apply Hl1|apply Hl1]|].
  intros r s2 Hr. apply IH. by eapply lasting_step.
Qed.

(** A connector that runs for any time, with an attempt at each tick: whatever its
    attempts meet, and wherever a crash falls, the file holds under the passphrase a
    whole identity that verified renewals lead to from the one it started with — the
    same server, root, key and device —; the file is never behind memory, where the
    certificate and the pair that handshakes present agree; the loop itself never ends
    in an error, and sends nothing but requests to the renewal address of its server. *)
Theorem renewal_loop_correct path pass ticks s
    (Hpair : X509KeyPair (id_Certificate (rl_id s)) (id_PrivateKey (rl_id s)) = Some (rl_cert s))
    (Hnum : numbered (mc_fs (rl_machine s))) (Hfile : safe (holds pass (rl_id s)) path (mc_fs (rl_machine s))) :
  wp (renewal_loop torn path pass ticks) (λ r s', r = Ok tt ∧ lasting pass path s s'
    ∧ id_URL (rl_id s') = id_URL (rl_id s) ∧ id_Root (rl_id s') = id_Root (rl_id s)
    ∧ id_PrivateKey (rl_id s') = id_PrivateKey (rl_id s) ∧ id_DeviceID (rl_id s') = id_DeviceID (rl_id s)) s.
Proof.
  eapply wp_mono; [by apply wp_renewal_loop, lasting_start|]. intros r s' [-> Hl].
  split_and!; [done|done|apply renewable_same, Hl..].
Qed.

End refreshing.

(** * A renewal 25 days into a certificate of 30 days *)

#[local] Existing Instances plain_crypto plain_laws plain_x509 plain_client plain_client_x509.

Definition day : Z := 86400 * second.
Definition leaf_of (start : Z) : string :=
  "PEM:" +:+ (x509_code (mkX509 "7" "dev_1" start (start + 30 * day) false false None [])).
Definition old_identity : Identity := mkIdentity "https://budge.example:18781" "PEM:root" (leaf_of 0) "PEM:key" "dev_1".
Definition old_file : string := sealed_identity "correct horse battery" old_identity "0123456789abcdef" "abcdefghijkl".
Definition client_dir : fsys := mkFs {[ "identity.json" := 0%nat ]} [] {[ 0%nat := mkInode old_file true ]} 1.
Definition old_client : renewal :=
  mkRenewal old_identity (leaf_of 0, "PEM:key")
    (mkMachine client_dir [] [] (set_w_clock (25 * day) (mc_env client_machine))).

(** The server gives a certificate of the same device. *)
Definition renewing : network := λ _ _, Some (200%Z, fields ["dev_1"; leaf_of (25 * day)]).

Lemma client_numbered : numbered client_dir.
Proof. intros n i. simpl. intros [<- _]%lookup_singleton_Some. simpl. lia. Qed.

Lemma client_safe : safe (λ x, x = old_file) "identity.json" client_dir.
Proof. intros k. exists 0%nat, (mkInode old_file true). unfold names_after. simpl. rewrite take_nil. by split_and!. Qed.

Lemma Refresh_correct_witness :
  rl_id (Refresh 0 renewing "identity.json" "correct horse battery" old_client).2 ≠ old_identity ∧
  refreshed "correct horse battery" "identity.json" (λ x, x = old_file) old_client
    (Refresh 0 renewing "identity.json" "correct horse battery" old_client).1
    (Refresh 0 renewing "identity.json" "correct horse battery" old_client).2.
Proof.
  split.
  - assert (id_Certificate (rl_id (Refresh 0 renewing "identity.json" "correct horse battery" old_client).2) = leaf_of (25 * day)) as E.
    { apply (bool_decide_unpack _). vm_compute. exact I. }
    intros Hid. rewrite Hid in E. revert E. apply (bool_decide_unpack _). vm_compute. exact I.
  - change (wp (Refresh 0 renewing "identity.json" "correct horse battery")
      (refreshed "correct horse battery" "identity.json" (λ x, x = old_file) old_client) old_client).
    exact (Refresh_correct 0 renewing "identity.json" "correct horse battery" old_file old_client client_numbered client_safe).
Defined.

(** A day of attempts; the first one renews, the second finds the network away. *)
Definition later (n : Z) (w : world) : world := set_w_clock (w_clock w + n) w.
Definition two_ticks : list ((world → world) * network) := [(later hour, renewing); (later hour, λ _ _, None)].

Lemma old_file_holds : holds "correct horse battery" old_identity old_file.
Proof. by exists "0123456789abcdef", "abcdefghijkl". Qed.

Lemma renewal_loop_correct_witness :
  id_Certificate (rl_id (renewal_loop 0 "identity.json" "correct horse battery" two_ticks old_client).2) = leaf_of (25 * day) ∧
  lasting "correct horse battery" "identity.json" old_client
    (renewal_loop 0 "identity.json" "correct horse battery" two_ticks old_client).2.
Proof.
  split; [apply (bool_decide_unpack _); vm_compute; exact I|].
  assert (X509KeyPair (id_Certificate (rl_id old_client)) (id_PrivateKey (rl_id old_client)) = Some (rl_cert old_client)) as Hp
    by (apply (bool_decide_unpack _); vm_compute; exact I).
  assert (safe (holds "correct horse battery" old_identity) "identity.json" client_dir) as Hs.
  { eapply safe_mono; [|exact client_safe]. intros b ->. exact old_file_holds. }
  pose proof (renewal_loop_correct 0 "identity.json" "correct horse battery" two_ticks old_client Hp client_numbered Hs) as H.
  unfold wp in H. exact (proj1 (proj2 H)).
Defined.
