(* ===== verification/Connector.v ===== *)
(** The connector on a device, src/internal/client/client.go ([ConnectorTransport])
    and socket.go: the local HTTP listener that forwards routed requests, the
    private socket that forwards the three operations of the MCP adapter, and the
    checks on the files of the socket.

    The transport to the server is an argument. *)
From S2P Require Import Prelude GoStrings NetUrl Http GoNet Access Upstream Crypto Types Db Rules Limits Device.
From S2P Require Import Lifecycle Authority Files Identity.

(** The requests being forwarded now, and the log of what was forwarded. *)
Record connector := mkConnector { cn_slots : nat; cn_sent : list outgoing }.

Definition set_cn_slots (f : nat → nat) (s : connector) : connector := mkConnector (f (cn_slots s)) (cn_sent s).
Definition log_forward (q : outgoing) (s : connector) : connector := mkConnector (cn_slots s) (cn_sent s ++ [q]).

(** What the local caller sees; a relayed response whose stream fails is aborted. *)
Inductive local_reply :=
| LRefuse (status : Z) (text : string)
| LRelay (status : Z) (h : header) (n : nat) (ok : bool).

Definition slots_max : nat := 4.

Definition bind_address (host : string) : bool :=
  match SplitHostPort host with
  | Some (h, p) => bool_decide (h = "127.0.0.1") && bool_decide (p ≠ EmptyString)
  | None => false
  end.

(** A page in a browser, or a caller that names another host. *)
Definition foreign (host : string) (r : request) : bool :=
  bool_decide (rHost r ≠ host) || bool_decide (Get (rHeader r) "Origin" ≠ EmptyString)
  || bool_decide (Get (rHeader r) "Sec-Fetch-Site" ≠ EmptyString)
  || bool_decide (Get (rHeader r) "Access-Control-Request-Method" ≠ EmptyString).

Definition strip_credentials (h : header) : header :=
  Del (Del (Del h "Authorization") "Proxy-Authorization") "Cookie".

(** [allowed]: every name of the response. *)
Definition all_names (h : header) : list string := (map_to_list h).*1.

(** The part of the handler that holds a slot; [body] is [None] when reading the
    caller's body fails. *)
Definition forward (url : string) (r : request) (body : option string) (T : outgoing → option http_response)
    : M connector local_reply :=
  match body with
  | None => mret (LRefuse 413 "body too large")
  | Some b =>
    if (body_max <? len b)%N then mret (LRefuse 413 "body too large") else
    let target := url +:+ RequestURI (rURL r) in
    if negb (new_request_ok (rMethod r) target) then mret (LRefuse 400 "invalid request") else
    let q := mkOutgoing (rMethod r) target (strip_credentials (rHeader r)) b in
    modify (log_forward q);;
    match T q with
    | None => mret (LRefuse 502 "Budge connection unavailable")
    | Some res =>
      let '(h, (n, ok)) := Stream (hr_header res) (all_names (hr_header res)) (hr_turns res) in
      mret (LRelay (hr_status res) h n ok)
    end
  end.

Definition connector_handler (url host : string) (r : request) (body : option string)
    (T : outgoing → option http_response) : M connector local_reply :=
  if foreign host r then mret (LRefuse 403 "local caller rejected") else
  match Route r with
  | None => mret (LRefuse 400 "invalid request")
  | Some _ =>
    s ← gets id;
    if (slots_max <=? cn_slots s)%nat then mret (LRefuse 429 "connector overloaded") else
    modify (set_cn_slots S);;
    finally (forward url r body T) (set_cn_slots Nat.pred)
  end.

Definition ConnectorTransport (i : Identity) (host : string)
    : result (request → option string → (outgoing → option http_response) → M connector local_reply) :=
  if bind_address host then Ok (connector_handler (id_URL i) host)
  else Err (ErrMsg "connector must bind 127.0.0.1").

(** [Connector]: the same over the identity's own transport. *)
Definition Connector `{GoX509} `{ClientX509} (i : Identity) (host : string)
    : result (request → option string → (outgoing → option http_response) → M connector local_reply) :=
  Transport i ≫= λ _, ConnectorTransport i host.

(** * The private socket *)

Definition socket_body_max : N := 524288.
Definition socket_response_max : N := 2097152.

(** [SocketTransport]: the operation of the server for one of the adapter. *)
Definition socket_path (method path : string) : option string :=
  if bool_decide (method = "GET") && bool_decide (path = "/services") then Some "/device/services" else
  if bool_decide (method = "POST") && bool_decide (path = "/request") then Some "/device/request" else
  if bool_decide (method = "POST") && bool_decide (path = "/status") then Some "/device/status" else None.

(** [MaxBytesReader] on the body that is sent on: up to 512 KiB, then an error.  The
    byte past the limit stands for that error: what arrives is not a whole body, and
    is refused by every reader of the server, whose own limits are not greater. *)
Definition socket_body (b : string) : string :=
  if (socket_body_max <? len b)%N then take_bytes (S (N.to_nat socket_body_max)) b else b.

(** The reply on the socket: the status and the first bytes of the body. *)
Inductive socket_reply := SReply (status : Z) (body : string).

Definition socket_handler (url method path : string) (body : option string)
    (T : outgoing → option (Z * string)) : M connector socket_reply :=
  match socket_path method path with
  | None => mret (SReply 404 "unknown connector operation")
  | Some p =>
    if negb (new_request_ok method (url +:+ p)) then mret (SReply 400 "invalid request") else
    match body with
    | Some b =>
      let q := mkOutgoing method (url +:+ p) {[ "Content-Type" := ["application/json"] ]} (socket_body b) in
      modify (log_forward q);;
      match T q with
      | None => mret (SReply 502 "Budge connection unavailable")
      | Some (status, out) => mret (SReply status (take_bytes (N.to_nat socket_response_max) out))
      end
    | None => mret (SReply 502 "Budge connection unavailable")
    end
  end.

Definition SocketHandler `{GoX509} `{ClientX509} (i : Identity)
    : result (string → string → option string → (outgoing → option (Z * string)) → M connector socket_reply) :=
  Transport i ≫= λ _, Ok (socket_handler (id_URL i)).

(** ** The files of the socket *)

(** What [Lstat] tells of a file. *)
Record file_info := mkInfo { fi_dir : bool; fi_socket : bool; fi_perm : Z; fi_uid : Z }.

(** [Mode().Perm()&0077 != 0]. *)
Definition open_to_others (i : file_info) : bool := negb (Z.land (fi_perm i) 63 =? 0)%Z.

Definition private_dir (uid : Z) (i : file_info) : bool :=
  fi_dir i && negb (open_to_others i) && (fi_uid i =? uid)%Z.

(** [ListenSocket] after [MkdirAll] and [Lstat] of the directory: [listen] and
    [chmod] are whether those calls succeed. *)
Definition ListenSocket (uid : Z) (dir : option file_info) (listen chmod : bool) : result unit :=
  match dir with
  | None => Err ErrIO
  | Some i =>
    if negb (private_dir uid i) then Err (ErrMsg "socket directory must be user-owned with mode 0700") else
    if negb listen then Err (ErrMsg "cannot create connector socket; stop any running connector and remove a stale socket if necessary") else
    if negb chmod then Err ErrIO else Ok tt
  end.

Definition SocketClient (uid : Z) (dir socket : option file_info) : result unit :=
  match dir with
  | Some d =>
    if negb (private_dir uid d) then Err (ErrMsg "connector directory ownership or mode is unsafe") else
    match socket with
    | None => Err (ErrMsg "connector socket unavailable; start budge connect")
    | Some i =>
      if negb (fi_socket i) || open_to_others i || negb (fi_uid i =? uid)%Z
      then Err (ErrMsg "connector socket ownership or mode is unsafe") else Ok tt
    end
  | None => Err (ErrMsg "connector directory ownership or mode is unsafe")
  end.
