(* ===== verification/Forwarding.v ===== *)
(** What the connector lets through: who may ask, what is forwarded, how many at a
    time, and where it arrives. *)
From S2P Require Import Prelude GoStrings NetUrl Http GoNet Access Upstream Crypto Types Db Schema Rules Samples.
From S2P Require Import Lifecycle Limits Device Authority Files Identity Connector.

(** A caller on this host that is not a page in a browser. *)
Definition local_caller (host : string) (r : request) : Prop :=
  rHost r = host ∧ Get (rHeader r) "Origin" = EmptyString ∧ Get (rHeader r) "Sec-Fetch-Site" = EmptyString
  ∧ Get (rHeader r) "Access-Control-Request-Method" = EmptyString.

Lemma foreign_false host r : foreign host r = false ↔ local_caller host r.
Proof.
  unfold foreign, local_caller. rewrite !orb_false_iff, !bool_decide_eq_false.
  split; [intros [[[H1 H2] H3] H4]; split_and!; by apply dec_stable|intros (? & ? & ? & ?); split_and!; tauto].
Qed.

Definition credential_names : list string := ["Authorization"; "Proxy-Authorization"; "Cookie"].

Lemma strip_lookup h k :
  strip_credentials h !! k = if bool_decide (k ∈ credential_names) then None else h !! k.
Proof.
  unfold strip_credentials, Del.
  change (CanonicalHeaderKey "Authorization") with "Authorization".
  change (CanonicalHeaderKey "Proxy-Authorization") with "Proxy-Authorization".
  change (CanonicalHeaderKey "Cookie") with "Cookie". unfold credential_names. case_bool_decide as Hk.
  - rewrite !elem_of_cons in Hk. rewrite !lookup_delete_None. destruct Hk as [-> |[-> |[-> |Hk]]]; auto.
    by apply elem_of_nil in Hk.
  - rewrite !elem_of_cons in Hk. rewrite !lookup_delete_ne; [done|intros <-; tauto..].
Qed.

(** The request that is forwarded for [r]. *)
Record forwarded (url host : string) (r : request) (body : option string) (c : connector) (q : outgoing) : Prop := {
  fw_caller : local_caller host r;
  fw_route : is_Some (Route r);
  fw_slot : (cn_slots c < slots_max)%nat;
  fw_body : body = Some (o_body q) ∧ (len (o_body q) <= body_max)%N;
  fw_request : o_method q = rMethod r ∧ o_url q = url +:+ RequestURI (rURL r);
  fw_url : new_request_ok (o_method q) (o_url q) = true;
  fw_header : ∀ k, o_header q !! k = if bool_decide (k ∈ credential_names) then None else rHeader r !! k;
}.

(** What the caller sees of the transport's answer. *)
Definition relayed (o : option http_response) : local_reply :=
  match o with
  | None => LRefuse 502 "Budge connection unavailable"
  | Some res => LRelay (hr_status res) (Headers (hr_header res) (all_names (hr_header res)) EmptyString)
                  (stream_go (hr_turns res) 0).1 (stream_go (hr_turns res) 0).2
  end.

(** The end of a call of the handler. *)
Definition connected (url host : string) (r : request) (body : option string) (T : outgoing → option http_response)
    (c : connector) (x : result local_reply) (c' : connector) : Prop :=
  cn_slots c' = cn_slots c ∧
  ((cn_sent c' = cn_sent c ∧ ∃ status text, x = Ok (LRefuse status text) ∧ (400 <= status)%Z) ∨
   ∃ q, forwarded url host r body c q ∧ cn_sent c' = cn_sent c ++ [q] ∧ x = Ok (relayed (T q))).

Lemma wp_connector url host r body T c :
  wp (connector_handler url host r body T) (connected url host r body T c) c.
Proof.
  assert (∀ status text c', (400 <= status)%Z → cn_slots c' = cn_slots c → cn_sent c' = cn_sent c →
    connected url host r body T c (Ok (LRefuse status text)) c') as HE.
  { intros status text c' Hs ? ?. split; [done|]. left. split; [done|]. by exists status, text. }
  unfold connector_handler. destruct (foreign host r) eqn:Ef; [apply wp_ret, HE; [lia|done..]|].
  apply foreign_false in Ef. destruct (Route r) as [sp|] eqn:Er; [|apply wp_ret, HE; [lia|done..]].
  wp_rule. wp_rule. destruct (slots_max <=? cn_slots (id c))%nat eqn:Es; [wp_rule; apply HE; [lia|done..]|].
  apply Nat.leb_gt in Es. wp_rule. apply wp_modify. apply wp_finally. unfold forward.
  destruct body as [b|] eqn:Eb; [|wp_rule; apply HE; [lia|done..]].
  destruct (body_max <? len b)%N eqn:El; [wp_rule; apply HE; [lia|done..]|]. apply N.ltb_ge in El. cbv zeta.
  destruct (negb _) eqn:En; [wp_rule; apply HE; [lia|done..]|].
  wp_rule. apply wp_modify.
  set (q := mkOutgoing _ _ _ _).
  assert (forwarded url host r (Some b) c q) as Hfw.
  { split; simpl; eauto; [by apply negb_false_iff in En|]. intros k. apply strip_lookup. }
  destruct (T q) as [res|] eqn:Et.
  - unfold Stream. destruct (stream_go (hr_turns res) 0) as [n ok] eqn:Estr. wp_rule. simpl.
    split; [done|]. right. exists q. split; [done|]. split; [done|]. by rewrite Et; unfold relayed; rewrite Estr.
  - wp_rule. simpl. split; [done|]. right. exists q. split; [done|]. split; [done|]. by rewrite Et.
Qed.

(** C31: The connector: a request is forwarded only for a caller that names the
    connector's own address and is no browser page, on a routed path, while fewer
    than four others are being forwarded, with a body of at most 8 MiB read in full;
    it is forwarded once, to the identity's server and nowhere else, with its
    method, target and body as they were and without any credential of the caller;
    what comes back is relayed.  Otherwise nothing is sent and the caller is told
    so with an error status.  The slot is given back in every case. *)
Theorem connector_guarded url host r body T c :
  wp (connector_handler url host r body T) (λ x c', cn_slots c' = cn_slots c ∧
    ((cn_sent c' = cn_sent c ∧ ∃ status text, x = Ok (LRefuse status text) ∧ (400 <= status)%Z) ∨
     ∃ q, forwarded url host r body c q ∧ cn_sent c' = cn_sent c ++ [q] ∧ x = Ok (relayed (T q)))) c.
Proof. apply wp_connector. Qed.

(** * Where it arrives *)

(** The request a server reads for one that was sent: the line and the host its
    URL gives, with the header [h] the transport makes of the caller's. *)
Definition arrives (q : outgoing) (h : header) : option request :=
  u ← Parse (o_url q);
  v ← ParseRequestURI (RequestURI u);
  Some (mkRequest (o_method q) v (Host u) h).

Lemma arrives_forwarded url authority a host target r body c q h service path :
  origin url authority a → ParseRequestURI target = Some (rURL r) → Route r = Some (service, path) →
  forwarded url host r body c q → Get h "Upgrade" = Get (o_header q) "Upgrade" →
  ∃ v, arrives q h = Some (mkRequest (rMethod r) v a h) ∧ UPath v = UPath (rURL r)
    ∧ RawQuery v = before_hash (RawQuery (rURL r)) ∧ Route (mkRequest (rMethod r) v a h) = Some (service, path).
Proof.
  intros Ho Ht Hr [_ _ _ _ [Hm Hu] Hok Hh] Hup. pose proof Hr as (Habs & _ & Hme & Hg & Hp & Hs & Hpa)%Route_spec.
  apply andb_true_iff in Hok as [_ Hok%bool_decide_eq_true]. rewrite Hu in Hok.
  destruct (Parse_at_origin_hash url authority a (rURL r) Ho) as (u & E1 & Hhost & Hpath & Hrt & Hq);
    [by rewrite Hp|by eapply ParseRequestURI_no_ctl|done|].
  exists (as_requested u). unfold arrives. rewrite Hu, E1. cbn [mbind option_bind].
  rewrite (ParseRequestURI_uri u Hrt), Hm, Hhost. cbn [as_requested UPath RawQuery].
  split_and!; [done..|]. apply Route_spec. cbn [rURL rMethod rHeader as_requested UPath RawPath].
  split_and!; try done; [|by rewrite Hpath]. unfold Get, Values in *. rewrite Hup, Hh. done.
Qed.

Section service.
Context `{GoCrypto} `{GoJSON}.

(** A step of the server for the device of a connection, if there is one. *)
Definition authenticated (tls : option certificate) (k : string → M world device_reply) : M world device_reply :=
  d ← attempt (device tls);
  match d, tls with
  | Ok device, Some _ => k device
  | Err e, _ => mret (DRefuse 401 (error_code e))
  | Ok _, None => mret (DRefuse 401 "device_unauthenticated")
  end.

(** What the server does with a routed request: the device is checked, and nothing
    but [http_request] is done for it. *)
Definition serve_route (tls : option certificate) (r : request) (body service path : string)
    (transport : outgoing → transport_result http_response) : M world device_reply :=
  authenticated tls (λ device, http_request device r body service path transport).

Lemma DeviceHandler_routed x waits transport service path w :
  Route (dr_request x) = Some (service, path) →
  DeviceHandler x waits transport w = serve_route (dr_tls x) (dr_request x) (dr_body x) service path transport w.
Proof.
  intros Hr. pose proof Hr as (_ & _ & _ & _ & Hp & _)%Route_spec.
  assert (∀ t, bool_decide (UPath (rURL (dr_request x)) = String "/" t) = false ∨ HasPrefix t "s/" = true) as Hne.
  { intros t. rewrite Hp. destruct (HasPrefix t "s/") eqn:E; [by right|left]. apply bool_decide_eq_false_2.
    intros Ht. assert (t = "s/" +:+ (service +:+ path)) as -> by (by injection Ht). by rewrite HasPrefix_app in E. }
  unfold DeviceHandler, serve_route, authenticated.
  destruct (Hne "enroll") as [-> |]; [|done]. cbn [andb]. cbv zeta.
  unfold mbind, M_bind. destruct (attempt (device (dr_tls x)) w) as [[d|e] w'] eqn:Ed; [|done].
  destruct d as [d|e], (dr_tls x) as [cert|]; try done.
  destruct (Hne "device/renew") as [-> |]; [|done]. destruct (Hne "device/services") as [-> |]; [|done].
  destruct (Hne "device/request") as [-> |]; [|done]. destruct (Hne "device/status") as [-> |]; [|done].
  cbn [andb]. by rewrite Hr.
Qed.

(** C13: The two ends agree: for a request read from any request line, what the
    connector forwards for a server at an HTTPS origin arrives there, after both
    parsings of its URL, as a routed request for the same service, path and method
    with the same body, and the server's handler does with it exactly the device
    check and the service request — none of its other operations can be reached
    through the connector.  The query arrives up to its first number sign, which a
    request line may carry; so it arrives unchanged exactly when it has none. *)
Theorem connector_reaches_service url authority a host target r body T c service path
    (Ho : origin url authority a) (Ht : ParseRequestURI target = Some (rURL r)) (Hr : Route r = Some (service, path)) :
  wp (connector_handler url host r body T) (λ _ c', ∀ q h, cn_sent c' = cn_sent c ++ [q] →
    Get h "Upgrade" = Get (o_header q) "Upgrade" →
    ∃ v, arrives q h = Some (mkRequest (rMethod r) v a h) ∧ RawQuery v = before_hash (RawQuery (rURL r))
    ∧ (RawQuery v = RawQuery (rURL r) ↔ all_bytes (not_byte "#") (RawQuery (rURL r)) = true) ∧ body = Some (o_body q) ∧
    ∀ tls enrol csr waits transport w,
      DeviceHandler (mkDeviceRequest (mkRequest (rMethod r) v a h) tls (o_body q) enrol csr) waits transport w
      = serve_route tls (mkRequest (rMethod r) v a h) (o_body q) service path transport w) c.
Proof.
  eapply wp_mono; [apply wp_connector|]. intros x c' [_ [[-> _]|(q & Hfw & -> & _)]] q' h Hsent Hup.
  { apply (f_equal length) in Hsent. rewrite length_app in Hsent. simpl in Hsent. lia. }
  apply (inj (app (cn_sent c))) in Hsent. injection Hsent as <-.
  destruct (arrives_forwarded url authority a host target r body c q h service path) as (v & Hv & Hp & Hrq & Hrt); [done..|].
  exists v. split_and!; [done|done| |apply Hfw|].
  - rewrite Hrq. apply before_hash_same.
  - intros. by apply DeviceHandler_routed.
Qed.

End service.

#[local] Existing Instances plain_crypto plain_json.

Definition local_get : request :=
  mkRequest "GET" (mkURL "" "" None "" "/s/api/v1/jobs/7" "" false "verbose=1" "") "127.0.0.1:18782"
    {[ "Accept" := ["text/plain"]; "Cookie" := ["local=1"] ]}.
Definition idle : connector := mkConnector 0 [].

(** The same request with a number sign in its query. *)
Definition local_hash : request :=
  mkRequest "GET" (mkURL "" "" None "" "/s/api/v1/jobs/7" "" false "verbose=1#full" "") "127.0.0.1:18782" (rHeader local_get).

Lemma connector_reaches_service_witness :
  (λ r, o_url <$> cn_sent (connector_handler "https://budge.example:18781" "127.0.0.1:18782" r (Some "") (λ _, None) idle).2)
    <$> [local_get; local_hash]
    = [["https://budge.example:18781/s/api/v1/jobs/7?verbose=1"]; ["https://budge.example:18781/s/api/v1/jobs/7?verbose=1#full"]] ∧
  (∀ r, r = local_get ∨ r = local_hash →
  wp (connector_handler "https://budge.example:18781" "127.0.0.1:18782" r (Some "") (λ _, None)) (λ _ c', ∀ q h,
    cn_sent c' = [q] → Get h "Upgrade" = Get (o_header q) "Upgrade" →
    ∃ v, arrives q h = Some (mkRequest "GET" v "budge.example:18781" h) ∧ RawQuery v = "verbose=1" ∧
    ∀ tls enrol csr waits transport w,
      DeviceHandler (mkDeviceRequest (mkRequest "GET" v "budge.example:18781" h) tls (o_body q) enrol csr) waits transport w
      = serve_route tls (mkRequest "GET" v "budge.example:18781" h) (o_body q) "api" "/v1/jobs/7" transport w) idle).
Proof.
  split; [apply (bool_decide_unpack _); vm_compute; exact I|].
  assert (origin "https://budge.example:18781" "budge.example:18781" "budge.example:18781") as Ho.
  { split; [reflexivity|]. split; vm_compute; reflexivity. }
  intros r [-> | ->].
  - assert (Route local_get = Some ("api", "/v1/jobs/7")) as Hr by (vm_compute; reflexivity).
    assert (ParseRequestURI "/s/api/v1/jobs/7?verbose=1" = Some (rURL local_get)) as Ht by (vm_compute; reflexivity).
    eapply wp_mono; [exact (connector_reaches_service _ _ _ "127.0.0.1:18782" _ local_get (Some "") (λ _, None) idle _ _ Ho Ht Hr)|].
    intros x c' H q h Hq Hup. destruct (H q h Hq Hup) as (v & Hv & Hrq & _ & _ & HD). exists v. split_and!; [exact Hv|exact Hrq|exact HD].
  - assert (Route local_hash = Some ("api", "/v1/jobs/7")) as Hr by (vm_compute; reflexivity).
    assert (ParseRequestURI "/s/api/v1/jobs/7?verbose=1#full" = Some (rURL local_hash)) as Ht by (vm_compute; reflexivity).
    eapply wp_mono; [exact (connector_reaches_service _ _ _ "127.0.0.1:18782" _ local_hash (Some "") (λ _, None) idle _ _ Ho Ht Hr)|].
    intros x c' H q h Hq Hup. destruct (H q h Hq Hup) as (v & Hv & Hrq & _ & _ & HD). exists v. split_and!; [exact Hv|exact Hrq|exact HD].
Defined.
