(* ===== verification/Worker.v ===== *)
(** Start-up and the worker, src/internal/server/server.go ([New]) and
    requests.go ([RunWorker]): one tick runs maintenance, takes the oldest queued
    requests and starts a dispatch for each that gets a slot. *)
From S2P Require Import Prelude GoStrings Access Upstream Crypto Types Db Rules Samples Authorize Lifecycle.
From S2P Require Import Life Closing Limits.

Section worker.
Context `{GoCrypto} `{GoJSON}.

(** * Start-up *)

Definition insert_owner (id hash : string) (d : database) : result (database * Z) :=
  match db_owners d !! id with
  | Some _ => Err ErrConstraint
  | None => Ok (set_db_owners (<[id := hash]> (db_owners d)) d, 1%Z)
  end.

Definition owner_count (d : database) : Z := Z.of_nat (size (db_owners d)).

(** [New], after the certificate authority is set up. *)
Definition New (initialPassword : string) : M world unit :=
  n ← query DB (λ d, Ok (owner_count d));
  (if (n =? 0)%Z then
     if (String.length initialPassword <? 12)%nat
     then fail (ErrMsg "first setup requires an owner password of at least 12 characters")
     else id ← new_ID "owner_";
          salt ← Random 16;
          exec DB (insert_owner id (Password initialPassword salt));; mret tt
   else mret tt);;
  recoverDispatches.

(** * One tick *)

(** [ORDER BY created,id]. *)
Definition older (a b : string * request_row) : Prop :=
  (req_created a.2 < req_created b.2)%Z ∨ (req_created a.2 = req_created b.2 ∧ String.le a.1 b.1).

#[export] Instance older_dec : RelDecision older.
Proof. intros a b. unfold older. apply _. Defined.

Definition queued_rows (d : database) : list (string * request_row) :=
  filter (λ r : string * request_row, req_status r.2 = queued) (map_to_list (db_requests d)).

Definition candidates (d : database) : list (string * string) :=
  map (λ r, (r.1, req_device r.2)) (take 32 (merge_sort older (queued_rows d))).

(** The dispatches that get a slot. *)
Fixpoint start (l : list (string * string)) : M world (list (string * string)) :=
  match l with
  | [] => mret []
  | c :: rest =>
    ok ← acquire c.2;
    started ← start rest;
    mret (if ok : bool then c :: started else started)
  end.

(** The body of the loop of [RunWorker]: the dispatches it starts, as pairs of a
    request and its device; an error of the query skips the tick. *)
Definition worker_tick : M world (list (string * string)) :=
  maintenance;;
  r ← attempt (query_rows DB candidates);
  match r with
  | Ok (cs, _) => start cs
  | Err _ => mret []
  end.

End worker.
