(* ===== verification/Granting.v ===== *)
(** Revocations by the owner: a device, a permission or a service.

    [evolves] carries a revocation into the future: a device, a permission or a
    service revision that is gone never authorises anything again. *)
From S2P Require Import Prelude GoStrings NetUrl Http GoTime Access Upstream Crypto Types Db Rules Samples.
From S2P Require Import Authorize Lifecycle Life Closing Submitting Limits Owner.

Section granting.
Context `{GoCrypto} `{GoJSON}.

(** * Revocations last *)

Lemma device_active_later d d' id :
  kept same_device (db_devices d) (db_devices d') → is_Some (db_devices d !! id) →
  device_active d id = false → device_active d' id = false.
Proof.
  unfold device_active. intros Hk [r Hr] Ha. rewrite Hr in Ha. apply negb_false_iff in Ha.
  destruct (Hk id r Hr) as (r' & -> & Hs). by rewrite (Hs Ha).
Qed.

(** A revoked permission stays so. *)
Lemma revoked_later d d' id p :
  kept same_permission (db_permissions d) (db_permissions d') → db_permissions d !! id = Some p → pm_revoked p = true →
  ∀ p', db_permissions d' !! id = Some p' → pm_revoked p' = true.
Proof.
  intros Hk Hp Hr p' Hp'. destruct (Hk id p Hp) as (q & Hq & Hs).
  assert (q = p') as -> by congruence. by destruct Hs as [-> | ->].
Qed.

(** A permission of an older revision is of an older revision for ever. *)
Lemma stale_later d d' id p s :
  kept same_permission (db_permissions d) (db_permissions d') → kept same_service (db_services d) (db_services d') →
  db_permissions d !! id = Some p → db_services d !! pm_service p = Some s → (pm_revision p < srv_revision s)%Z →
  ∀ p' s', db_permissions d' !! id = Some p' → db_services d' !! pm_service p = Some s' →
    pm_service p' = pm_service p ∧ (pm_revision p' < srv_revision s')%Z.
Proof.
  intros Kp Ks Hp Hs Hr p' s' Hp' Hs'. destruct (Kp id p Hp) as (q & Hq & Hsame), (Ks _ s Hs) as (t & Ht & Hst).
  assert (q = p') as -> by congruence. assert (t = s') as -> by congruence.
  destruct Hsame as [-> | ->], Hst as [-> | Hlt]; simpl; (split; [done|lia]).
Qed.

Lemma authorized_permission d device service method path now s p :
  authorized d device service method path now s p →
  ∃ r sr, db_permissions d !! perm_ID p = Some r ∧ db_services d !! service = Some sr ∧ srv_enabled sr = true
    ∧ pm_device r = device ∧ pm_service r = service ∧ pm_revision r = srv_revision sr ∧ pm_revoked r = false.
Proof.
  intros [_ (sr & Hsr & Hs) (r & Hr & Ha & _) _]. unfold enabled_service in Hsr.
  destruct (db_services d !! service) as [x|] eqn:Hx; [|done]. destruct (srv_enabled x) eqn:He; [|done].
  injection Hsr as ->. exists r, sr. apply service_of_ID in Hs as (_ & Hrev & _).
  unfold permission_active in Ha. apply andb_true_iff in Ha as [[[[E1 E2]%andb_true_iff E3]%andb_true_iff E4]%andb_true_iff _].
  apply bool_decide_eq_true in E1, E2. apply Z.eqb_eq in E3. apply negb_true_iff in E4.
  split_and!; [done..|congruence|done].
Qed.

(** * Nothing is left of a cancelled scope *)

Lemma cancel_none_left column id reason t t' i r' :
  closes cancelled reason (select_requests (λ _, in_scope column id) t) t t' →
  db_requests t' !! i = Some r' → scope_column column r' = id → undispatched (req_status r') = false.
Proof.
  intros Hc Hr' Hs. destruct (db_requests t !! i) as [r|] eqn:Hr.
  - pose proof (cancel_complete _ _ _ _ _ i r Hc Hr) as H1. destruct (in_scope column id r) eqn:E.
    + destruct H1 as [now H1]. rewrite H1 in Hr'. by injection Hr' as <-.
    + rewrite H1 in Hr'. injection Hr' as <-. unfold in_scope in E. by rewrite bool_decide_eq_true_2 in E.
  - rewrite (closes_other _ _ _ _ _ i Hc) in Hr'; [congruence|].
    intros (q & Hq & _)%elem_of_select. congruence.
Qed.

(** * The three revocations *)

(** What a revocation commits: the row [d1], the cancelled requests, the audit. *)
Definition revocation (quiet : Prop) (column : scope) (id reason owner device kind : string) (d1 d' : database) : Prop :=
  ∃ ids t, ids `prefix_of` select_requests (λ _, in_scope column id) d1
    ∧ (quiet → ids = select_requests (λ _, in_scope column id) d1) ∧ closes cancelled reason ids d1 t
    ∧ d' = set_db_audit (db_audit t ++ [mkAudit owner device kind id]) t.

Lemma revocation_evolves quiet column id reason owner dev kind d1 d' :
  revocation quiet column id reason owner dev kind d1 d' → evolves d1 d'.
Proof.
  intros (ids & t & Hp & _ & Hc & ->). etransitivity; [by eapply cancel_evolves|apply evolves_audit].
Qed.

Lemma revocation_rest quiet column id reason owner dev kind d1 d' :
  revocation quiet column id reason owner dev kind d1 d' →
  db_devices d' = db_devices d1 ∧ db_services d' = db_services d1 ∧ db_permissions d' = db_permissions d1.
Proof.
  intros (ids & t & _ & _ & Hc & ->). destruct (closes_rest _ _ _ _ _ Hc) as (_&_&_&_&?&_&?&?&_). done.
Qed.

Lemma revocation_none_left (quiet : Prop) column id reason owner dev kind d1 d' i r :
  revocation quiet column id reason owner dev kind d1 d' → quiet →
  db_requests d' !! i = Some r → scope_column column r = id → undispatched (req_status r) = false.
Proof.
  intros (ids & t & _ & Hq & Hc & ->) Hquiet. rewrite (Hq Hquiet) in Hc.
  intros Hr. by apply (cancel_none_left _ _ _ _ _ i r Hc Hr).
Qed.

(** The common end of the three transactions. *)
Lemma wp_revocation w0 column id reason owner dev kind d d1 (Q : result unit → world → Prop) w :
  at_world w0 d (Some d1) w →
  (∀ d' w', revocation (w_faults w0 = []) column id reason owner dev kind d1 d' → at_world w0 d' None w' → Q (Ok tt) w') →
  (∀ e w', io w0 e → at_world w0 d None w' → Q (Err e) w') →
  wp (cancelRequests column id reason;; Audit Tx owner dev kind id;; commit) (λ r w', Q r (rollback w')) w.
Proof.
  intros Hw HQ HE.
  assert (∀ e t w', io w0 e → at_world w0 d t w' → Q (Err e) (rollback w')) as HEr
    by (intros e t w' ? Hw'; eapply HE, at_rollback; done).
  wp_rule. eapply wp_cancelRequests; [done| |intros; by eapply HEr]. intros ids t w1 Hp Hf Hc Hw1. cbv beta iota.
  wp_rule. wp_rule; [|by eapply HEr]. wp_rule; [|by eapply HEr].
  eapply HQ; [|by eapply at_rollback]. exists ids, t. done.
Qed.

Lemma wp_revoke w0 owner id d (Q : result unit → world → Prop) w :
  at_world w0 d None w →
  (∀ r d' w', db_devices d !! id = Some r →
     revocation (w_faults w0 = []) by_device id "device_revoked" owner id "device_revoked"
       (set_db_devices (<[id := set_dev_revoked true r]> (db_devices d)) d) d' →
     at_world w0 d' None w' → Q (Ok tt) w') →
  (∀ e w', (w_faults w0 = [] → db_devices d !! id = None) → at_world w0 d None w' → Q (Err e) w') →
  wp (revoke owner id) Q w.
Proof.
  intros Hw HQ HE. eapply wp_with_tx; [done| |intros e w' [_ Hne] ?; by apply HE]. intros w1 Hw1 _.
  wp_rule. wp_rule; last first.
  { eapply HE; [|by eapply at_rollback]. intros Hq. no_io Hq. unfold set_device_revoked in H1. by destruct (db_devices d !! id). }
  unfold set_device_revoked in H1. destruct (db_devices d !! id) as [r|] eqn:Hr; injection H1 as <- <-; cbn [Z.eqb]; cbv iota.
  - eapply wp_revocation; [done|intros; by eapply HQ|]. intros e w2 [_ Hne] Hw2. by eapply HE.
  - wp_rule. eapply HE; [done|by eapply at_rollback].
Qed.

Lemma wp_revokePermission w0 owner id d (Q : result unit → world → Prop) w :
  at_world w0 d None w →
  (∀ p d' w', db_permissions d !! id = Some p →
     revocation (w_faults w0 = []) by_permission id "permission_revoked" owner EmptyString "permission_revoked"
       (set_db_permissions (<[id := set_pm_revoked true p]> (db_permissions d)) d) d' →
     at_world w0 d' None w' → Q (Ok tt) w') →
  (∀ e w', (w_faults w0 = [] → db_permissions d !! id = None) → at_world w0 d None w' → Q (Err e) w') →
  wp (revokePermission owner id) Q w.
Proof.
  intros Hw HQ HE. eapply wp_with_tx; [done| |intros e w' [_ Hne] ?; by apply HE]. intros w1 Hw1 _.
  wp_rule. wp_rule; last first.
  { eapply HE; [|by eapply at_rollback]. intros Hq. no_io Hq. unfold set_permission_revoked in H1. by destruct (db_permissions d !! id). }
  unfold set_permission_revoked in H1. destruct (db_permissions d !! id) as [p|] eqn:Hp; injection H1 as <- <-; cbn [Z.eqb]; cbv iota.
  - eapply wp_revocation; [done|intros; by eapply HQ|]. intros e w2 [_ Hne] Hw2. by eapply HE.
  - wp_rule. eapply HE; [done|by eapply at_rollback].
Qed.

Lemma wp_disableService w0 owner id d (Q : result unit → world → Prop) w :
  at_world w0 d None w →
  (∀ s d' w', db_services d !! id = Some s →
     revocation (w_faults w0 = []) by_service id "service_disabled" owner EmptyString "service_disabled"
       (set_db_services (<[id := disable_row s]> (db_services d)) d) d' →
     at_world w0 d' None w' → Q (Ok tt) w') →
  (∀ e w', (w_faults w0 = [] → db_services d !! id = None) → at_world w0 d None w' → Q (Err e) w') →
  wp (disableService owner id) Q w.
Proof.
  intros Hw HQ HE. eapply wp_with_tx; [done| |intros e w' [_ Hne] ?; by apply HE]. intros w1 Hw1 _.
  wp_rule. wp_rule; last first.
  { eapply HE; [|by eapply at_rollback]. intros Hq. no_io Hq. unfold update_service in H1. by destruct (db_services d !! id). }
  unfold update_service in H1. destruct (db_services d !! id) as [s|] eqn:Hs; injection H1 as <- <-; cbn [Z.eqb]; cbv iota.
  - eapply wp_revocation; [done|intros; by eapply HQ|]. intros e w2 [_ Hne] Hw2. by eapply HE.
  - wp_rule. eapply HE; [done|by eapply at_rollback].
Qed.

(** The rows of the revocations are legal changes of the database. *)
Lemma evolves_disable d id s : db_services d !! id = Some s →
  evolves d (set_db_services (<[id := disable_row s]> (db_services d)) d).
Proof. intros Hs. apply evolves_service. intros s' Hs'. assert (s' = s) as -> by congruence. simpl. lia. Qed.

Lemma evolves_revoke_device d id r : db_devices d !! id = Some r →
  evolves d (set_db_devices (<[id := set_dev_revoked true r]> (db_devices d)) d).
Proof. intros Hr. by apply (evolves_device d id (set_dev_revoked true r)). Qed.

(** * The three together *)

(** What the owner withdraws, and with which of the three operations. *)
Inductive withdrawal := Device (id : string) | ServiceId (id : string) | PermissionId (id : string).

Definition withdraw (owner : string) (x : withdrawal) : M world unit :=
  match x with
  | Device id => revoke owner id
  | ServiceId id => disableService owner id
  | PermissionId id => revokePermission owner id
  end.

(** The requests that rest on it. *)
Definition rests_on (x : withdrawal) (r : request_row) : Prop :=
  match x with
  | Device id => req_device r = id
  | ServiceId id => req_service r = id
  | PermissionId id => req_permission r = id
  end.

(** The authorisations that a database [d] grants on it. *)
Definition granted_on (x : withdrawal) (d : database) (device service : string) (p : Permission) : Prop :=
  match x with
  | Device id => device = id
  | ServiceId id => service = id ∧ is_Some (db_permissions d !! perm_ID p)
  | PermissionId id => perm_ID p = id
  end.

(** What stands in a database once it is withdrawn. *)
Definition gone (x : withdrawal) (d : database) : Prop :=
  match x with
  | Device id => is_Some (db_devices d !! id) ∧ device_active d id = false
  | ServiceId id => ∀ i p s, db_permissions d !! i = Some p → pm_service p = id → db_services d !! id = Some s →
      (pm_revision p < srv_revision s)%Z
  | PermissionId id => ∃ p, db_permissions d !! id = Some p ∧ pm_revoked p = true
  end.

(** The operation finds no row. *)
Definition unknown (x : withdrawal) (d : database) : Prop :=
  match x with
  | Device id => db_devices d !! id = None
  | ServiceId id => db_services d !! id = None
  | PermissionId id => db_permissions d !! id = None
  end.

Lemma gone_forever x d d' device service method path now s p :
  wf d → grows d d' → gone x d → authorized d' device service method path now s p →
  ¬ granted_on x d device service p.
Proof.
  intros Hwf [_ _ _ Kp Ks Kd _ _ _ _] Hg Ha.
  destruct (authorized_permission _ _ _ _ _ _ _ _ Ha) as (r & sr & Hr & Hsr & _ & E1 & E2 & E3 & E4).
  destruct x as [id|id|id]; simpl in *.
  - intros ->. destruct Hg as [Hi Hf]. pose proof (auth_device _ _ _ _ _ _ _ _ Ha) as Hact.
    rewrite (device_active_later d d') in Hact by done. done.
  - intros [-> [q Hq]]. destruct (wf_permission d Hwf _ _ Hq) as (_ & sq & Hsq & _).
    assert (pm_service q = id) as Hs.
    { destruct (Kp _ _ Hq) as (q' & Hq' & [-> | ->]); simpl in *; simplify_eq; done. }
    rewrite Hs in Hsq. pose proof (Hg _ _ _ Hq Hs Hsq) as Hlt. rewrite <-Hs in Hsq.
    rewrite <-Hs in Hsr. destruct (stale_later d d' _ q sq Kp Ks Hq Hsq Hlt _ _ Hr Hsr). lia.
  - intros <-. destruct Hg as (q & Hq & Hqr). pose proof (revoked_later d d' _ q Kp Hq Hqr _ Hr). congruence.
Qed.

(** The account of a withdrawal: no row that rests on it is left undispatched. *)
Lemma wp_withdraw w0 owner x d (Q : result unit → world → Prop) w :
  wf d → at_world w0 d None w →
  (∀ d' w', grows d d' → wf d' → gone x d' →
     (w_faults w0 = [] → ∀ i r, db_requests d' !! i = Some r → rests_on x r → undispatched (req_status r) = false) →
     at_world w0 d' None w' → Q (Ok tt) w') →
  (∀ e w', (w_faults w0 = [] → unknown x d) → at_world w0 d None w' → Q (Err e) w') →
  wp (withdraw owner x) Q w.
Proof.
  intros Hwf Hw HQ HE. destruct x as [id|id|id]; simpl.
  - eapply wp_revoke; [done| |done]. intros r d' w' Hr Hrev Hw'.
    destruct (transitivity (evolves_revoke_device _ _ _ Hr) (revocation_evolves _ _ _ _ _ _ _ _ _ Hrev) Hwf) as [? ?].
    eapply HQ; [done|done| |by eauto using revocation_none_left|done]. simpl.
    destruct (revocation_rest _ _ _ _ _ _ _ _ _ Hrev) as (Ed & _ & _). unfold device_active. rewrite Ed. simpl.
    rewrite lookup_insert_eq. eauto.
  - eapply wp_disableService; [done| |done]. intros r d' w' Hr Hrev Hw'.
    destruct (transitivity (evolves_disable _ _ _ Hr) (revocation_evolves _ _ _ _ _ _ _ _ _ Hrev) Hwf) as [? ?].
    eapply HQ; [done|done| |by eauto using revocation_none_left|done]. simpl.
    destruct (revocation_rest _ _ _ _ _ _ _ _ _ Hrev) as (_ & Es & Ep). rewrite Es, Ep. simpl.
    intros i p s Hp Hps. rewrite lookup_insert_eq. intros [= <-].
    destruct (wf_permission d Hwf _ _ Hp) as (_ & s & Hs & Hle). rewrite Hps in Hs. simpl.
    assert (s = r) as -> by congruence. lia.
  - eapply wp_revokePermission; [done| |done]. intros r d' w' Hr Hrev Hw'.
    destruct (transitivity (evolves_revoke_permission _ _ _ Hr) (revocation_evolves _ _ _ _ _ _ _ _ _ Hrev) Hwf) as [? ?].
    eapply HQ; [done|done| |by eauto using revocation_none_left|done]. simpl.
    destruct (revocation_rest _ _ _ _ _ _ _ _ _ Hrev) as (_ & _ & Ep). rewrite Ep. simpl.
    rewrite lookup_insert_eq. eauto.
Qed.

(** C20: Revoking a device or a permission, or disabling a service, is final: once
    the operation has succeeded, in no later state of the database, whatever the
    server does, is there an authorisation for that device, by that permission, or
    by a permission that the service had; and when no statement fails, no request
    that rests on it is left pending or queued.  If the operation reports an error,
    the database is unchanged, and unless a statement failed there was nothing of
    that ID. *)
Theorem withdrawal_final owner x w (Htx : w_tx w = None) (Hwf : wf (w_db w)) :
  wp (withdraw owner x) (λ r w', match r with
    | Ok _ =>
      (∀ d, grows (w_db w') d → ∀ device service method path now s p,
         authorized d device service method path now s p → ¬ granted_on x (w_db w') device service p) ∧
      (w_faults w = [] → ∀ i r, db_requests (w_db w') !! i = Some r → rests_on x r →
         undispatched (req_status r) = false) ∧
      grows (w_db w) (w_db w') ∧ w_tx w' = None
    | Err _ => w_db w' = w_db w ∧ w_tx w' = None ∧ (w_faults w = [] → unknown x (w_db w))
    end) w.
Proof.
  eapply wp_withdraw; [done|by apply at_start|..].
  - intros d' w' Hg Hwf' Hx Hn [-> -> _ _ _ _]. split_and!; try done.
    intros d Hgd. intros. by eapply gone_forever.
  - intros e w' Hu [-> -> _ _ _ _]. done.
Qed.

End granting.

(** * A witness *)

#[local] Existing Instances plain_crypto plain_json.

Lemma withdrawal_final_witness :
  w_tx sample_world = None ∧ wf (w_db sample_world) ∧
  (∃ w', withdraw "owner_1" (Device "dev_1") sample_world = (Ok tt, w')) ∧
  wp (withdraw "owner_1" (Device "dev_1")) (λ r w', match r with
    | Ok _ =>
      (∀ d, grows (w_db w') d → ∀ device service method path now s p,
         authorized d device service method path now s p → ¬ granted_on (Device "dev_1") (w_db w') device service p) ∧
      (w_faults sample_world = [] → ∀ i r, db_requests (w_db w') !! i = Some r → rests_on (Device "dev_1") r →
         undispatched (req_status r) = false) ∧
      grows (w_db sample_world) (w_db w') ∧ w_tx w' = None
    | Err _ => w_db w' = w_db sample_world ∧ w_tx w' = None ∧
        (w_faults sample_world = [] → unknown (Device "dev_1") (w_db sample_world))
    end) sample_world.
Proof.
  split; [reflexivity|]. split; [exact sample_wf|]. split; [eexists; vm_compute; reflexivity|].
  apply (withdrawal_final "owner_1" (Device "dev_1") sample_world); [reflexivity|exact sample_wf].
Defined.
