(* ===== verification/Services.v ===== *)
(** What [addService] stores: a service whose header rules are well-formed, whose
    credential opens under its own revision, and which nothing grants yet. *)
From S2P Require Import Prelude GoStrings NetUrl Http GoTime Access Upstream Crypto Types Db Rules Samples.
From S2P Require Import Authorize Lifecycle Life Closing Submitting Limits Owner Granting.

(** * Header lists *)

(** A name that the lists of a service may hold, next to its credential header. *)
Definition application_name (credential n : string) : Prop :=
  CanonicalHeaderKey n = n ∧ HeaderName n = true ∧ Reserved n = false ∧ EqualFold n credential = false.

Definition application_names (credential : string) (l : list string) : Prop :=
  NoDup l ∧ Forall (application_name credential) l.

(** They are exactly the canonical names of the list, each once. *)
Lemma header_names_spec credential names out l :
  application_names credential out → header_names credential names out = Some l →
  application_names credential l ∧
  ∀ n, n ∈ l ↔ n ∈ out ∨ n ∈ map (λ n, CanonicalHeaderKey (TrimSpace n)) names.
Proof.
  revert out. induction names as [|n names IH]; intros out Ho; simpl.
  { intros [= <-]. split; [done|]. intros n. by rewrite elem_of_nil; tauto. }
  set (c := CanonicalHeaderKey (TrimSpace n)).
  destruct (HeaderName c) eqn:E1; [|done]. destruct (Reserved c) eqn:E2; [done|].
  destruct (EqualFold c credential) eqn:E3; [done|]. simpl. intros Hl.
  assert (application_name credential c) as Hc by (split_and!; [apply CanonicalHeaderKey_idem|done..]).
  apply IH in Hl as [Ha Hs].
  - split; [done|]. intros m. rewrite Hs, elem_of_cons. case_bool_decide; [|rewrite elem_of_app, list_elem_of_singleton; tauto].
    split; [tauto|]. intros [?|[-> |?]]; auto.
  - destruct Ho as [Hn Hf]. case_bool_decide as Hi; [done|]. split.
    + apply NoDup_app. split_and!; [done|by intros x Hx ->%list_elem_of_singleton|apply NoDup_singleton].
    + apply Forall_app. split; [done|by apply Forall_singleton].
Qed.

Lemma application_names_canonical credential l : application_names credential l → NoDup (map CanonicalHeaderKey l).
Proof.
  intros [Hn Hf]. replace (map CanonicalHeaderKey l) with l; [done|].
  clear Hn. induction Hf as [|n l (Hc & _) _ IH]; [done|]. simpl. by rewrite Hc, <-IH.
Qed.

Lemma token_ascii c : is_token c = true → in_range c "000" "127" = true.
Proof. destruct c as [[] [] [] [] [] [] [] []]; vm_compute; auto. Qed.

Lemma token_ValidString s : all_bytes is_token s = true → ValidString s = true.
Proof. intros Hs. eapply ascii_ValidString, all_bytes_impl; [|exact Hs]. intros c. apply token_ascii. Qed.

Lemma application_names_valid credential l : application_names credential l → forallb ValidString l = true.
Proof.
  intros [_ Hf]. apply forallb_forall. intros n Hn%list_elem_of_In. rewrite Forall_forall in Hf.
  destruct (Hf n Hn) as (_ & Hh & _). unfold HeaderName in Hh. case_bool_decide; [done|]. by apply token_ValidString.
Qed.

Section services.
Context `{GoCrypto} `{GoJSON}.

Lemma headerList_spec raw defaults credential s :
  headerList raw defaults credential = Ok s →
  ∃ l, s = marshal_strings l ∧ application_names credential l ∧
    ∀ n, n ∈ l ↔ n ∈ map (λ n, CanonicalHeaderKey (TrimSpace n))
                       (if bool_decide (raw ≠ EmptyString) then Split "," raw else defaults).
Proof.
  unfold headerList. destruct (header_names _ _ _) as [l|] eqn:E; intros [= <-].
  apply header_names_spec in E as [Ha Hs]; [|split; constructor]. exists l. split_and!; [done|done|].
  intros n. rewrite Hs, elem_of_nil. tauto.
Qed.

(** * The form *)

(** The header rules of a service: its credential header is named if and only if it
    has one, by a token outside the reserved names, and its lists do not name it. *)
Record sound_service (auth header : string) (request response : list string) : Prop := {
  ss_auth : auth ∈ ["none"; "bearer"; "header"; "basic"];
  ss_header : if bool_decide (auth = "header") then HeaderName header = true ∧ Reserved header = false
              else header = EmptyString;
  ss_request : application_names header request;
  ss_response : application_names header response;
}.

Record sound_form (sf : service_form) : Prop := {
  sfo_id : Slug (sf_id sf) = true;
  sfo_base : ∃ u, Base (sf_base sf) = Ok u;
  sfo_credential : HeaderValue (sf_credential sf) = true;
  sfo_cidr : ∃ u, CIDR (sf_cidr sf) = Ok u;
  sfo_lists : ∃ req res, sf_request sf = marshal_strings req ∧ sf_response sf = marshal_strings res
    ∧ sound_service (sf_auth sf) (sf_header sf) req res;
}.

Lemma auth_credential_ok auth credential header c :
  auth_credential auth credential header = Ok c →
  auth ∈ ["none"; "bearer"; "header"; "basic"] ∧ (c = credential ∨ c = EmptyString) ∧
  (auth = "header" → HeaderName header = true ∧ Reserved header = false).
Proof.
  unfold auth_credential. repeat case_bool_decide; subst; try done; simpl.
  - intros [= <-]. split_and!; [set_solver|by right|done].
  - intros [= <-]. split_and!; [set_solver|by left|done].
  - destruct (HeaderName header) eqn:?, (Reserved header) eqn:?; intros [= <-]. split_and!; [set_solver|by left|done].
  - destruct (Contains _ _); intros [= <-]. split_and!; [set_solver|by left|done].
Qed.

Lemma check_service_sound f sf : check_service f = Ok sf → sound_form sf.
Proof.
  unfold check_service, mbind, result_bind. destruct (Slug _) eqn:Hid; [|done].
  destruct (100 <? _)%nat; [done|]. cbn [negb orb]. destruct (Base _) as [u|] eqn:Hb; [|done].
  destruct (HeaderValue _) eqn:Hv; [|done]. cbn [negb].
  set (auth := form_Get f "auth"). set (header := CanonicalHeaderKey _).
  destruct (auth_credential _ _ _) as [c|] eqn:Hc; [|done]. apply auth_credential_ok in Hc as (Ha & Hc & Hh).
  destruct (headerList _ _ _) as [req|] eqn:Hreq; [|done].
  destruct (headerList (form_Get f "response_headers") _ _) as [res|] eqn:Hres; [|done].
  destruct (CIDR _) as [u'|] eqn:Hcidr; [|done]. intros [= <-].
  apply headerList_spec in Hreq as (lreq & -> & Hreq & _), Hres as (lres & -> & Hres & _).
  split; simpl; eauto.
  - by destruct Hc as [-> | ->].
  - exists lreq, lres. split_and!; [done..|]. split; [done| |done..].
    destruct (decide (auth = "header")) as [Hd|Hd].
    + rewrite (bool_decide_eq_true_2 (auth = _)), (bool_decide_eq_false_2 (auth ≠ _)) by (rewrite ?Hd; auto). auto.
    + by rewrite (bool_decide_eq_false_2 (auth = _)), (bool_decide_eq_true_2 (auth ≠ _)).
Qed.

(** * The transaction *)

(** The credential is sealed for this service and revision. *)
Definition sealed_credential (key : string) (sf : service_form) (rev : Z) (enc : string) : Prop :=
  ∃ n, String.length n = NonceSize ∧ enc = Seal key (credential_ref (sf_id sf) rev) (sf_credential sf) n.

(** The row that is written, before requests are cancelled and the audit appended. *)
Definition saved (key : string) (revise : bool) (sf : service_form) (rev : Z) (enc : string) (d d1 : database) : Prop :=
  d1 = set_db_services (<[sf_id sf := service_row_of sf enc rev]> (db_services d)) d
  ∧ sealed_credential key sf rev enc
  ∧ match db_services d !! sf_id sf with
    | Some old => revise = true ∧ rev = (srv_revision old + 1)%Z
    | None => revise = false ∧ rev = 1%Z
    end.

Definition service_kind (revise : bool) : string := if revise then "service_revised" else "service_created".

(** What is committed: from the second revision on, the requests are cancelled. *)
Definition saved_end (quiet : Prop) (owner : string) (revise : bool) (id : string) (rev : Z) (d1 d' : database) : Prop :=
  if (1 <? rev)%Z then revocation quiet by_service id "service_revised" owner EmptyString (service_kind revise) d1 d'
  else d' = set_db_audit (db_audit d1 ++ [mkAudit owner EmptyString (service_kind revise) id]) d1.

Lemma wp_next_revision w0 (revise : bool) (sf : service_form) d t (Q : result Z → world → Prop) w :
  at_world w0 d (Some t) w →
  (∀ rev w', (if revise then ∃ old, db_services t !! sf_id sf = Some old ∧ rev = (srv_revision old + 1)%Z else rev = 1%Z) →
     at_world w0 d (Some t) w' → Q (Ok rev) w') →
  (∀ e w', e = ErrMsg "service not found" → at_world w0 d (Some t) w' → Q (Err e) w') →
  wp (if revise then
        r ← or_fail (query Tx (λ d, row (srv_revision <$> db_services d !! sf_id sf))) "service not found";
        mret (r + 1)%Z
      else mret 1%Z : M world Z) Q w.
Proof.
  intros Hw HQ HE. destruct revise; [|wp_rule; by apply HQ].
  wp_rule. wp_rule. wp_rule; cbn [or_error]; [|by apply HE].
  wp_rule. apply HQ; [|done]. destruct (db_services t !! sf_id sf) as [old|]; simplify_eq/=. eauto.
Qed.

Lemma wp_save_row w0 (revise : bool) sf rev enc d (Q : result Z → world → Prop) w :
  at_world w0 d (Some d) w → sealed_credential (w_key w0) sf rev enc →
  (if revise then ∃ old, db_services d !! sf_id sf = Some old ∧ rev = (srv_revision old + 1)%Z else rev = 1%Z) →
  (∀ n d1 w', saved (w_key w0) revise sf rev enc d d1 → at_world w0 d (Some d1) w' → Q (Ok n) w') →
  (∀ e w', at_world w0 d (Some d) w' → Q (Err e) w') →
  wp (if (rev =? 1)%Z
      then exec Tx (insert_service (sf_id sf) (service_row_of sf enc 1))
      else exec Tx (update_service (sf_id sf) (λ _, service_row_of sf enc rev))) Q w.
Proof.
  intros Hw Hu Hr HQ HE. wp_case; wp_rule; try (by eapply HE).
  - apply Z.eqb_eq in Eb as ->. unfold insert_service in *. destruct (db_services d !! sf_id sf) eqn:E; [done|].
    simplify_eq. eapply HQ; [|done]. split_and!; [done..|]. rewrite E. destruct revise; [|done].
    by destruct Hr as (? & ? & _).
  - unfold update_service in *. destruct (db_services d !! sf_id sf) as [old|] eqn:E; simplify_eq.
    + eapply HQ; [|done]. split_and!; [done..|]. rewrite E. destruct revise; [|by subst].
      destruct Hr as (o & ? & ->). by simplify_eq.
    + destruct revise; [by destruct Hr as (? & ? & _)|by subst].
Qed.

Lemma wp_add_service_tx w0 owner revise sf d (Q : result unit → world → Prop) w :
  at_world w0 d (Some d) w →
  (∀ rev enc d1 d' w', saved (w_key w0) revise sf rev enc d d1 →
     saved_end (w_faults w0 = []) owner revise (sf_id sf) rev d1 d' → at_world w0 d' None w' → Q (Ok tt) w') →
  (∀ e w', at_world w0 d None w' → Q (Err e) w') →
  wp (add_service_tx owner revise sf) (λ r w', Q r (rollback w')) w.
Proof.
  intros Hw HQ HE.
  assert (∀ e t w', at_world w0 d t w' → Q (Err e) (rollback w')) as HEr
    by (intros e t w' Hw'; eapply HE, at_rollback; done).
  unfold add_service_tx. wp_rule. eapply wp_next_revision; [done| |intros; by eapply HEr].
  intros rev w1 Hrev Hw1. cbv beta iota. wp_rule. wp_rule. rename w' into w2.
  assert (sealed_credential (w_key w0) sf rev
    (Seal (w_key w0) (credential_ref (sf_id sf) rev) (sf_credential sf) n)) as Hu by (by exists n).
  wp_rule. wp_rule. eapply wp_save_row; [done|exact Hu|exact Hrev| |intros; by eapply HEr].
  intros m d1 w3 Hs Hw3. cbn [or_error]. wp_rule. unfold saved_end, service_kind in *. wp_case.
  - eapply wp_cancelRequests; [done| |intros; by eapply HEr]. intros ids t w4 Hp Hf Hc Hw4. cbv beta iota.
    wp_rule. wp_rule; [|by eapply HEr]. wp_rule; [|by eapply HEr].
    eapply (HQ rev); [done| |by eapply at_rollback]. rewrite Eb. exists ids, t. done.
  - wp_rule. wp_rule. wp_rule; [|by eapply HEr]. wp_rule; [|by eapply HEr].
    eapply (HQ rev); [done| |by eapply at_rollback]. by rewrite Eb.
Qed.

Lemma wp_addService w0 owner revise f d (Q : result unit → world → Prop) w :
  at_world w0 d None w →
  (∀ e, check_service f = Err e → Q (Err e) w) →
  (∀ sf rev enc d1 d' w', check_service f = Ok sf → saved (w_key w0) revise sf rev enc d d1 →
     saved_end (w_faults w0 = []) owner revise (sf_id sf) rev d1 d' → at_world w0 d' None w' → Q (Ok tt) w') →
  (∀ sf e w', check_service f = Ok sf → at_world w0 d None w' → Q (Err e) w') →
  wp (addService owner revise f) Q w.
Proof.
  intros Hw HF HQ HE. unfold addService. wp_rule. wp_rule. destruct (check_service f) as [sf|e] eqn:Hf; [|by apply HF].
  eapply wp_with_tx_or; [done| |intros; by eapply HE].
  intros w1 Hw1 _. eapply wp_add_service_tx; [done|intros; by eapply HQ|intros; by eapply HE].
Qed.

Lemma saved_end_evolves quiet owner revise id rev d1 d' :
  saved_end quiet owner revise id rev d1 d' →
  evolves d1 d' ∧ db_services d' = db_services d1 ∧ db_permissions d' = db_permissions d1.
Proof.
  unfold saved_end. destruct (1 <? rev)%Z.
  - intros Hr. destruct (revocation_rest _ _ _ _ _ _ _ _ _ Hr) as (_ & ? & ?).
    split; [by eapply revocation_evolves|done].
  - intros ->. split; [apply evolves_audit|done].
Qed.

Lemma saved_evolves key revise sf rev enc d d1 : saved key revise sf rev enc d d1 → evolves d d1.
Proof.
  intros (-> & _ & Hs). apply evolves_service. intros s Hsv. rewrite Hsv in Hs. simpl.
  destruct Hs as [_ ->]. lia.
Qed.

(** Nothing that was stored before grants anything at the new revision. *)
Lemma saved_gone key revise sf rev enc d d1 :
  wf d → saved key revise sf rev enc d d1 → gone (ServiceId (sf_id sf)) d1.
Proof.
  intros Hwf (-> & _ & Hs) i p s Hp Hps. simpl. rewrite lookup_insert_eq. intros [= <-].
  destruct (wf_permission d Hwf _ _ Hp) as (_ & old & Hold & Hle). rewrite Hps in Hold. rewrite Hold in Hs. destruct Hs as [_ ->].
  simpl. lia.
Qed.

Lemma service_of_saved `{!JsonLaws} sf enc rev req res :
  sf_request sf = marshal_strings req → sf_response sf = marshal_strings res →
  sound_service (sf_auth sf) (sf_header sf) req res →
  service_of (sf_id sf) (service_row_of sf enc rev) =
  Ok (mkService (sf_id sf) (sf_label sf) (sf_base sf) (sf_auth sf) (sf_header sf) (sf_cidr sf) rev enc req res).
Proof.
  intros Hreq Hres [_ _ Hq Hs]. unfold service_of, service_row_of. cbn. rewrite Hreq, Hres.
  by rewrite !strings_roundtrip by (by eapply application_names_valid).
Qed.

(** C22: Storing a service: a form that is refused changes nothing, and one that is
    accepted, once the transaction succeeds, gives an enabled service under a new
    revision (the first for a new ID, the next for an old one) whose stored
    credential opens, with the reference of that revision, to the one of the form; whose header lists decode to canonical, distinct, unreserved names other
    than its credential header; and for which no permission that is stored grants
    anything, then or in any later state. *)
Theorem addService_correct `{!GcmLaws, !JsonLaws} owner revise f w (Htx : w_tx w = None) (Hwf : wf (w_db w)) :
  wp (addService owner revise f) (λ r w', match check_service f, r with
    | Err e, _ => r = Err e ∧ w' = w
    | Ok _, Err _ => w_db w' = w_db w ∧ w_tx w' = None
    | Ok sf, Ok _ =>
      ∃ rev row s, db_services (w_db w') !! sf_id sf = Some row ∧ service_of (sf_id sf) row = Ok s
        ∧ enabled_service (w_db w') (sf_id sf) = Some row ∧ svc_Revision s = rev
        ∧ match db_services (w_db w) !! sf_id sf with
          | None => revise = false ∧ rev = 1%Z
          | Some old => revise = true ∧ rev = (srv_revision old + 1)%Z
          end
        ∧ Unseal (w_key w) (credential_ref (sf_id sf) rev) (svc_Credential s) = Some (sf_credential sf)
        ∧ HeaderValue (sf_credential sf) = true
        ∧ sound_service (svc_Auth s) (svc_AuthHeader s) (svc_RequestHeaders s) (svc_ResponseHeaders s)
        ∧ grows (w_db w) (w_db w')
        ∧ ∀ d, grows (w_db w') d → ∀ device method path now s' p,
            authorized d device (sf_id sf) method path now s' p → db_permissions (w_db w') !! perm_ID p = None
    end) w.
Proof.
  eapply wp_addService; [by apply at_start|by intros e ->|..].
  2: { intros sf e w' -> [-> -> _ _ _ _]. done. }
  intros sf rev enc d1 d' w' Hf Hs He [-> _ _ _ _ _]. rewrite Hf.
  pose proof (check_service_sound _ _ Hf) as [Hid _ Hcv _ (req & res & Hreq & Hres & Hss)].
  destruct (saved_end_evolves _ _ _ _ _ _ _ He) as (Hev & Es & Ep).
  destruct (saved_evolves _ _ _ _ _ _ _ Hs Hwf) as [Hwf1 Hg1]. destruct (Hev Hwf1) as [Hwf' Hg'].
  pose proof (saved_gone _ _ _ _ _ _ _ Hwf Hs) as Hgone.
  destruct Hs as (-> & (n & Hn & ->) & Hrev). simpl in Es.
  eexists rev, _, _. unfold enabled_service. rewrite Es, lookup_insert_eq.
  split_and!; [done|by apply (service_of_saved _ _ _ req res)|done..| | | | |]; try done.
  - by apply Unseal_Seal.
  - by transitivity (set_db_services (<[sf_id sf:=service_row_of sf (Seal (w_key w) (credential_ref (sf_id sf) rev) (sf_credential sf) n) rev]> (db_services (w_db w))) (w_db w)).
  - intros d Hd device method path now s' p Ha.
    destruct (db_permissions d' !! perm_ID p) eqn:Hp; [|done]. exfalso.
    eapply (gone_forever (ServiceId (sf_id sf)) d' d); [done|done| |done|by split; [|rewrite Hp]].
    intros i q s. rewrite Es, Ep. by apply Hgone.
Qed.

End services.

(** * A witness *)

Definition sample_service_form : form :=
  {[ "id" := ["mail"]; "label" := ["Mail"]; "base_url" := ["https://mail.example.com/api"]; "auth" := ["header"];
     "credential" := ["token"]; "auth_header" := ["x-api-key"]; "request_headers" := ["accept, content-type"] ]}.

#[local] Existing Instances plain_crypto plain_json.

Lemma addService_correct_witness :
  w_tx sample_world = None ∧ wf (w_db sample_world) ∧
  (∃ sf w', check_service sample_service_form = Ok sf
     ∧ addService "owner_1" false sample_service_form sample_world = (Ok tt, w')) ∧
  wp (addService "owner_1" false sample_service_form) (λ r w', match check_service sample_service_form, r with
    | Err e, _ => r = Err e ∧ w' = sample_world
    | Ok _, Err _ => w_db w' = w_db sample_world ∧ w_tx w' = None
    | Ok sf, Ok _ =>
      ∃ rev row s, db_services (w_db w') !! sf_id sf = Some row ∧ service_of (sf_id sf) row = Ok s
        ∧ enabled_service (w_db w') (sf_id sf) = Some row ∧ svc_Revision s = rev
        ∧ match db_services (w_db sample_world) !! sf_id sf with
          | None => false = false ∧ rev = 1%Z
          | Some old => false = true ∧ rev = (srv_revision old + 1)%Z
          end
        ∧ Unseal (w_key sample_world) (credential_ref (sf_id sf) rev) (svc_Credential s) = Some (sf_credential sf)
        ∧ HeaderValue (sf_credential sf) = true
        ∧ sound_service (svc_Auth s) (svc_AuthHeader s) (svc_RequestHeaders s) (svc_ResponseHeaders s)
        ∧ grows (w_db sample_world) (w_db w')
        ∧ ∀ d, grows (w_db w') d → ∀ device method path now s' p,
            authorized d device (sf_id sf) method path now s' p → db_permissions (w_db w') !! perm_ID p = None
    end) sample_world.
Proof.
  split; [reflexivity|]. split; [exact sample_wf|]. split; [do 2 eexists; split; vm_compute; reflexivity|].
  apply (@addService_correct plain_crypto plain_json plain_laws plain_json_laws "owner_1" false sample_service_form sample_world);
    [reflexivity|exact sample_wf].
Defined.
