(* ===== verification/Permissions.v ===== *)
(** What [addPermission] stores: a permission of the current revision that overlaps
    no other, so that the answer of [Authorize] stays independent of row order. *)
From S2P Require Import Prelude GoStrings NetUrl Http GoTime Access Upstream Crypto Types Db Rules Samples.
From S2P Require Import Authorize Lifecycle Life Closing Submitting Limits Owner.

Section permissions.
Context `{GoCrypto} `{GoJSON}.

(** * The form *)

Record sound_permission (f : form) (t0 t1 : Z) (pf : permission_form) : Prop := {
  sp_device : pf_device pf = form_Get f "device";
  sp_service : pf_service pf = form_Get f "service";
  sp_methods : Methods (form_Get f "method") = Ok (pf_methods pf);
  sp_path : pf_path pf = form_Get f "path" ∧ Path (pf_path pf) = true;
  sp_kind : pf_kind pf = "exact" ∨ pf_kind pf = "subtree";
  sp_mode : pf_mode pf = "standing" ∨ pf_mode pf = "approval_required";
  sp_expires : match pf_expires pf with
               | None => form_Get f "expires" = EmptyString
               | Some e => ∃ t now, ParseRFC3339 (form_Get f "expires") = Some t ∧ (t0 <= now <= t1)%Z
                   ∧ (now < t)%Z ∧ e = Unix t
               end;
}.

Lemma wp_check_permission w0 f d t (Q : result permission_form → world → Prop) w :
  at_world w0 d t w →
  (∀ pf w', sound_permission f (w_clock w) (w_clock w') pf → at_world w0 d t w' → (w_clock w <= w_clock w')%Z →
     Q (Ok pf) w') →
  (∀ e w', at_world w0 d t w' → Q (Err e) w') →
  wp (check_permission f) Q w.
Proof.
  intros Hw HQ HE. unfold check_permission.
  set (kind := or_default (form_Get f "path_kind") _). set (mode := or_default (form_Get f "mode") _).
  wp_rule. wp_rule. destruct (Methods _) as [ms|] eqn:Hm; [|by apply HE]. cbn [or_error].
  wp_case; [wp_rule; by apply HE|]. apply negb_false_iff in Eb.
  wp_case; [wp_rule; by apply HE|].
  apply orb_false_iff in Eb0 as [[Hk|Hk]%negb_false_iff%orb_true_iff [Ho|Ho]%negb_false_iff%orb_true_iff];
    apply bool_decide_eq_true in Hk, Ho; wp_rule; wp_case.
  all: try (wp_rule; wp_rule; apply HQ; [|done|lia]; apply bool_decide_eq_false, dec_stable in Eb0;
    split; simpl; auto; fail).
  all: destruct (ParseRFC3339 _) as [t1|] eqn:Ht; [|wp_rule; by apply HE].
  all: wp_rule; wp_rule; wp_case; [wp_rule; by apply HE|].
  all: apply negb_false_iff, Z.ltb_lt in Eb1; wp_rule; wp_rule; apply HQ; [|done|done].
  all: split; simpl; eauto 10 with lia.
Qed.

(** * The transaction *)

(** What a new permission is: fresh, of an active device and the current revision of
    an enabled service, and free of overlaps at the time [now]. *)
Record granted (d : database) (owner : string) (pf : permission_form) (now : Z) (id : string) (s : Service) (d' : database)
    : Prop := {
  gr_fresh : db_permissions d !! id = None;
  gr_device : device_active d (pf_device pf) = true;
  gr_service : ∃ r, enabled_service d (pf_service pf) = Some r ∧ service_of (pf_service pf) r = Ok s;
  gr_free : ∀ p, p ∈ rival_rows (pf_device pf) (pf_service pf) (svc_Revision s) now d → Overlap (candidate pf) p = false;
  gr_rows : d' = set_db_audit (db_audit d ++ [mkAudit owner (pf_device pf) "permission_created" id])
    (set_db_permissions (<[id := permission_row_of pf (pf_service pf) (svc_Revision s) owner]> (db_permissions d)) d);
}.

Lemma service_of_fields id r s : service_of id r = Ok s → svc_ID s = id ∧ svc_Revision s = srv_revision r.
Proof. intros Hs. apply service_of_ID in Hs. tauto. Qed.

Lemma insert_permission_inv id p d d' n :
  insert_permission id p d = Ok (d', n) →
  db_permissions d !! id = None ∧ d' = set_db_permissions (<[id := p]> (db_permissions d)) d.
Proof.
  unfold insert_permission. case_bool_decide as Hi; [done|]. simpl.
  destruct (_ || _); intros [= <- _]. split; [by apply eq_None_not_Some|done].
Qed.

Lemma wp_add_permission_tx w0 owner pf d (Q : result unit → world → Prop) w :
  at_world w0 d (Some d) w →
  (∀ now id s d' w', granted d owner pf now id s d' → (Unix (w_clock w) <= now <= Unix (w_clock w'))%Z →
     (w_clock w <= w_clock w')%Z → at_world w0 d' None w' → Q (Ok tt) w') →
  (∀ e t w', at_world w0 d t w' → Q (Err e) w') →
  wp (add_permission_tx owner pf) Q w.
Proof.
  intros Hw HQ HE. unfold add_permission_tx. wp_rule. wp_rule.
  eapply wp_GetService; [done| |intros; by eapply HE]. intros r s w1 Hr Hs Hw1 Hc1. cbn [or_error].
  destruct (service_of_fields _ _ _ Hs) as [Eid _].
  wp_rule. eapply wp_ActiveDevice; [done|]. intros b w2 Hb _ Hw2 Hc2. destruct b; cbn [negb]; [|wp_rule; by eapply HE].
  wp_rule. eapply wp_now_Unix; [done|]. intros w3 Hw3 Hc3. cbv beta iota. set (now := Unix (w_clock w3)).
  wp_rule. wp_rule; [|by eapply HE]. destruct b; [wp_rule; by eapply HE|]. rewrite H2 by done.
  wp_case; [wp_rule; by eapply HE|].
  wp_rule. wp_rule. wp_rule. wp_rule. wp_rule; [|by eapply HE]. cbn [or_error].
  apply insert_permission_inv in H9 as [Hfr ->].
  wp_rule. wp_rule; [|by eapply HE]. wp_rule; [|by eapply HE].
  eapply (HQ now); [| |lia|done].
  - split; [done|by apply Hb|by eauto| |by rewrite Eid].
    intros p Hp. rewrite Eid in Eb. apply not_true_iff_false in Eb.
    destruct (Overlap (candidate pf) p) eqn:E; [|done]. exfalso. apply Eb, existsb_exists.
    exists p. by rewrite <-list_elem_of_In.
  - unfold now. split; apply Unix_mono; lia.
Qed.

Lemma granted_evolves d owner pf now id s d' : granted d owner pf now id s d' → evolves d d'.
Proof.
  intros [Hf Hd (r & Hr & Hs) _ ->].
  etransitivity; [|exact (evolves_audit (set_db_permissions _ d) _)].
  destruct (service_of_fields _ _ _ Hs) as [_ Er]. unfold enabled_service in Hr.
  destruct (db_services d !! pf_service pf) as [r'|] eqn:E; [|done]. destruct (srv_enabled r'); simplify_eq.
  apply (evolves_new_permission _ _ _ r); simpl; [done| |done|lia].
  unfold device_active in Hd. destruct (db_devices d !! pf_device pf); [eauto|done].
Qed.

(** The new row overlaps no row that is active with it from then on. *)
Lemma granted_no_overlap d owner pf now id s d' t :
  granted d owner pf now id s d' → (now <= t)%Z → no_overlap d t → no_overlap d' t.
Proof.
  intros [Hf _ (r & Hr & Hs) Hfree ->] Hle Hno dev srv rev i j p q. simpl.
  destruct (service_of_fields _ _ _ Hs) as [_ Er].
  assert (∀ k x, db_permissions d !! k = Some x →
    permission_active dev srv rev t (permission_row_of pf (pf_service pf) (svc_Revision s) owner) = true →
    permission_active dev srv rev t x = true →
    Overlap (candidate pf) (to_permission k x) = false) as Hnew.
  { intros k x Hx Ha Hb. apply Hfree. apply elem_of_active; [apply row_order_default|]. exists x.
    split_and!; [done| |done]. unfold permission_active in Ha; simpl in Ha.
    rewrite !andb_true_iff, !bool_decide_eq_true, Z.eqb_eq in Ha. destruct Ha as ((((-> & ->) & ->) & _) & _).
    by eapply permission_active_earlier. }
  rewrite !lookup_insert_Some. intros [[<- <-]|[Hi Hp]] [[<- <-]|[Hj Hq]] Hij Ha Hb; [done| | |].
  - by apply (Hnew j q).
  - rewrite Overlap_sym. by apply (Hnew i p).
  - by eapply Hno.
Qed.

(** C23: Granting a permission: if it succeeds there is exactly one new row, under a
    fresh ID, for an active device and the current revision of an enabled service,
    with the canonical methods, the path, kind and mode of the form and an expiry
    in the future, not revoked; the other tables are as before, but for one audit
    record; and if no two active permissions overlapped before, none do now.  If it
    fails the database is unchanged. *)
Theorem addPermission_correct owner f w (Htx : w_tx w = None) :
  wp (addPermission owner f) (λ r w', match r with
    | Err _ => w_db w' = w_db w ∧ w_tx w' = None
    | Ok _ => ∃ id pf row,
        sound_permission f (w_clock w) (w_clock w') pf
        ∧ db_permissions (w_db w) !! id = None
        ∧ w_db w' = set_db_audit (db_audit (w_db w) ++ [mkAudit owner (pf_device pf) "permission_created" id])
                      (set_db_permissions (<[id := row]> (db_permissions (w_db w))) (w_db w))
        ∧ device_active (w_db w) (pm_device row) = true
        ∧ srv_revision <$> enabled_service (w_db w) (pm_service row) = Some (pm_revision row)
        ∧ row = permission_row_of pf (pf_service pf) (pm_revision row) owner
        ∧ (no_overlap (w_db w) (Unix (w_clock w)) → no_overlap (w_db w') (Unix (w_clock w')))
        ∧ evolves (w_db w) (w_db w')
    end) w.
Proof.
  unfold addPermission. wp_rule. eapply wp_check_permission; [by apply at_start| |by intros e w' [-> -> _ _ _ _]].
  intros pf w1 Hpf Hw1 Hc1. cbv beta iota. eapply wp_with_tx; [done| |by intros e w' _ [-> -> _ _ _ _]].
  intros w2 Hw2 Hc2. eapply wp_add_permission_tx; [done| |].
  2: { intros e t w' [Hd _ _ _ _ _]. simpl. by rewrite Hd. }
  intros now id s d' w3 Hg [Hnow1 Hnow2] Hc3 Hw3. pose proof (at_db _ _ _ _ Hw3) as E. simpl. rewrite E.
  pose proof (granted_evolves _ _ _ _ _ _ _ Hg) as Hev.
  pose proof (λ t, granted_no_overlap _ _ _ _ _ _ _ t Hg) as Hno.
  destruct Hg as [Hf Hd (r & Hr & Hs) Hfree ->]. destruct (service_of_fields _ _ _ Hs) as [_ Er].
  eexists id, pf, _. split_and!; [|done|done|done| |done| |done].
  - destruct Hpf as [? ? ? ? ? ? He]. split; try done. destruct (pf_expires pf); [|done].
    destruct He as (t & n & ? & ? & ? & ?). exists t, n. split_and!; try done; lia.
  - simpl. by rewrite Hr, Er.
  - intros Hn. apply Hno; [done|]. eapply no_overlap_later; [|done]. apply Unix_mono, (at_clock _ _ _ _ Hw3).
Qed.

End permissions.

(** * A witness *)

Definition sample_permission_form : form :=
  {[ "device" := ["dev_1"]; "service" := ["api"]; "method" := ["PUT, PATCH"]; "path" := ["/v1/jobs"];
     "path_kind" := ["subtree"]; "expires" := ["2030-01-02T03:04:05Z"] ]}.

#[local] Existing Instances plain_crypto plain_json.

Lemma addPermission_correct_witness :
  w_tx sample_world = None ∧
  (∃ w', addPermission "owner_1" sample_permission_form sample_world = (Ok tt, w')) ∧
  wp (addPermission "owner_1" sample_permission_form) (λ r w', match r with
    | Err _ => w_db w' = w_db sample_world ∧ w_tx w' = None
    | Ok _ => ∃ id pf row,
        sound_permission sample_permission_form (w_clock sample_world) (w_clock w') pf
        ∧ db_permissions (w_db sample_world) !! id = None
        ∧ w_db w' = set_db_audit (db_audit (w_db sample_world) ++ [mkAudit "owner_1" (pf_device pf) "permission_created" id])
                      (set_db_permissions (<[id := row]> (db_permissions (w_db sample_world))) (w_db sample_world))
        ∧ device_active (w_db sample_world) (pm_device row) = true
        ∧ srv_revision <$> enabled_service (w_db sample_world) (pm_service row) = Some (pm_revision row)
        ∧ row = permission_row_of pf (pf_service pf) (pm_revision row) "owner_1"
        ∧ (no_overlap (w_db sample_world) (Unix (w_clock sample_world)) → no_overlap (w_db w') (Unix (w_clock w')))
        ∧ evolves (w_db sample_world) (w_db w')
    end) sample_world.
Proof.
  split; [reflexivity|]. split; [eexists; vm_compute; reflexivity|].
  apply (addPermission_correct "owner_1" sample_permission_form sample_world). reflexivity.
Defined.
