(* ===== verification/Stable.v ===== *)
(** Every operation of the server keeps the invariant, whatever it is called with
    and however it ends.

    [changes d d'] is [evolves] together with: the requests being dispatched stay the
    same ones, as they were.  [Stable m] is what a computation promises to the ones it is part of:
    at every point the committed database has only changed so, and so has the open
    transaction with respect to it.  The instances cover the statements and the
    control structure, so that a handler is stable because its parts are; the
    operations whose statements are legal only for what they read before come from
    their accounts in the files before this one. *)
From S2P Require Import Prelude GoStrings NetUrl Http GoTime Access Upstream Crypto Types Db Rules Samples.
From S2P Require Import Authorize Lifecycle Life Closing Submitting Reviewing Dispatching Limits Owner Device.
From S2P Require Import Worker Granting Services Permissions.

(** * Legal changes *)

(** The requests being dispatched are left alone, and none is added to them. *)
Definition calm (d d' : database) : Prop :=
  ∀ id r, req_status r = dispatching → db_requests d !! id = Some r ↔ db_requests d' !! id = Some r.

#[export] Instance calm_preorder : PreOrder calm.
Proof. split; [by intros d id r|]. intros d1 d2 d3 H1 H2 id r Hs. by rewrite (H1 id r Hs), (H2 id r Hs). Qed.

Record changes (d d' : database) : Prop := {
  ch_evolves : evolves d d';
  ch_calm : calm d d';
}.

#[export] Instance changes_preorder : PreOrder changes.
Proof.
  split; [intros d; by split|].
  intros d1 d2 d3 [E1 C1] [E2 C2]. split; [by transitivity d2|by transitivity d2].
Qed.

(** A change that leaves all requests alone. *)
Lemma changes_other d d' : evolves d d' → db_requests d' = db_requests d → changes d d'.
Proof. intros He Hr. split; [done|]. intros id r _. by rewrite Hr. Qed.

(** A change of one request that neither was nor is being dispatched. *)
Lemma calm_insert d d' id r' :
  db_requests d' = <[id := r']> (db_requests d) → (∀ r, db_requests d !! id = Some r → req_status r ≠ dispatching) →
  req_status r' ≠ dispatching → calm d d'.
Proof.
  intros E Hn Hn' i r Hs. rewrite E. destruct (decide (id = i)) as [-> |Hne]; [|by rewrite lookup_insert_ne].
  rewrite lookup_insert_eq. split; [intros Hi; by destruct (Hn r Hi)|by intros [= ->]].
Qed.

(** Closing requests that are not being dispatched. *)
Lemma closes_calm_rows s reason ids t t' :
  closes s reason ids t t' → s ≠ dispatching →
  (∀ i r, i ∈ ids → db_requests t !! i = Some r → req_status r ≠ dispatching) → calm t t'.
Proof.
  intros Hc Hs. induction Hc as [|id now ids t t' Hc IH]; intros Hn; [done|].
  assert (∀ i r, db_requests (close_in s reason now id t) !! i = Some r → i ∈ id :: ids → req_status r ≠ dispatching) as Hafter.
  { intros i r. destruct (decide (i = id)) as [-> |Hne].
    - unfold close_in. destruct (db_requests t !! id) as [q|] eqn:Hq; simpl.
      + rewrite lookup_insert_eq. by intros [= <-].
      + by rewrite Hq.
    - rewrite close_in_other by done. intros Hi Hin. by eapply Hn. }
  etransitivity; [|apply IH; intros i r Hi Hr; apply (Hafter i r Hr); by right].
  intros i r Hd. destruct (decide (i = id)) as [-> |Hne]; [|by rewrite close_in_other].
  split; intros Hr; exfalso; [eapply Hn; [by left|done|done]|eapply Hafter; [done|by left|done]].
Qed.

Lemma closes_calm s reason ids t t' p :
  closes s reason ids t t' → ids `prefix_of` select_requests (λ _, p) t →
  s ≠ dispatching → (∀ r, p r = true → req_status r ≠ dispatching) → calm t t'.
Proof.
  intros Hc Hp Hs Hn. apply (closes_calm_rows _ _ _ _ _ Hc Hs).
  intros i r (q & Hq & Hpq)%(prefix_elem _ _ _ Hp)%elem_of_select Hr. apply Hn. congruence.
Qed.

Lemma undispatched_calm s : undispatched s = true → s ≠ dispatching.
Proof. by destruct s. Qed.

Lemma cancel_changes column id reason ids t t' :
  ids `prefix_of` select_requests (λ _, in_scope column id) t → closes cancelled reason ids t t' → changes t t'.
Proof.
  intros Hp Hc. split; [by eapply cancel_evolves|]. eapply closes_calm; [done..|].
  intros r [_ Hu]%andb_true_iff. by apply undispatched_calm.
Qed.

Section changes.
Context `{GoCrypto} `{GoJSON}.

Lemma created_changes key d device i t0 t1 id d' : created key d device i t0 t1 id d' → changes d d'.
Proof.
  intros Hc. split; [by eapply created_evolves|].
  destruct Hc as [_ (s & p & h & t & st & e & now & c & n & Hc) Hf _]. cbv zeta in Hc.
  destruct Hc as (_ & _ & _ & _ & _ & Had & ->). eapply (calm_insert _ _ id); [done|congruence|].
  by destruct Had.
Qed.

Lemma decided_changes key d t0 t1 owner id digest decision d' :
  decided key d t0 t1 owner id digest decision d' → changes d d'.
Proof.
  intros Hc. split; [by eapply decided_evolves|].
  destruct Hc as [_ (r & s & svc & fin & [Hr _ _] & Hs & _ & _ & _ & _ & _ & ->)].
  eapply (calm_insert _ _ id); [done|intros q Hq; congruence|]. simpl. unfold decision_status. by case_match.
Qed.

Lemma finished_other s reason enc now id d i : i ≠ id →
  db_requests (finished_db s reason enc now id d) !! i = db_requests d !! i.
Proof. intros Hi. unfold finished_db. destruct (db_requests d !! id); simpl; [|done]. by rewrite lookup_insert_ne. Qed.

Lemma rejected_changes key d id quiet st reason r now :
  db_requests d !! id = Some r → req_status r = queued → rejected key d id quiet st reason →
  changes d (finished_db st reason None now id d).
Proof.
  intros Hr Hs Hre. split; [by eapply rejected_evolves|].
  apply (calm_insert _ _ id (finish_row st reason None now r)); [unfold finished_db; by rewrite Hr|congruence|].
  by destruct Hre.
Qed.

Lemma maintenance_changes now ids d t d' :
  ids `prefix_of` select_requests (λ _, overdue now) d → closes_at now ids d t →
  maintenance_result now t d' → changes d d'.
Proof.
  intros Hp Hc Hm. split; [by eapply maintenance_evolves|].
  transitivity t.
  { eapply closes_calm; [by eapply closes_at_closes|done..|].
    intros r [Hu _]%andb_true_iff. by apply undispatched_calm. }
  assert (calm t (purge_payloads (now - 24 * 3600) t)) as Hpc.
  { intros i r Hs. simpl. rewrite lookup_fmap. destruct (db_requests t !! i) as [q|]; simpl; [|done].
    destruct (terminal (req_status q)) eqn:Eq; [|by rewrite andb_false_r].
    rewrite andb_true_r. split; intros [= <-]; [by rewrite Hs in Eq|]. exfalso.
    assert (req_status q = dispatching) as Hq by by destruct (req_finished q) as [f|]; [destruct (f <? _)%Z|]. by rewrite Hq in Eq. }
  by destruct Hm as [-> | ->].
Qed.

Lemma saved_changes key quiet owner revise sf rev enc d d1 d' :
  saved key revise sf rev enc d d1 → saved_end quiet owner revise (sf_id sf) rev d1 d' → changes d d'.
Proof.
  intros Hs He. transitivity d1.
  - apply changes_other; [by eapply saved_evolves|]. by destruct Hs as [-> _].
  - unfold saved_end in He. destruct (1 <? rev)%Z.
    + destruct He as (ids & t & Hp & _ & Hc & ->). etransitivity; [by eapply cancel_changes|].
      apply changes_other; [apply evolves_audit|done].
    + subst. apply changes_other; [apply evolves_audit|done].
Qed.

Lemma granted_changes d owner pf now id s d' : granted d owner pf now id s d' → changes d d'.
Proof. intros Hg. apply changes_other; [by eapply granted_evolves|]. by destruct Hg as [_ _ _ _ ->]. Qed.

End changes.

(** * Stable computations *)

(** The open transaction, if there is one, is a legal change of what is committed. *)
Definition tx_ok (w : world) : Prop :=
  match w_tx w with None => True | Some t => changes (w_db w) t end.

(** How far a computation may take the world. *)
Record onward (w w' : world) : Prop := {
  on_tx : tx_ok w';
  on_db : changes (w_db w) (w_db w');
  on_key : w_key w' = w_key w;
  on_clock : (w_clock w <= w_clock w')%Z;
  on_quiet : w_faults w = [] → w_faults w' = [];
}.

Lemma onward_refl w : tx_ok w → onward w w.
Proof. intros Hw. split; done || lia. Qed.

Lemma onward_trans w1 w2 w3 : onward w1 w2 → onward w2 w3 → onward w1 w3.
Proof. intros [? ? ? ? ?] [? ? ? ? ?]. split; [done|by etransitivity|congruence|lia|auto]. Qed.

Class Stable {A} (m : M world A) : Prop := stable w : tx_ok w → wp m (λ _, onward w) w.
#[export] Hint Mode Stable ! ! : typeclass_instances.

(** ** Control structure *)

Section control.
Context {A B : Type}.

#[export] Instance stable_ret (a : A) : Stable (mret a).
Proof. intros w Hw. by apply onward_refl. Qed.

#[export] Instance stable_fail e : Stable (@fail world A e).
Proof. intros w Hw. by apply onward_refl. Qed.

#[export] Instance stable_lift (r : result A) : Stable (@lift world A r).
Proof. intros w Hw. by apply onward_refl. Qed.

#[export] Instance stable_gets (f : world → A) : Stable (gets f).
Proof. intros w Hw. by apply onward_refl. Qed.

#[export] Instance stable_bind (m : M world A) (f : A → M world B) :
  Stable m → (∀ a, Stable (f a)) → Stable (m ≫= f).
Proof.
  intros Hm Hf w Hw. apply wp_bind. eapply wp_mono; [by apply Hm|].
  intros [a|e] w1 H1; [|done]. eapply wp_mono; [apply Hf, H1|].
  intros r w2 H2. by eapply onward_trans.
Qed.

#[export] Instance stable_attempt (m : M world A) : Stable m → Stable (attempt m).
Proof. intros Hm w Hw. by apply wp_attempt, Hm. Qed.

#[export] Instance stable_or_fail (m : M world A) e : Stable m → Stable (or_fail m e).
Proof. intros Hm w Hw. by apply wp_or_fail, Hm. Qed.

#[export] Instance stable_finally (m : M world A) fin :
  Stable m → (∀ w, tx_ok w → onward w (fin w)) → Stable (finally m fin).
Proof.
  intros Hm Hfin w Hw. apply wp_finally. eapply wp_mono; [by apply Hm|].
  intros r w1 H1. apply (onward_trans _ w1 _ H1), Hfin. exact (on_tx _ _ H1).
Qed.

End control.

#[export] Instance stable_for_each {A} (f : A → M world unit) l : (∀ a, Stable (f a)) → Stable (for_each f l).
Proof. intros Hf. induction l as [|a l IH]; simpl; apply _. Qed.

Lemma onward_rollback w : tx_ok w → onward w (rollback w).
Proof. intros Hw. by split. Qed.

#[export] Hint Resolve onward_rollback : typeclass_instances.

(** A match in the program: each of its branches. *)
#[export] Hint Extern 5 (Stable (match ?x with _ => _ end)) => destruct x : typeclass_instances.

(** ** Time, randomness and faults *)

Lemma stable_at {A} (m : M world A) :
  (∀ w, wp m (λ _ w', at_world w (w_db w) (w_tx w) w') w) → Stable m.
Proof.
  intros Hm w Hw. eapply wp_mono; [apply Hm|]. intros _ w' [Hd Ht Hk _ Hc Hq].
  split; [unfold tx_ok in *; by rewrite Hd, Ht|by rewrite Hd|done|done|done].
Qed.

#[export] Instance stable_time_Now : Stable time_Now.
Proof. apply stable_at. intros w. eapply wp_time_Now; [apply at_self|done]. Qed.

#[export] Instance stable_now_Unix : Stable now_Unix.
Proof. apply stable_at. intros w. eapply wp_now_Unix; [apply at_self|done]. Qed.

#[export] Instance stable_Random n : Stable (Random n).
Proof. apply stable_at. intros w. eapply wp_Random; [apply at_self|done]. Qed.

#[export] Instance stable_fault : Stable fault.
Proof. apply stable_at. intros w. eapply wp_fault; [apply at_self|done..]. Qed.

#[export] Instance stable_fetch {A} (l : list A) : Stable (fetch l).
Proof. apply stable_at. intros w. eapply wp_fetch; [apply at_self|done]. Qed.

#[export] Instance stable_modify_mem m : Stable (modify (set_w_mem m)).
Proof. intros w Hw. by split. Qed.

(** ** Transactions and statements *)

#[export] Instance stable_begin : Stable begin_tx.
Proof.
  intros w Hw. destruct (w_tx w) eqn:Ht.
  - unfold wp, begin_tx. rewrite Ht. by apply onward_refl.
  - eapply wp_begin; [by apply at_start|..].
    + intros w' [Hd Htx Hk _ Hc Hq] _. split; [unfold tx_ok; by rewrite Htx, Hd|by rewrite Hd|done..].
    + intros e w' _ [Hd Htx Hk _ Hc Hq]. split; [unfold tx_ok; by rewrite Htx|by rewrite Hd|done..].
Qed.

#[export] Instance stable_commit : Stable commit.
Proof.
  intros w Hw. destruct (w_tx w) as [t|] eqn:Ht.
  - assert (changes (w_db w) t) as Hc by (unfold tx_ok in Hw; by rewrite Ht in Hw).
    eapply (wp_commit w (w_db w) t); [rewrite <-Ht; apply at_self|..].
    + intros w' [Hd Htx Hk _ Hcl Hq] _. split; [unfold tx_ok; by rewrite Htx|by rewrite Hd|done..].
    + intros e w' _ [Hd Htx Hk _ Hcl Hq]. split; [unfold tx_ok; by rewrite Htx|by rewrite Hd|done..].
  - unfold wp, commit. rewrite Ht. by apply onward_refl.
Qed.

#[export] Instance stable_query {A} q (f : database → result A) : Stable (query q f).
Proof.
  intros w Hw. unfold wp, query. destruct (current q w) as [d|e]; [|by apply onward_refl].
  pose proof (stable_fault w Hw) as Hf. unfold wp in Hf. by destruct (fault w) as [[?|?] w'].
Qed.

(** A statement that writes promises that its change is legal. *)
Class Changing (f : database → result (database * Z)) : Prop :=
  changing d d' n : f d = Ok (d', n) → changes d d'.

#[export] Instance stable_exec q f : Changing f → Stable (exec q f).
Proof.
  intros Hf w Hw. unfold wp, exec. destruct (current q w) as [d|e] eqn:Hd; [|by apply onward_refl].
  pose proof (stable_fault w Hw) as Ho. unfold wp in Ho. destruct (fault w) as [[?|?] w'] eqn:Ef; [|done].
  simpl in Ho. destruct (f d) as [[d' n]|e] eqn:E; [|done]. simpl. eapply onward_trans; [done|].
  apply Hf in E. pose proof (wp_fault w (w_db w) (w_tx w) (λ _ w', w_db w' = w_db w ∧ w_tx w' = w_tx w) w (at_self w)) as Hsame.
  unfold wp in Hsame. rewrite Ef in Hsame. simpl in Hsame. destruct Hsame as [Hdb Htx].
  { intros w2 [? ? ? ? ? ?] _. done. } { intros e w2 _ [? ? ? ? ? ?] _. done. }
  unfold current in Hd. unfold tx_ok in Hw. destruct q; simpl.
  - destruct (w_tx w) eqn:Ht; [done|]. injection Hd as <-. rewrite <-Hdb in E.
    split; [unfold tx_ok; simpl; by rewrite Htx|done|done|simpl; lia|done].
  - destruct (w_tx w) as [t|] eqn:Ht; [|done]. injection Hd as <-.
    split; [unfold tx_ok; simpl; rewrite Hdb; by transitivity t|done|done|simpl; lia|done].
Qed.

#[export] Instance stable_query_rows {A} q (f : database → list A) : Stable (query_rows q f).
Proof. unfold query_rows. apply _. Qed.

#[export] Instance changing_audit l : Changing (λ d, Ok (set_db_audit (db_audit d ++ l) d, 1%Z)).
Proof. intros d d' n [= <- _]. apply changes_other; [apply evolves_audit|done]. Qed.

#[export] Instance stable_Audit q owner device kind entity : Stable (Audit q owner device kind entity).
Proof. unfold Audit. apply _. Qed.
