(* ===== verification/Handlers.v ===== *)
(** The operations and handlers of the server are stable: the instances of [Stable]
    for each of them, up to [OwnerHandler], [DeviceHandler] and the worker. *)
From S2P Require Import Prelude GoStrings NetUrl Http GoTime Access Upstream Crypto Types Db Rules Samples.
From S2P Require Import Authorize Lifecycle Life Closing Submitting Reviewing Dispatching Limits Owner Device.
From S2P Require Import Worker Granting Services Permissions Stable.

Section handlers.
Context `{GoCrypto} `{GoJSON}.

(** * Reading *)

#[export] Instance stable_Encrypt purpose b : Stable (Encrypt purpose b).
Proof. apply stable_at. intros w. eapply wp_Encrypt; [apply at_self|done]. Qed.

#[export] Instance stable_Decrypt purpose b : Stable (Decrypt purpose b).
Proof. apply stable_at. intros w. eapply wp_Decrypt; [apply at_self|intros; apply at_self..]. Qed.

#[export] Instance stable_new_ID prefix : Stable (new_ID prefix).
Proof. unfold new_ID. apply _. Qed.

#[export] Instance stable_ActiveDevice q id : Stable (ActiveDevice q id).
Proof. unfold ActiveDevice. apply _. Qed.

#[export] Instance stable_GetService q id : Stable (GetService q id).
Proof. unfold GetService. apply _. Qed.

#[export] Instance stable_match_rows method path rows : Stable (match_rows method path rows).
Proof. induction rows; simpl; apply _. Qed.

#[export] Instance stable_Authorize q device service method path : Stable (Authorize q device service method path).
Proof. unfold Authorize, authorize_in. apply _. Qed.

#[export] Instance stable_snapshot id : Stable (snapshot id).
Proof. unfold snapshot. apply _. Qed.

#[export] Instance stable_RequestStatus device id : Stable (RequestStatus device id).
Proof. unfold RequestStatus, with_tx. apply _. Qed.

(** * Limits *)

#[export] Instance stable_throttle key limit : Stable (throttle key limit).
Proof. unfold throttle. apply _. Qed.

#[export] Instance stable_acquire device : Stable (acquire device).
Proof.
  intros w Hw. unfold wp, acquire.
  destruct (_ || _); simpl; [by apply onward_refl|]. by split.
Qed.

Lemma onward_release device w : tx_ok w → onward w (release device w).2.
Proof. intros Hw. by split. Qed.

(** * Operations with an account *)

(** A stable operation from its account outside transactions; inside another it
    must not get further than the start of its own. *)
Lemma stable_account {A} (m : M world A) :
  (∀ w t, w_tx w = Some t → wp m (λ _ w', at_world w (w_db w) (w_tx w) w') w) →
  (∀ w, w_tx w = None → wp m (λ _ w', ∃ d', changes (w_db w) d' ∧ at_world w d' None w') w) →
  Stable m.
Proof.
  intros Hb Hm w Hw. destruct (w_tx w) as [t|] eqn:Ht.
  - eapply wp_mono; [by eapply Hb|]. intros _ w' [Hd Htx Hk _ Hc Hq].
    split; [unfold tx_ok in *; by rewrite Hd, Htx|by rewrite Hd|done..].
  - eapply wp_mono; [by apply Hm|]. intros _ w' (d' & Hch & [Hd Htx Hk _ Hc Hq]).
    split; [unfold tx_ok; by rewrite Htx|by rewrite Hd|done..].
Qed.

Lemma begin_busy w t : w_tx w = Some t → begin_tx w = (Err ErrDeadlock, w).
Proof. unfold begin_tx. by intros ->. Qed.

Lemma with_tx_busy {A} (opened : M world unit → M world unit) (body : M world A) w t :
  w_tx w = Some t → (∃ e, opened (λ w, (Err ErrDeadlock, w)) w = (Err e, w)) →
  opened begin_tx w = opened (λ w, (Err ErrDeadlock, w)) w →
  wp (with_tx opened body) (λ _ w', at_world w (w_db w) (w_tx w) w') w.
Proof.
  intros Ht [e He] Hb. unfold wp, with_tx, mbind, M_bind. rewrite Hb, He. apply at_self.
Qed.

Lemma with_tx_busy_plain {A} (body : M world A) w t :
  w_tx w = Some t → wp (with_tx (λ m, m) body) (λ _ w', at_world w (w_db w) (w_tx w) w') w.
Proof. intros Ht. eapply with_tx_busy; [done|by eexists|by eapply begin_busy]. Qed.

Lemma with_tx_busy_or {A} (body : M world A) msg w t :
  w_tx w = Some t → wp (with_tx (λ m, or_fail m msg) body) (λ _ w', at_world w (w_db w) (w_tx w) w') w.
Proof.
  intros Ht. eapply with_tx_busy; [done|by eexists|]. unfold or_fail. by rewrite (begin_busy _ _ Ht).
Qed.

#[export] Instance stable_Submit device i : Stable (Submit device i).
Proof.
  apply stable_account; intros w.
  - intros t Ht. unfold Submit. wp_rule. wp_rule. destruct (Normalize i); [|apply at_self]. by eapply with_tx_busy_or.
  - intros Ht. eapply wp_Submit; [by apply at_start|..].
    + intros i' id w' _ _ Hw'. by exists (w_db w).
    + intros i' id d' w' _ Hc Hw'. exists d'. split; [by eapply created_changes|done].
    + intros e w' _ Hw'. by exists (w_db w).
Qed.

#[export] Instance stable_Decide owner id digest decision : Stable (Decide owner id digest decision).
Proof.
  apply stable_account; intros w.
  - intros t Ht. unfold Decide. wp_case; [wp_rule; apply at_self|]. by eapply with_tx_busy_plain.
  - intros Ht. eapply wp_Decide; [by apply at_start|..].
    + intros d' w' Hc Hw'. exists d'. split; [by eapply decided_changes|done].
    + intros e w' _ Hw'. by exists (w_db w).
Qed.

#[export] Instance stable_maintenance : Stable maintenance.
Proof.
  apply stable_account; intros w.
  - intros t Ht. unfold maintenance. wp_rule. wp_rule.
    eapply wp_mono; [by eapply with_tx_busy_plain|]. intros r w' Hw'. by wp_rule.
  - intros Ht. eapply wp_maintenance; [by apply at_start|..].
    + intros now ids t d' w' Hp Hc Hm _ _ Hw'. exists d'. split; [by eapply maintenance_changes|done].
    + intros w' _ Hw'. by exists (w_db w).
Qed.

Lemma withdraw_changes w0 owner x d w : at_world w0 d None w →
  wp (withdraw owner x) (λ _ w', ∃ d', changes d d' ∧ at_world w0 d' None w') w.
Proof.
  intros Hw.
  assert (∀ quiet column id reason dev kind d1 d', evolves d d1 → db_requests d1 = db_requests d →
    revocation quiet column id reason owner dev kind d1 d' → changes d d') as Hrev.
  { intros quiet column id reason dev kind d1 d' He Hr (ids & t & Hp & _ & Hc & ->).
    transitivity d1; [by apply changes_other|]. transitivity t; [by eapply cancel_changes|].
    apply changes_other; [apply evolves_audit|done]. }
  destruct x as [id|id|id]; simpl.
  - eapply wp_revoke; [done|intros|intros; by exists d]. eexists. split; [|done].
    eapply Hrev; [by apply evolves_revoke_device| |done]. done.
  - eapply wp_disableService; [done|intros|intros; by exists d]. eexists. split; [|done].
    eapply Hrev; [by apply evolves_disable| |done]. done.
  - eapply wp_revokePermission; [done|intros|intros; by exists d]. eexists. split; [|done].
    eapply Hrev; [by apply evolves_revoke_permission| |done]. done.
Qed.

Lemma stable_withdraw owner x : Stable (withdraw owner x).
Proof.
  apply stable_account; intros w.
  - intros t Ht. destruct x; by eapply with_tx_busy_plain.
  - intros Ht. by apply withdraw_changes, at_start.
Qed.

#[export] Instance stable_revoke owner id : Stable (revoke owner id).
Proof. exact (stable_withdraw owner (Granting.Device id)). Qed.
#[export] Instance stable_disableService owner id : Stable (disableService owner id).
Proof. exact (stable_withdraw owner (ServiceId id)). Qed.
#[export] Instance stable_revokePermission owner id : Stable (revokePermission owner id).
Proof. exact (stable_withdraw owner (PermissionId id)). Qed.

Lemma restored_changes full ids t t' : restored full ids t t' → changes t t'.
Proof.
  induction 1 as [t|id cs ids t t1 n t2 t' Hs Hp _ Hc _ IH]; [done|].
  transitivity t1; [|by etransitivity; [eapply cancel_changes|]].
  apply changes_other; [by eapply set_device_revoked_evolves|].
  apply set_device_revoked_inv in Hs as ->. by destruct (db_devices t !! id).
Qed.

#[export] Instance stable_RecoverRestored : Stable RecoverRestored.
Proof.
  apply stable_account; intros w.
  - intros t Ht. by eapply with_tx_busy_plain.
  - intros Ht. eapply wp_RecoverRestored; [by apply at_start|..].
    + intros ids t w' _ _ Hr Hw'. exists (after_restore t). split; [|done]. etransitivity; [by eapply restored_changes|].
      apply changes_other; [apply after_restore_evolves|done].
    + intros e w' _ Hw'. by exists (w_db w).
Qed.

#[export] Instance stable_addService owner revise f : Stable (addService owner revise f).
Proof.
  apply stable_account; intros w.
  - intros t Ht. unfold addService. wp_rule. wp_rule. destruct (check_service f); [|apply at_self].
    by eapply with_tx_busy_or.
  - intros Ht. eapply wp_addService; [by apply at_start|..].
    + intros e _. exists (w_db w). split; [done|by apply at_start].
    + intros sf rev enc d1 d' w' _ Hs He Hw'. exists d'. split; [by eapply saved_changes|done].
    + intros sf e w' _ Hw'. by exists (w_db w).
Qed.

#[export] Instance stable_check_permission f : Stable (check_permission f).
Proof. unfold check_permission. apply _. Qed.

#[export] Instance stable_addPermission owner f : Stable (addPermission owner f).
Proof.
  unfold addPermission. apply stable_bind; [apply _|]. intros pf. apply stable_account; intros w.
  - intros t Ht. by eapply with_tx_busy_plain.
  - intros Ht. eapply wp_with_tx; [by apply at_start| |by intros e w' _ Hw'; exists (w_db w)].
    intros w1 Hw1 _. eapply wp_add_permission_tx; [done|..].
    + intros now id s d' w' Hg _ _ Hw'. exists d'. split; [by eapply granted_changes|by eapply at_rollback].
    + intros e t w' Hw'. exists (w_db w). split; [done|by eapply at_rollback].
Qed.

(** * Statements *)

Lemma changing_devices id f d d' :
  (∀ r r', f r = r' → same_device r r') →
  match db_devices d !! id with
  | Some r => d' = set_db_devices (<[id := f r]> (db_devices d)) d
  | None => d' = d
  end → changes d d'.
Proof.
  intros Hf. destruct (db_devices d !! id) as [r|] eqn:E; intros ->; [|done].
  apply changes_other; [|done]. apply evolves_device. intros q Hq. rewrite E in Hq. injection Hq as <-. by apply Hf.
Qed.

#[export] Instance changing_set_device_revoked id : Changing (set_device_revoked id).
Proof.
  intros d d' n. unfold set_device_revoked. intros Hd. apply (changing_devices id (set_dev_revoked true)).
  - by intros r r' <- _.
  - destruct (db_devices d !! id); by injection Hd as <- _.
Qed.

#[export] Instance changing_set_certificate id c : Changing (set_certificate id c).
Proof.
  intros d d' n. unfold set_certificate. intros Hd.
  apply (changing_devices id (λ r, mkDevice (dev_label r) (dev_revoked r) (i_serial c) (i_expires c))).
  - by intros r r' <- Hr.
  - destruct (db_devices d !! id); by injection Hd as <- _.
Qed.

#[export] Instance changing_insert_device id label : Changing (insert_device id label).
Proof.
  intros d d' n. unfold insert_device. destruct (db_devices d !! id) eqn:E; intros [= <- _].
  apply changes_other; [|done]. apply evolves_device. congruence.
Qed.

#[export] Instance changing_insert_invitation hash device expires : Changing (insert_invitation hash device expires).
Proof.
  intros d d' n. unfold insert_invitation. case_bool_decide as Hi; [done|]. simpl.
  case_bool_decide; intros [= <- _]. apply changes_other; [|done]. apply evolves_invitation.
  intros i Hs. destruct Hi. by eexists.
Qed.

#[export] Instance changing_use_invitation hash : Changing (use_invitation hash).
Proof.
  intros d d' n. unfold use_invitation. destruct (db_invitations d !! hash) as [i|] eqn:E; intros [= <- _]; [|done].
  apply changes_other; [|done]. apply evolves_invitation. intros j Hj. rewrite E in Hj. injection Hj as <-. by split.
Qed.

#[export] Instance changing_insert_session hash s : Changing (insert_session hash s).
Proof.
  intros d d' n. unfold insert_session. destruct (_ || _); intros [= <- _].
  apply changes_other; [apply evolves_sessions|done].
Qed.

#[export] Instance changing_sessions f n : Changing (λ d, Ok (set_db_sessions (f d) d, n)).
Proof. intros d d' m [= <- _]. apply changes_other; [apply evolves_sessions|done]. Qed.

#[export] Instance changing_http l : Changing (λ d, Ok (set_db_http_events (db_http_events d ++ l) d, 1%Z)).
Proof. intros d d' n [= <- _]. apply changes_other; [apply evolves_http|done]. Qed.

#[export] Instance changing_insert_owner id hash : Changing (insert_owner id hash).
Proof.
  intros d d' n. unfold insert_owner. destruct (db_owners d !! id) eqn:E; intros [= <- _].
  apply changes_other; [by apply evolves_owner|done].
Qed.

(** * The owner's handler *)

#[export] Instance stable_Invitation owner label : Stable (Invitation owner label).
Proof. unfold Invitation, with_tx. apply _. Qed.

#[export] Instance stable_login password : Stable (login password).
Proof. unfold login. apply _. Qed.

#[export] Instance stable_review id csrf : Stable (review id csrf).
Proof. unfold review. apply _. Qed.

#[export] Instance stable_current_session cookie : Stable (current_session cookie).
Proof. unfold current_session. apply _. Qed.

Lemma stable_owner_action owner path cookie f m : owner_action owner path cookie f = Some m → Stable m.
Proof.
  unfold owner_action.
  repeat (match goal with |- (if ?b then _ else _) = _ → _ => destruct b end;
    [intros [= <-]; apply _|]). done.
Qed.

#[export] Instance stable_OwnerHandler host r : Stable (OwnerHandler host r).
Proof.
  unfold OwnerHandler. cbv zeta.
  repeat match goal with
  | |- Stable (match owner_action ?o ?p ?c ?f with _ => _ end) =>
    let E := fresh in destruct (owner_action o p c f) eqn:E; [apply stable_owner_action in E|]
  | |- Stable (match ?x with _ => _ end) => destruct x
  | |- Stable (mbind _ _) => apply stable_bind; [|intros ?]
  | |- _ => apply _
  end.
Qed.

(** * The devices' handler *)

#[export] Instance stable_device tls : Stable (device tls).
Proof. unfold device. apply _. Qed.

#[export] Instance stable_try_ {A} (m : M world A) status code (k : A → M world device_reply) :
  Stable m → (∀ a, Stable (k a)) → Stable (try_ m status code k).
Proof. intros Hm Hk. unfold try_. apply _. Qed.

#[export] Instance stable_in_tx k : Stable k → Stable (in_tx k).
Proof. intros Hk. unfold in_tx. apply _. Qed.

#[export] Instance stable_issue device c : Stable (issue device c).
Proof. unfold issue, serial. apply _. Qed.

#[export] Instance stable_enroll body : Stable (enroll body).
Proof. unfold enroll, enroll_tx. apply _. Qed.

#[export] Instance stable_renew device c body : Stable (renew device c body).
Proof. unfold renew, renew_tx. apply _. Qed.

#[export] Instance stable_services device : Stable (services device).
Proof. unfold services. apply _. Qed.

#[export] Instance stable_submit device body : Stable (submit device body).
Proof. unfold submit. apply _. Qed.

(** What the rest of the server does during a wait of the polling loop. *)
Definition orderly (waits : list (option (world → world))) : Prop :=
  ∀ f, Some f ∈ waits → ∀ w, tx_ok w → onward w (f w).

Lemma stable_status_loop device id wait deadline waits : orderly waits → Stable (status_loop device id wait deadline waits).
Proof.
  induction waits as [|[f|] waits IH]; intros Ho; cbn [status_loop]; [apply _| |apply _].
  apply stable_try_; [apply _|]. intros st. apply stable_bind; [apply _|]. intros over.
  destruct (_ || _); [apply _|]. apply stable_bind.
  - intros w Hw. apply wp_modify. by apply (Ho f); [left|].
  - intros _. apply IH. intros g Hg. by apply Ho; right.
Qed.

Lemma stable_status device body waits : orderly waits → Stable (status_ device body waits).
Proof.
  intros Ho. unfold status_. destruct (decode _ _ _); [|apply _].
  destruct (_ || _); [apply _|]. apply stable_bind; [apply _|]. intros now. by apply stable_status_loop.
Qed.

#[export] Instance stable_http_claim device service method path query : Stable (http_claim device service method path query).
Proof. unfold http_claim. apply _. Qed.

#[export] Instance stable_httpAudit device service permission method status started req res :
  Stable (httpAudit device service permission method status started req res).
Proof. unfold httpAudit. apply _. Qed.

#[export] Instance stable_http_send device r body svc p target transport :
  Stable (http_send device r body svc p target transport).
Proof.
  unfold http_send. apply stable_try_; [apply _|]. intros secret. apply stable_bind; [apply _|]. intros started.
  destruct (Send _ _ _ _ _ _ _) as [res| |]; [|apply _..]. destruct (Stream _ _ _) as [h [n ok]]. apply _.
Qed.

#[export] Instance stable_http_request device r body service path transport :
  Stable (http_request device r body service path transport).
Proof.
  unfold http_request. apply stable_bind; [apply _|]. intros ok. destruct (negb ok); [apply _|].
  apply stable_finally; [apply _|]. intros w. apply onward_release.
Qed.

Lemma stable_DeviceHandler r waits transport : orderly waits → Stable (DeviceHandler r waits transport).
Proof.
  intros Ho. unfold DeviceHandler. cbv zeta. pose proof (λ d b, stable_status d b waits Ho).
  repeat match goal with
  | |- Stable (match ?x with _ => _ end) => destruct x
  | |- Stable (mbind _ _) => apply stable_bind; [|intros ?]
  | |- _ => apply _
  end.
Qed.

(** * The worker *)

#[export] Instance stable_start l : Stable (start l).
Proof. induction l; simpl; apply _. Qed.

#[export] Instance stable_worker_tick : Stable worker_tick.
Proof. unfold worker_tick. apply _. Qed.

End handlers.
