(* ===== verification/Guarding.v ===== *)
(** What the handlers let through.

    A change of the database by [OwnerHandler] needs the listener's own origin, a
    POST, and either the password or a live session with its CSRF token; and the
    upstream is contacted by [DeviceHandler] only under a committed claim on a
    standing permission.  That the upstream is not contacted is stated as
    independence of the transport: whatever it would have answered, the handler does
    the same. *)
From S2P Require Import Prelude GoStrings NetUrl Http GoTime Access Upstream Crypto Types Db Rules Samples.
From S2P Require Import Authorize Lifecycle Life Closing Submitting Reviewing Dispatching Limits Owner Device.
From S2P Require Import Worker Granting Services Permissions Stable Handlers.

(** * Computations that write nothing *)

(** The committed database is left alone. *)
Class Reading {A} (m : M world A) : Prop := reading w : wp m (λ _ w', w_db w' = w_db w) w.
#[export] Hint Mode Reading ! ! : typeclass_instances.

#[export] Instance reading_ret {A} (a : A) : Reading (@mret (M world) _ A a).
Proof. done. Qed.
#[export] Instance reading_fail {A} e : Reading (@fail world A e).
Proof. done. Qed.
#[export] Instance reading_lift {A} (r : result A) : Reading (@lift world A r).
Proof. done. Qed.

#[export] Instance reading_bind {A B} (m : M world A) (f : A → M world B) :
  Reading m → (∀ a, Reading (f a)) → Reading (m ≫= f).
Proof.
  intros Hm Hf w. apply wp_bind. eapply wp_mono; [apply Hm|]. intros [a|e] w1 H1; [|done].
  eapply wp_mono; [apply Hf|]. intros r w2 H2. simpl in *. congruence.
Qed.

#[export] Instance reading_attempt {A} (m : M world A) : Reading m → Reading (attempt m).
Proof. intros Hm w. apply wp_attempt, Hm. Qed.
#[export] Instance reading_or_fail {A} (m : M world A) e : Reading m → Reading (or_fail m e).
Proof. intros Hm w. apply wp_or_fail, Hm. Qed.
#[export] Instance reading_finally {A} (m : M world A) : Reading m → Reading (finally m rollback).
Proof. intros Hm w. apply wp_finally, Hm. Qed.

#[export] Hint Extern 5 (Reading (match ?x with _ => _ end)) => destruct x : typeclass_instances.

Lemma reading_at {A} (m : M world A) : (∀ w, wp m (λ _ w', at_world w (w_db w) (w_tx w) w') w) → Reading m.
Proof. intros Hm w. eapply wp_mono; [apply Hm|]. by intros _ w' [? ? ? ? ? ?]. Qed.

#[export] Instance reading_now_Unix : Reading now_Unix.
Proof. apply reading_at. intros w. eapply wp_now_Unix; [apply at_self|done]. Qed.
#[export] Instance reading_Random n : Reading (Random n).
Proof. apply reading_at. intros w. eapply wp_Random; [apply at_self|done]. Qed.
#[export] Instance reading_fault : Reading fault.
Proof. apply reading_at. intros w. eapply wp_fault; [apply at_self|done..]. Qed.
#[export] Instance reading_begin : Reading begin_tx.
Proof.
  intros w. unfold wp, begin_tx. destruct (w_tx w); [done|].
  pose proof (reading_fault w) as Hf. unfold wp in Hf. by destruct (fault w) as [[?|?] w'].
Qed.
#[export] Instance reading_query {A} q (f : database → result A) : Reading (query q f).
Proof.
  intros w. unfold wp, query. destruct (current q w); [|done].
  pose proof (reading_fault w) as Hf. unfold wp in Hf. by destruct (fault w) as [[?|?] w'].
Qed.

Section guarding.
Context `{GoCrypto} `{GoJSON}.

#[export] Instance reading_new_ID prefix : Reading (new_ID prefix).
Proof. unfold new_ID. apply _. Qed.
#[export] Instance reading_Decrypt purpose b : Reading (Decrypt purpose b).
Proof. done. Qed.
#[export] Instance reading_ActiveDevice q id : Reading (ActiveDevice q id).
Proof. unfold ActiveDevice. apply _. Qed.
#[export] Instance reading_snapshot id : Reading (snapshot id).
Proof. unfold snapshot. apply _. Qed.
#[export] Instance reading_RequestStatus device id : Reading (RequestStatus device id).
Proof. unfold RequestStatus, with_tx. apply _. Qed.
#[export] Instance reading_review id csrf : Reading (review id csrf).
Proof. unfold review. apply _. Qed.

(** * The owner's handler *)

(** The session behind a cookie, live at a time between [t0] and [t1]. *)
Definition session_of (d : database) (t0 t1 : Z) (cookie : option string) (owner csrf : string) : Prop :=
  ∃ c s now, cookie = Some c ∧ db_sessions d !! Hash c = Some s ∧ (now < sess_expires s)%Z
    ∧ (Unix t0 <= now <= Unix t1)%Z ∧ sess_owner s = owner ∧ sess_csrf s = csrf.

Lemma wp_current_session w0 cookie d (Q : result (string * string) → world → Prop) w :
  at_world w0 d None w →
  (∀ owner csrf w', owner = EmptyString ∨ session_of d (w_clock w) (w_clock w') cookie owner csrf →
     at_world w0 d None w' → Q (Ok (owner, csrf)) w') →
  wp (current_session cookie) Q w.
Proof.
  intros Hw HQ. unfold current_session. destruct cookie as [c|]; [|wp_rule; apply HQ; auto].
  wp_rule. eapply wp_now_Unix; [done|]. intros w1 Hw1 Hc1. cbv beta iota.
  wp_rule. wp_rule. wp_rule; wp_rule; [|apply HQ; auto].
  destruct a as [owner csrf]. apply HQ; [|done]. right.
  unfold session_row_at in *. destruct (db_sessions d !! Hash c) as [s|] eqn:Hs; [|done].
  destruct (Unix (w_clock w1) <? sess_expires s)%Z eqn:He; [|done]. simplify_eq.
  exists c, s, (Unix (w_clock w1)). split_and!; try done; [by apply Z.ltb_lt| |]; apply Unix_mono; lia.
Qed.

(** What a change of the database needs. *)
Record owner_permit (host : string) (r : owner_request) (d : database) (t0 t1 : Z) (f : form) : Prop := {
  op_origin : origin_ok host r = true;
  op_post : rMethod (or_request r) = "POST";
  op_form : or_form r = Some f;
  op_csrf : form_Get f "csrf" ≠ EmptyString;
  op_who :
    UPath (rURL (or_request r)) = "/login" ∧ or_login r = Some (form_Get f "csrf")
      ∧ (∃ id hash, db_owners d !! id = Some hash ∧ CheckPassword hash (form_Get f "password") = true) ∨
    UPath (rURL (or_request r)) ≠ "/login"
      ∧ ∃ owner, owner ≠ EmptyString ∧ session_of d t0 t1 (or_session r) owner (form_Get f "csrf");
}.

Lemma first_owner_Ok d id hash : first_owner d = Ok (id, hash) → db_owners d !! id = Some hash.
Proof.
  unfold first_owner, row, row_or. destruct (map_to_list (db_owners d)) as [|[i h] l] eqn:E; [done|].
  intros [= <- <-]. apply elem_of_map_to_list. rewrite E. left.
Qed.

Lemma throttle_db key limit w : w_db (throttle key limit w).2 = w_db w ∧ w_tx (throttle key limit w).2 = w_tx w.
Proof.
  unfold throttle, mbind, M_bind, time_Now, gets, modify.
  destruct (w_ticks w); simpl; destruct (throttle_step _ _ _ _); done.
Qed.

Lemma login_guarded password w : w_tx w = None →
  wp (login password) (λ _ w', w_db w' = w_db w ∨
    ∃ id hash, db_owners (w_db w) !! id = Some hash ∧ CheckPassword hash password = true) w.
Proof.
  intros Htx. unfold login. apply wp_bind. destruct (throttle_db "login" 10 w) as [Hd Ht].
  unfold wp at 1. destruct (throttle "login" 10 w) as [[ok|e] w1]; simpl in *; [|by left].
  rewrite <-Hd. assert (at_world w1 (w_db w1) None w1) as Hw1 by (apply at_start; congruence). clear Hd Ht Htx.
  destruct ok; cbn [negb]; [|wp_rule; by left].
  wp_rule. wp_rule. wp_rule; [|wp_rule; left; by destruct H2].
  destruct a as [id hash]. apply first_owner_Ok in H1.
  destruct (CheckPassword hash password) eqn:Hp; cbn [negb]; [|wp_rule; left; by destruct H2].
  eapply wp_mono with (Q := λ _ _, True); [done|]. intros x w2 _. right. eauto.
Qed.

Lemma OwnerHandler_permit host r w : w_tx w = None →
  wp (OwnerHandler host r) (λ _ w',
    w_db w' = w_db w ∨ ∃ f, owner_permit host r (w_db w) (w_clock w) (w_clock w') f) w.
Proof.
  intros Htx. unfold OwnerHandler. cbv zeta.
  wp_case; [wp_rule; by left|]. apply negb_false_iff in Eb as Horigin.
  wp_case; [wp_rule; by left|]. clear Eb Eb0.
  wp_rule. eapply wp_current_session; [by apply at_start|]. intros owner csrf w1 Hsess Hw1.
  assert (w_db w1 = w_db w) as Hdb by apply Hw1.
  assert (∀ m : M world owner_reply, Reading m → wp m (λ _ w', w_db w' = w_db w ∨
    ∃ f, owner_permit host r (w_db w) (w_clock w) (w_clock w') f) w1) as Hread.
  { intros m Hm. eapply wp_mono; [apply Hm|]. intros x w2 H2. left. simpl in H2. congruence. }
  wp_case; [apply Hread, _|]. clear Eb. wp_case; [apply Hread, _|]. clear Eb.
  wp_case; [apply Hread, _|]. apply bool_decide_eq_false, dec_stable in Eb as Hpost. clear Eb.
  destruct (or_form r) as [f|] eqn:Hform; [|apply Hread, _].
  wp_case; [apply bool_decide_eq_true in Eb as Hlogin|apply bool_decide_eq_false in Eb as Hlogin].
  - wp_case; [apply Hread, _|]. apply orb_false_iff in Eb0 as [E1 E2].
    apply bool_decide_eq_false in E1, E2. apply dec_stable in E2.
    eapply wp_mono; [apply login_guarded, Hw1|]. rewrite Hdb. intros x w2 [?|Hp]; [by left|right].
    exists f. split; try done; [congruence|]. left. split_and!; [done| |done].
    destruct (or_login r); simpl in *; congruence.
  - wp_case; [apply Hread, _|]. apply bool_decide_eq_false in Eb0.
    wp_case; [apply Hread, _|]. apply orb_false_iff in Eb1 as [E1 E2].
    apply bool_decide_eq_false in E1, E2. apply dec_stable in E2. subst csrf.
    destruct Hsess as [?|Hsess]; [done|].
    destruct (owner_action _ _ _ _) as [m|] eqn:Hm; [|apply Hread, _]. apply stable_owner_action in Hm.
    eapply wp_mono; [apply (_ : Stable (x ← attempt m; mret (match x with
        | Ok None => SeeOther None
        | Ok (Some secret) => InvitationPage (form_Get f "csrf") secret
        | Err e => FormError (form_Get f "csrf") (error_text e) end)))|].
    { unfold tx_ok. by rewrite (at_tx _ _ _ _ Hw1). }
    intros x w2 [_ _ _ Hc]. right. exists f. split; try done. right. split; [done|]. exists owner.
    split; [done|]. destruct Hsess as (c & s & now & ? & ? & ? & [? Hn] & ? & ?).
    exists c, s, now. split_and!; try done. etransitivity; [done|]. by apply Unix_mono.
Qed.

(** C8: The owner's listener changes the database only for a request to its own
    host that does not come from another origin, by POST, with a form whose CSRF
    token is that of the login cookie and whose password is the owner's, or that of
    a session that is stored, not expired and belongs to the cookie sent.  Any other
    request leaves the database as it is; and whatever a request does to it is a
    legal change. *)
Theorem OwnerHandler_guarded host r w (Htx : w_tx w = None) :
  wp (OwnerHandler host r) (λ _ w',
    (w_db w' = w_db w ∨ ∃ f, owner_permit host r (w_db w) (w_clock w) (w_clock w') f) ∧
    changes (w_db w) (w_db w')) w.
Proof.
  split.
  - by apply OwnerHandler_permit.
  - apply (stable (m := OwnerHandler host r)). unfold tx_ok. by rewrite Htx.
Qed.

(** * The devices' handler *)

(** A certificate that is accepted: presented, valid at the time, of a device that
    is not revoked. *)
Definition authenticated (tls : option certificate) (d : database) (t0 t1 : Z) (device : string) : Prop :=
  ∃ c now, tls = Some c ∧ c_name c = device ∧ (t0 <= now <= t1)%Z ∧ (c_not_before c <= now < c_not_after c)%Z
    ∧ device_active d device = true.

Lemma wp_ActiveDevice_db w0 id d (Q : result bool → world → Prop) w :
  at_world w0 d None w →
  (∀ b w', (b = true → device_active d id = true) → at_world w0 d None w' → w_clock w' = w_clock w → Q (Ok b) w') →
  wp (ActiveDevice DB id) Q w.
Proof.
  intros Hw HQ. unfold ActiveDevice. wp_rule. wp_rule.
  eapply (wp_mono _ (λ r w', at_world w0 d None w' ∧ w_clock w' = w_clock w ∧
    ∀ u, r = Ok u → device_active d id = true)).
  - unfold wp, query, current. rewrite (at_tx _ _ _ _ Hw), (at_db _ _ _ _ Hw).
    pose proof (wp_fault w0 d None (λ _ w', at_world w0 d None w' ∧ w_clock w' = w_clock w) w Hw) as Hf.
    unfold wp in Hf. destruct (fault w) as [[?|?] w1]; simpl in *.
    + split_and!; [apply Hf; by auto|apply Hf; by auto|]. intros u. by destruct (device_active d id).
    + split_and!; [apply Hf; by auto|apply Hf; by auto|done].
  - intros r w1 (Hw1 & Hc1 & Hr). wp_rule. apply HQ; [|done|done]. destruct r as [u|]; [|done]. intros _. by eapply Hr.
Qed.

Lemma wp_device w0 tls d (Q : result string → world → Prop) w :
  at_world w0 d None w →
  (∀ device w', authenticated tls d (w_clock w) (w_clock w') device → at_world w0 d None w' → Q (Ok device) w') →
  (∀ e w', at_world w0 d None w' → Q (Err e) w') →
  wp (device tls) Q w.
Proof.
  intros Hw HQ HE. unfold device. destruct tls as [c|]; [|wp_rule; by apply HE].
  wp_rule. wp_rule. wp_case; [wp_rule; by apply HE|]. apply orb_false_iff in Eb as [E1 E2%negb_false_iff].
  apply Z.ltb_ge in E1. apply Z.ltb_lt in E2.
  wp_rule. eapply wp_ActiveDevice_db; [done|]. intros b w2 Hb Hw2 Hc2. cbv beta iota.
  destruct b; cbn [negb]; wp_rule; [|by apply HE]. apply HQ; [|done].
  exists c, (w_clock w'). split_and!; try done; [lia|by apply Hb].
Qed.

(** The claim: what it authorises, and the audit it commits. *)
Record http_claimed (d : database) (device service method path query : string) (t0 t1 : Z) (svc : Service) (p : Permission)
    (target : string) (d' : database) : Prop := {
  hc_authorized : ∃ now, authorized d device service method path now svc p ∧ (Unix t0 <= now <= Unix t1)%Z;
  hc_standing : perm_Mode p = "standing";
  hc_target : Target (svc_BaseURL svc) path query = Ok target;
  hc_audit : d' = set_db_audit (db_audit d ++ [mkAudit EmptyString device "http_claim" (perm_ID p)]) d;
}.

Lemma wp_http_claim w0 device service method path query d
    (Q : result (device_reply + Service * Permission * string) → world → Prop) w :
  at_world w0 d (Some d) w →
  (∀ svc p target d' w', http_claimed d device service method path query (w_clock w) (w_clock w') svc p target d' →
     at_world w0 d' None w' → Q (Ok (inr (svc, p, target))) w') →
  (∀ reply t w', at_world w0 d t w' → Q (Ok (inl reply)) w') →
  wp (http_claim device service method path query) Q w.
Proof.
  intros Hw HQ HE. unfold http_claim. wp_rule. wp_rule.
  eapply wp_authorize_in; [apply row_order_default|done| |].
  2: { intros e w1 _ Hw1. cbv beta iota. wp_rule. by eapply HE. }
  intros svc p w1 Ha Hw1 Hc1. cbv beta iota. wp_case; [wp_rule; by eapply HE|].
  apply bool_decide_eq_false, dec_stable in Eb.
  destruct (Target _ _ _) as [target|] eqn:Ht; [|wp_rule; by eapply HE].
  wp_rule. wp_rule. wp_rule; [|wp_rule; by eapply HE].
  wp_rule. wp_rule. wp_rule; wp_rule; [|by eapply HE].
  eapply HQ; [|done]. split; try done. exists (Unix (w_clock w1)). split; [done|]. split; apply Unix_mono; lia.
Qed.

(** The rest of a request once it is claimed. *)
Definition sending (device : string) (r : device_request) (svc : Service) (p : Permission) (target : string)
    (transport : outgoing → transport_result http_response) : M world device_reply :=
  finally (http_send device (dr_request r) (dr_body r) svc p target transport) (λ w, (release device w).2).

(** The transport makes no difference, or there is a claim, and it is made before
    the transport is asked. *)
Definition contact (run : (outgoing → transport_result http_response) → result device_reply * world)
    (claim : string → Service → Permission → string → world → Prop) (r : device_request) : Prop :=
  (∀ T T', run T = run T') ∨
  ∃ device svc p target w', claim device svc p target w' ∧ ∀ T, run T = sending device r svc p target T w'.

Lemma acquire_db device w :
  ∃ b w', acquire device w = (Ok b, w') ∧ w_db w' = w_db w ∧ w_tx w' = w_tx w ∧ w_clock w' = w_clock w.
Proof. unfold acquire. destruct (_ || _); do 2 eexists; split; done. Qed.

Lemma contact_ext run run' claim r : (∀ T, run T = run' T) → contact run' claim r → contact run claim r.
Proof.
  intros E [Hc|(device & svc & p & target & w' & Hc & Hr)]; [left|right].
  - intros T T'. by rewrite !E.
  - exists device, svc, p, target, w'. split; [done|]. intros T. by rewrite E.
Qed.

Lemma contact_const run x claim r : (∀ T, run T = x) → contact run claim r.
Proof. intros E. left. intros T T'. by rewrite !E. Qed.

(** A first step that does not know the transport. *)
Lemma contact_bind {A} (m : M world A) (k : (outgoing → transport_result http_response) → A → M world device_reply)
    claim r w :
  (∀ a w1, m w = (Ok a, w1) → contact (λ T, k T a w1) claim r) → contact (λ T, (m ≫= k T) w) claim r.
Proof.
  intros Hk. unfold mbind, M_bind. destruct (m w) as [[a|e] w1]; [by apply Hk|by eapply contact_const].
Qed.

(** The claim of [http_request] and the end of its transaction. *)
Lemma claim_then_send device r service path w1 : w_tx w1 = None →
  contact (λ T, finally (try_ begin_tx 503 "storage_unavailable" (λ _,
      c ← finally (http_claim device service (rMethod (dr_request r)) path (RawQuery (rURL (dr_request r)))) rollback;
      match c with
      | inl reply => mret reply
      | inr (svc, p, target) => http_send device (dr_request r) (dr_body r) svc p target T
      end)) (λ w, (release device w).2) w1)
    (λ device' svc p target w', device' = device ∧ w_tx w' = None ∧ (w_clock w1 <= w_clock w')%Z ∧
       http_claimed (w_db w1) device service (rMethod (dr_request r)) path (RawQuery (rURL (dr_request r)))
         (w_clock w1) (w_clock w') svc p target (w_db w')) r.
Proof.
  intros Htx.
  assert (at_world w1 (w_db w1) None w1) as Hw1 by by apply at_start.
  unfold finally at 1, try_ at 1, mbind at 1, M_bind at 1, attempt.
  pose proof (wp_begin w1 (w_db w1) (λ r w2, (∃ e, r = Err e) ∨ r = Ok tt ∧ at_world w1 (w_db w1) (Some (w_db w1)) w2 ∧ w_clock w2 = w_clock w1) w1 Hw1) as Hb.
  unfold wp in Hb. destruct (begin_tx w1) as [[[]|e] w2]; simpl in Hb |- *; [|by eapply contact_const].
  destruct Hb as [[e ?]|(_ & Hw2 & Hc2)]; [by auto|by eauto|done|].
  unfold mbind at 1, M_bind at 1, finally at 1.
  set (m := http_claim _ _ _ _ _).
  assert (wp m (λ x w3, ∀ svc p target, x = Ok (inr (svc, p, target)) →
    w_tx w3 = None ∧ (w_clock w1 <= w_clock w3)%Z ∧ http_claimed (w_db w1) device service (rMethod (dr_request r)) path (RawQuery (rURL (dr_request r)))
      (w_clock w1) (w_clock w3) svc p target (w_db w3)) w2) as Hcl.
  { eapply wp_http_claim; [done| |by intros].
    intros svc p target d' w3 Hc Hw3 svc' p' target' [= <- <- <-]. rewrite <-Hc2.
    destruct Hw3 as [-> ? ? ? ? ?]. split; [done|]. split; [by rewrite Hc2|done]. }
  unfold wp in Hcl. destruct (m w2) as [[[reply|[[svc p] target]]|e] w3]; simpl in Hcl |- *;
    [by eapply contact_const| |by eapply contact_const].
  right. exists device, svc, p, target, (rollback w3). split; [|done].
  destruct (Hcl _ _ _ eq_refl) as (? & ? & ?). by split_and!.
Qed.

Lemma http_request_contact device r service path w : w_tx w = None →
  contact (λ T, http_request device (dr_request r) (dr_body r) service path T w)
    (λ device' svc p target w', device' = device ∧ w_tx w' = None ∧ (w_clock w <= w_clock w')%Z ∧
       (len (dr_body r) <= body_max)%N ∧ http_claimed (w_db w) device service (rMethod (dr_request r)) path (RawQuery (rURL (dr_request r)))
         (w_clock w) (w_clock w') svc p target (w_db w')) r.
Proof.
  intros Htx. apply contact_bind. intros b w1 Hb.
  destruct (acquire_db device w) as (b' & w1' & Ha & Hd & Ht & Hc). rewrite Hb in Ha. injection Ha as <- <-.
  destruct b; simpl; [|by eapply contact_const].
  destruct (body_max <? len (dr_body r))%N eqn:Hlen; [by eapply contact_const|]. apply N.ltb_ge in Hlen.
  rewrite <-Hd, <-Hc. destruct (claim_then_send device r service path w1) as [?|(dv & svc & p & t & w' & (? & ? & ? & ?) & ?)];
    [congruence|by left|right]. exists dv, svc, p, t, w'. by split_and!.
Qed.

(** C7: An ordinary request reaches the transport only as follows, and otherwise the
    handler's answer and effects do not depend on what the transport would do: the
    client presented a certificate, valid at the time, of a device that is not
    revoked; the request routes to a service and path; its body is within eight
    mebibytes; the device has a standing permission in force for the method and
    path; the target is the service's base with that path and query; and before
    anything is sent, an audit record of the claim is committed and the transaction
    closed. *)
Theorem DeviceHandler_contact r waits w (Htx : w_tx w = None) :
  contact (λ T, DeviceHandler r waits T w) (λ device svc p target w',
    authenticated (dr_tls r) (w_db w) (w_clock w) (w_clock w') device ∧
    (∃ service path, Route (dr_request r) = Some (service, path) ∧
       http_claimed (w_db w) device service (rMethod (dr_request r)) path (RawQuery (rURL (dr_request r)))
         (w_clock w) (w_clock w') svc p target (w_db w')) ∧
    (len (dr_body r) <= body_max)%N ∧ w_tx w' = None) r.
Proof.
  unfold DeviceHandler. cbv zeta. destruct (_ && _); [by eapply contact_const|].
  apply contact_bind. intros x w1 Hx.
  assert (at_world w (w_db w) None w1 ∧ (w_clock w <= w_clock w1)%Z ∧ ∀ dv, x = Ok dv →
    authenticated (dr_tls r) (w_db w) (w_clock w) (w_clock w1) dv) as (Hw1 & Hc1 & Hd).
  { apply (wp_unfold (attempt (device (dr_tls r))) (λ y w1, ∀ x, y = Ok x → at_world w (w_db w) None w1 ∧
      (w_clock w <= w_clock w1)%Z ∧ ∀ dv, x = Ok dv → authenticated (dr_tls r) (w_db w) (w_clock w) (w_clock w1) dv) w _ _ Hx);
      [|done].
    wp_rule. eapply wp_device; [by apply at_start| |].
    - intros dv w2 Ha Hw2 x' [= <-]. split_and!; [done|apply Hw2|]. by intros dv' [= <-].
    - intros e w2 Hw2 x' [= <-]. split_and!; [done|apply Hw2|done]. }
  destruct x as [dv|e]; [|by eapply contact_const]. specialize (Hd _ eq_refl).
  destruct (dr_tls r) as [cert|] eqn:Htls; [|by eapply contact_const].
  repeat (match goal with |- contact (λ T, (if ?b then _ else _) _) _ _ => destruct b end; [by eapply contact_const|]).
  destruct (Route (dr_request r)) as [[service path]|] eqn:Hroute; [|by eapply contact_const].
  destruct (http_request_contact dv r service path w1) as [?|(dv' & svc & p & t & w' & (-> & ? & Hc2 & ? & Hc) & ?)];
    [apply Hw1|by left|right].
  exists dv, svc, p, t, w'. split; [|done].
  split_and!; [| |done|done].
  - destruct Hd as (c & now & ? & ? & ? & ? & ?). exists c, now. split_and!; try done; lia.
  - exists service, path. split; [done|]. destruct Hw1 as [<- _ _ _ _ _].
    destruct Hc as [(now & ? & ?) ? ? ?]. split; try done. exists now. split; [done|].
    pose proof (Unix_mono _ _ Hc1). lia.
Qed.

End guarding.

(** * Witnesses *)

#[local] Existing Instances plain_crypto plain_json.

(** A session of the owner, and a request that revokes a device with it. *)
Definition session_world : world :=
  set_w_db (set_db_sessions {[ Hash "cookie" := mkSession "owner_1" "token" 5000 ]} sample_db) sample_world.

Definition path_url (path : string) : URL := mkURL "" "" None "" path "" false "" "".

Definition revoke_request : owner_request :=
  mkOwnerRequest (mkRequest "POST" (path_url "/revoke-device") "localhost:8790" {[ "Origin" := ["http://localhost:8790"] ]})
    false (Some "cookie") None "" (Some {[ "csrf" := ["token"]; "id" := ["dev_1"] ]}).

Lemma OwnerHandler_guarded_witness :
  w_tx session_world = None ∧
  (∃ w', OwnerHandler "localhost:8790" revoke_request session_world = (Ok (SeeOther None), w')
     ∧ device_active (w_db session_world) "dev_1" = true ∧ device_active (w_db w') "dev_1" = false) ∧
  wp (OwnerHandler "localhost:8790" revoke_request) (λ _ w',
    (w_db w' = w_db session_world ∨
     ∃ f, owner_permit "localhost:8790" revoke_request (w_db session_world) (w_clock session_world) (w_clock w') f) ∧
    changes (w_db session_world) (w_db w')) session_world.
Proof.
  split; [reflexivity|]. split; [eexists; split_and!; vm_compute; reflexivity|].
  apply (OwnerHandler_guarded "localhost:8790" revoke_request session_world). reflexivity.
Defined.

(** A device that reads its jobs. *)
Definition jobs_request : device_request :=
  mkDeviceRequest (mkRequest "GET" (path_url "/s/api/v1/jobs/7") "gateway" ∅) (Some (mkCertificate "dev_1" 0 (2000 * second)))
    "" None None.

Definition answering (status : Z) (o : outgoing) : transport_result http_response := TResponse (mkHttpResponse status ∅ []).

Lemma DeviceHandler_contact_witness :
  w_tx sample_world = None ∧
  (DeviceHandler jobs_request [] (answering 200) sample_world ≠ DeviceHandler jobs_request [] (answering 404) sample_world) ∧
  contact (λ T, DeviceHandler jobs_request [] T sample_world) (λ device svc p target w',
    authenticated (dr_tls jobs_request) (w_db sample_world) (w_clock sample_world) (w_clock w') device ∧
    (∃ service path, Route (dr_request jobs_request) = Some (service, path) ∧
       http_claimed (w_db sample_world) device service (rMethod (dr_request jobs_request)) path
         (RawQuery (rURL (dr_request jobs_request))) (w_clock sample_world) (w_clock w') svc p target (w_db w')) ∧
    (len (dr_body jobs_request) <= body_max)%N ∧ w_tx w' = None) jobs_request.
Proof.
  split; [reflexivity|]. split.
  - intros E. apply (f_equal fst) in E. vm_compute in E. discriminate E.
  - apply (DeviceHandler_contact jobs_request [] sample_world). reflexivity.
Defined.
