(* ===== verification/Enrolling.v ===== *)
(** Certificates and scopes: an invitation gives one certificate, a certificate is
    renewed for the device it authenticates, and the list of scopes is what
    [Authorize] grants. *)
From S2P Require Import Prelude GoStrings NetUrl Http GoTime Access Upstream Crypto Types Db Rules Samples.
From S2P Require Import Authorize Lifecycle Life Closing Submitting Limits Owner Device Stable Handlers.
From S2P Require Import Guarding.

Section enrolling.
Context `{GoCrypto} `{GoJSON}.

(** * Rules for the handlers *)

Lemma wp_try {A} (m : M world A) status code k (Q : result device_reply → world → Prop) w :
  wp m (λ r w', match r with Ok a => wp (k a) Q w' | Err _ => Q (Ok (DRefuse status code)) w' end) w →
  wp (try_ m status code k) Q w.
Proof. intros Hm. apply wp_bind, wp_attempt. eapply wp_mono; [exact Hm|]. by intros [a|e] w'. Qed.

Lemma wp_in_tx w0 d k (Q : result device_reply → world → Prop) w :
  at_world w0 d None w →
  (∀ w', at_world w0 d (Some d) w' → w_clock w' = w_clock w → wp k (λ r w'', Q r (rollback w'')) w') →
  (∀ w', at_world w0 d None w' → Q (Ok (DRefuse 503 "storage_unavailable")) w') →
  wp (in_tx k) Q w.
Proof.
  intros Hw HQ HE. apply wp_try. eapply wp_begin; [done|..].
  - intros w' Hw' Hc. by apply wp_finally, HQ.
  - intros e w' _ Hw'. by apply HE.
Qed.

Lemma throttle_run key limit w : w_tx w = None →
  ∃ b w', throttle key limit w = (Ok b, w') ∧ at_world w' (w_db w) None w' ∧ w_key w' = w_key w
    ∧ (w_clock w <= w_clock w')%Z.
Proof.
  intros Ht. unfold throttle, mbind, M_bind, time_Now, gets, modify.
  destruct (w_ticks w); simpl; destruct (throttle_step _ _ _ _) as [b m]; simpl;
    do 2 eexists; (split; [done|]); (split; [by split|]); simpl; split; done || lia.
Qed.

(** * Certificates *)

(** A signing request that is accepted. *)
Definition good_csr (request : option csr) : Prop :=
  ∃ q, request = Some q ∧ csr_signature q = true ∧ csr_p256 q = true.

Lemma wp_issue w0 dev request d t (Q : result issued → world → Prop) w :
  at_world w0 d t w →
  (∀ c w', good_csr request → i_name c = dev → (Unix (w_clock w + 30 * 24 * hour) <= i_expires c)%Z →
     at_world w0 d t w' → (w_clock w <= w_clock w')%Z → Q (Ok c) w') →
  (∀ e w', at_world w0 d t w' → Q (Err e) w') →
  wp (issue dev request) Q w.
Proof.
  intros Hw HQ HE. unfold issue, serial. destruct request as [q|]; [|wp_rule; by apply HE].
  destruct (csr_signature q) eqn:E1; cbn [negb]; [|wp_rule; by apply HE].
  destruct (csr_p256 q) eqn:E2; cbn [negb]; [|wp_rule; by apply HE].
  do 8 wp_rule; [|by apply HE]. wp_rule. apply HQ; [by exists q|done| |done|lia]. simpl. apply Unix_mono. lia.
Qed.

(** The certificate stored with its device. *)
Definition certified (id : string) (c : issued) (d : database) : Prop :=
  ∃ r, db_devices d !! id = Some r ∧ dev_revoked r = false ∧ dev_serial r = i_serial c ∧ dev_cert_expires r = i_expires c.

Lemma set_certificate_certified id c d d' n :
  set_certificate id c d = Ok (d', n) → device_active d id = true → certified id c d'.
Proof.
  unfold set_certificate, device_active, certified.
  destruct (db_devices d !! id) as [r|]; [|done]. intros [= <- _] Ha%negb_true_iff. simpl.
  rewrite lookup_insert_eq. eexists. by split_and!.
Qed.

Lemma open_invitation_Ok hash now d id : open_invitation hash now d = Ok id →
  ∃ i, db_invitations d !! hash = Some i ∧ inv_used i = false ∧ (now < inv_expires i)%Z ∧ inv_device i = id
    ∧ device_active d id = true.
Proof.
  unfold open_invitation. destruct (db_invitations d !! hash) as [i|]; [|done].
  destruct (_ && _) eqn:E; [|done]. intros [= <-].
  apply andb_true_iff in E as [[E1%negb_true_iff E2%Z.ltb_lt]%andb_true_iff E3]. eauto 10.
Qed.

(** An invitation that is used opens nothing any more. *)
Lemma used_for_ever hash i d d' now : grows d d' → db_invitations d !! hash = Some i → inv_used i = true →
  open_invitation hash now d' = Err ErrNoRows.
Proof.
  intros Hg Hi Hu. destruct (g_invitations _ _ Hg _ _ Hi) as (i' & Hi' & _ & _ & Hs).
  unfold open_invitation. by rewrite Hi', (Hs Hu).
Qed.

(** What an enrolment commits. *)
Record enrolled (d : database) (t0 t1 : Z) (secret : string) (request : option csr) (c : issued) (d' : database) : Prop := {
  en_open : ∃ now, open_invitation (Hash secret) now d = Ok (i_name c) ∧ (Unix t0 <= now <= Unix t1)%Z;
  en_csr : good_csr request;
  en_device : certified (i_name c) c d';
  en_used : ∃ i, db_invitations d' !! Hash secret = Some i ∧ inv_used i = true;
  en_changes : changes d d';
}.

Lemma wp_enroll w0 secret request d (Q : result device_reply → world → Prop) w :
  at_world w0 d None w →
  (∀ c d' w', enrolled d (w_clock w0) (w_clock w') secret request c d' → at_world w0 d' None w' → Q (Ok (Certificate c)) w') →
  (∀ status code w', at_world w0 d None w' → Q (Ok (DRefuse status code)) w') →
  wp (in_tx (enroll_tx secret request)) Q w.
Proof.
  intros Hw HQ HE. eapply wp_in_tx; [done| |intros; by eapply HE].
  assert (∀ status code t w', at_world w0 d t w' → Q (Ok (DRefuse status code)) (rollback w')) as HEr
    by (intros; eapply HE, at_rollback; done).
  intros w1 Hw1 _. unfold enroll_tx. wp_rule. eapply wp_now_Unix; [done|]. intros w2 Hw2 _. cbv beta iota.
  apply wp_try. wp_rule; [|by eapply HEr]. destruct (open_invitation_Ok _ _ _ _ H1) as (i & Hi & Hu & He & Hid & Hact).
  apply wp_try. eapply wp_issue; [done| |intros; by eapply HEr]. intros c w3 Hcsr Hname _ Hw3 Hc3. cbv beta iota.
  apply wp_try. wp_rule; [|by eapply HEr]. pose proof (changing _ _ _ H4) as Hch1.
  unfold use_invitation in H4. rewrite Hi in H4. injection H4 as <- _.
  apply wp_try. eapply wp_fault; [eassumption|intros w4 Hw4 Hc4|intros e w4 _ Hw4 _; by eapply HEr]. cbv beta iota.
  apply wp_try. wp_rule; [|by eapply HEr].
  pose proof (changing _ _ _ H4) as Hch2. pose proof (set_certificate_certified _ _ _ _ _ H4 Hact) as Hcert.
  assert (db_invitations t' !! Hash secret = Some (set_inv_used true i)) as Hused.
  { unfold set_certificate in H4. simpl in H4. destruct (db_devices d !! a); injection H4 as <- _; simpl; by rewrite lookup_insert_eq. }
  apply wp_try. wp_rule; [|by eapply HEr]. apply wp_try. wp_rule; [|by eapply HEr].
  wp_rule. eapply HQ; [|by eapply at_rollback]. simpl. split.
  - exists (Unix (w_clock w2)). rewrite Hname. split; [done|].
    pose proof (at_clock _ _ _ _ Hw2). split; apply Unix_mono; [done|lia].
  - done.
  - by rewrite Hname.
  - by exists (set_inv_used true i).
  - etransitivity; [exact Hch1|]. etransitivity; [exact Hch2|]. apply changes_other; [apply evolves_audit|done].
Qed.

(** C28: Enrolment is single use: a certificate is issued only for a secret whose
    invitation is stored, unused, not expired and of a device that is not revoked,
    and for a signing request with a valid signature and a P-256 key; it is issued
    for that device, recorded with it in the same transaction in which the
    invitation is marked used, and from then on, in every later state of the
    database, the secret opens nothing.  Any other answer leaves the database
    unchanged. *)
Theorem enroll_single_use secret request w (Htx : w_tx w = None) :
  wp (enroll (Some (secret, request))) (λ x w', w_tx w' = None ∧ match x with
    | Ok (Certificate c) =>
      (∃ now, open_invitation (Hash secret) now (w_db w) = Ok (i_name c) ∧ (Unix (w_clock w) <= now <= Unix (w_clock w'))%Z)
      ∧ good_csr request ∧ certified (i_name c) c (w_db w') ∧ changes (w_db w) (w_db w')
      ∧ ∀ d now, grows (w_db w') d → open_invitation (Hash secret) now d = Err ErrNoRows
    | Ok (DRefuse _ _) => w_db w' = w_db w
    | _ => False
    end) w.
Proof.
  unfold enroll. apply wp_bind. destruct (throttle_run "enroll" 20 w Htx) as (b & w1 & Hb & Hw1 & _ & Hc1).
  unfold wp at 1. rewrite Hb. simpl. destruct b; cbn [negb]; [|wp_rule; split; apply Hw1].
  eapply (wp_enroll w1); [done|..].
  - intros c d' w' [(now & Ho & Hn) Hcsr Hcert (i & Hi & Hu) Hch] [-> -> _ _ _ _].
    split; [done|]. split_and!; try done.
    + exists now. split; [done|]. split; [|apply Hn]. etransitivity; [|apply Hn]. by apply Unix_mono.
    + intros d now' Hg. by eapply used_for_ever.
  - intros status code w' [-> -> _ _ _ _]. done.
Qed.

(** * Renewal *)

Lemma wp_renew w0 dev request d (Q : result device_reply → world → Prop) w :
  at_world w0 d None w →
  (∀ c d' w', good_csr request → i_name c = dev → device_active d dev = true → certified dev c d' → changes d d' →
     at_world w0 d' None w' → Q (Ok (Certificate c)) w') →
  (∀ status code w', at_world w0 d None w' → Q (Ok (DRefuse status code)) w') →
  wp (in_tx (renew_tx dev request)) Q w.
Proof.
  intros Hw HQ HE. eapply wp_in_tx; [done| |intros; by eapply HE].
  assert (∀ status code t w', at_world w0 d t w' → Q (Ok (DRefuse status code)) (rollback w')) as HEr
    by (intros; eapply HE, at_rollback; done).
  intros w1 Hw1 _. unfold renew_tx. wp_rule. eapply wp_ActiveDevice; [done|]. intros b w2 Hb _ Hw2 _.
  destruct b; cbn [negb]; cbv iota; [|wp_rule; by eapply HEr].
  apply wp_try. eapply wp_issue; [done| |intros; by eapply HEr]. intros c w3 Hcsr Hname _ Hw3 _. cbv beta iota.
  apply wp_try. eapply wp_fault; [eassumption|intros w4 Hw4 Hc4|intros e w4 _ Hw4 _; by eapply HEr]. cbv beta iota.
  apply wp_try. wp_rule; [|by eapply HEr].
  pose proof (changing _ _ _ H1) as Hch. pose proof (set_certificate_certified _ _ _ _ _ H1 (Hb eq_refl)) as Hcert.
  apply wp_try. wp_rule; [|by eapply HEr]. apply wp_try. wp_rule; [|by eapply HEr].
  wp_rule. eapply HQ; [done|done|by apply Hb| | |by eapply at_rollback]; [exact Hcert|].
  etransitivity; [exact Hch|]. apply changes_other; [apply evolves_audit|done].
Qed.

(** A renewal gives a certificate only to a device that is still active, for a
    good signing request, in the last seven days of the certificate presented, and
    for the same device; anything else leaves the database unchanged. *)
Theorem renew_correct dev cert request w (Htx : w_tx w = None) :
  wp (renew dev cert (Some request)) (λ x w', w_tx w' = None ∧ match x with
    | Ok (Certificate c) => i_name c = dev ∧ device_active (w_db w) dev = true ∧ good_csr request
        ∧ certified dev c (w_db w') ∧ changes (w_db w) (w_db w')
        ∧ ∃ now, (w_clock w <= now <= w_clock w')%Z ∧ (c_not_after cert - now <= 7 * 24 * hour)%Z
    | Ok (DRefuse _ _) => w_db w' = w_db w
    | _ => False
    end) w.
Proof.
  unfold renew. apply wp_bind. destruct (throttle_run ("renew:" +:+ dev) 5 w Htx) as (b & w1 & Hb & Hw1 & _ & Hc1).
  unfold wp at 1. rewrite Hb. simpl. destruct b; cbn [negb]; [|wp_rule; split; apply Hw1].
  wp_rule. wp_rule. wp_case; [wp_rule; split; apply H1|]. apply Z.ltb_ge in Eb.
  eapply (wp_renew w'); [by eapply at_here|..].
  - intros c d' w2 Hcsr Hname Hact Hcert Hch [-> -> _ _ Hc2 _]. split; [done|]. split_and!; try done.
    exists (w_clock w'). split; [lia|done].
  - intros status code w2 [-> -> _ _ _ _]. done.
Qed.

(** * Scopes *)

(** What a scope tells its reader it may send. *)
Definition scope_match (s : scope_entry) (method path : string) : bool :=
  Match (mkPermission EmptyString EmptyString EmptyString (Join "," (sc_methods s)) (sc_path s) (sc_kind s)
    EmptyString EmptyString 0 None) method path.

Lemma elem_of_scope_rows dev now d s :
  s ∈ scope_rows dev now d ↔ ∃ id p, db_permissions d !! id = Some p ∧ scope_of d dev now (id, p) = Some s.
Proof.
  unfold scope_rows. rewrite merge_sort_Permutation, list_elem_of_omap. split.
  - intros ([id p] & Hin & Hs). apply elem_of_map_to_list in Hin. eauto.
  - intros (id & p & Hp & Hs). exists (id, p). by rewrite elem_of_map_to_list.
Qed.

Lemma scope_of_Some d dev now id p s :
  scope_of d dev now (id, p) = Some s ↔
  ∃ r, enabled_service d (pm_service p) = Some r ∧ permission_active dev (pm_service p) (srv_revision r) now p = true
    ∧ s = mkScope (pm_service p) (srv_label r) id (Split "," (pm_method p)) (pm_path p) (pm_kind p) (pm_mode p) (pm_expires p).
Proof.
  unfold scope_of, enabled_service, permission_active, mbind, option_bind. cbn [fst snd].
  destruct (db_services d !! pm_service p) as [r|]; [|split; [done|by intros (? & ? & _)]].
  destruct (srv_enabled r); rewrite ?andb_false_r, ?andb_true_r; cbn [andb].
  2: { split; [done|by intros (? & ? & _)]. }
  rewrite (bool_decide_eq_true_2 (pm_service p = pm_service p)), andb_true_r by done.
  destruct (_ && _) eqn:E.
  - split; [intros [= <-]; eauto|]. by intros (? & [= ->] & _ & ->).
  - split; [done|]. intros (? & [= ->] & Ha & _). congruence.
Qed.

Lemma scope_match_spec id p d dev now s method path :
  scope_of d dev now (id, p) = Some s → scope_match s method path = Match (to_permission id p) method path.
Proof.
  intros (r & _ & _ & ->)%scope_of_Some. unfold scope_match. simpl. rewrite Join_Split. done.
Qed.

(** The scopes a device is told agree with what it is granted: every entry, at
    the time the list was made, authorises each method and path that it covers,
    under the permission it names, as long as the device is active and the service's
    header lists decode; and when no statement fails, every authorisation of the
    device at that time is covered by an entry of the list.  Listing changes
    nothing. *)
Theorem services_correct dev w (Htx : w_tx w = None) :
  wp (services dev) (λ x w', w_db w' = w_db w ∧ w_tx w' = None ∧ ∀ l, x = Ok (Scopes l) →
    ∃ now, (Unix (w_clock w) <= now <= Unix (w_clock w'))%Z ∧
      (∀ s method path, s ∈ l → scope_match s method path = true → device_active (w_db w) dev = true →
         ∀ r svc, db_services (w_db w) !! sc_service s = Some r → service_of (sc_service s) r = Ok svc →
         ∃ p, perm_ID p = sc_permission s ∧ perm_Mode p = sc_mode s ∧
           authorized (w_db w) dev (sc_service s) method path now svc p) ∧
      (w_faults w = [] → ∀ service method path svc p, authorized (w_db w) dev service method path now svc p →
         ∃ s, s ∈ l ∧ sc_service s = service ∧ sc_permission s = perm_ID p ∧ scope_match s method path = true)) w.
Proof.
  unfold services. wp_rule. eapply wp_now_Unix; [by apply at_start|]. intros w1 Hw1 Hc1. cbv beta iota.
  apply wp_try. eapply wp_query_rows_db; [done| |by intros e w2 _ [-> -> _ _ _ _]].
  intros l b w2 Hp Hq Hw2 Hc2. wp_rule. destruct Hw2 as [-> -> _ _ _ _]. split; [done|]. split; [done|].
  intros l' [= <-]. exists (Unix (w_clock w1)). split; [split; apply Unix_mono; lia|]. split.
  - intros s method path Hs Hm Hact r svc Hr Hsvc.
    apply (prefix_elem _ _ _ Hp), elem_of_scope_rows in Hs as (id & p & Hpm & Hs).
    rewrite (scope_match_spec _ _ _ _ _ _ _ _ Hs) in Hm.
    apply scope_of_Some in Hs as (r' & Hr' & Ha & ->). simpl in *.
    exists (to_permission id p). split_and!; [done|done|].
    assert (r' = r) as -> by (unfold enabled_service in Hr'; rewrite Hr in Hr'; by destruct (srv_enabled r); simplify_eq).
    destruct (service_of_ID _ _ _ Hsvc) as (_ & Hrev & _).
    split; [done|eauto| |done]. exists p. split_and!; [done|by rewrite Hrev|done].
  - intros Hf service method path svc p [Hact (r & Hr & Hs) (q & Hqp & Ha & Ep) Hm].
    rewrite (Hq Hf). destruct (service_of_ID _ _ _ Hs) as (_ & Hrev & _).
    assert (pm_service q = service) as Hsv.
    { unfold permission_active in Ha. rewrite !andb_true_iff, !bool_decide_eq_true in Ha. tauto. }
    eexists. assert (scope_of (w_db w) dev (Unix (w_clock w1)) (perm_ID p, q) = Some (mkScope (pm_service q) (srv_label r) (perm_ID p) (Split "," (pm_method q))
      (pm_path q) (pm_kind q) (pm_mode q) (pm_expires q))) as Hsc.
    { apply scope_of_Some. exists r. rewrite Hsv. split_and!; [done|by rewrite <-Hrev|done]. }
    split_and!; [apply elem_of_scope_rows; eauto|done|done|].
    rewrite (scope_match_spec _ _ _ _ _ _ _ _ Hsc). by rewrite <-Ep.
Qed.

End enrolling.

(** * Witnesses *)

#[local] Existing Instances plain_crypto plain_json.

(** An open invitation of the first device. *)
Definition invited_world : world :=
  set_w_db (set_db_invitations {[ Hash "secret" := mkInvitation "dev_1" 1300 false ]} sample_db) sample_world.

Definition sample_csr : option csr := Some (mkCsr true true).

Lemma enroll_single_use_witness :
  w_tx invited_world = None ∧
  (∃ c w', enroll (Some ("secret", sample_csr)) invited_world = (Ok (Certificate c), w')) ∧
  wp (enroll (Some ("secret", sample_csr))) (λ x w', w_tx w' = None ∧ match x with
    | Ok (Certificate c) =>
      (∃ now, open_invitation (Hash "secret") now (w_db invited_world) = Ok (i_name c)
         ∧ (Unix (w_clock invited_world) <= now <= Unix (w_clock w'))%Z)
      ∧ good_csr sample_csr ∧ certified (i_name c) c (w_db w') ∧ changes (w_db invited_world) (w_db w')
      ∧ ∀ d now, grows (w_db w') d → open_invitation (Hash "secret") now d = Err ErrNoRows
    | Ok (DRefuse _ _) => w_db w' = w_db invited_world
    | _ => False
    end) invited_world.
Proof.
  split; [reflexivity|]. split; [do 2 eexists; vm_compute; reflexivity|].
  apply (enroll_single_use "secret" sample_csr invited_world). reflexivity.
Defined.

Lemma renew_correct_witness :
  w_tx sample_world = None ∧
  (∃ c w', renew "dev_1" (mkCertificate "dev_1" 0 (2000 * second)) (Some sample_csr) sample_world = (Ok (Certificate c), w')) ∧
  wp (renew "dev_1" (mkCertificate "dev_1" 0 (2000 * second)) (Some sample_csr)) (λ x w', w_tx w' = None ∧ match x with
    | Ok (Certificate c) => i_name c = "dev_1" ∧ device_active (w_db sample_world) "dev_1" = true ∧ good_csr sample_csr
        ∧ certified "dev_1" c (w_db w') ∧ changes (w_db sample_world) (w_db w')
        ∧ ∃ now, (w_clock sample_world <= now <= w_clock w')%Z
            ∧ (c_not_after (mkCertificate "dev_1" 0 (2000 * second)) - now <= 7 * 24 * hour)%Z
    | Ok (DRefuse _ _) => w_db w' = w_db sample_world
    | _ => False
    end) sample_world.
Proof.
  split; [reflexivity|]. split; [do 2 eexists; vm_compute; reflexivity|].
  apply (renew_correct "dev_1" (mkCertificate "dev_1" 0 (2000 * second)) sample_csr sample_world). reflexivity.
Defined.

Lemma services_correct_witness :
  w_tx sample_world = None ∧ (∃ s1 s2 w', services "dev_1" sample_world = (Ok (Scopes [s1; s2]), w')) ∧
  wp (services "dev_1") (λ x w', w_db w' = w_db sample_world ∧ w_tx w' = None ∧ ∀ l, x = Ok (Scopes l) →
    ∃ now, (Unix (w_clock sample_world) <= now <= Unix (w_clock w'))%Z ∧
      (∀ s method path, s ∈ l → scope_match s method path = true → device_active (w_db sample_world) "dev_1" = true →
         ∀ r svc, db_services (w_db sample_world) !! sc_service s = Some r → service_of (sc_service s) r = Ok svc →
         ∃ p, perm_ID p = sc_permission s ∧ perm_Mode p = sc_mode s ∧
           authorized (w_db sample_world) "dev_1" (sc_service s) method path now svc p) ∧
      (w_faults sample_world = [] → ∀ service method path svc p,
         authorized (w_db sample_world) "dev_1" service method path now svc p →
         ∃ s, s ∈ l ∧ sc_service s = service ∧ sc_permission s = perm_ID p ∧ scope_match s method path = true)) sample_world.
Proof.
  split; [reflexivity|]. split; [do 3 eexists; vm_compute; reflexivity|].
  apply (services_correct "dev_1" sample_world). reflexivity.
Defined.
