(* ===== verification/Joining.v ===== *)
(** The owner's invitation and the device that accepts it: the text the owner
    copies is one the client acts on, and the secret in it opens an enrolment for
    the new device. *)
From S2P Require Import Prelude GoStrings Coding NetUrl Http GoTime Access Upstream Crypto Types Db Rules Samples.
From S2P Require Import Authorize Lifecycle Life Closing Submitting Limits Owner Device Services Stable Handlers.
From S2P Require Import Guarding Enrolling Authority Certifying Files Identity Keeping.

Section joining.
Context `{GoCrypto} `{GoJSON} `{GoX509} `{ClientX509} `{ClientJSONLaws}.

(** The page after [/invite] shows the invitation of the authority's address and
    root with the secret, in URL-safe base64. *)
Definition invitation_text (a : authority) (secret : string) : string :=
  RawURLEncoding (marshal_invitation (mkInvite (a_URL a) (a_Root a) secret)).

(** * The text *)

Lemma RawURL_tokens s : all_bytes is_token (RawURLEncoding s) = true.
Proof. by apply b64_raw_bytes. Qed.

Lemma RawURL_text s : RawURLDecode (TrimSpace (RawURLEncoding s)) = Some s.
Proof.
  unfold RawURLDecode. rewrite TrimSpace_graph by by apply b64_raw_bytes.
  rewrite strip_newlines_id by by apply b64_raw_bytes. by apply b64_roundtrip.
Qed.

(** An address that the server starts with is one that a client enrols at. *)
Lemma server_client_origin raw : server_origin raw ≠ None → client_origin raw ≠ None.
Proof.
  unfold server_origin, client_origin. destruct (Parse raw) as [u|]; [|done].
  destruct (_ || _) eqn:E; [done|]. intros _.
  apply orb_false_iff in E as [[[[[Es Eh]%orb_false_iff Eu]%orb_false_iff Ep]%orb_false_iff Eq]%orb_false_iff Ef].
  assert (bool_decide (Host u = EmptyString) = false) as Hh.
  { apply bool_decide_eq_false_2. intros Hn. apply bool_decide_eq_false in Eh. apply Eh. unfold Hostname. by rewrite Hn. }
  by rewrite Es, Hh, Ep, Eu, Eq, Ef.
Qed.

Lemma text_usable a secret :
  server_origin (a_URL a) ≠ None → ValidString (a_URL a) = true → ValidString secret = true → AppendCerts (a_Root a) = true →
  usable (invitation_text a secret) (mkInvite (a_URL a) (a_Root a) secret).
Proof.
  intros Ho Hu Hs Hr. split_and!; [|by apply server_client_origin|done].
  unfold invitation_text. rewrite RawURL_text. by apply invitation_roundtrip.
Qed.

(** * The secret *)

(** What the owner's step commits: a new device, and an invitation for it that is
    open for five minutes. *)
Record invited (d : database) (t : Z) (label secret id : string) (d' : database) : Prop := {
  iv_secret : ValidString secret = true;
  iv_new : db_devices d !! id = None;
  iv_device : db_devices d' !! id = Some (mkDevice label false EmptyString 0);
  iv_open : ∃ e, db_invitations d' !! Hash secret = Some (mkInvitation id e false) ∧ (Unix t + 300 <= e)%Z;
}.

Lemma Unix_five t now : (t <= now)%Z → (Unix t + 300 <= Unix (now + 5 * minute))%Z.
Proof.
  intros Ht. transitivity (Unix (t + 5 * minute)); [|apply Unix_mono; lia].
  unfold Unix. replace (t + 5 * minute)%Z with (t + 300 * second)%Z by (unfold minute; lia).
  rewrite Z.div_add by done. lia.
Qed.

Lemma invited_inserted d t label id secret e d1 d2 n1 n2 l :
  insert_device id label d = Ok (d1, n1) → insert_invitation (Hash secret) id e d1 = Ok (d2, n2) →
  ValidString secret = true → (Unix t + 300 <= e)%Z → invited d t label secret id (set_db_audit l d2).
Proof.
  unfold insert_device, insert_invitation. destruct (db_devices d !! id) eqn:Ed; [done|]. intros [= <- _].
  destruct (_ || _) eqn:Eh; [done|]. intros [= <- _] Hs He. split; [done|done| |].
  - simpl. by rewrite lookup_insert_eq.
  - exists e. simpl. by rewrite lookup_insert_eq.
Qed.

Lemma wp_Invitation owner label w : w_tx w = None →
  wp (Invitation owner label) (λ r w', ∀ secret, r = Ok secret →
    ∃ id, invited (w_db w) (w_clock w) label secret id (w_db w')) w.
Proof.
  intros Htx. pose proof (at_start w Htx) as Hw. unfold Invitation.
  wp_rule. eapply wp_new_ID; [exact Hw|]. intros r w1 _ Hw1 Hc1. cbv beta iota.
  wp_rule. eapply wp_new_ID; [exact Hw1|]. intros r' w2 _ Hw2 Hc2. cbv beta iota. eapply wp_with_tx; [eassumption| |done].
  intros w3 Hw3 Hc3. wp_rule. eapply wp_exec; [exact Hw3| |done]. intros d1 n1 w4 Hd1 Hw4 Hc4. cbv beta iota.
  wp_rule. eapply wp_time_Now; [exact Hw4|]. intros w5 Hw5 Hc5. cbv beta iota.
  wp_rule. eapply wp_exec; [exact Hw5| |done]. intros d2 n2 w6 Hd2 Hw6 _. cbv beta iota.
  wp_rule. wp_rule; [|done]. wp_rule. wp_rule; [|done]. wp_rule. intros secret [= <-].
  exists (ID "dev_" r). match goal with Hx : at_world w _ None ?v |- context [rollback ?v] => destruct Hx as [Hd _ _ _ _ _] end.
  cbn [rollback set_w_tx w_db]. rewrite Hd. eapply invited_inserted; [done|done| |apply Unix_five; lia].
  apply token_ValidString, RawURL_tokens.
Qed.

(** * Enrolling with it *)

(** The state of a server that nothing stops from enrolling: no transaction, no
    failure to come, and not throttled. *)
Record ready (w : world) : Prop := {
  rd_tx : w_tx w = None;
  rd_quiet : w_faults w = [];
  rd_admits : (throttle "enroll" 20 w).1 = Ok true;
}.

Lemma throttle_faults key limit w : w_faults (throttle key limit w).2 = w_faults w.
Proof.
  unfold throttle, mbind, M_bind, time_Now, gets, modify.
  destruct (w_ticks w); simpl; by destruct (throttle_step _ _ _ _) as [b m].
Qed.

Lemma wp_issue_quiet w0 dev request d t (Q : result issued → world → Prop) w :
  at_world w0 d t w → (∀ x, ¬ io w0 x) → good_csr request →
  (∀ c w', i_name c = dev → at_world w0 d t w' → (w_clock w <= w_clock w')%Z → Q (Ok c) w') → wp (issue dev request) Q w.
Proof.
  intros Hw Hno (q & -> & E1 & E2) HQ. unfold issue, serial. rewrite E1, E2. cbn [negb].
  do 8 wp_rule; [|by destruct (Hno e)]. wp_rule. apply HQ; [done|done|lia].
Qed.

Lemma wp_enroll_open secret request id e d w :
  at_world w d None w → w_faults w = [] → good_csr request →
  db_invitations d !! Hash secret = Some (mkInvitation id e false) → device_active d id = true →
  wp (in_tx (enroll_tx secret request)) (λ r w', (Unix (w_clock w') < e)%Z →
    ∃ c, r = Ok (Certificate c) ∧ i_name c = id ∧ certified id c (w_db w')) w.
Proof.
  intros Hw Hq Hcsr Hi Ha.
  apply wp_try. eapply wp_begin; [exact Hw| |intros x w' Hx; by destruct (io_quiet _ _ Hq Hx)].
  intros w1 Hw1 _. apply wp_finally. unfold enroll_tx.
  wp_rule. eapply wp_now_Unix; [exact Hw1|]. intros w2 Hw2 _. cbv beta iota.
  pose proof (at_faults _ _ _ _ Hw2 Hq) as Hq2. apply at_here in Hw2.
  assert (∀ x, ¬ io w2 x) as Hno by (intros; by apply io_quiet).
  apply wp_try. destruct (decide (Unix (w_clock w2) < e)%Z) as [He|He].
  2: { eapply wp_query; [exact Hw2| |].
    - intros x w' Hx. destruct (open_invitation_Ok _ _ _ _ Hx) as (? & Hi' & _ & ? & _). rewrite Hi in Hi'. by simplify_eq.
    - intros x w' _ Hw' Hc. exfalso. pose proof (at_clock _ _ _ _ (at_rollback _ _ _ _ Hw')) as Hle.
      apply Unix_mono in Hle. lia. }
  eapply wp_query; [exact Hw2| |].
  2: { intros x w' [Hx|Hx] Hw'; [|by destruct (Hno x)]. unfold open_invitation in Hx. rewrite Hi in Hx. simpl in Hx.
       apply Z.ltb_lt in He. by rewrite He, Ha in Hx. }
  intros id' w3 Hid Hw3 _. destruct (open_invitation_Ok _ _ _ _ Hid) as (i' & Hi' & _ & _ & Hd' & _).
  rewrite Hi in Hi'. injection Hi' as <-. simpl in Hd'. subst id'.
  apply wp_try. eapply wp_issue_quiet; [exact Hw3|done|done|]. intros c w4 Hn Hw4 _.
  apply wp_try. eapply wp_exec; [exact Hw4| |intros x w' [Hx|Hx]; [|by destruct (Hno x)]].
  2: { unfold use_invitation in Hx. by rewrite Hi in Hx. }
  intros d1 n1 w5 Hd1 Hw5 _. assert (db_devices d1 = db_devices d) as Hdev.
  { unfold use_invitation in Hd1. rewrite Hi in Hd1. by injection Hd1 as <- _. }
  apply wp_try. eapply wp_fault; [exact Hw5| |intros x w' Hx; by destruct (Hno x)]. intros w5' Hw5' _. cbv beta iota.
  apply wp_try. eapply wp_exec; [exact Hw5'| |intros x w' [Hx|Hx]; [|by destruct (Hno x)]].
  2: { unfold set_certificate in Hx. by destruct (db_devices d1 !! id). }
  intros d2 n2 w6 Hd2 Hw6 _.
  assert (certified id c d2) as Hcert.
  { eapply set_certificate_certified; [exact Hd2|]. unfold device_active in *. by rewrite Hdev. }
  apply wp_try. eapply wp_Audit; [exact Hw6| |intros x w' Hx; by destruct (Hno x)]. intros w7 Hw7 _.
  apply wp_try. eapply wp_commit; [exact Hw7| |intros x w' Hx; by destruct (Hno x)]. intros w8 Hw8 _.
  wp_rule. intros _. exists c. split; [done|]. split; [done|]. cbn [rollback set_w_tx w_db].
  destruct Hw8 as [-> _ _ _ _ _]. exact Hcert.
Qed.

(** C29: An invitation can be accepted: when the server's address is one it starts with
    and its root is a certificate, the text the owner copies is one the client acts
    on, for that address, root and secret; the secret belongs to a device that is
    new, and whatever else happens to the database meanwhile, while the invitation
    is untouched and the device not revoked, an enrolment with a good signing
    request that ends within five minutes and meets no failure gets a certificate
    of that device, which is recorded with it. *)
Theorem invitation_joins owner label a w (Htx : w_tx w = None) (Ho : server_origin (a_URL a) ≠ None)
    (Hu : ValidString (a_URL a) = true) (Hr : AppendCerts (a_Root a) = true) :
  wp (Invitation owner label) (λ r w', ∀ secret, r = Ok secret →
    usable (invitation_text a secret) (mkInvite (a_URL a) (a_Root a) secret) ∧
    ∃ id, db_devices (w_db w) !! id = None ∧ db_devices (w_db w') !! id = Some (mkDevice label false EmptyString 0) ∧
      ∀ csr w2, ready w2 → good_csr csr → device_active (w_db w2) id = true →
        db_invitations (w_db w2) !! Hash secret = db_invitations (w_db w') !! Hash secret →
        wp (enroll (Some (secret, csr))) (λ r2 w3, (Unix (w_clock w3) < Unix (w_clock w) + 300)%Z →
          ∃ c, r2 = Ok (Certificate c) ∧ i_name c = id ∧ certified id c (w_db w3)) w2) w.
Proof.
  eapply wp_mono; [by apply wp_Invitation|]. intros r w' Hinv secret ->.
  destruct (Hinv secret eq_refl) as (id & [Hs Hnew Hdev (e & Hi & He)]). split; [by apply text_usable|].
  exists id. split; [done|]. split; [done|]. intros csr w2 [Ht Hq Hth] Hcsr Ha Hsame. rewrite Hi in Hsame.
  unfold enroll. wp_rule.
  destruct (throttle_run "enroll" 20 w2 Ht) as (b & w3 & E & Hw3 & _). rewrite E in Hth. injection Hth as ->.
  unfold wp at 1. rewrite E. cbn [negb].
  eapply wp_mono; [eapply wp_enroll_open; [exact Hw3| |done|exact Hsame|exact Ha]|].
  - pose proof (throttle_faults "enroll" 20 w2) as Hf. rewrite E in Hf. simpl in Hf. simpl. congruence.
  - intros r2 w4 Hok Hc. apply Hok. lia.
Qed.

End joining.

(** * Witness *)

#[local] Existing Instances plain_crypto plain_json plain_x509 plain_client plain_client_laws plain_client_x509.

Definition sample_authority : authority := mkAuthority "PEM:root" "PEM:key" "PEM:leaf" "PEM:leafkey" sample_url.
Definition inviting_world : world := set_w_random ["eighteen bytes id."; "eighteen secrets !"] sample_world.
Definition sample_secret : string := ID "" "eighteen secrets !".
Definition inviting_after : world := (Invitation "owner_1" "Phone" inviting_world).2.

Lemma invitation_joins_witness :
  usable (invitation_text sample_authority sample_secret) (mkInvite sample_url "PEM:root" sample_secret) ∧
  ∃ c, (enroll (Some (sample_secret, sample_csr)) inviting_after).1 = Ok (Certificate c) ∧ dev_serial <$> (db_devices (w_db
    (enroll (Some (sample_secret, sample_csr)) inviting_after).2) !! i_name c) = Some (i_serial c).
Proof.
  assert ((Invitation "owner_1" "Phone" inviting_world).1 = Ok sample_secret) as E by (vm_compute; reflexivity).
  pose proof (invitation_joins "owner_1" "Phone" sample_authority inviting_world eq_refl
    ltac:(vm_compute; discriminate) eq_refl eq_refl) as Hj.
  destruct (Hj sample_secret E) as (Hu & id & _ & Hdev & Hen). split; [exact Hu|].
  assert (ready inviting_after) as Hready by (split; vm_compute; reflexivity).
  destruct (Hen sample_csr inviting_after Hready) as (c & Hc & Hn & r & Hr & _ & Hs & _).
  - by exists (mkCsr true true).
  - unfold device_active. unfold inviting_after. by rewrite Hdev.
  - reflexivity.
  - vm_compute. reflexivity.
  - exists c. split; [exact Hc|]. rewrite Hn. unfold inviting_after in *. rewrite Hr. simpl. by rewrite Hs.
Defined.
