(* ===== verification/Adapter.v ===== *)
(** The MCP adapter, src/internal/mcp/mcp.go: three tools, each one call of the
    connector over its private socket.

    The tool server itself is the SDK's; a tool is what it does with its decoded
    input.  A connection is a function: what the connector makes of a method, a path
    and a body, on its state. *)
From S2P Require Import Prelude GoStrings NetUrl Http GoNet Json Access Upstream Crypto Assign Types Db Rules Limits Device.
From S2P Require Import Lifecycle Authority Files Identity Connector.

(** A [map[string]any] as its members; of a key that comes again the last counts. *)
Definition object : Type := list (string * json).

Definition field (key : string) (o : object) : option json := snd <$> last (filter (λ kv, kv.1 = key) o).

Definition into_object : setter object := λ v _, match v with JNull => Some [] | JObject l => Some l | _ => None end.

Definition decode_object : string → option object := decode_first into_object [].

(** The input of the status tool as JSON. *)
Class AdapterJSON := { marshal_status_input : StatusInput → string }.

Definition connection : Type := string → string → string → M connector (option (Z * string)).

Definition response_max : nat := N.to_nat 2097152.
#[global] Opaque response_max.

Section adapter.
Context `{GoJSON} `{AdapterJSON}.

(** [out["error"]["code"]], when both are there and the code is a string. *)
Definition reported_code (o : object) : string :=
  match field "error" o with
  | Some (JObject detail) => match field "code" detail with Some (JString code) => code | _ => "request rejected" end
  | _ => "request rejected"
  end.

(** The reading of a response. *)
Definition read_response (res : option (Z * string)) : result object :=
  match res with
  | None => Err (ErrMsg "connector unavailable")
  | Some (status, body) =>
    match decode_object (take_bytes response_max body) with
    | None => Err (ErrMsg "invalid connector response")
    | Some out => if negb (status =? 200)%Z then Err (ErrMsg (reported_code out)) else Ok out
    end
  end.

Definition call (T : connection) (method path body : string) : M connector object :=
  guard_ (new_request_ok method ("http://budge-socket" +:+ path)) "url";;
  res ← T method path body;
  lift (read_response res).

(** The tools, with their inputs. *)
Inductive tool :=
| budge_services
| budge_request (i : Submission)
| budge_request_status (i : StatusInput).

Definition run_tool (T : connection) (t : tool) : M connector object :=
  match t with
  | budge_services => call T "GET" "/services" EmptyString
  | budge_request i =>
    match Normalize i with
    | Err e => fail e
    | Ok normalized => call T "POST" "/request" (marshal_submission normalized)
    end
  | budge_request_status i =>
    if (si_WaitSeconds i <? 0)%Z || (15 <? si_WaitSeconds i)%Z then fail (ErrMsg "wait_seconds must be between 0 and 15") else
    call T "POST" "/status" (marshal_status_input i)
  end.

(** [New] over a client of the socket: the connection goes to the connector. *)
Definition through (url : string) (server : outgoing → option (Z * string)) : connection := λ method path body,
  r ← socket_handler url method path (Some body) server;
  match r with SReply status out => mret (Some (status, out)) end.

Definition New (url : string) (server : outgoing → option (Z * string)) : tool → M connector object :=
  run_tool (through url server).

End adapter.
