(* ===== verification/Adapting.v ===== *)
(** The adapter and the server agree: what a tool sends over the private socket
    arrives as the operation it stands for, on exactly its input. *)
From S2P Require Import Prelude GoStrings Coding NetUrl Http GoNet Access Upstream Crypto Assign Types Db Rules Samples.
From S2P Require Import Lifecycle Limits Device Services Authority Certifying Files Identity Keeping Connector Forwarding.
From S2P Require Import Adapter.

(** * Submissions as JSON *)

(** Text that survives JSON. *)
Definition utf8_submission (i : Submission) : Prop :=
  forallb ValidString [sub_Service i; sub_Method i; sub_Path i; sub_Query i; sub_Body i; sub_IdempotencyKey i] = true
  ∧ map_Forall (λ n v, ValidString n = true ∧ ValidString v = true) (sub_Headers i).

Class AdapterLaws `{GoJSON} `{AdapterJSON} : Prop := {
  submission_decodes i : utf8_submission i → decode_submission (marshal_submission i) = Some i;
  status_decodes i : ValidString (si_RequestID i) = true → is_int (si_WaitSeconds i) = true →
    decode_status_input (marshal_status_input i) = Some i;
}.

Lemma Normalize_utf8 i n :
  Normalize i = Ok n → map_Forall (λ _ v, ValidString v = true) (sub_Headers i) → utf8_submission n.
Proof.
  unfold Normalize. rewrite Normalize_in_Ok. intros (Hs & Hm & Hp & Hb & _ & _ & Hk & (t & Ht) & out & size & Hh & _ & ->) Hv.
  apply normalize_headers_spec in Hh as (Hf & _ & _ & -> & _). rewrite (right_id_L ∅ (∪)).
  split.
  - apply Target_Ok in Ht as (u & _ & _ & Hq & _). unfold forallb. simpl.
    rewrite Hb, (within_ascii _ _ (Slug_bytes _ Hs) eq_refl), (within_ascii _ _ (proj2 (Method_token _ Hm)) eq_refl).
    by rewrite (within_ascii _ _ (Path_bytes _ Hp) eq_refl), (within_ascii _ _ Hq eq_refl), (within_ascii _ _ Hk eq_refl).
  - intros n v Hn. simpl in Hn. apply elem_of_list_to_map_2 in Hn. apply list_elem_of_fmap in Hn as ([m x] & [= -> ->] & Hin).
    pose proof Hin as Hx. apply elem_of_map_to_list in Hx. split; [|by apply (Hv m x)].
    rewrite Forall_forall in Hf. destruct (canon_valid _ (Hf _ Hin)) as (Hn & _). unfold HeaderName in Hn. simpl in Hn.
    case_bool_decide; [done|]. exact (within_ascii _ _ Hn eq_refl).
Qed.

(** * What a tool stands for *)

Section adapting.
Context `{GoCrypto} `{AdapterLaws}.

(** The message on the socket, unless the input is refused. *)
Definition message (t : tool) : result (string * string * string) :=
  match t with
  | budge_services => Ok ("GET", "/services", EmptyString)
  | budge_request i => n ← Normalize i; Ok ("POST", "/request", marshal_submission n)
  | budge_request_status i =>
    if (si_WaitSeconds i <? 0)%Z || (15 <? si_WaitSeconds i)%Z then Err (ErrMsg "wait_seconds must be between 0 and 15")
    else Ok ("POST", "/status", marshal_status_input i)
  end.

(** Input that came as JSON: the decoder leaves no text that is not UTF-8. *)
Definition from_json (t : tool) : Prop :=
  match t with
  | budge_services => True
  | budge_request i => map_Forall (λ _ v, ValidString v = true) (sub_Headers i)
  | budge_request_status i => ValidString (si_RequestID i) = true
  end.

(** What the server does with a submission of a device. *)
Definition submission_of (device : string) (i : Submission) : M world device_reply :=
  r ← attempt (Submit device i);
  match r with
  | Err e => mret (DRefuse (submit_status e) (error_code e))
  | Ok id => try_ (RequestStatus device id) 503 "storage_unavailable" (λ st, mret (StatusReply st))
  end.

(** A message longer than the operation reads is refused by it: of a request, 512
    KiB of JSON, after it has been counted; of a poll, 4 KiB. *)
Definition served (t : tool) (payload : string) (waits : list (option (world → world))) (device : string) : M world device_reply :=
  match t with
  | budge_services => services device
  | budge_request i =>
    match Normalize i with
    | Ok n =>
      ok ← throttle ("submit:" +:+ device) 30;
      if negb ok then mret (DRefuse 429 "throttled") else
      if (524288 <? len payload)%N then mret (DRefuse 400 "invalid_submission") else submission_of device n
    | Err _ => mret Dropped
    end
  | budge_request_status i =>
    if (4096 <? len payload)%N then mret (DRefuse 400 "invalid_status_request") else
    now ← time_Now;
    status_loop device (si_RequestID i) (si_WaitSeconds i) (now + si_WaitSeconds i * second)%Z waits
  end.

Definition op_url (target : string) : URL := mkURL "" "" None "" target "" false "" "".

Definition operations : list string := ["/device/services"; "/device/request"; "/device/status"].

Lemma op_routable target : target ∈ operations → routable (op_url target) ∧ RequestURI (op_url target) = target.
Proof. unfold operations. rewrite !elem_of_cons, elem_of_nil. intros [-> |[-> |[-> |[]]]]; by split; [split|]. Qed.

Lemma op_arrives url authority a q h target :
  origin url authority a → target ∈ operations → o_url q = url +:+ target →
  arrives q h = Some (mkRequest (o_method q) (op_url target) a h) ∧ is_Some (Parse (url +:+ target)).
Proof.
  intros Ho Ht Hq. destruct (op_routable target Ht) as [Hr Hu].
  pose proof (Parse_at_origin _ _ _ _ Ho Hr) as Hp. rewrite Hu in Hp. split; [|by rewrite Hp].
  unfold arrives. rewrite Hq, Hp. cbn [mbind option_bind].
  set (u := mkURL "https" "" None a _ _ _ _ _). assert (routable u) as Hru by (split; apply Hr).
  by rewrite (ParseRequestURI_uri u Hru).
Qed.

(** The server on each of the three. *)
Lemma socket_body_decode {A} limit (strict : string → option A) b :
  (limit <= socket_body_max)%N → decode limit strict (socket_body b) = if (limit <? len b)%N then None else strict b.
Proof.
  intros Hl. unfold socket_body, decode. destruct (socket_body_max <? len b)%N eqn:Eb; [|done].
  apply N.ltb_lt in Eb. assert (limit <? len b = true)%N as -> by (apply N.ltb_lt; lia).
  assert (limit <? len (take_bytes (S (N.to_nat socket_body_max)) b) = true)%N as ->; [|done].
  rewrite len_length in *. apply N.ltb_lt. rewrite length_take_bytes. lia.
Qed.

Lemma submit_message device i n w :
  Normalize i = Ok n → from_json (budge_request i) →
  submit device (socket_body (marshal_submission n)) w = served (budge_request i) (marshal_submission n) [] device w.
Proof.
  intros Hn Hv. unfold served. rewrite Hn. unfold submit. rewrite socket_body_decode by (vm_compute; discriminate).
  destruct (524288 <? len (marshal_submission n))%N; [done|].
  rewrite submission_decodes by by eapply Normalize_utf8.
  by rewrite (proj1 (Normalize_idempotent i n Hn)).
Qed.

Lemma status_message device i waits w :
  (si_WaitSeconds i <? 0)%Z || (15 <? si_WaitSeconds i)%Z = false → from_json (budge_request_status i) →
  status_ device (socket_body (marshal_status_input i)) waits w
  = served (budge_request_status i) (marshal_status_input i) waits device w.
Proof.
  intros Hw Hv. unfold served, status_. rewrite socket_body_decode by (vm_compute; discriminate).
  destruct (4096 <? len (marshal_status_input i))%N; [done|].
  assert (is_int (si_WaitSeconds i) = true) as Hi by (unfold is_int, int_min, int_max; lia).
  rewrite status_decodes by done. by rewrite Hw.
Qed.

Lemma served_request t m p payload :
  message t = Ok (m, p, payload) → from_json t →
  ∃ target, socket_path m p = Some target ∧ target ∈ operations ∧ ∀ w waits a h tls enrol csr transport,
  DeviceHandler (mkDeviceRequest (mkRequest m (op_url target) a h) tls (socket_body payload) enrol csr) waits transport w
  = authenticated tls (served t payload waits) w.
Proof.
  intros Hm Hc. destruct t as [|i|i]; simpl in Hm.
  - injection Hm as <- <- <-. exists "/device/services". split; [done|]. split; [unfold operations; rewrite !elem_of_cons; auto|]. intros.
    unfold DeviceHandler, authenticated, mbind, M_bind. simpl.
    destruct (attempt (device tls) w) as [[[d|e]|e] w']; by destruct tls.
  - destruct (Normalize i) as [n|] eqn:Hn; [|done]. injection Hm as <- <- <-.
    exists "/device/request". split; [done|]. split; [unfold operations; rewrite !elem_of_cons; auto|]. intros.
    pose proof (λ d w', submit_message d i n w' Hn Hc) as Hs. revert Hs. generalize (socket_body (marshal_submission n)).
    intros b Hs. unfold DeviceHandler, authenticated, mbind, M_bind. simpl.
    destruct (attempt (device tls) w) as [[[d|e]|e] w']; by destruct tls.
  - destruct (_ || _) eqn:Hw; [done|]. injection Hm as <- <- <-.
    exists "/device/status". split; [done|]. split; [unfold operations; rewrite !elem_of_cons; auto|]. intros.
    pose proof (λ d w', status_message d i waits w' Hw Hc) as Hs. revert Hs. generalize (socket_body (marshal_status_input i)).
    intros b Hs. unfold DeviceHandler, authenticated, mbind, M_bind. simpl.
    destruct (attempt (device tls) w) as [[[d|e]|e] w']; by destruct tls.
Qed.

(** * The whole way *)

(** What the socket makes of the server's answer. *)
Definition relayed_by_socket (o : option (Z * string)) : Z * string :=
  match o with
  | None => (502%Z, "Budge connection unavailable")
  | Some (status, out) => (status, take_bytes (N.to_nat socket_response_max) out)
  end.

Lemma run_tool_message T t c :
  run_tool T t c = match message t with Err e => (Err e, c) | Ok (m, p, payload) => call T m p payload c end.
Proof.
  destruct t as [|i|i]; simpl; [done| |by destruct (_ || _)].
  by destruct (Normalize i).
Qed.

Lemma message_url t m p payload : message t = Ok (m, p, payload) → all_bytes is_token m = true
  ∧ new_request_ok m ("http://budge-socket" +:+ p) = true.
Proof.
  intros Hm. destruct t as [|i|i]; simpl in Hm.
  - by injection Hm as <- <- <-.
  - destruct (Normalize i); [|done]. by injection Hm as <- <- <-.
  - destruct (_ || _); [done|]. by injection Hm as <- <- <-.
Qed.

Lemma through_operation url authority a server m p target payload c :
  origin url authority a → socket_path m p = Some target → target ∈ operations → all_bytes is_token m = true →
  ∃ q, o_url q = url +:+ target ∧ o_method q = m ∧ o_body q = socket_body payload ∧
    through url server m p payload c = (Ok (Some (relayed_by_socket (server q))), log_forward q c).
Proof.
  intros Ho Hp Ht Hm.
  exists (mkOutgoing m (url +:+ target) {[ "Content-Type" := ["application/json"] ]} (socket_body payload)). split_and!; [done..|].
  destruct (op_arrives url authority a (mkOutgoing m (url +:+ target) ∅ payload) ∅ target Ho Ht eq_refl) as [_ Hparse].
  unfold through, socket_handler. rewrite Hp. unfold new_request_ok. rewrite Hm, bool_decide_eq_true_2 by done.
  cbn [andb negb]. unfold mbind, M_bind, modify, mret, M_ret.
  by destruct (server _) as [[status out]|].
Qed.

(** What becomes of a tool: it is refused, or its message arrives. *)
Definition reached (url authority a : string) (server : outgoing → option (Z * string)) (t : tool)
    (c : connector) (r : result object) (c' : connector) : Prop :=
  match message t with
  | Err e => r = Err e ∧ c' = c
  | Ok (m, p, payload) => ∃ target q,
      socket_path m p = Some target ∧ o_url q = url +:+ target ∧ o_method q = m ∧ o_body q = socket_body payload
      ∧ cn_sent c' = cn_sent c ++ [q]
      ∧ r = read_response (Some (relayed_by_socket (server q)))
      ∧ ∀ h, arrives q h = Some (mkRequest m (op_url target) a h) ∧
          ∀ tls enrol csr waits transport w,
            DeviceHandler (mkDeviceRequest (mkRequest m (op_url target) a h) tls (o_body q) enrol csr) waits transport w
            = authenticated tls (served t payload waits) w
  end.

Lemma wp_tools url authority a server t c :
  origin url authority a → from_json t → wp (New url server t) (reached url authority a server t c) c.
Proof.
  intros Ho Hc. unfold wp, New, reached. rewrite run_tool_message. destruct (message t) as [[[m p] payload]|e] eqn:Hm; [|done].
  destruct (message_url t m p payload Hm) as (Htok & Hg).
  destruct (served_request t m p payload Hm Hc) as (target & Hp & Ht & Hserved).
  destruct (through_operation url authority a server m p target payload c Ho Hp Ht Htok) as (q & Hu & Hqm & Hb & Hthr).
  exists target, q. unfold call, guard_. rewrite Hg. unfold mbind, M_bind. cbn -[socket_body]. rewrite Hthr. cbn -[socket_body].
  split_and!; try done. intros h. destruct (op_arrives url authority a q h target Ho Ht Hu) as [Harr _]. rewrite Hqm in Harr.
  split; [exact Harr|]. intros tls enrol csr waits transport w. rewrite Hb.
  apply Hserved.
Qed.

(** C15: The three tools, end to end: a tool whose input, read from JSON, the adapter
    refuses sends nothing; any other makes one request over the socket to its
    operation of the server, which arrives there, authenticated by the connection, as
    that operation on exactly the input — for a request, the normalised submission,
    which the server does not change —; and the tool's result is read off the answer
    that comes back.  The server refuses as malformed only what is too long for it: a
    submission of more than 512 KiB of JSON, of which no more is sent, since nothing
    before it bounds a query; and a poll of more than 4 KiB. *)
Theorem tools_reach_server url authority a server t c (Ho : origin url authority a) (Hj : from_json t) :
  wp (New url server t) (reached url authority a server t c) c.
Proof. by apply wp_tools. Qed.

End adapting.

(** * Witness *)

#[local] Existing Instances plain_crypto plain_json.

Definition plain_adapter : AdapterJSON := {| marshal_status_input i := to_text (si_RequestID i, si_WaitSeconds i) |}.

Lemma plain_adapter_laws : @AdapterLaws plain_json plain_adapter.
Proof.
  split; [intros; apply of_to_text|]. intros [id n] _ _.
  cbn [decode_status_input plain_json marshal_status_input plain_adapter]. by rewrite of_to_text.
Qed.

#[local] Existing Instances plain_adapter plain_adapter_laws.

Definition answering : outgoing → option (Z * string) := λ _, Some (200%Z, "{}").

Lemma tools_reach_server_witness :
  (New sample_url answering (budge_request sample_get) idle).1 = Ok [] ∧
  ∃ q, cn_sent (New sample_url answering (budge_request sample_get) idle).2 = [q] ∧
    ∀ enrol csr waits transport w,
      DeviceHandler (mkDeviceRequest (mkRequest "POST" (op_url "/device/request") "budge.example:18781" ∅) None (o_body q) enrol csr)
        waits transport w
      = authenticated None (served (budge_request sample_get) (o_body q) waits) w.
Proof.
  assert (origin sample_url "budge.example:18781" "budge.example:18781") as Ho by (split_and!; vm_compute; reflexivity).
  assert (from_json (budge_request sample_get)) as Hj by (apply (bool_decide_unpack _); vm_compute; exact I).
  pose proof (tools_reach_server sample_url _ _ answering (budge_request sample_get) idle Ho Hj) as H.
  unfold wp, reached in H. cbn [message mbind result_bind] in H.
  destruct (Normalize sample_get) as [n|] eqn:En; [|vm_compute in En; discriminate].
  destruct H as (target & q & Ht & Hu & Hm & Hb & Hs & Hr & Hh).
  assert (socket_body (marshal_submission n) = marshal_submission n) as Hwhole.
  { assert (n = match Normalize sample_get with Ok n => n | Err _ => n end) as -> by by rewrite En. vm_compute. reflexivity. }
  injection Ht as <-. split.
  - rewrite Hr. unfold read_response, relayed_by_socket, answering. vm_compute. reflexivity.
  - exists q. split; [exact Hs|]. intros enrol csr waits transport w.
    replace (served (budge_request sample_get) (o_body q)) with (served (budge_request sample_get) (marshal_submission n))
      by by rewrite Hb, Hwhole.
    apply (Hh ∅).
Defined.
