(* ===== verification/Coders.v ===== *)
(** The JSON of the program's types, by their struct tags, and that what the program
    reads back is what it wrote: the instances of [GoJSON], [ClientJSON],
    [AuthorityJSON] and [AdapterJSON], with their laws.

    src/internal/requests/types.go, the identity, the invitation and the messages of
    src/internal/client, the authority of src/internal/server/tls.go. *)
From S2P Require Import Prelude GoStrings Json Http Crypto Assign Types Authority Identity Adapter Adapting.

(** Fields in the order of the struct. *)
Definition text : string → json := JString.

Definition map_text : gmap string string → json := map_json text.
Definition into_map_text : setter (gmap string string) := into_map into_string EmptyString.
Definition texts (l : list string) : json := JArray (map text l).
Definition into_texts : setter (list string) := into_list into_string EmptyString.
Definition header_json : header → json := map_json texts.
Definition into_header : setter header := into_map into_texts [].

(** * Submissions *)

Definition Submission_json (i : Submission) : json := struct_json [
  member "service" (text (sub_Service i));
  member "method" (text (sub_Method i));
  member "path" (text (sub_Path i));
  unless (bool_decide (sub_Query i = EmptyString)) "query" (text (sub_Query i));
  unless (bool_decide (sub_Headers i = ∅)) "headers" (map_text (sub_Headers i));
  unless (bool_decide (sub_Body i = EmptyString)) "body" (text (sub_Body i));
  member "idempotency_key" (text (sub_IdempotencyKey i))].

Definition Submission_fields : fields_of Submission := [
  ("service", field_of sub_Service (λ v '(mkSubmission _ b c d e f g), mkSubmission v b c d e f g) into_string);
  ("method", field_of sub_Method (λ v '(mkSubmission a _ c d e f g), mkSubmission a v c d e f g) into_string);
  ("path", field_of sub_Path (λ v '(mkSubmission a b _ d e f g), mkSubmission a b v d e f g) into_string);
  ("query", field_of sub_Query (λ v '(mkSubmission a b c _ e f g), mkSubmission a b c v e f g) into_string);
  ("headers", field_of sub_Headers (λ v '(mkSubmission a b c d _ f g), mkSubmission a b c d v f g) into_map_text);
  ("body", field_of sub_Body (λ v '(mkSubmission a b c d e _ g), mkSubmission a b c d e v g) into_string);
  ("idempotency_key", field_of sub_IdempotencyKey (λ v '(mkSubmission a b c d e f _), mkSubmission a b c d e f v) into_string)].

Definition no_submission : Submission := mkSubmission "" "" "" "" ∅ "" "".

Definition StatusInput_json (i : StatusInput) : json := struct_json [
  member "request_id" (text (si_RequestID i));
  unless (bool_decide (si_WaitSeconds i = 0%Z)) "wait_seconds" (int_json (si_WaitSeconds i))].

Definition StatusInput_fields : fields_of StatusInput := [
  ("request_id", field_of si_RequestID (λ v '(mkStatusInput _ b), mkStatusInput v b) into_string);
  ("wait_seconds", field_of si_WaitSeconds (λ v '(mkStatusInput a _), mkStatusInput a v) into_int)].

(** * Results *)

Definition Result_json (r : Result) : json := struct_json [
  member "http_status" (int_json (res_HTTPStatus r));
  member "headers" (header_json (res_Headers r));
  member "body" (text (res_Body r));
  member "encoding" (text (res_Encoding r));
  member "result_truncated" (JBool (res_Truncated r));
  member "result_incomplete" (JBool (res_Incomplete r))].

Definition Result_fields : fields_of Result := [
  ("http_status", field_of res_HTTPStatus (λ v '(mkResult _ b c d e f), mkResult v b c d e f) into_int);
  ("headers", field_of res_Headers (λ v '(mkResult a _ c d e f), mkResult a v c d e f) into_header);
  ("body", field_of res_Body (λ v '(mkResult a b _ d e f), mkResult a b v d e f) into_string);
  ("encoding", field_of res_Encoding (λ v '(mkResult a b c _ e f), mkResult a b c v e f) into_string);
  ("result_truncated", field_of res_Truncated (λ v '(mkResult a b c d _ f), mkResult a b c d v f) into_bool);
  ("result_incomplete", field_of res_Incomplete (λ v '(mkResult a b c d e _), mkResult a b c d e v) into_bool)].

Definition no_result : Result := mkResult 0 ∅ "" "" false false.

(** * Snapshots *)

Definition Snapshot_json (s : Snapshot) : json := struct_json [
  member "version" (int_json (snap_Version s));
  member "device_id" (text (snap_DeviceID s));
  member "service_id" (text (snap_ServiceID s));
  member "service_label" (text (snap_ServiceLabel s));
  member "service_revision" (int_json (snap_Revision s));
  member "permission_id" (text (snap_PermissionID s));
  member "credential_ref" (text (snap_CredentialRef s));
  member "effective_url" (text (snap_URL s));
  member "method" (text (snap_Method s));
  member "path" (text (snap_Path s));
  member "headers" (header_json (snap_Headers s));
  member "body" (text (snap_Body s));
  member "expires" (int_json (snap_Expires s));
  unless (bool_decide (snap_PrivateCIDR s = EmptyString)) "private_cidr" (text (snap_PrivateCIDR s))].

Definition Snapshot_fields : fields_of Snapshot := [
  ("version", field_of snap_Version
     (λ v '(mkSnapshot _ b c d e f g h i j k l m n), mkSnapshot v b c d e f g h i j k l m n) into_int);
  ("device_id", field_of snap_DeviceID
     (λ v '(mkSnapshot a _ c d e f g h i j k l m n), mkSnapshot a v c d e f g h i j k l m n) into_string);
  ("service_id", field_of snap_ServiceID
     (λ v '(mkSnapshot a b _ d e f g h i j k l m n), mkSnapshot a b v d e f g h i j k l m n) into_string);
  ("service_label", field_of snap_ServiceLabel
     (λ v '(mkSnapshot a b c _ e f g h i j k l m n), mkSnapshot a b c v e f g h i j k l m n) into_string);
  ("service_revision", field_of snap_Revision
     (λ v '(mkSnapshot a b c d _ f g h i j k l m n), mkSnapshot a b c d v f g h i j k l m n) into_int);
  ("permission_id", field_of snap_PermissionID
     (λ v '(mkSnapshot a b c d e _ g h i j k l m n), mkSnapshot a b c d e v g h i j k l m n) into_string);
  ("credential_ref", field_of snap_CredentialRef
     (λ v '(mkSnapshot a b c d e f _ h i j k l m n), mkSnapshot a b c d e f v h i j k l m n) into_string);
  ("effective_url", field_of snap_URL
     (λ v '(mkSnapshot a b c d e f g _ i j k l m n), mkSnapshot a b c d e f g v i j k l m n) into_string);
  ("method", field_of snap_Method
     (λ v '(mkSnapshot a b c d e f g h _ j k l m n), mkSnapshot a b c d e f g h v j k l m n) into_string);
  ("path", field_of snap_Path
     (λ v '(mkSnapshot a b c d e f g h i _ k l m n), mkSnapshot a b c d e f g h i v k l m n) into_string);
  ("headers", field_of snap_Headers
     (λ v '(mkSnapshot a b c d e f g h i j _ l m n), mkSnapshot a b c d e f g h i j v l m n) into_header);
  ("body", field_of snap_Body
     (λ v '(mkSnapshot a b c d e f g h i j k _ m n), mkSnapshot a b c d e f g h i j k v m n) into_string);
  ("expires", field_of snap_Expires
     (λ v '(mkSnapshot a b c d e f g h i j k l _ n), mkSnapshot a b c d e f g h i j k l v n) into_int);
  ("private_cidr", field_of snap_PrivateCIDR
     (λ v '(mkSnapshot a b c d e f g h i j k l m _), mkSnapshot a b c d e f g h i j k l m v) into_string)].

Definition no_snapshot : Snapshot := mkSnapshot 0 "" "" "" 0 "" "" "" "" "" ∅ "" 0 "".

#[export] Instance go_json : GoJSON := {|
  marshal_submission i := encode (Submission_json i);
  marshal_snapshot s := encode (Snapshot_json s);
  unmarshal_snapshot := unmarshal (into_struct false Snapshot_fields) no_snapshot;
  marshal_result r := encode (Result_json r);
  unmarshal_result := unmarshal (into_struct false Result_fields) no_result;
  marshal_strings l := encode (texts l);
  unmarshal_strings := unmarshal into_texts [];
  marshal_string s := encode (text s);
  decode_submission := unmarshal (into_struct true Submission_fields) no_submission;
  decode_status_input := unmarshal (into_struct true StatusInput_fields) (mkStatusInput "" 0);
|}.

#[export] Instance go_adapter : AdapterJSON := {| marshal_status_input i := encode (StatusInput_json i) |}.

(** * The client's types *)

Definition Identity_json (i : Identity) : json := struct_json [
  member "URL" (text (id_URL i));
  member "Root" (bytes_json (id_Root i));
  member "Certificate" (bytes_json (id_Certificate i));
  member "PrivateKey" (bytes_json (id_PrivateKey i));
  member "DeviceID" (text (id_DeviceID i))].

Definition Identity_fields : fields_of Identity := [
  ("URL", field_of id_URL (λ v '(mkIdentity _ b c d e), mkIdentity v b c d e) into_string);
  ("Root", field_of id_Root (λ v '(mkIdentity a _ c d e), mkIdentity a v c d e) into_bytes);
  ("Certificate", field_of id_Certificate (λ v '(mkIdentity a b _ d e), mkIdentity a b v d e) into_bytes);
  ("PrivateKey", field_of id_PrivateKey (λ v '(mkIdentity a b c _ e), mkIdentity a b c v e) into_bytes);
  ("DeviceID", field_of id_DeviceID (λ v '(mkIdentity a b c d _), mkIdentity a b c d v) into_string)].

Definition envelope_json (e : envelope) : json := struct_json [
  member "Version" (int_json (ev_Version e));
  member "Salt" (bytes_json (ev_Salt e));
  member "Data" (bytes_json (ev_Data e))].

Definition envelope_fields : fields_of envelope := [
  ("Version", field_of ev_Version (λ v '(mkEnvelope _ b c), mkEnvelope v b c) into_int);
  ("Salt", field_of ev_Salt (λ v '(mkEnvelope a _ c), mkEnvelope a v c) into_bytes);
  ("Data", field_of ev_Data (λ v '(mkEnvelope a b _), mkEnvelope a b v) into_bytes)].

Definition invitation_json (i : invitation) : json := struct_json [
  member "url" (text (iv_URL i));
  member "root" (bytes_json (iv_Root i));
  member "secret" (text (iv_Secret i))].

Definition invitation_fields : fields_of invitation := [
  ("url", field_of iv_URL (λ v '(mkInvite _ b c), mkInvite v b c) into_string);
  ("root", field_of iv_Root (λ v '(mkInvite a _ c), mkInvite a v c) into_bytes);
  ("secret", field_of iv_Secret (λ v '(mkInvite a b _), mkInvite a b v) into_string)].

(** The map that asks for a certificate, its keys in order. *)
Definition enrollment_json (secret csr : string) : json :=
  struct_json [member "csr" (bytes_json csr); member "secret" (text secret)].
Definition renewal_json (csr : string) : json := struct_json [member "csr" (bytes_json csr)].

Definition certificate_fields : fields_of (string * string) := [
  ("device_id", field_of fst (λ v p, (v, p.2)) into_string);
  ("certificate", field_of snd (λ v p, (p.1, v)) into_bytes)].

#[export] Instance go_client : ClientJSON := {|
  marshal_identity i := encode (Identity_json i);
  unmarshal_identity := unmarshal (into_struct false Identity_fields) (mkIdentity "" "" "" "" "");
  marshal_envelope e := encode (envelope_json e);
  unmarshal_envelope := unmarshal (into_struct false envelope_fields) (mkEnvelope 0 "" "");
  marshal_invitation i := encode (invitation_json i);
  unmarshal_invitation := unmarshal (into_struct false invitation_fields) (mkInvite "" "" "");
  marshal_enrollment secret csr := encode (enrollment_json secret csr);
  marshal_renewal csr := encode (renewal_json csr);
  decode_certificate := decode_first (into_struct false certificate_fields) ("", "");
|}.

(** * The authority *)

Definition authority_json (a : authority) : json := struct_json [
  member "Root" (bytes_json (a_Root a));
  member "RootKey" (bytes_json (a_RootKey a));
  member "Leaf" (bytes_json (a_Leaf a));
  member "LeafKey" (bytes_json (a_LeafKey a));
  member "URL" (text (a_URL a))].

Definition authority_fields : fields_of authority := [
  ("Root", field_of a_Root (λ v '(mkAuthority _ b c d e), mkAuthority v b c d e) into_bytes);
  ("RootKey", field_of a_RootKey (λ v '(mkAuthority a _ c d e), mkAuthority a v c d e) into_bytes);
  ("Leaf", field_of a_Leaf (λ v '(mkAuthority a b _ d e), mkAuthority a b v d e) into_bytes);
  ("LeafKey", field_of a_LeafKey (λ v '(mkAuthority a b c _ e), mkAuthority a b c v e) into_bytes);
  ("URL", field_of a_URL (λ v '(mkAuthority a b c d _), mkAuthority a b c d v) into_string)].

#[export] Instance go_authority : AuthorityJSON := {|
  marshal_authority a := encode (authority_json a);
  unmarshal_authority := unmarshal (into_struct false authority_fields) no_authority;
|}.

(** * What is written can be read *)

Lemma map_text_back m : into_map_text (map_text m) ∅ = Some m.
Proof. by apply map_back. Qed.

Lemma texts_back l y : into_texts (texts l) y = Some l.
Proof. apply list_back. by apply Forall_forall. Qed.

Lemma header_back (h : header) : into_header (header_json h) ∅ = Some h.
Proof. apply map_back. intros k l _. apply texts_back. Qed.

Lemma texts_plain l : forallb ValidString l = true → plain (texts l) = true.
Proof. intros Hl. apply plain_list. apply Forall_forall. intros s Hs. rewrite forallb_forall in Hl. by apply Hl, list_elem_of_In. Qed.

Lemma header_plain h : utf8_header h = true → plain (header_json h) = true.
Proof.
  unfold utf8_header. rewrite forallb_forall. intros Hh. apply plain_map. intros k l Hk.
  assert (In (k, l) (map_to_list h)) as Hin by (by apply list_elem_of_In, elem_of_map_to_list).
  apply Hh, andb_true_iff in Hin as [H1 H2]. split; [done|by apply texts_plain].
Qed.

(** A value that is written as it is and nests at most [n] deep. *)
Definition sound (n : N) (v : json) : Prop := plain v = true ∧ (depth v <= n)%N.

Lemma text_sound s : ValidString s = true → sound 2 (text s).
Proof. by split. Qed.

Lemma bool_sound b : sound 2 (JBool b).
Proof. by split. Qed.

Lemma int_sound z : sound 2 (int_json z).
Proof. split; [apply itoa_literal|done]. Qed.

Lemma bytes_sound s : sound 2 (bytes_json s).
Proof. split; [apply Std_valid|done]. Qed.

Lemma texts_sound l : forallb ValidString l = true → sound 2 (texts l).
Proof.
  intros Hl. split; [by apply texts_plain|].
  pose proof (depth_list text 0 l ltac:(by apply Forall_forall)). unfold texts. lia.
Qed.

Lemma header_sound h : utf8_header h = true → sound 2 (header_json h).
Proof.
  intros Hh. split; [by apply header_plain|]. apply (depth_map texts 1). intros l. apply (depth_list text 0).
  by apply Forall_forall.
Qed.

Lemma map_text_sound m :
  map_Forall (λ n v, ValidString n = true ∧ ValidString v = true) m → sound 2 (map_text m).
Proof. intros Hm. split; [by apply (plain_map text)|]. pose proof (depth_map text 0 m ltac:(done)). unfold map_text. lia. Qed.

Definition sound_member (m : option (string * json)) : Prop :=
  match m with Some (k, v) => ValidString k = true ∧ sound 2 v | None => True end.

Lemma sound_unless b k v : ValidString k = true → (b = false → sound 2 v) → sound_member (unless b k v).
Proof. intros Hk Hv. destruct b; simpl; auto. Qed.

Lemma struct_sound l : Forall sound_member l → sound 3 (struct_json l).
Proof.
  intros Hl. assert (Forall (λ kv, ValidString kv.1 = true ∧ sound 2 kv.2) (omap id l)) as Hm.
  { induction Hl as [|[[k v]|] l Hx _ IH]; [done|by constructor|done]. }
  split; simpl.
  - apply forallb_forall. intros kv Hin%list_elem_of_In. rewrite Forall_forall in Hm. destruct (Hm kv Hin) as (-> & -> & _). done.
  - apply (N.succ_le_mono _ 2), depth_below. eapply Forall_impl; [exact Hm|]. intros kv (_ & _ & Hd). exact Hd.
Qed.

Lemma unmarshal_sound {A} (read : setter A) zero a v :
  sound 3 v → read v zero = Some a → unmarshal read zero (encode v) = Some a.
Proof. intros [Hp Hd]. apply unmarshal_encode; [done|]. unfold max_depth. lia. Qed.

Create HintDb json.
#[local] Hint Resolve map_text_back texts_back header_back bytes_back int_back : json.
#[local] Hint Resolve text_sound bool_sound int_sound bytes_sound texts_sound header_sound map_text_sound : json.

(** Reading a struct member by member: each finds its field, which takes its value. *)
Ltac read_struct :=
  repeat (eapply struct_step; [reflexivity|apply field_back; first [reflexivity|solve [eauto with json]]|]; cbn beta iota);
  by apply struct_end.

Lemma Submission_back i : into_struct true Submission_fields (Submission_json i) no_submission = Some i.
Proof.
  unfold Submission_json, unless. destruct i as [a b c d e f g]. cbn [sub_Service sub_Method sub_Path sub_Query sub_Headers sub_Body sub_IdempotencyKey].
  repeat case_bool_decide; subst; unfold struct_json; cbn [omap list_omap member id]; read_struct.
Qed.

Lemma StatusInput_back i :
  is_int (si_WaitSeconds i) = true → into_struct true StatusInput_fields (StatusInput_json i) (mkStatusInput "" 0) = Some i.
Proof.
  unfold StatusInput_json, unless. destruct i as [a b]. cbn [si_RequestID si_WaitSeconds]. intros Hb.
  case_bool_decide; subst; unfold struct_json; cbn [omap list_omap member id]; read_struct.
Qed.

Lemma Result_back r : is_int (res_HTTPStatus r) = true → into_struct false Result_fields (Result_json r) no_result = Some r.
Proof. destruct r as [a b c d e f]. cbn [res_HTTPStatus]. intros Ha. unfold Result_json, struct_json. cbn -[into_struct int_json header_json]. read_struct. Qed.

Lemma Snapshot_back s : forallb is_int [snap_Version s; snap_Revision s; snap_Expires s] = true →
  into_struct false Snapshot_fields (Snapshot_json s) no_snapshot = Some s.
Proof.
  unfold Snapshot_json, unless. destruct s as [a b c d e f g h i j k l m n].
  cbn [snap_Version snap_DeviceID snap_ServiceID snap_ServiceLabel snap_Revision snap_PermissionID snap_CredentialRef snap_URL snap_Method
    snap_Path snap_Headers snap_Body snap_Expires snap_PrivateCIDR forallb]. rewrite !andb_true_iff. intros (Ha & He & Hm & _).
  case_bool_decide; subst; unfold struct_json; cbn [omap list_omap member id]; read_struct.
Qed.

Lemma Identity_back i : into_struct false Identity_fields (Identity_json i) (mkIdentity "" "" "" "" "") = Some i.
Proof. destruct i as [a b c d e]. unfold Identity_json, struct_json. cbn -[into_struct int_json bytes_json]. read_struct. Qed.

Lemma envelope_back e : is_int (ev_Version e) = true →
  into_struct false envelope_fields (envelope_json e) (mkEnvelope 0 "" "") = Some e.
Proof. destruct e as [a b c]. cbn [ev_Version]. intros Ha. unfold envelope_json, struct_json. cbn -[into_struct int_json bytes_json]. read_struct. Qed.

Lemma invitation_back i : into_struct false invitation_fields (invitation_json i) (mkInvite "" "" "") = Some i.
Proof. destruct i as [a b c]. unfold invitation_json, struct_json. cbn -[into_struct int_json bytes_json]. read_struct. Qed.

Lemma authority_back a : into_struct false authority_fields (authority_json a) no_authority = Some a.
Proof. destruct a as [a b c d e]. unfold authority_json, struct_json. cbn -[into_struct int_json bytes_json]. read_struct. Qed.

(** ** Every value the program writes is sound *)

(** Member by member. *)
Ltac sound_struct :=
  apply struct_sound; repeat (apply List.Forall_cons || apply List.Forall_nil);
  first [apply sound_unless; [done|intros _] | split; [done|]]; eauto with json.

Lemma Submission_sound i : utf8_submission i → sound 3 (Submission_json i).
Proof. intros [Ht Hh]. simpl in Ht. rewrite !andb_true_iff in Ht. destruct_and! Ht. sound_struct. Qed.

Lemma StatusInput_sound i : ValidString (si_RequestID i) = true → sound 3 (StatusInput_json i).
Proof. intros Hi. sound_struct. Qed.

Lemma Result_sound r : utf8_result r = true → sound 3 (Result_json r).
Proof. unfold utf8_result. rewrite !andb_true_iff. intros (((Hb & He) & Hh) & Hi). sound_struct. Qed.

Lemma Snapshot_sound s : utf8_snapshot s = true → sound 3 (Snapshot_json s).
Proof.
  unfold utf8_snapshot. rewrite !andb_true_iff. intros ((Ht & Hh) & _). simpl in Ht. rewrite !andb_true_iff in Ht. destruct_and! Ht.
  sound_struct.
Qed.

Lemma Identity_sound i : ValidString (id_URL i) = true → ValidString (id_DeviceID i) = true → sound 3 (Identity_json i).
Proof. intros Hu Hd. sound_struct. Qed.

Lemma envelope_sound e : sound 3 (envelope_json e).
Proof. sound_struct. Qed.

Lemma invitation_sound i : ValidString (iv_URL i) = true → ValidString (iv_Secret i) = true → sound 3 (invitation_json i).
Proof. intros Hu Hs. sound_struct. Qed.

Lemma authority_sound a : ValidString (a_URL a) = true → sound 3 (authority_json a).
Proof. intros Hu. sound_struct. Qed.

(** * The laws *)

#[export] Instance go_json_laws : JsonLaws.
Proof.
  split.
  - intros s Hs. apply unmarshal_sound; [by apply Snapshot_sound|apply Snapshot_back].
    unfold utf8_snapshot in Hs. by apply andb_true_iff in Hs as [_ Hs].
  - intros r Hr. apply unmarshal_sound; [by apply Result_sound|apply Result_back].
    unfold utf8_result in Hr. by apply andb_true_iff in Hr as [_ Hr].
  - intros l Hl. destruct (texts_sound l Hl) as [Hp Hd]. apply unmarshal_encode; [done|unfold max_depth; lia|apply texts_back].
Qed.

#[export] Instance go_adapter_laws : AdapterLaws.
Proof.
  split.
  - intros i Hi. apply unmarshal_sound; [by apply Submission_sound|apply Submission_back].
  - intros i Hi Hw. apply unmarshal_sound; [by apply StatusInput_sound|by apply StatusInput_back].
Qed.

#[export] Instance go_client_laws : ClientJSONLaws.
Proof.
  split.
  - intros i Hu Hd. apply unmarshal_sound; [by apply Identity_sound|apply Identity_back].
  - intros e He. apply unmarshal_sound; [apply envelope_sound|by apply envelope_back].
  - intros i Hu Hs. apply unmarshal_sound; [by apply invitation_sound|apply invitation_back].
Qed.

#[export] Instance go_authority_laws : AuthorityJSONLaws.
Proof. split. intros a Ha. apply unmarshal_sound; [by apply authority_sound|apply authority_back]. Qed.

(** ** The certificate that a device is given *)

(** [map[string]any{"device_id": id, "certificate": cert}], its keys in order. *)
Definition certificate_json (id cert : string) : json :=
  struct_json [member "certificate" (bytes_json cert); member "device_id" (text id)].

Lemma certificate_back id cert : into_struct false certificate_fields (certificate_json id cert) ("", "") = Some (id, cert).
Proof. unfold certificate_json, struct_json. cbn -[into_struct int_json bytes_json]. read_struct. Qed.

Lemma certificate_sound id cert : ValidString id = true → sound 3 (certificate_json id cert).
Proof. intros Hi. sound_struct. Qed.

(** C19: What the program writes as JSON it reads back: the submissions and polls that
    the adapter sends and the server decodes strictly, the snapshots and results that
    the database keeps, the identity file and its envelope, invitations, certificates
    and the authority — everything that is UTF-8 and within the width of an integer,
    byte fields whatever they are. *)
Theorem json_roundtrip (line : string) (Hline : delimits line = true) :
  (∀ i, utf8_submission i → decode_submission (encode (Submission_json i)) = Some i) ∧
  (∀ i, ValidString (si_RequestID i) = true → is_int (si_WaitSeconds i) = true →
     decode_status_input (encode (StatusInput_json i)) = Some i) ∧
  (∀ s, utf8_snapshot s = true → unmarshal_snapshot (encode (Snapshot_json s)) = Some s) ∧
  (∀ r, utf8_result r = true → unmarshal_result (encode (Result_json r)) = Some r) ∧
  (∀ i, ValidString (id_URL i) = true → ValidString (id_DeviceID i) = true →
     unmarshal_identity (encode (Identity_json i)) = Some i) ∧
  (∀ e, is_int (ev_Version e) = true → unmarshal_envelope (encode (envelope_json e)) = Some e) ∧
  (∀ i, ValidString (iv_URL i) = true → ValidString (iv_Secret i) = true →
     unmarshal_invitation (encode (invitation_json i)) = Some i) ∧
  (∀ a, ValidString (a_URL a) = true → unmarshal_authority (encode (authority_json a)) = Some a) ∧
  (∀ id cert, ValidString id = true → decode_certificate (encode (certificate_json id cert) +:+ line) = Some (id, cert)).
Proof.
  split_and!; [exact submission_decodes|exact status_decodes|exact snapshot_roundtrip|exact result_roundtrip|exact identity_roundtrip
    |exact envelope_roundtrip|exact invitation_roundtrip|exact authority_roundtrip|intros id cert Hi].
  destruct (certificate_sound id cert Hi) as [Hp Hd].
  apply decode_first_encode; [done|unfold max_depth; lia|done|apply certificate_back].
Qed.

(** The reader takes what the writer would not write: other letter case, escapes,
    white space, keys in any order. *)
Lemma json_roundtrip_witness :
  delimits (String "010" EmptyString) = true ∧
  decode_status_input (" { " +:+ quote "WAIT_seconds" +:+ " : 5 , " +:+ quote "request_id" +:+ ": "
    +:+ String quotation ("re\u0071_1" +:+ String quotation " } ")) = Some (mkStatusInput "req_1" 5) ∧
  decode_status_input ("{" +:+ quote "extra" +:+ ":1}") = None ∧
  decode_certificate (encode (certificate_json "dev_1" (String "200" "pem")) +:+ String "010" EmptyString)
    = Some ("dev_1", String "200" "pem").
Proof.
  split; [reflexivity|]. split; [vm_compute; reflexivity|]. split; [vm_compute; reflexivity|].
  exact (proj2 (proj2 (proj2 (proj2 (proj2 (proj2 (proj2 (proj2 (json_roundtrip (String "010" EmptyString) eq_refl)))))))) "dev_1"
    (String "200" "pem") eq_refl).
Defined.
