(* ===== verification/Replies.v ===== *)
(** Replies end to end: what the devices' handler answers, [JSON] and [Error] of
    src/internal/server/server.go write, the connector relays and the adapter reads,
    so that the agent is told the server's own answer.

    The text of a status, a list of scopes and an error is that of [encoding/json];
    how a certificate or a proxied response is written stays a parameter, as no tool
    of the adapter asks for one. *)
From S2P Require Import Prelude GoStrings NetUrl GoTime Json Http GoNet Access Upstream Crypto Assign Types Db Rules Samples.
From S2P Require Import Lifecycle Dispatching Limits Device Authority Certifying Files Identity Keeping Connector Forwarding.
From S2P Require Import Adapter Adapting Coders Refusals.

(** * Objects on the wire *)

Definition advice : string := "Use budge_request through MCP to ask for individual approval.".

(** [map[string]any{"error": detail}], the keys in order. *)
Definition error_json (code : string) : json :=
  JObject [("error", JObject (("code", text code) ::
    (if bool_decide (code = "approval_required") then [("message", text advice)] else [])))].

(** [requests.Status], and its fields. *)
Definition Status_members (st : Status) : list (option (string * json)) := [
  member "request_id" (text (st_RequestID st));
  member "status" (text (status_string (st_Status st)));
  member "expires_at" (text (FormatRFC3339 (st_Expires st)));
  unless (bool_decide (st_Digest st = EmptyString)) "digest" (text (st_Digest st));
  unless (bool_decide (st_Reason st = EmptyString)) "reason" (text (st_Reason st));
  unless (bool_decide (st_NextAction st = EmptyString)) "next_action" (text (st_NextAction st));
  unless (bool_decide (st_PollAfterMS st = 0%Z)) "poll_after_ms" (int_json (st_PollAfterMS st));
  (r ← st_Result st; member "result" (Result_json r));
  unless (negb (st_PayloadPurged st)) "payload_purged" (JBool true)].
Definition Status_json (st : Status) : json := struct_json (Status_members st).

(** An entry of the list of scopes: a map, so its keys come in order. *)
Definition scope_json (e : scope_entry) : json := struct_json [
  (t ← sc_expires e; member "expires_at" (text (FormatRFC3339 t)));
  member "label" (text (sc_label e));
  member "methods" (texts (sc_methods e));
  member "mode" (text (sc_mode e));
  member "path" (text (sc_path e));
  member "path_kind" (text (sc_kind e));
  member "permission_id" (text (sc_permission e));
  member "service" (text (sc_service e))].

Definition scopes_json (l : list scope_entry) : json := JObject [("scopes", JArray (map scope_json l))].

(** [json.Encoder] ends the line. *)
Definition JSON (v : json) : string := encode v +:+ String "010" EmptyString.
Definition Error (status : Z) (code : string) : Z * string := (status, JSON (error_json code)).

(** What a tool of the adapter asks for. *)
Definition reply_json (r : device_reply) : option (Z * json) :=
  match r with
  | DRefuse status code => Some (status, error_json code)
  | Scopes l => Some (200%Z, scopes_json l)
  | StatusReply st => Some (200%Z, Status_json st)
  | _ => None
  end.

(** What the server puts on the wire; [shown] is the text of the other replies. *)
Definition wire (shown : device_reply → option (Z * string)) (r : device_reply) : option (Z * string) :=
  match reply_json r with Some (status, v) => Some (status, JSON v) | None => shown r end.

(** What the agent is told: an error with the server's code, or the object. *)
Definition told (r : device_reply) : option (result object) :=
  match r with
  | DRefuse _ code => Some (Err (ErrMsg code))
  | _ => '(_, v) ← reply_json r; match coerced v with JObject l => Some (Ok l) | _ => None end
  end.

(** The answer fits through the limits of the connector and of the adapter. *)
Definition fits (r : device_reply) : Prop :=
  match reply_json r with Some (_, v) => (len (JSON v) <= 2097152)%N | None => True end.

(** * They can be read *)

(** Integers only, and at most [n] deep. *)
Definition tidy (n : N) (v : json) : Prop := whole v = true ∧ (depth v <= n)%N.

Lemma texts_tidy l : tidy 1 (texts l).
Proof.
  split; [|apply (depth_list text 0); by apply Forall_forall]. simpl. apply forallb_forall. by intros v (s & <- & _)%in_map_iff.
Qed.

Lemma header_tidy h : tidy 2 (header_json h).
Proof.
  split; [|apply (depth_map texts 1); intros l; apply texts_tidy]. simpl. apply forallb_forall.
  intros kv (x & <- & _)%in_map_iff. apply texts_tidy.
Qed.

Lemma struct_tidy n l :
  Forall (λ m, match m with Some (_, v) => tidy n v | None => True end) l → tidy (N.succ n) (struct_json l).
Proof.
  intros Hl. assert (Forall (λ kv, tidy n kv.2) (omap id l)) as Hm.
  { induction Hl as [|[[k v]|] l Hx _ IH]; [done|by constructor|done]. }
  split; simpl.
  - apply forallb_forall. intros kv Hin%list_elem_of_In. rewrite Forall_forall in Hm. apply (Hm kv Hin).
  - apply -> N.succ_le_mono. apply depth_below. eapply Forall_impl; [exact Hm|]. intros kv (_ & Hd). exact Hd.
Qed.

Lemma tidy_more n m v : (n <= m)%N → tidy n v → tidy m v.
Proof. intros Hn [Hw Hd]. split; [done|lia]. Qed.

Lemma int_tidy n z : tidy n (int_json z).
Proof. split; [apply itoa_literal|apply N.le_0_l]. Qed.

(** Member by member. *)
Ltac tidy_struct :=
  repeat (apply List.Forall_cons || apply List.Forall_nil); unfold unless; repeat case_bool_decide;
  first [done | by split | apply int_tidy | apply header_tidy | idtac].

Lemma Result_tidy r : tidy 3 (Result_json r).
Proof. apply (struct_tidy 2). tidy_struct. Qed.

Lemma Status_tidy st : tidy 4 (Status_json st).
Proof.
  apply (struct_tidy 3). tidy_struct; [destruct (st_Result st); [apply Result_tidy|done]|by destruct (st_PayloadPurged st)].
Qed.

Lemma scope_tidy e : tidy 2 (scope_json e).
Proof. apply (struct_tidy 1). tidy_struct; [by destruct (sc_expires e)|apply texts_tidy]. Qed.

Lemma scopes_tidy l : tidy 4 (scopes_json l).
Proof.
  split; simpl.
  - rewrite andb_true_r. apply forallb_forall. intros v (e & <- & _)%in_map_iff. apply scope_tidy.
  - pose proof (depth_list scope_json 2 l) as Hd. cbn [depth] in Hd. rewrite N.max_0_r. specialize (Hd ltac:(apply Forall_forall; intros e _; apply scope_tidy)). lia.
Qed.

Lemma error_tidy code : tidy 4 (error_json code).
Proof. unfold error_json. by case_bool_decide. Qed.

Lemma reply_tidy r status v : reply_json r = Some (status, v) → tidy 4 v.
Proof. destruct r; try done; intros [= <- <-]; [apply error_tidy|apply scopes_tidy|apply Status_tidy]. Qed.

(** The codes are short, and text that JSON keeps. *)
Lemma refusals_short s code : (s, code) ∈ device_refusals →
  ValidString code = true ∧ (String.length (JSON (error_json code)) <= 1000)%nat ∧ (400 <= s < 600)%Z.
Proof.
  assert (forallb (λ p, ValidString p.2 && (String.length (JSON (error_json p.2)) <=? 1000)%nat
    && (400 <=? p.1)%Z && (p.1 <? 600)%Z) device_refusals = true) as Hall by (vm_compute; reflexivity).
  intros Hin%list_elem_of_In. rewrite forallb_forall in Hall. specialize (Hall _ Hin). cbn [fst snd] in Hall.
  apply andb_true_iff in Hall as [[[Hp Hb%Nat.leb_le]%andb_true_iff H1']%andb_true_iff H2'].
  split_and!; [done|done|by apply Z.leb_le|by apply Z.ltb_lt].
Qed.

Lemma reported_error code : ValidString code = true →
  ∃ o, coerced (error_json code) = JObject o ∧ reported_code o = code.
Proof.
  intros Hv. eexists. split; [reflexivity|]. unfold reported_code, field. simpl.
  case_bool_decide; simpl; by rewrite coerce_valid.
Qed.

Lemma limits_equal : response_max = N.to_nat socket_response_max.
Proof. #[local] Transparent response_max. reflexivity. Qed.

Lemma refusal_fits s code : (s, code) ∈ device_refusals → (len (JSON (error_json code)) <= 2097152)%N.
Proof. intros Hin. destruct (refusals_short _ _ Hin) as (_ & Hl & _). rewrite len_length. lia. Qed.

Lemma reply_read s v : tidy 4 v → (len (JSON v) <= 2097152)%N →
  read_response (Some (relayed_by_socket (Some (s, JSON v)))) =
  match coerced v with
  | JObject o => if negb (s =? 200)%Z then Err (ErrMsg (reported_code o)) else Ok o
  | JNull => if negb (s =? 200)%Z then Err (ErrMsg (reported_code [])) else Ok []
  | _ => Err (ErrMsg "invalid connector response")
  end.
Proof.
  intros [Hw Hd] Hl. unfold read_response, relayed_by_socket. rewrite limits_equal.
  assert (String.length (JSON v) ≤ N.to_nat socket_response_max)%nat as Hb by (rewrite len_length in Hl; unfold socket_response_max; lia).
  rewrite !take_all by (rewrite ?take_all by done; done). unfold decode_object, decode_first, JSON.
  rewrite first_value_coerced by (unfold max_depth; done || lia). cbn [mbind option_bind]. by destruct (coerced v).
Qed.

(** * Properties *)

Section replies.
Context `{GoCrypto} `{AdapterLaws}.

(** The server behind the connection of a device, in the world [w]; of a request whose
    body breaks off, no answer is counted on. *)
Definition device_server (tls : option certificate) (h : header) (enrol : option (string * option csr))
    (renewing : option (option csr)) (waits : list (option (world → world)))
    (transport : outgoing → transport_result http_response) (shown : device_reply → option (Z * string)) (w : world)
    (q : outgoing) : option (Z * string) :=
  r ← arrives q h;
  if (socket_body_max <? len (o_body q))%N then None else
  match (DeviceHandler (mkDeviceRequest r tls (o_body q) enrol renewing) waits transport w).1 with
  | Ok reply => wire shown reply
  | Err _ => None
  end.

Lemma reply_told r res : (∀ s c, r = DRefuse s c → (s, c) ∈ device_refusals) → told r = Some res → fits r →
  ∃ s v, reply_json r = Some (s, v) ∧ read_response (Some (relayed_by_socket (Some (s, JSON v)))) = res.
Proof.
  intros Href Ht Hf. unfold told, fits in *. destruct (reply_json r) as [[s v]|] eqn:E; [|by destruct r].
  exists s, v. split; [done|]. rewrite reply_read by (done || by eapply reply_tidy).
  destruct r; try done; injection E as <- <-; simpl in Ht.
  - destruct (refusals_short _ _ (Href _ _ eq_refl)) as (Hv & _ & Hs). destruct (reported_error code Hv) as (o & -> & ->).
    assert ((status =? 200)%Z = false) as -> by lia. by injection Ht.
  - by injection Ht.
  - by injection Ht.
Qed.

Lemma wp_reply_told url authority a t m p payload tls h enrol renewing waits transport shown w reply res c
    (Ho : origin url authority a) (Hm : message t = Ok (m, p, payload)) (Hc : from_json t)
    (Hl : (len payload <= socket_body_max)%N)
    (Hr : (authenticated tls (served t payload waits) w).1 = Ok reply) (Ht : told reply = Some res) (Hf : fits reply) :
  (New url (device_server tls h enrol renewing waits transport shown w) t c).1 = res.
Proof.
  set (server := device_server _ _ _ _ _ _ _ _). pose proof (wp_tools url authority a server t c Ho Hc) as Hw.
  unfold wp, reached in Hw. rewrite Hm in Hw. destruct Hw as (target & q & _ & _ & Hqm & Hb & _ & -> & Hv).
  destruct (Hv h) as [Harr Hd]. specialize (Hd tls enrol renewing waits transport w).
  assert (∀ s code, reply = DRefuse s code → (s, code) ∈ device_refusals) as Href.
  { intros s code ->. rewrite <-Hd in Hr. exact (refuses (R := device_refusals) _ _ _ Hr). }
  destruct (reply_told reply res Href Ht Hf) as (s & v & Hj & <-).
  assert (server q = Some (s, JSON v)) as ->; [|done].
  unfold server, device_server. rewrite Harr. cbn [mbind option_bind].
  apply N.ltb_ge in Hl. rewrite Hd, Hr, Hb. unfold socket_body. rewrite Hl, Hl. unfold wire. by rewrite Hj.
Qed.

(** C16: Answers end to end, for input that came as JSON and a message of at most 512
    KiB, which the socket carries whole: when the operation of the server that a tool
    stands for refuses it, for whatever reason, the tool fails with exactly the
    server's code; when it answers with a status or a list of scopes, the tool gives
    the agent that answer, field by field (text that is not UTF-8 made so), provided
    it fits the two limits of 2 MiB — through [JSON] and [Error], the connector and the
    adapter's reading of the response. *)
Theorem replies_told url authority a t m p payload tls h enrol renewing waits transport shown w reply res c
    (Ho : origin url authority a) (Hm : message t = Ok (m, p, payload)) (Hc : from_json t)
    (Hl : (len payload <= socket_body_max)%N)
    (Hr : (authenticated tls (served t payload waits) w).1 = Ok reply) (Ht : told reply = Some res) (Hf : fits reply) :
  (New url (device_server tls h enrol renewing waits transport shown w) t c).1 = res.
Proof. by eapply wp_reply_told. Qed.

End replies.

(** * A witness: the scopes of a device *)

#[local] Existing Instance plain_crypto.

Definition active_certificate : option certificate := Some (mkCertificate "dev_1" 0 (2000 * second)).

(** What the agent sees. *)
Definition seen_scopes : list scope_entry :=
  [mkScope "api" "Example" "perm_1" ["GET"] "/v1/jobs" "subtree" "standing" None;
   mkScope "api" "Example" "perm_2" ["POST"] "/v1/jobs" "exact" "approval_required" None].

Definition seen_object : object :=
  [("scopes", JArray [
     JObject [("label", JString "Example"); ("methods", JArray [JString "GET"]); ("mode", JString "standing");
       ("path", JString "/v1/jobs"); ("path_kind", JString "subtree"); ("permission_id", JString "perm_1"); ("service", JString "api")];
     JObject [("label", JString "Example"); ("methods", JArray [JString "POST"]); ("mode", JString "approval_required");
       ("path", JString "/v1/jobs"); ("path_kind", JString "exact"); ("permission_id", JString "perm_2"); ("service", JString "api")]])].

Lemma replies_told_witness :
  (authenticated active_certificate (served budge_services EmptyString []) sample_world).1 = Ok (Scopes seen_scopes) ∧
  (New sample_url (device_server active_certificate ∅ None None [] (λ _, TError true) (λ _, None) sample_world)
    budge_services idle).1 = Ok seen_object.
Proof.
  assert ((authenticated active_certificate (served budge_services EmptyString []) sample_world).1 = Ok (Scopes seen_scopes)) as H
    by (vm_compute; reflexivity).
  assert (origin sample_url "budge.example:18781" "budge.example:18781") as Ho by (split_and!; vm_compute; reflexivity).
  assert (told (Scopes seen_scopes) = Some (Ok seen_object)) as Ht by (vm_compute; reflexivity).
  assert (fits (Scopes seen_scopes)) as Hf by (vm_compute; discriminate).
  split; [exact H|].
  exact (replies_told _ _ _ budge_services "GET" "/services" EmptyString active_certificate ∅ None None []
    (λ _, TError true) (λ _, None) sample_world (Scopes seen_scopes) (Ok seen_object) idle Ho eq_refl I ltac:(vm_compute; discriminate) H Ht Hf).
Defined.
