(* ===== verification/Fitting.v ===== *)
(** Sizes: what a dispatch stores of a response and [RequestStatus] gives back always
    fits the two limits of 2 MiB on its way to the agent, those of
    src/internal/client/socket.go and src/internal/mcp/mcp.go, under the limits of
    the dispatch itself: the first mebibyte of a body, a text form that is not much
    longer than its base64 form, and 32 KiB of response headers. *)
From S2P Require Import Prelude GoStrings GoTime Json Http Access Upstream Crypto Assign Types Db Rules Samples.
From S2P Require Import Lifecycle Dispatching Limits Device Coders Refusals Adapter Replies.

(** * Headers *)

(** The bytes of a header on the wire: a name, a value and three bytes more for each
    value, at least. *)
Definition line_bytes (k : string) (v : string) : nat := String.length k + String.length v + 3.
Definition lines_bytes (kv : string * list string) : nat := sum_list_with (line_bytes kv.1) kv.2.
Definition header_bytes (h : header) : nat := sum_list_with lines_bytes (map_to_list h).

Lemma sum_submap {A} (f : string * A → nat) (m1 m2 : gmap string A) :
  (∀ k a, m1 !! k = Some a → ∃ b, m2 !! k = Some b ∧ (f (k, a) ≤ f (k, b))%nat) →
  (sum_list_with f (map_to_list m1) ≤ sum_list_with f (map_to_list m2))%nat.
Proof.
  revert m2. induction m1 as [|k a m1 Hk IH] using map_ind; intros m2 Hm; [rewrite map_to_list_empty; simpl; lia|].
  destruct (Hm k a (lookup_insert_eq _ _ _)) as (b & Hb & Hab). rewrite map_to_list_insert by done.
  rewrite <-(map_to_list_delete m2 k b Hb). simpl. apply Nat.add_le_mono; [done|]. apply IH. intros j c Hj.
  assert (j ≠ k) as Hne by congruence. destruct (Hm j c) as (d & Hd & Hcd); [by rewrite lookup_insert_ne|].
  exists d. by rewrite lookup_delete_ne.
Qed.

Lemma sum_sublist {A} (f : A → nat) P `{!∀ a, Decision (P a)} l :
  (sum_list_with f (filter P l) ≤ sum_list_with f l)%nat.
Proof. induction l as [|a l IH]; [done|]. rewrite filter_cons. destruct (decide (P a)); simpl; lia. Qed.

(** Filtering makes no header longer, and leaves no name without a value. *)
Lemma Headers_bytes src allowed cred :
  NoDup (map CanonicalHeaderKey allowed) →
  (header_bytes (Headers src allowed cred) ≤ header_bytes src)%nat ∧
  map_Forall (λ _ l, l ≠ []) (Headers src allowed cred).
Proof.
  intros Hnd. assert (∀ k l, Headers src allowed cred !! k = Some l →
    CanonicalHeaderKey k = k ∧ l ≠ [] ∧ l = filter (λ v, HeaderValue v = true) (Values src k)) as Hl.
  { intros k l. rewrite Headers_lookup by done. destruct (decide _) as [Hin|]; [|done]. unfold passed.
    apply list_elem_of_fmap in Hin as (n & -> & _). rewrite CanonicalHeaderKey_idem.
    destruct (passes _ _ _); [|done]. case_bool_decide; [|done]. by intros [= <-]. }
  split; [|by intros k l (_ & Hn & _)%Hl]. apply sum_submap. intros k l (Hk & Hn & ->)%Hl.
  unfold Values in *. rewrite Hk in *. destruct (src !! k) as [l0|] eqn:E; [|done]. exists l0. split; [done|].
  simpl. apply sum_sublist.
Qed.

(** * Their text *)

Lemma texts_length k l : l ≠ [] →
  (4 + String.length (quoted k) + String.length (encode (texts l)) ≤ 6 * lines_bytes (k, l))%nat.
Proof.
  intros Hl. pose proof (array_length (map text l)) as Ha. pose proof (quoted_length k) as Hk. unfold texts.
  assert (sum_list_with (λ v, S (String.length (encode v))) (map text l)
    ≤ sum_list_with (λ v, 6 * String.length v + 3) l)%nat as Hs.
  { clear. induction l as [|v l IH]; [done|]. cbn [map sum_list_with]. pose proof (quoted_length v) as Hv.
    change (encode (text v)) with (quote v). rewrite quote_length. lia. }
  assert (6 * String.length k + 6 + sum_list_with (λ v, 6 * String.length v + 3) l ≤ 6 * lines_bytes (k, l))%nat; [|lia].
  unfold lines_bytes, line_bytes. cbn [fst snd]. clear Ha Hs Hk. destruct l as [|v l]; [done|]. clear Hl. cbn [sum_list_with].
  assert (sum_list_with (λ v, 6 * String.length v + 3) l
    ≤ 6 * sum_list_with (λ v, String.length k + String.length v + 3) l)%nat; [|lia].
  induction l as [|w l IH]; cbn [sum_list_with]; lia.
Qed.

Lemma header_length h : map_Forall (λ _ l, l ≠ []) h → (String.length (encode (header_json h)) ≤ 2 + 6 * header_bytes h)%nat.
Proof.
  intros Hh. unfold header_json, map_json. etransitivity; [apply object_length|]. apply le_n_S, le_n_S.
  unfold header_bytes. rewrite <-(sorted_map_perm h).
  assert (Forall (λ kv, kv.2 ≠ []) (sorted_map h)) as Hs.
  { rewrite sorted_map_perm. apply Forall_forall. intros [k l] Hin. apply elem_of_map_to_list in Hin. exact (Hh k l Hin). }
  induction Hs as [|[k l] ls Hl _ IH]; [done|]. cbn [map sum_list_with fst snd]. pose proof (texts_length k l Hl). lia.
Qed.

(** * Numbers and base64 *)

Lemma go_length k : ∀ n s, (n < 10 ^ N.of_nat k)%N → (String.length (pretty_N_go n s) ≤ k + String.length s)%nat.
Proof.
  induction k as [|k IH]; intros n s Hn; [assert (n = 0)%N as -> by lia; by rewrite pretty_N_go_0|].
  destruct (decide (n = 0)%N) as [->|Hz]; [rewrite pretty_N_go_0; lia|]. rewrite pretty_N_go_step by lia.
  etransitivity; [apply IH|simpl; lia]. rewrite Nat2N.inj_succ, N.pow_succ_r' in Hn. apply N.Div0.div_lt_upper_bound. lia.
Qed.

Lemma itoa_length k z : (0 < k)%nat → (Z.abs z < 10 ^ Z.of_nat k)%Z → (String.length (itoa z) ≤ S k)%nat.
Proof.
  intros Hk Hz. assert (∀ p, (Z.pos p < 10 ^ Z.of_nat k)%Z → (String.length (pretty (Npos p)) ≤ k)%nat) as Hp.
  { intros p Hp. change (pretty (Npos p)) with (pretty_N_go (Npos p) EmptyString).
    pose proof (go_length k (Npos p) EmptyString) as Hl. simpl in Hl. rewrite Nat.add_0_r in Hl. apply Hl.
    apply N2Z.inj_lt. by rewrite N2Z.inj_pow, nat_N_Z. }
  destruct z as [|p|p]; [change (1 ≤ S k)%nat; lia|..]; [change (itoa (Zpos p)) with (pretty (Npos p))|change (itoa (Zneg p)) with ("-" +:+ pretty (Npos p))].
  - specialize (Hp p Hz). lia.
  - specialize (Hp p Hz). rewrite length_app_string. cbn [String.length]. lia.
Qed.

Lemma base64_quote b : String.length (quote (StdEncoding b)) = (2 + String.length (StdEncoding b))%nat.
Proof.
  rewrite quote_length, quoted_unescaped; [done|]. unfold StdEncoding. rewrite all_bytes_app, andb_true_iff.
  split; [by apply b64_raw_bytes|]. by destruct (_ mod 3)%nat as [|[|[|]]].
Qed.

(** * Results and statuses *)

(** The stored form of a body, quoted: at most a third longer than a mebibyte. *)
Lemma body_length svc res :
  (String.length (quote (res_Body (read_result svc res).2)) ≤ N.to_nat 1398117)%nat.
Proof.
  unfold read_result. rewrite !take_N_take. change body_limit with 1048576%N.
  set (b := take_bytes (N.to_nat 1048576) _). assert (String.length b ≤ N.to_nat 1048576)%nat as Hb.
  { unfold b. rewrite length_take_bytes. lia. }
  rewrite (len_length b), (len_length (marshal_string b)). pose proof (StdEncoding_length b) as Hs.
  clearbody b. destruct (ValidString b && _) eqn:E.
  - apply andb_true_iff in E as [_ E%N.leb_le]. change (marshal_string b) with (quote b) in E.
    assert (String.length (quote b) ≤ N.to_nat 1398117)%nat by lia. by destruct (read_fails res).
  - assert (String.length (quote (StdEncoding b)) ≤ N.to_nat 1398117)%nat by (rewrite base64_quote; lia). by destruct (read_fails res).
Qed.

Lemma bool_length b : (String.length (encode (JBool b)) ≤ 5)%nat.
Proof. destruct b; simpl; lia. Qed.

Lemma text_length s : (String.length (encode (text s)) ≤ 2 + 6 * String.length s)%nat.
Proof. change (encode (text s)) with (quote s). rewrite quote_length. pose proof (quoted_length s). lia. Qed.

Lemma int_length z : (0 <= z < 100000)%Z → (String.length (encode (int_json z)) ≤ 6)%nat.
Proof. intros Hz. apply (itoa_length 5); lia. Qed.

Lemma read_result_fields svc res :
  let r := (read_result svc res).2 in
  res_HTTPStatus r = rsp_status res ∧ res_Headers r = Headers (rsp_header res) (svc_ResponseHeaders svc) (svc_AuthHeader svc)
  ∧ (String.length (res_Encoding r) ≤ 6)%nat.
Proof. unfold read_result. destruct (_ && _), (read_fails res); simpl; split_and!; try done; lia. Qed.

Section fitting.
Context (svc : Service) (res : response).
Context (Hnd : NoDup (map CanonicalHeaderKey (svc_ResponseHeaders svc))).
Context (Hheader : (N.of_nat (header_bytes (rsp_header res)) <= 32768)%N) (Hstatus : (0 <= rsp_status res < 1000)%Z).

Lemma Result_length : (String.length (encode (Result_json (read_result svc res).2)) ≤ N.to_nat 1595100)%nat.
Proof using Hnd Hheader Hstatus.
  pose proof (body_length svc res) as Hbody. destruct (read_result_fields svc res) as (Hs & Hh & He).
  set (r := (read_result svc res).2) in *. destruct (Headers_bytes (rsp_header res) _ (svc_AuthHeader svc) Hnd) as [Hb Hne].
  rewrite <-Hh in Hb, Hne. pose proof (header_length _ Hne) as Hl. pose proof (int_length (res_HTTPStatus r) ltac:(lia)) as Hi.
  pose proof (text_length (res_Encoding r)) as Ht. pose proof (bool_length (res_Truncated r)) as H1.
  pose proof (bool_length (res_Incomplete r)) as H2. change (quote (res_Body r)) with (encode (text (res_Body r))) in Hbody.
  unfold Result_json, struct_json. cbn [omap list_omap member id]. etransitivity; [apply object_length|].
  cbn [sum_list_with fst snd]. change (String.length (quoted "http_status")) with 11%nat.
  change (String.length (quoted "headers")) with 7%nat. change (String.length (quoted "body")) with 4%nat.
  change (String.length (quoted "encoding")) with 8%nat. change (String.length (quoted "result_truncated")) with 16%nat.
  change (String.length (quoted "result_incomplete")) with 17%nat. clearbody r. lia.
Qed.

End fitting.

Definition member_size (m : option (string * json)) : nat :=
  match m with Some (k, v) => 4 + String.length (quoted k) + String.length (encode v) | None => 0 end.

Lemma struct_length l : (String.length (encode (struct_json l)) ≤ 2 + sum_list_with member_size l)%nat.
Proof.
  etransitivity; [apply object_length|]. apply le_n_S, le_n_S. induction l as [|[[k v]|] l IH]; [done| |exact IH].
  change (omap id (Some (k, v) :: l)) with ((k, v) :: omap id l). cbn [sum_list_with member_size fst snd]. lia.
Qed.

Lemma unless_size b k v n : (String.length (encode v) ≤ n)%nat → (member_size (unless b k v) ≤ 4 + String.length (quoted k) + n)%nat.
Proof. intros Hv. destruct b; simpl; lia. Qed.

(** Text of the server's own making. *)
Definition short (s : string) : Prop := (String.length s ≤ 500)%nat.

Lemma short_text s : short s → (String.length (encode (text s)) ≤ 3002)%nat.
Proof. unfold short. pose proof (text_length s). lia. Qed.

Lemma wp_result_fits svc res st
    (Hnd : NoDup (map CanonicalHeaderKey (svc_ResponseHeaders svc)))
    (Hheader : (N.of_nat (header_bytes (rsp_header res)) <= 32768)%N) (Hstatus : (0 <= rsp_status res < 1000)%Z)
    (Hresult : st_Result st = Some (read_result svc res).2)
    (Htext : Forall short [st_RequestID st; st_Digest st; st_Reason st; st_NextAction st])
    (Hexpires : (0 <= st_Expires st < 253370764800)%Z) (Hpoll : (0 <= st_PollAfterMS st < 100000)%Z) :
  fits (StatusReply st).
Proof.
  pose proof (Result_length svc res Hnd Hheader Hstatus) as Hr. unfold fits. cbn [reply_json]. unfold JSON.
  rewrite len_length, length_app_string. cbn [String.length].
  pose proof (struct_length (Status_members st)) as Hl. fold (Status_json st) in Hl.
  unfold Status_members in Hl. cbn [sum_list_with] in Hl. rewrite Hresult in Hl. cbn [mbind option_bind] in Hl.
  rewrite !Forall_cons in Htext. destruct Htext as (H1%short_text & H2%short_text & H3%short_text & H4%short_text & _).
  pose proof (unless_size (bool_decide (st_Digest st = EmptyString)) "digest" _ _ H2) as E2.
  pose proof (unless_size (bool_decide (st_Reason st = EmptyString)) "reason" _ _ H3) as E3.
  pose proof (unless_size (bool_decide (st_NextAction st = EmptyString)) "next_action" _ _ H4) as E4.
  pose proof (unless_size (bool_decide (st_PollAfterMS st = 0%Z)) "poll_after_ms" _ _ (int_length _ Hpoll)) as E5.
  pose proof (unless_size (negb (st_PayloadPurged st)) "payload_purged" _ _ (bool_length true)) as E6.
  assert (String.length (encode (text (status_string (st_Status st)))) ≤ 200)%nat as E7 by (destruct (st_Status st); vm_compute; lia).
  pose proof (text_length (FormatRFC3339 (st_Expires st))) as E8. rewrite format_length in E8 by done.
  assert (∀ k v, member_size (member k v) = 4 + String.length (quoted k) + String.length (encode v))%nat as Hm by done.
  rewrite !Hm in Hl. pose proof (quoted_length "request_id"). pose proof (quoted_length "status").
  pose proof (quoted_length "expires_at"). pose proof (quoted_length "result"). pose proof (quoted_length "digest").
  pose proof (quoted_length "reason"). pose proof (quoted_length "next_action"). pose proof (quoted_length "poll_after_ms").
  pose proof (quoted_length "payload_purged"). cbn [String.length] in *. clear H2 H3 H4 Hm Hresult.
  lia.
Qed.

(** C18: Whatever an upstream answers, within the 32 KiB of headers that the transport
    reads, a status with its stored result fits the two limits of 2 MiB between the
    server and the agent, escapes and base64 included, so that it is never cut. *)
Theorem stored_result_fits svc res st
    (Hnd : NoDup (map CanonicalHeaderKey (svc_ResponseHeaders svc)))
    (Hheader : (N.of_nat (header_bytes (rsp_header res)) <= 32768)%N) (Hstatus : (0 <= rsp_status res < 1000)%Z)
    (Hresult : st_Result st = Some (read_result svc res).2)
    (Htext : Forall short [st_RequestID st; st_Digest st; st_Reason st; st_NextAction st])
    (Hexpires : (0 <= st_Expires st < 253370764800)%Z) (Hpoll : (0 <= st_PollAfterMS st < 100000)%Z) :
  fits (StatusReply st).
Proof. by eapply wp_result_fits. Qed.

(** * Witness *)

Definition sample_response : response :=
  mkResponse 200 {[ "Content-Type" := ["text/html"]; "Set-Cookie" := ["a=b"] ]} "one & two" body_ends.
Definition sample_answering : Service :=
  mkService "api" "Example" "https://api.example.com" "bearer" "" "" 1 "" [] ["Content-Type"].

Definition sample_status : Status :=
  mkStatus "req_1" completed 1600000000 "digest" "" "" 0 (Some (read_result sample_answering sample_response).2) false.

Lemma stored_result_fits_witness :
  encode (Result_json (read_result sample_answering sample_response).2) =
    "{" +:+ quote "http_status" +:+ ":200," +:+ quote "headers" +:+ ":{" +:+ quote "Content-Type" +:+ ":[" +:+ quote "text/html" +:+ "]},"
    +:+ quote "body" +:+ ":" +:+ String quotation ("one \u0026 two" +:+ String quotation ",")
    +:+ quote "encoding" +:+ ":" +:+ quote "utf-8" +:+ "," +:+ quote "result_truncated" +:+ ":false,"
    +:+ quote "result_incomplete" +:+ ":false}" ∧
  fits (StatusReply sample_status).
Proof.
  split; [vm_compute; reflexivity|]. apply (stored_result_fits sample_answering sample_response sample_status).
  - apply (bool_decide_eq_true_1 (NoDup _)). vm_compute. reflexivity.
  - vm_compute. discriminate.
  - simpl. lia.
  - reflexivity.
  - repeat (apply List.Forall_cons || apply List.Forall_nil); vm_compute; lia.
  - simpl. lia.
  - simpl. lia.
Defined.
