(* ===== verification/Answering.v ===== *)
(** From the upstream to the agent: the result that a dispatch stores is the one that
    the agent's tool for polling gives it, through the sealed row, the status, its
    JSON, the connector and the adapter.

    This composes the account of a dispatch (Dispatching), of a status (Submitting), of
    the tools (Adapting), of the replies (Replies) and of their size (Fitting), over
    the JSON of Coders. *)
From S2P Require Import Prelude GoStrings NetUrl GoTime Json Http GoNet Access Upstream Crypto Assign Types Db Schema Rules Samples.
From S2P Require Import Authorize Lifecycle Life Closing Submitting Dispatching Limits Device Guarding Enrolling Authority Certifying Files.
From S2P Require Import Identity Keeping Connector Forwarding Adapter Adapting Coders Refusals Replies Fitting.

(** A poll that does not wait. *)
Definition poll (id : string) : StatusInput := mkStatusInput id 0.

(** A poll fits the limit of its operation. *)
Lemma poll_fits id : short id → (4096 <? len (marshal_status_input (poll id)))%N = false.
Proof.
  intros Hs. apply N.ltb_ge.
  change (marshal_status_input (poll id)) with (encode (struct_json [member "request_id" (text id); None])). rewrite len_length.
  pose proof (struct_length [member "request_id" (text id); None]) as Hl. cbn [sum_list_with] in Hl.
  change (member_size None) with 0%nat in Hl.
  change (member_size (member "request_id" (text id)))
    with (4 + String.length (quoted "request_id") + String.length (encode (text id)))%nat in Hl.
  pose proof (short_text id Hs). pose proof (quoted_length "request_id") as Hk. cbn [String.length] in Hk. lia.
Qed.

(** The fields of a status that the agent reads. *)
Lemma told_status st v : st_Result st = Some v →
  ∃ o, told (StatusReply st) = Some (Ok o) ∧ field "status" o = Some (text (status_string (st_Status st)))
    ∧ field "result" o = Some (coerced (Result_json v)).
Proof.
  intros Hv. eexists. split; [reflexivity|]. unfold Status_members, unless. rewrite Hv.
  destruct (bool_decide (st_Digest st = _)), (bool_decide (st_Reason st = _)), (bool_decide (st_NextAction st = _)),
    (bool_decide (st_PollAfterMS st = _)), (negb (st_PayloadPurged st)); split; try reflexivity; by destruct (st_Status st).
Qed.

Section answering.
Context `{GcmLaws}.

(** The poll of an authenticated device when nothing fails. *)
Lemma poll_answered tls waits dev id out w w' :
  short id → device tls w = (Ok dev, w') → w_tx w = None → w_faults w = [] →
  status_answer (w_key w) (w_db w) dev id = Ok out →
  (authenticated tls (served (budge_request_status (poll id)) (marshal_status_input (poll id)) waits) w).1 = Ok (StatusReply out).
Proof.
  intros Hs Hd Htx Hq Ha.
  assert (at_world w (w_db w) None w') as Hw.
  { apply (wp_unfold (device tls) (λ _ x, at_world w (w_db w) None x) w _ _ Hd).
    eapply (wp_device w); [by apply at_start|auto..]. }
  unfold authenticated, attempt, mbind, M_bind. rewrite Hd. destruct tls as [cert|]; [|done].
  unfold served. rewrite (poll_fits id Hs). cbn [si_RequestID si_WaitSeconds poll].
  apply (wp_unfold (time_Now ≫= λ now, status_loop dev id 0 (now + 0 * second)%Z waits) (λ r _, r = Ok (StatusReply out)) w' _ _
    (surjective_pairing _)).
  apply wp_bind. eapply wp_time_Now; [exact Hw|]. intros w1 Hw1 _. generalize (w_clock w1 + 0 * second)%Z. intros deadline.
  assert (status_loop dev id 0 deadline waits = try_ (RequestStatus dev id) 404 "request_not_found" (λ st,
    over ← mret true; if (over : bool) || terminal (st_Status st) then mret (StatusReply st) else
    match waits with
    | Some f :: rest => modify f;; status_loop dev id 0 deadline rest
    | _ => mret Dropped
    end)) as -> by by destruct waits.
  apply wp_try. eapply (wp_RequestStatus w); [eassumption|]. intros x w2 _ Hx _. rewrite (Hx Hq), Ha. done.
Qed.

(** C17: The agent is told what the upstream answered: after a dispatch that met no
    failure and whose one send was answered, the first poll of the device — its
    certificate accepted, no failure — gives the agent, through the sealed row, the
    status, its JSON and the limits of the connector and the adapter, the status the
    dispatch recorded and the very result it stored, whole.  (The stored text is UTF-8,
    the identifiers are short, the names of the allowed headers differ and the
    response's header was within the transport's 32 KiB.) *)
Theorem result_reaches_agent url authority a id dev snap svc secret res T r w w1 w2 tls h enrol renewing waits transport shown c
    (Ho : origin url authority a) (Htx : w_tx w = None) (Hq : w_faults w = [])
    (Hr : db_requests (w_db w) !! id = Some r) (Hv : visible (w_db w) dev id = true)
    (Hopen : Unseal (w_key w) (snap_CredentialRef snap) (svc_Credential svc) = Some secret)
    (Hsend : Send svc (snap_Method snap) (snap_URL snap) (snap_Headers snap) (snap_Body snap) secret T = Sent res)
    (Hrun : dispatch_run id snap svc T w = (Ok tt, w1)) (Hdev : device tls w1 = (Ok dev, w2))
    (Hid : ValidString id = true ∧ short id) (Hdigest : short (req_snapshot_digest r))
    (Hexpires : (0 <= req_expires r < 253370764800)%Z) (Hutf8 : utf8_result (read_result svc res).2 = true)
    (Hnd : NoDup (map CanonicalHeaderKey (svc_ResponseHeaders svc)))
    (Hheader : (N.of_nat (header_bytes (rsp_header res)) <= 32768)%N) (Hstatus : (0 <= rsp_status res < 1000)%Z) :
  ∃ o, (New url (device_server tls h enrol renewing waits transport shown w1) (budge_request_status (poll id)) c).1 = Ok o
    ∧ field "status" o = Some (text (status_string (read_result svc res).1.1))
    ∧ field "result" o = Some (Result_json (read_result svc res).2).
Proof.
  pose (v := (read_result svc res).2).
  assert (run_outcome (w_key w) snap svc T = ((read_result svc res).1.1, (read_result svc res).1.2, Some v)) as Hout.
  { unfold run_outcome. rewrite Hopen, Hsend. unfold v. by destruct (read_result svc res) as [[? ?] ?]. }
  destruct (wp_unfold _ _ _ _ _ Hrun (wp_result_visible dev id snap svc T r w Htx Hq Hr Hv ltac:(by rewrite Hout)))
    as (Hat & out & Hans & Hi & He & Hd & Hn & Hp & Htriple). rewrite Hout in Htriple. injection Htriple as Hs Hre Hres.
  rewrite <-(at_key _ _ _ _ Hat) in Hans.
  pose proof (poll_answered tls waits dev id out w1 w2 (proj2 Hid) Hdev (at_tx _ _ _ _ Hat) (at_faults _ _ _ _ Hat Hq) Hans) as Hreply.
  destruct (told_status out v Hres) as (o & Ht & Hst & Hfield). exists o.
  assert (coerced (Result_json v) = Result_json v) as Hc by apply plain_whole, (Result_sound v Hutf8).
  fold v. rewrite <-Hs, <-Hc. split_and!; [|done|done].
  refine (wp_reply_told url authority a (budge_request_status (poll id)) "POST" "/status" (marshal_status_input (poll id))
    tls h enrol renewing waits transport shown w1 (StatusReply out) (Ok o) c Ho eq_refl _ _ Hreply Ht _).
  - apply Hid.
  - pose proof (poll_fits id (proj2 Hid)) as Hl. apply N.ltb_ge in Hl. unfold socket_body_max. lia.
  - eapply (wp_result_fits svc res out); try done; [|by rewrite He|by rewrite Hp].
    rewrite Hi, Hd, Hre. repeat (apply List.Forall_cons || apply List.Forall_nil); [by destruct Hid|done| |].
    + unfold read_result. destruct (read_fails res); vm_compute; lia.
    + destruct Hn as [-> | ->]; vm_compute; lia.
Qed.

End answering.

(** * Witness *)

#[local] Existing Instance plain_crypto.
#[local] Existing Instance plain_laws.

Definition go_service : service_row :=
  mkServiceRow "Example" "https://api.example.com" 1 true "bearer"
    (Seal sample_key "service:api:1" "secret" "abcdefghijkl") ""
    (marshal_strings ["Accept"; "Content-Type"]) (marshal_strings ["Content-Type"]) "".
Definition go_db : database :=
  mkDatabase ∅ 4 full_schema {[ "owner_1" := "hash" ]} ∅ sample_devices ∅ {[ "api" := go_service ]}
    sample_permissions [] [] ∅ ∅.
Definition go_world : world := mkWorld go_db None (1000 * second) [] [] [] (mkMemory ∅ 0 ∅) sample_key.

Definition go_id : string := "req_AAAAAAAAAAAAAAAAAAAAAAAA".
Definition go_submitted : world := (Submit "dev_1" sample_get go_world).2.
Definition go_claim := dispatch_claim go_id go_submitted.
Definition go_pair : Snapshot * Service :=
  match go_claim.1 with Ok (Some p) => p | _ => (mkSnapshot 0 "" "" "" 0 "" "" "" "" "" ∅ "" 0 "", sample_answering) end.
Definition answer (o : outgoing) : transport_result response :=
  TResponse (mkResponse 200 {[ "Content-Type" := ["text/plain"] ]} (o_url o) body_ends).
Definition go_response : response := mkResponse 200 {[ "Content-Type" := ["text/plain"] ]} "https://api.example.com/v1/jobs/7?verbose=1" body_ends.
Definition go_row : request_row :=
  match db_requests (w_db go_claim.2) !! go_id with Some r => r | None => sample_row queued end.
Definition go_dispatched : world := (dispatch_run go_id go_pair.1 go_pair.2 answer go_claim.2).2.

Lemma result_reaches_agent_witness :
  dispatch_run go_id go_pair.1 go_pair.2 answer go_claim.2 = (Ok tt, go_dispatched) ∧
  ∃ o, (New sample_url (device_server active_certificate ∅ None None [] (λ _, TError true) (λ _, None) go_dispatched)
      (budge_request_status (poll go_id)) idle).1 = Ok o
    ∧ field "status" o = Some (text "completed")
    ∧ field "result" o = Some (Result_json (read_result go_pair.2 go_response).2).
Proof.
  assert (origin sample_url "budge.example:18781" "budge.example:18781") as Ho by (split_and!; vm_compute; reflexivity).
  assert (dispatch_run go_id go_pair.1 go_pair.2 answer go_claim.2 = (Ok tt, go_dispatched)) as Hrun
    by (vm_compute; reflexivity).
  split; [exact Hrun|].
  unshelve refine (result_reaches_agent sample_url "budge.example:18781" "budge.example:18781" go_id "dev_1" go_pair.1 go_pair.2
    "secret" go_response answer go_row go_claim.2 go_dispatched (device active_certificate go_dispatched).2 active_certificate ∅
    None None [] (λ _, TError true) (λ _, None) idle Ho _ _ _ _ _ _ Hrun _ _ _ _ _ _ _ _).
  1-7: vm_compute; reflexivity.
  - split; [vm_compute; reflexivity|vm_compute; lia].
  - vm_compute. lia.
  - vm_compute. split; [discriminate|reflexivity].
  - vm_compute. reflexivity.
  - apply (bool_decide_eq_true_1 (NoDup _)). vm_compute. reflexivity.
  - vm_compute. discriminate.
  - vm_compute. split; [discriminate|reflexivity].
Defined.
