(* ===== verification/System.v ===== *)
(** The server as a whole: its operations interleaved with dispatches in flight,
    crashes and restarts, and the theorem the durable lifecycle exists for.

    Between two steps no transaction is open on the single connection, so a step is
    one operation, or one of the two transactions of a dispatch; other operations
    come between the claim of a dispatch and its end.  The state adds to the world
    what is in flight (the goroutines of [dispatch] between their transactions) and,
    as a ghost, the log of what was handed to the transport. *)
From S2P Require Import Prelude GoStrings NetUrl Http GoTime Access Upstream Crypto Types Db Rules Samples.
From S2P Require Import Authorize Lifecycle Life Closing Submitting Reviewing Dispatching Limits Owner Device.
From S2P Require Import Worker Granting Services Permissions Stable Handlers Authority.

Section system.
Context `{GoCrypto} `{GoJSON}.

(** * States and steps *)

Record system := mkSystem {
  sys_world : world;
  sys_flight : gmap string (Snapshot * Service);
  sys_sent : list (string * Snapshot);
}.

(** The operations that run between others; the recovery of a restored database, which
    the server command runs when asked to; and the statement by which [initTLS] and
    [renewLeaf] store the authority. *)
Inductive call : ∀ {A}, M world A → Prop :=
| call_submit device i : call (Submit device i)
| call_status device id : call (RequestStatus device id)
| call_decide owner id digest decision : call (Decide owner id digest decision)
| call_maintenance : call maintenance
| call_tick : call worker_tick
| call_release device : call (release device)
| call_service owner revise f : call (addService owner revise f)
| call_permission owner f : call (addPermission owner f)
| call_revoke owner id : call (revoke owner id)
| call_revoke_permission owner id : call (revokePermission owner id)
| call_disable owner id : call (disableService owner id)
| call_invite owner label : call (Invitation owner label)
| call_owner host r : call (OwnerHandler host r)
| call_enroll body : call (enroll body)
| call_renew device c body : call (renew device c body)
| call_services device : call (services device)
| call_http_claim device service method path query :
    call (begin_tx;; finally (http_claim device service method path query) rollback)
| call_http_audit device service permission method status started req res :
    call (httpAudit device service permission method status started req res)
| call_device r T : call (DeviceHandler r [] T)
| call_recover : call RecoverRestored
| call_store_authority how sealed : how = upsert_authority ∨ how = update_authority → call (exec DB (how sealed)).

(** Time passes, and faults and random bytes come. *)
Definition environment (w w' : world) : Prop := w_db w' = w_db w ∧ w_tx w' = w_tx w ∧ w_key w' = w_key w.

(** What a crash leaves: the committed database. *)
Definition crashed (w w' : world) : Prop := w_db w' = w_db w ∧ w_tx w' = None ∧ w_key w' = w_key w.

Inductive sys_step : system → system → Prop :=
| step_call {A} (m : M world A) w r w' fl sent :
    call m → m w = (r, w') → sys_step (mkSystem w fl sent) (mkSystem w' fl sent)
| step_environment w w' fl sent : environment w w' → sys_step (mkSystem w fl sent) (mkSystem w' fl sent)
| step_claim id w snap svc w' fl sent :
    dispatch_claim id w = (Ok (Some (snap, svc)), w') →
    sys_step (mkSystem w fl sent) (mkSystem w' (<[id := (snap, svc)]> fl) sent)
| step_claim_nothing id w r w' fl sent :
    dispatch_claim id w = (r, w') → (∀ x, r ≠ Ok (Some x)) → sys_step (mkSystem w fl sent) (mkSystem w' fl sent)
| step_run id snap svc T w r w' fl sent :
    fl !! id = Some (snap, svc) → dispatch_run id snap svc T w = (r, w') →
    sys_step (mkSystem w fl sent) (mkSystem w' (delete id fl) (sent ++ [(id, snap)]))
| step_lost id snap svc w fl sent :
    fl !! id = Some (snap, svc) → sys_step (mkSystem w fl sent) (mkSystem w (delete id fl) (sent ++ [(id, snap)]))
| step_restart password w w1 r w' fl sent :
    crashed w w1 → New password w1 = (r, w') → sys_step (mkSystem w fl sent) (mkSystem w' ∅ sent).

Definition sys_steps : system → system → Prop := rtc sys_step.

Record initial (s : system) : Prop := {
  ini_wf : wf (w_db (sys_world s));
  ini_tx : w_tx (sys_world s) = None;
  ini_flight : sys_flight s = ∅;
  ini_sent : sys_sent s = [];
}.

(** * What is sent is what was stored and approved *)

Record genuine (d : database) (id : string) (snap : Snapshot) : Prop := {
  ge_row : ∃ r b, db_requests d !! id = Some r ∧ Digest b = req_snapshot_digest r ∧ unmarshal_snapshot b = Some snap
    ∧ snapshot_matches r snap = true;
  ge_approved : needs_approval d (snap_PermissionID snap) = true →
    ∃ r a, db_requests d !! id = Some r ∧ db_approvals d !! id = Some a ∧ appr_decision a = "approve"
      ∧ appr_digest a = req_snapshot_digest r;
}.

Lemma snapshot_matches_same r r' s : same_request r r' → snapshot_matches r' s = snapshot_matches r s.
Proof. intros [E1 E2 E3 E4 _ _ [E5 _] _ _]. unfold snapshot_matches. by rewrite E1, E2, E3, E4, E5. Qed.

Lemma genuine_kept d d' id snap : wf d → grows d d' → genuine d id snap → genuine d' id snap.
Proof.
  intros Hwf Hg [(r & b & Hr & Hb & Hu & Hm) Ha].
  destruct (g_requests _ _ Hg _ _ Hr) as (r' & Hr' & Hs). pose proof (sr_digests _ _ Hs) as [_ Ed].
  split; [exists r', b; rewrite Ed, (snapshot_matches_same _ _ _ Hs); done|].
  assert (is_Some (db_permissions d !! snap_PermissionID snap)) as Hp.
  { apply snapshot_matches_spec in Hm as (_ & _ & _ & -> & _).
    destruct (wf_request d Hwf _ _ Hr) as (_ & p & ? & _). eauto. }
  rewrite (needs_approval_kept d d') by (done || apply Hg). intros Hn.
  destruct (Ha Hn) as (r2 & a & Hr2 & Hap & Hd & Hdig). assert (r2 = r) as -> by congruence.
  destruct (g_approvals _ _ Hg _ _ Hap) as (a' & Hap' & <-). exists r', a. by rewrite Ed.
Qed.

Lemma claimed_genuine key d t0 t1 id s svc d' : wf d → claimed key d t0 t1 id s svc d' → genuine d id s.
Proof.
  intros Hwf [_ (p & Hp & Ha) (r & [Hr (b & _ & Hd & Hu) Hm] & _ & _)]. split; [eauto 10|].
  unfold needs_approval. rewrite Hp. intros Hn%bool_decide_eq_true. specialize (Ha Hn).
  unfold approval_count in Ha. rewrite Hr in Ha. destruct (db_approvals d !! id) as [a|]; [|done].
  destruct (_ && _) eqn:E; [|done]. apply andb_true_iff in E as [E1 E2]. apply bool_decide_eq_true in E1, E2. eauto 10.
Qed.

(** * The invariant *)

(** A request whose dispatch has begun. *)
Definition begun (d : database) (id : string) : Prop :=
  ∃ r, db_requests d !! id = Some r ∧ (req_status r = dispatching ∨ terminal (req_status r) = true).

Lemma begun_kept d d' id : grows d d' → begun d id → begun d' id.
Proof.
  intros Hg (r & Hr & Hs). destruct (g_requests _ _ Hg _ _ Hr) as (r' & Hr' & _). exists r'. split; [done|].
  pose proof (g_life _ _ Hg id) as Hl. rewrite (life_of_row d id r Hr), (life_of_row d' id r' Hr') in Hl.
  apply life_steps_rank in Hl. unfold rank, row_life in Hl; simpl in Hl.
  destruct Hl as [[= E _ _]|Hlt]; [by rewrite <-E|].
  destruct Hs as [Hs|Hs]; destruct (req_status r), (req_status r'); simpl in *; try done; try lia; auto.
Qed.

Record sys_inv (s : system) : Prop := {
  si_tx : tx_ok (sys_world s);
  si_wf : wf (w_db (sys_world s));
  si_flight : ∀ id snap svc, sys_flight s !! id = Some (snap, svc) →
    (∃ r, db_requests (w_db (sys_world s)) !! id = Some r ∧ req_status r = dispatching)
    ∧ genuine (w_db (sys_world s)) id snap ∧ id ∉ (sys_sent s).*1;
  si_sent : ∀ id snap, (id, snap) ∈ sys_sent s → begun (w_db (sys_world s)) id ∧ genuine (w_db (sys_world s)) id snap;
  si_once : NoDup (sys_sent s).*1;
}.

Lemma initial_inv s : initial s → sys_inv s.
Proof.
  destruct s as [w fl sent]. intros [Hwf Ht Hf Hs]; simpl in *. subst.
  split; simpl; [unfold tx_ok; by rewrite Ht|done|done| |constructor].
  intros id snap Hin. by apply elem_of_nil in Hin.
Qed.

(** A legal change of the database, which leaves alone what is being dispatched. *)
Record advances (w w' : world) : Prop := {
  ad_tx : tx_ok w';
  ad_evolves : evolves (w_db w) (w_db w');
  ad_kept : ∀ id r, db_requests (w_db w) !! id = Some r → req_status r = dispatching → db_requests (w_db w') !! id = Some r;
  ad_quiet : w_faults w = [] → w_faults w' = [];
}.

Lemma onward_advances w w' : onward w w' → advances w w'.
Proof. intros [Ht [He Hc] _ _ Hq]. split; try done. intros id r Hr Hs. by apply Hc. Qed.

Lemma inv_advances w w' fl sent : sys_inv (mkSystem w fl sent) → advances w w' → sys_inv (mkSystem w' fl sent).
Proof.
  intros [Ht Hwf Hf Hs Ho] [Ht' He Hc _]; simpl in *. destruct (He Hwf) as [Hwf' Hg].
  split; simpl; try done.
  - intros id snap svc Hi. destruct (Hf id snap svc Hi) as ((r & Hr & Hd) & Hge & Hn).
    split_and!; [exists r; split; [by apply Hc|done]|by apply (genuine_kept _ _ _ _ Hwf Hg)|done].
  - intros id snap Hi. destruct (Hs id snap Hi) as [Hb Hge]. split; [by apply (begun_kept _ _ _ Hg)|by apply (genuine_kept _ _ _ _ Hwf Hg)].
Qed.

#[export] Instance stable_release device : Stable (release device).
Proof. intros w Hw. by split. Qed.

(** The authority is metadata, of which no invariant speaks. *)
Lemma authority_changes how sealed d d' n :
  how = upsert_authority ∨ how = update_authority → how sealed d = Ok (d', n) → changes d d'.
Proof.
  intros [-> | ->]; unfold upsert_authority, update_authority; [|destruct (db_metadata d !! "authority"); [|by intros [= <- _]]].
  all: intros [= <- _]; apply changes_other; [by apply evolves_other|done].
Qed.

Lemma stable_call {A} (m : M world A) : call m → Stable m.
Proof.
  destruct 1; try apply _.
  - apply stable_DeviceHandler. intros f Hf. by apply elem_of_nil in Hf.
  - apply stable_exec. intros d d' n Hd. eapply authority_changes; [|done]. tauto.
Qed.

Lemma run_onward {A} (m : M world A) `{!Stable m} w r w' : tx_ok w → m w = (r, w') → onward w w'.
Proof. intros Hw Hm. pose proof (stable (m := m) w Hw) as Hs. unfold wp in Hs. by rewrite Hm in Hs. Qed.

(** A claim: it begins a dispatch, or it begins none. *)
Definition claim_account (id : string) (w : world) (r : result (option (Snapshot * Service))) (w' : world) : Prop :=
  (∃ snap svc t0 t1, r = Ok (Some (snap, svc)) ∧ claimed (w_key w) (w_db w) t0 t1 id snap svc (w_db w')) ∨
  (r = Ok None ∧ calm (w_db w) (w_db w')).

Lemma claimed_kept key d t0 t1 id s svc d' i r : claimed key d t0 t1 id s svc d' →
  db_requests d !! i = Some r → req_status r = dispatching → db_requests d' !! i = Some r.
Proof.
  intros [_ _ (q & [Hq _ _] & Hs & ->)] Hr Hd. simpl. rewrite lookup_insert_ne; [done|]. intros ->. congruence.
Qed.

Lemma claim_advances id w r w' : tx_ok w → dispatch_claim id w = (r, w') → advances w w' ∧ claim_account id w r w'.
Proof.
  intros Hok Hrun. destruct (w_tx w) as [t|] eqn:Ht.
  { assert (dispatch_claim id w = (Ok None, w)) as E
      by (unfold dispatch_claim, with_tx, attempt, mbind, M_bind, begin_tx; by rewrite Ht).
    assert (r = Ok None ∧ w' = w) as [-> ->] by (split; congruence). split; [by split|by right]. }
  apply (wp_unfold (dispatch_claim id) (λ r w', advances w w' ∧ claim_account id w r w') w _ _ Hrun).
  assert (∀ d' w1, at_world w d' None w1 → evolves (w_db w) d' →
    (∀ i q, db_requests (w_db w) !! i = Some q → req_status q = dispatching → db_requests d' !! i = Some q) → advances w w1) as Had.
  { intros d' w1 [<- Htx _ _ _ Hq] He Hk. split; [unfold tx_ok; by rewrite Htx|done..]. }
  eapply (wp_dispatch_claim w); [by apply at_start|..].
  - intros s v d' w1 Hc Hw1. pose proof (claimed_evolves _ _ _ _ _ _ _ _ Hc) as He.
    split; [eapply Had; [done..|intros i q; by eapply claimed_kept]|]. left. pose proof (at_db _ _ _ _ Hw1) as <-. eauto 10.
  - intros st reason q now w1 Hr Hs Hre Hw1. destruct (rejected_changes _ _ _ _ _ _ _ now Hr Hs Hre) as [He Hc].
    split; [eapply Had; [done..|]; intros i x Hx Hxs; by apply Hc|]. right. split; [done|]. by rewrite (at_db _ _ _ _ Hw1).
  - intros w1 Hw1 _. split; [by eapply Had|]. right. split; [done|]. by rewrite (at_db _ _ _ _ Hw1).
Qed.

Lemma inv_claim id w snap svc w' fl sent :
  sys_inv (mkSystem w fl sent) → dispatch_claim id w = (Ok (Some (snap, svc)), w') →
  sys_inv (mkSystem w' (<[id := (snap, svc)]> fl) sent).
Proof.
  intros Hinv Hrun. destruct (claim_advances _ _ _ _ (si_tx _ Hinv) Hrun) as [Hon Hacc]. simpl in Hon.
  destruct Hacc as [(s' & v' & t0 & t1 & [= <- <-] & Hcl)|[? _]]; [simpl in Hcl|done].
  pose proof (inv_advances _ _ _ _ Hinv Hon) as [Ht' Hwf' Hf' Hs' Ho']. destruct Hinv as [_ Hwf _ Hs _]; simpl in *.
  split; simpl; try done. intros i s v. rewrite lookup_insert_Some. intros [[<- [= <- <-]]|[_ Hi]]; [|by eapply Hf'].
  pose proof (claimed_genuine _ _ _ _ _ _ _ _ Hwf Hcl) as Hge.
  split_and!; [|eapply genuine_kept; [exact Hwf| |done]; apply (ad_evolves _ _ Hon Hwf)|].
  - destruct Hcl as [_ _ (r & _ & _ & ->)]. simpl. rewrite lookup_insert_eq. by eexists.
  - intros ([i s] & -> & Hin)%list_elem_of_fmap. destruct (Hs _ _ Hin) as [(r & Hr & Hst) _]. simpl in *.
    destruct Hcl as [_ _ (q & [Hq _ _] & Hqs & _)]. simplify_eq. rewrite Hqs in Hst. by destruct Hst.
Qed.

(** The end of a dispatch. *)
Lemma inv_end id snap svc w fl sent :
  sys_inv (mkSystem w fl sent) → fl !! id = Some (snap, svc) →
  sys_inv (mkSystem w (delete id fl) (sent ++ [(id, snap)])).
Proof.
  intros [Ht Hwf Hf Hs Ho] Hi; simpl in *. destruct (Hf _ _ _ Hi) as ((r & Hr & Hd) & Hge & Hn).
  split; simpl; try done.
  - intros j s v [Hne Hj]%lookup_delete_Some. destruct (Hf _ _ _ Hj) as (? & ? & ?). split_and!; try done.
    rewrite fmap_app, elem_of_app. simpl. rewrite list_elem_of_singleton. intros [?|?]; [done|congruence].
  - intros j s [Hj|[= -> ->]%list_elem_of_singleton]%elem_of_app; [by apply Hs|].
    split; [exists r; auto|done].
  - rewrite fmap_app. simpl. apply NoDup_app. split_and!; [done| |apply NoDup_singleton].
    intros x Hx ->%list_elem_of_singleton. done.
Qed.

(** What the second half of a dispatch commits, if it commits. *)
Lemma run_result id snap svc T w r w' : tx_ok w → dispatch_run id snap svc T w = (r, w') →
  tx_ok w' ∧ (w_db w' = w_db w ∨ ∃ st reason enc now, (st = completed ∨ st = failed ∨ st = outcome_unknown)
    ∧ w_db w' = finished_db st reason enc now id (w_db w)).
Proof.
  intros Hok Hrun. apply (wp_unfold (dispatch_run id snap svc T) (λ _ w', tx_ok w' ∧ (w_db w' = w_db w ∨
    ∃ st reason enc now, (st = completed ∨ st = failed ∨ st = outcome_unknown)
      ∧ w_db w' = finished_db st reason enc now id (w_db w))) w _ _ Hrun).
  destruct (w_tx w) as [t|] eqn:Ht.
  - assert (∀ s reason res, wp (finish id s reason res) (λ _ w', at_world w (w_db w) (w_tx w) w') w) as Hfin.
    { intros s reason res. unfold finish. wp_rule. wp_rule. eapply wp_mono; [by eapply with_tx_busy_plain|].
      intros x w1 Hw1. by wp_rule. }
    apply (wp_mono _ (λ _ w', at_world w (w_db w) (w_tx w) w')).
    + unfold dispatch_run. wp_rule. wp_rule. eapply wp_Decrypt; [apply at_self| |].
      * intros p _. destruct (Send _ _ _ _ _ _ _) as [res| |]; [destruct (read_result _ _) as [[? ?] ?]|..]; apply Hfin.
      * intros _. apply Hfin.
    + intros _ w1 [Hd Htx _ _ _ _]. split; [unfold tx_ok in *; by rewrite Hd, Htx|by left].
  - eapply (wp_dispatch_run w); [by apply at_start|..].
    + intros st reason res enc now w1 Ho _ _ [-> Htx _ _ _ _]. split; [unfold tx_ok; by rewrite Htx|].
      right. exists st, reason, enc, now. split; [|done].
      pose proof (run_outcome_final (w_key w) snap svc T) as Hfin. by rewrite Ho in Hfin.
    + intros w1 _ [-> Htx _ _ _ _]. split; [unfold tx_ok; by rewrite Htx|by left].
Qed.

Lemma run_evolves id snap svc T w r w' fl sent :
  sys_inv (mkSystem w fl sent) → fl !! id = Some (snap, svc) → dispatch_run id snap svc T w = (r, w') →
  evolves (w_db w) (w_db w').
Proof.
  intros Hinv Hi Hrun. destruct (si_flight _ Hinv _ _ _ Hi) as ((q & Hq & Hqs) & _). simpl in Hq.
  destruct (run_result _ _ _ _ _ _ _ (si_tx _ Hinv) Hrun) as [_ [-> |(st & reason & enc & now & Hst & ->)]]; [done|].
  apply finished_evolves. intros q' Hq'. simpl in Hq'. left. split; [congruence|done].
Qed.

Lemma inv_run id snap svc T w r w' fl sent :
  sys_inv (mkSystem w fl sent) → fl !! id = Some (snap, svc) → dispatch_run id snap svc T w = (r, w') →
  sys_inv (mkSystem w' (delete id fl) (sent ++ [(id, snap)])).
Proof.
  intros Hinv Hi Hrun. pose proof (inv_end _ _ _ _ _ _ Hinv Hi) as [Ht Hwf Hf Hs Ho]; simpl in *.
  pose proof (run_evolves _ _ _ _ _ _ _ _ _ Hinv Hi Hrun) as He. destruct (He Hwf) as [Hwf' Hg].
  destruct (run_result _ _ _ _ _ _ _ Ht Hrun) as [Ht' Hdb]. split; simpl; try done.
  - intros j s v Hj. destruct (Hf _ _ _ Hj) as ((q' & Hq' & Hqs') & Hge & Hn).
    split_and!; [|by apply (genuine_kept _ _ _ _ Hwf Hg)|done]. exists q'. split; [|done].
    destruct Hdb as [-> |(st & reason & enc & now & _ & ->)]; [done|].
    rewrite finished_other; [done|]. intros ->. by rewrite lookup_delete_eq in Hj.
  - intros j s Hj. destruct (Hs _ _ Hj) as [Hb Hge].
    split; [by apply (begun_kept _ _ _ Hg)|by apply (genuine_kept _ _ _ _ Hwf Hg)].
Qed.

(** A restart evolves the database. *)
Lemma New_evolves password w r w' : tx_ok w → New password w = (r, w') →
  tx_ok w' ∧ evolves (w_db w) (w_db w').
Proof.
  intros Hw Hrun.
  apply (wp_unfold (New password) (λ _ w', tx_ok w' ∧ evolves (w_db w) (w_db w')) w _ _ Hrun).
  unfold New. wp_rule. eapply wp_mono; [apply (stable (m := query DB _) w Hw)|].
  assert (∀ w1, onward w w1 → wp recoverDispatches (λ _ w', tx_ok w' ∧ evolves (w_db w) (w_db w')) w1) as Hrec.
  { intros w1 [Ht1 [He1 _] _ _]. destruct (w_tx w1) as [t|] eqn:Ht.
    - eapply wp_mono; [by eapply with_tx_busy_plain|]. intros _ w2 [Hd2 Ht2 _ _ _ _].
      split; [unfold tx_ok in *; by rewrite Hd2, Ht2|by rewrite Hd2].
    - eapply wp_recoverDispatches; [by apply at_start|..].
      + intros ids d' w2 Hp _ Hc [-> Ht2 _ _ _ _]. split; [unfold tx_ok; by rewrite Ht2|].
        etransitivity; [done|by eapply recover_evolves].
      + intros e w2 _ [-> Ht2 _ _ _ _]. split; [unfold tx_ok; by rewrite Ht2|done]. }
  intros [n|e] w1 H1; [|split; [apply H1|apply H1]].
  wp_rule. assert (∀ m : M world unit, Stable m → wp m (λ r w', match r with
    | Ok _ => wp recoverDispatches (λ _ w', tx_ok w' ∧ evolves (w_db w) (w_db w')) w'
    | Err _ => tx_ok w' ∧ evolves (w_db w) (w_db w') end) w1) as Hm.
  { intros m Hm. eapply wp_mono; [apply Hm, H1|]. intros x w2 H2. pose proof (onward_trans _ _ _ H1 H2) as H3.
    destruct x; [by apply Hrec|split; [apply H3|apply H3]]. }
  wp_case; [wp_case|]; apply Hm; apply _.
Qed.

Lemma inv_restart password w w1 r w' fl sent :
  sys_inv (mkSystem w fl sent) → crashed w w1 → New password w1 = (r, w') → sys_inv (mkSystem w' ∅ sent).
Proof.
  intros [_ Hwf _ Hs Ho] (Hd & Htx & _) Hnew; simpl in *.
  destruct (New_evolves password w1 r w') as [Ht' He]; [unfold tx_ok; by rewrite Htx|done|].
  rewrite Hd in He. destruct (He Hwf) as [Hwf' Hg]. split; simpl; try done.
  intros id snap Hi. destruct (Hs _ _ Hi) as [Hb Hge].
  split; [by apply (begun_kept _ _ _ Hg)|by apply (genuine_kept _ _ _ _ Hwf Hg)].
Qed.

Lemma step_inv s s' : sys_step s s' → sys_inv s → sys_inv s'.
Proof.
  intros Hstep Hinv. destruct Hstep as [A m w r w' fl sent Hc Hm|w w' fl sent (Hd & Ht & Hk)|id w snap svc w' fl sent Hm
    |id w r w' fl sent Hm _|id snap svc T w r w' fl sent Hi Hm|id snap svc w fl sent Hi|password w w1 r w' fl sent Hcr Hm].
  - pose proof (stable_call _ Hc). eapply inv_advances; [done|]. apply onward_advances. exact (run_onward _ _ _ _ (si_tx _ Hinv) Hm).
  - destruct Hinv as [Htx Hwf Hf Hs Ho]; simpl in *. split; simpl; rewrite ?Hd; try done.
    unfold tx_ok in *. by rewrite Hd, Ht.
  - by eapply inv_claim.
  - eapply inv_advances; [done|]. exact (proj1 (claim_advances _ _ _ _ (si_tx _ Hinv) Hm)).
  - by eapply inv_run.
  - by eapply inv_end.
  - by eapply inv_restart.
Qed.

Lemma step_evolves s s' : sys_step s s' → sys_inv s → evolves (w_db (sys_world s)) (w_db (sys_world s')).
Proof.
  intros Hstep Hinv. destruct Hstep as [A m w r w' fl sent Hc Hm|w w' fl sent (Hd & _)|id w snap svc w' fl sent Hm
    |id w r w' fl sent Hm _|id snap svc T w r w' fl sent Hi Hm|id snap svc w fl sent Hi|password w w1 r w' fl sent (Hd & Htx & _) Hm];
    simpl.
  - pose proof (stable_call _ Hc). apply (run_onward _ _ _ _ (si_tx _ Hinv) Hm).
  - by rewrite Hd.
  - exact (ad_evolves _ _ (proj1 (claim_advances _ _ _ _ (si_tx _ Hinv) Hm))).
  - exact (ad_evolves _ _ (proj1 (claim_advances _ _ _ _ (si_tx _ Hinv) Hm))).
  - by eapply run_evolves.
  - done.
  - rewrite <-Hd. eapply New_evolves; [|done]. unfold tx_ok. by rewrite Htx.
Qed.

Lemma reachable_inv s0 s : initial s0 → sys_steps s0 s → sys_inv s.
Proof. intros Hi Hs. apply initial_inv in Hi. induction Hs; eauto using step_inv. Qed.

(** * Properties *)

(** C1: However operations, dispatches, crashes and restarts interleave, from a
    well-formed database no request is handed to the transport twice; and what is
    handed over is, field by field, the snapshot whose digest the request carries,
    with, if its permission asks for approval, the owner's approval of that very
    digest on record.  A request once handed over is dispatching or terminal. *)
Theorem at_most_once s0 s (Hini : initial s0) (Hs : sys_steps s0 s) :
  NoDup (sys_sent s).*1 ∧
  ∀ id snap, (id, snap) ∈ sys_sent s →
    genuine (w_db (sys_world s)) id snap ∧ begun (w_db (sys_world s)) id.
Proof.
  destruct (reachable_inv _ _ Hini Hs) as [_ _ _ Hsent Ho]. split; [done|].
  intros id snap Hi. by destruct (Hsent _ _ Hi).
Qed.

(** C2: In every state the server reaches, the database is well-formed and has only
    grown: every request moved along its automaton (a terminal one not at all),
    kept its identity and digests, decisions and audit records stayed, and what was
    revoked stayed revoked. *)
Theorem server_refines s0 s (Hini : initial s0) (Hs : sys_steps s0 s) :
  wf (w_db (sys_world s)) ∧ grows (w_db (sys_world s0)) (w_db (sys_world s)).
Proof.
  pose proof (initial_inv _ Hini) as Hinv. clear Hini.
  enough (evolves (w_db (sys_world s0)) (w_db (sys_world s))) as He by apply (He (si_wf _ Hinv)).
  induction Hs as [x|x y z Hxy _ IH]; [reflexivity|].
  etransitivity; [by apply step_evolves|]. by eapply IH, step_inv.
Qed.

End system.

(** * A witness: submit, approve, claim, send, restart *)

#[local] Existing Instances plain_crypto plain_json.

Definition sample_system : system := mkSystem sample_world ∅ [].

Definition finished_world : world :=
  (dispatch_run submitted_id claimed_pair.1 claimed_pair.2 echo claimed_world).2.

Definition final_system : system :=
  mkSystem (New "correct horse battery" finished_world).2 ∅ [(submitted_id, claimed_pair.1)].

Lemma sample_initial : initial sample_system.
Proof. split; [exact sample_wf|reflexivity..]. Qed.

Lemma sample_steps : sys_steps sample_system final_system.
Proof.
  apply (rtc_l _ _ (mkSystem submitted_world ∅ [])).
  { eapply (step_call (Submit "dev_1" sample_post)); [constructor|apply surjective_pairing]. }
  apply (rtc_l _ _ (mkSystem approved_world ∅ [])).
  { eapply (step_call (Decide "owner_1" submitted_id submitted_digest "approve")); [constructor|apply surjective_pairing]. }
  apply (rtc_l _ _ (mkSystem claimed_world (<[submitted_id := (claimed_pair.1, claimed_pair.2)]> ∅) [])).
  { apply step_claim. vm_compute. reflexivity. }
  apply (rtc_l _ _ (mkSystem finished_world (delete submitted_id (<[submitted_id := (claimed_pair.1, claimed_pair.2)]> ∅))
    ([] ++ [(submitted_id, claimed_pair.1)]))).
  { eapply (step_run submitted_id claimed_pair.1 claimed_pair.2 echo); [apply lookup_insert_eq|apply surjective_pairing]. }
  apply rtc_once. eapply (step_restart "correct horse battery" finished_world finished_world); [|apply surjective_pairing].
  split_and!; [reflexivity| |reflexivity]. vm_compute. reflexivity.
Qed.

Lemma at_most_once_witness :
  initial sample_system ∧ sys_steps sample_system final_system ∧
  (req_status <$> db_requests (w_db (sys_world final_system)) !! submitted_id) = Some completed ∧
  NoDup (sys_sent final_system).*1 ∧
  ∀ id snap, (id, snap) ∈ sys_sent final_system →
    genuine (w_db (sys_world final_system)) id snap ∧ begun (w_db (sys_world final_system)) id.
Proof.
  split; [exact sample_initial|]. split; [exact sample_steps|]. split; [vm_compute; reflexivity|].
  apply (at_most_once sample_system final_system); [exact sample_initial|exact sample_steps].
Defined.

Lemma server_refines_witness :
  initial sample_system ∧ sys_steps sample_system final_system ∧
  life_of (w_db (sys_world final_system)) submitted_id = Some (mkLife completed true true) ∧
  wf (w_db (sys_world final_system)) ∧ grows (w_db (sys_world sample_system)) (w_db (sys_world final_system)).
Proof.
  split; [exact sample_initial|]. split; [exact sample_steps|]. split; [vm_compute; reflexivity|].
  apply (server_refines sample_system final_system); [exact sample_initial|exact sample_steps].
Defined.
