(* ===== verification/Connection.v ===== *)
(** The single connection is given back: whatever an operation of the server is
    called with and however it ends, it leaves no transaction open.

    [Closes m] says this of a computation that starts outside a transaction, [Ends m]
    of one that may start inside one, because a deferred rollback ends it. *)
From S2P Require Import Prelude GoStrings NetUrl Http GoTime Access Upstream Crypto Types Db Rules Samples.
From S2P Require Import Authorize Lifecycle Life Closing Submitting Reviewing Dispatching Limits Owner Device.
From S2P Require Import Worker Granting Services Permissions Stable Handlers Authority System.

Class Closes {A} (m : M world A) : Prop := closes_tx w : w_tx w = None → w_tx (m w).2 = None.
Class Ends {A} (m : M world A) : Prop := ends_tx w : w_tx (m w).2 = None.
#[export] Hint Mode Closes ! ! : typeclass_instances.
#[export] Hint Mode Ends ! ! : typeclass_instances.

(** * Control structure *)

Section control.
Context {A B : Type}.

#[export] Instance closes_ret (a : A) : Closes (mret a).
Proof. by intros w. Qed.

#[export] Instance closes_fail e : Closes (@fail world A e).
Proof. by intros w. Qed.

#[export] Instance closes_lift (r : result A) : Closes (@lift world A r).
Proof. by intros w. Qed.

#[export] Instance closes_gets (f : world → A) : Closes (gets f).
Proof. by intros w. Qed.

#[export] Instance closes_modify_mem m : Closes (modify (set_w_mem m)).
Proof. by intros w. Qed.

#[export] Instance closes_bind (m : M world A) (f : A → M world B) : Closes m → (∀ a, Closes (f a)) → Closes (m ≫= f).
Proof.
  intros Hm Hf w Hw. specialize (Hm w Hw). unfold mbind, M_bind. destruct (m w) as [[a|e] w']; [by apply Hf|done].
Qed.

#[export] Instance closes_attempt (m : M world A) : Closes m → Closes (attempt m).
Proof. intros Hm w Hw. specialize (Hm w Hw). unfold attempt. by destruct (m w). Qed.

#[export] Instance closes_or_fail (m : M world A) e : Closes m → Closes (or_fail m e).
Proof. intros Hm w Hw. specialize (Hm w Hw). unfold or_fail. by destruct (m w). Qed.

#[export] Instance closes_finally (m : M world A) fin :
  Closes m → (∀ w, w_tx w = None → w_tx (fin w) = None) → Closes (finally m fin).
Proof. intros Hm Hf w Hw. specialize (Hm w Hw). unfold finally. destruct (m w). by apply Hf. Qed.

#[export] Instance ends_rollback (m : M world A) : Ends (finally m rollback).
Proof. intros w. unfold finally. by destruct (m w). Qed.

#[export] Instance ends_attempt (m : M world A) : Ends m → Ends (attempt m).
Proof. intros Hm w. specialize (Hm w). unfold attempt. by destruct (m w). Qed.

#[export] Instance ends_bind (m : M world A) (f : A → M world B) : Ends m → (∀ a, Closes (f a)) → Ends (m ≫= f).
Proof.
  intros Hm Hf w. specialize (Hm w). unfold mbind, M_bind. destruct (m w) as [[a|e] w']; [by apply Hf|done].
Qed.

End control.

#[export] Instance closes_for_each {A} (f : A → M world unit) l : (∀ a, Closes (f a)) → Closes (for_each f l).
Proof. intros Hf. induction l as [|a l IH]; simpl; apply _. Qed.

#[export] Hint Extern 5 (Closes (match ?x with _ => _ end)) => destruct x : typeclass_instances.
#[export] Hint Extern 5 (Closes (let _ := _ in _)) => cbv zeta : typeclass_instances.

(** * Statements *)

(** Time, randomness and failures do not touch the transaction. *)
Lemma fault_tx w : w_tx (fault w).2 = w_tx w.
Proof. unfold fault. by destruct (w_faults w) as [|[] ?]. Qed.

#[export] Instance closes_fault : Closes fault.
Proof. intros w Hw. by rewrite fault_tx. Qed.

#[export] Instance closes_time_Now : Closes time_Now.
Proof. intros w Hw. unfold time_Now. by destruct (w_ticks w). Qed.

#[export] Instance closes_now_Unix : Closes now_Unix.
Proof. unfold now_Unix. apply _. Qed.

#[export] Instance closes_Random n : Closes (Random n).
Proof. intros w Hw. unfold Random. by destruct (w_random w). Qed.

#[export] Instance closes_new_ID prefix : Closes (new_ID prefix).
Proof. unfold new_ID. apply _. Qed.

#[export] Instance closes_commit : Closes commit.
Proof. intros w Hw. unfold commit. by rewrite Hw. Qed.

#[export] Instance closes_query {A} q (f : database → result A) : Closes (query q f).
Proof.
  intros w Hw. unfold query. destruct (current q w); [|done]. pose proof (fault_tx w) as Hf.
  destruct (fault w) as [[]]; simpl in *; congruence.
Qed.

#[export] Instance closes_exec q f : Closes (exec q f).
Proof.
  intros w Hw. unfold exec. destruct (current q w) as [d|] eqn:Hd; [|done]. pose proof (fault_tx w) as Hf.
  destruct (fault w) as [[] w']; simpl in *; [|congruence]. destruct (f d) as [[d' n]|]; simpl; [|congruence].
  destruct q; simpl; [congruence|]. unfold current in Hd. by rewrite Hw in Hd.
Qed.

#[export] Instance closes_fetch {A} (l : list A) : Closes (fetch l).
Proof. induction l as [|a l IH]; simpl; apply _. Qed.

#[export] Instance closes_query_rows {A} q (f : database → list A) : Closes (query_rows q f).
Proof. unfold query_rows. apply _. Qed.

#[export] Instance closes_Audit q owner device kind entity : Closes (Audit q owner device kind entity).
Proof. unfold Audit. apply _. Qed.

(** * Transactions *)

Lemma begin_tx_failed w e w' : begin_tx w = (Err e, w') → w_tx w = None → w_tx w' = None.
Proof.
  unfold begin_tx. intros Hb Hw. rewrite Hw in Hb. pose proof (fault_tx w) as Hf. destruct (fault w) as [[] w1]; [done|].
  simpl in Hf. assert (w' = w1) as -> by congruence. by rewrite Hf.
Qed.

#[export] Instance closes_opened {A} (f : result unit → M world A) :
  Ends (f (Ok tt)) → (∀ e, Closes (f (Err e))) → Closes (attempt begin_tx ≫= f).
Proof.
  intros Ho He w Hw. unfold mbind, M_bind, attempt. destruct (begin_tx w) as [[[]|e] w'] eqn:Hb; [apply Ho|].
  apply He. by eapply begin_tx_failed.
Qed.

#[export] Instance closes_begun {A} (f : unit → M world A) : Ends (f tt) → Closes (begin_tx ≫= f).
Proof.
  intros Ho w Hw. unfold mbind, M_bind. destruct (begin_tx w) as [[[]|e] w'] eqn:Hb; [apply Ho|].
  by eapply begin_tx_failed.
Qed.

#[export] Instance closes_begun_or {A} msg (f : unit → M world A) : Ends (f tt) → Closes (or_fail begin_tx msg ≫= f).
Proof.
  intros Ho w Hw. unfold mbind, M_bind, or_fail. destruct (begin_tx w) as [[[]|e] w'] eqn:Hb; [apply Ho|].
  by eapply begin_tx_failed.
Qed.

(** The two ways in which the program opens one. *)
#[export] Instance closes_with_tx {A} (body : M world A) : Closes (with_tx (λ m, m) body).
Proof. unfold with_tx. apply _. Qed.

#[export] Instance closes_with_tx_or {A} msg (body : M world A) : Closes (with_tx (λ m, or_fail m msg) body).
Proof. unfold with_tx. apply _. Qed.

(** * Operations *)

Section operations.
Context `{GoCrypto} `{GoJSON}.

#[export] Instance closes_Encrypt purpose b : Closes (Encrypt purpose b).
Proof. unfold Encrypt. apply _. Qed.

#[export] Instance closes_Decrypt purpose b : Closes (Decrypt purpose b).
Proof. by intros w Hw. Qed.

#[export] Instance closes_match_rows method path rows : Closes (match_rows method path rows).
Proof. induction rows; simpl; apply _. Qed.

#[export] Instance closes_start l : Closes (start l).
Proof.
  induction l; simpl; [apply _|]. apply closes_bind; [|apply _]. intros w Hw. unfold acquire. by destruct (_ || _).
Qed.

#[export] Instance closes_release device : Closes (release device).
Proof. by intros w Hw. Qed.

#[export] Instance closes_RequestStatus device id : Closes (RequestStatus device id).
Proof. unfold RequestStatus. apply _. Qed.

#[export] Instance closes_ActiveDevice q id : Closes (ActiveDevice q id).
Proof. unfold ActiveDevice. apply _. Qed.

#[export] Instance closes_finish id s reason res : Closes (finish id s reason res).
Proof. unfold finish. apply _. Qed.

#[export] Instance closes_dispatch_claim id : Closes (dispatch_claim id).
Proof. unfold dispatch_claim. apply _. Qed.

#[export] Instance closes_dispatch_run id snap svc T : Closes (dispatch_run id snap svc T).
Proof.
  unfold dispatch_run. apply closes_bind; [apply _|]. intros [secret|e]; [|apply _].
  destruct (Send _ _ _ _ _ _ _) as [res| |]; [|apply _..]. destruct (read_result svc res) as [[? ?] ?]. apply _.
Qed.

#[export] Instance closes_New password : Closes (New password).
Proof. unfold New, recoverDispatches. apply _. Qed.

#[export] Instance closes_throttle key limit : Closes (throttle key limit).
Proof. unfold throttle. apply _. Qed.

#[export] Instance closes_try {A} (m : M world A) status code k : Closes m → (∀ a, Closes (k a)) → Closes (try_ m status code k).
Proof. intros Hm Hk. unfold try_. apply _. Qed.

#[export] Instance closes_in_tx k : Closes (in_tx k).
Proof. unfold in_tx, try_. apply _. Qed.

#[export] Instance closes_withdraw owner x : Closes (withdraw owner x).
Proof. destruct x; apply closes_with_tx. Qed.

Lemma closes_owner_action owner path cookie f m : owner_action owner path cookie f = Some m → Closes m.
Proof.
  pose proof (λ o i, closes_withdraw o (Granting.Device i)) as H1. pose proof (λ o i, closes_withdraw o (ServiceId i)) as H2.
  pose proof (λ o i, closes_withdraw o (PermissionId i)) as H3. simpl in H1, H2, H3.
  unfold owner_action, addService, addPermission, check_permission, Invitation, Decide.
  repeat (match goal with |- (if ?b then _ else _) = _ → _ => destruct b end; [intros [= <-]; apply _|]). done.
Qed.

#[export] Instance closes_review id csrf : Closes (review id csrf).
Proof. unfold review. apply closes_bind; [apply _|]. intros [st|e]; [|apply _]. destruct (st_PayloadPurged st); apply _. Qed.

#[export] Instance closes_OwnerHandler host r : Closes (OwnerHandler host r).
Proof.
  unfold OwnerHandler, current_session, login. cbv zeta.
  repeat match goal with
  | |- Closes (match owner_action ?o ?p ?c ?f with _ => _ end) =>
    let E := fresh in destruct (owner_action o p c f) eqn:E; [apply closes_owner_action in E|]
  | |- Closes (match ?x with _ => _ end) => destruct x
  | |- Closes (mbind _ _) => apply closes_bind; [|intros ?]
  | |- _ => apply _
  end.
Qed.

(** ** The devices' handler *)

#[export] Instance closes_device tls : Closes (device tls).
Proof. unfold device. apply _. Qed.

#[export] Instance closes_enroll body : Closes (enroll body).
Proof. unfold enroll. apply _. Qed.

#[export] Instance closes_renew device c body : Closes (renew device c body).
Proof. unfold renew. apply _. Qed.

#[export] Instance closes_services device : Closes (services device).
Proof. unfold services. apply _. Qed.

#[export] Instance closes_Submit device i : Closes (Submit device i).
Proof. unfold Submit. apply _. Qed.

#[export] Instance closes_submit device body : Closes (submit device body).
Proof. unfold submit. apply _. Qed.

#[export] Instance closes_httpAudit device service permission method status started req res :
  Closes (httpAudit device service permission method status started req res).
Proof. unfold httpAudit. apply _. Qed.

#[export] Instance closes_http_send device r body svc p target transport : Closes (http_send device r body svc p target transport).
Proof.
  unfold http_send. apply closes_try; [apply _|]. intros secret. apply closes_bind; [apply _|]. intros started.
  destruct (Send _ _ _ _ _ _ _) as [res| |]; [|apply _..]. destruct (Stream _ _ _) as [h [n ok]]. apply _.
Qed.

#[export] Instance closes_http_request device r body service path transport :
  Closes (http_request device r body service path transport).
Proof.
  unfold http_request. apply closes_bind; [intros w Hw; unfold acquire; by destruct (_ || _)|]. intros ok.
  destruct (negb ok); [apply _|]. apply closes_finally; [|by intros w Hw].
  destruct (_ <? _)%N; [apply _|]. unfold try_. apply _.
Qed.

(** A poll whose waits end outside transactions, as those of the program do. *)
Lemma closes_status device body waits : (∀ f w, Some f ∈ waits → w_tx w = None → w_tx (f w) = None) → Closes (status_ device body waits).
Proof.
  intros Hf. unfold status_. destruct (decode _ _ _); [|apply _].
  destruct (_ || _); [apply _|]. apply closes_bind; [apply _|]. intros now.
  match goal with |- Closes (status_loop _ _ _ ?d _) => generalize d end. intros deadline.
  induction waits as [|[f|] waits IH]; cbn [status_loop]; [apply _| |apply _].
  apply closes_try; [apply _|]. intros st. apply closes_bind; [apply _|]. intros over.
  destruct (_ || _); [apply _|]. apply closes_bind.
  - intros w. apply (Hf f). by left.
  - intros _. apply IH. intros g w Hg. apply (Hf g w). by right.
Qed.

#[export] Instance closes_DeviceHandler r T : Closes (DeviceHandler r [] T).
Proof.
  unfold DeviceHandler. cbv zeta. pose proof (λ d b, closes_status d b [] ltac:(by intros f w ?%elem_of_nil)).
  repeat match goal with
  | |- Closes (match ?x with _ => _ end) => destruct x
  | |- Closes (mbind _ _) => apply closes_bind; [|intros ?]
  | |- _ => apply _
  end.
Qed.

#[export] Instance closes_worker_tick : Closes worker_tick.
Proof. unfold worker_tick, maintenance. apply _. Qed.

Lemma closes_call {A} (m : M world A) : call m → Closes m.
Proof.
  destruct 1; try apply _; try apply closes_with_tx; unfold Decide; apply _.
Qed.

End operations.

(** * The system *)

Section system.
Context `{GoCrypto} `{GoJSON}.

Lemma run_closes {A} (m : M world A) `{!Closes m} w r w' : w_tx w = None → m w = (r, w') → w_tx w' = None.
Proof. intros Hw Hm. pose proof (closes_tx (m := m) w Hw) as Hc. by rewrite Hm in Hc. Qed.

Lemma step_closes s s' : sys_step s s' → w_tx (sys_world s) = None → w_tx (sys_world s') = None.
Proof.
  intros Hstep Ht. destruct Hstep as [A m w r w' fl sent Hc Hm|w w' fl sent (_ & Hw & _)|id w snap svc w' fl sent Hm
    |id w r w' fl sent Hm _|id snap svc T w r w' fl sent Hi Hm|id snap svc w fl sent Hi|password w w1 r w' fl sent (_ & Hw & _) Hm];
    simpl in *.
  - pose proof (closes_call _ Hc). exact (run_closes _ _ _ _ Ht Hm).
  - by rewrite Hw.
  - exact (run_closes _ _ _ _ Ht Hm).
  - exact (run_closes _ _ _ _ Ht Hm).
  - exact (run_closes _ _ _ _ Ht Hm).
  - done.
  - exact (run_closes _ _ _ _ Hw Hm).
Qed.

Lemma steps_close s0 s : sys_steps s0 s → w_tx (sys_world s0) = None → w_tx (sys_world s) = None.
Proof. induction 1; eauto using step_closes. Qed.

End system.
