(* ===== verification/Serving.v ===== *)
(** [serve] of src/cmd/budge/main.go and the end of the commands that call it: the
    listeners' goroutines with their channel of errors, the signal, the closing of the
    servers, and the wait for a goroutine in the background.

    The server command and the connect command end in the same way.  What they do in
    the background is behind the class [Background]: the worker of the server
    (Shutdown) and the renewals of the connector (Connecting) are its instances.
    [moves] is what the program does by itself once it is to stop; [happens] is what
    comes from outside: a signal, the failure of a listener, what occurs in the
    background. *)
From S2P Require Import Prelude.

(** * Goroutines *)

(** A listener's goroutine: in [s.Serve], about to send its error, or ended. *)
Inductive goroutine := Serving | Sending (e : error) | Ended.

(** The main goroutine: in the [select] of [serve], closing the servers from the
    [n]-th on, waiting for the background, or returned, with its deferred calls run. *)
Inductive main_phase :=
| Selecting
| Closing (n : nat) (r : result unit)
| Joining (r : result unit)
| Returned (r : result unit).

(** [fr_failed] is a ghost: the failures of the listeners. *)
Record front := mkFront {
  fr_listeners : list goroutine;
  fr_errs : list error;
  fr_main : main_phase;
  fr_signal : bool;
  fr_cancelled : bool;
  fr_failed : list error;
}.

Definition running (m : main_phase) : bool := match m with Returned _ => false | _ => true end.

(** The context of the background: cancelled with the command's own, or by itself. *)
Definition context_done (f : front) : bool := fr_signal f || fr_cancelled f.

(** [s.Close()] makes [s.Serve] return [http.ErrServerClosed]. *)
Definition closed_error : error := ErrMsg "http: Server closed".
Definition close_server (g : goroutine) : goroutine := match g with Serving => Sending closed_error | _ => g end.

(** [serve]: a listener's goroutine hands over its error; the main goroutine selects,
    and closes one server after the other. *)
Inductive serves : front → front → Prop :=
| move_send ls i e errs m sg cn fs :
    ls !! i = Some (Sending e) → (length errs < length ls)%nat →
    serves (mkFront ls errs m sg cn fs) (mkFront (<[i := Ended]> ls) (errs ++ [e]) m sg cn fs)
| move_done ls errs cn fs :
    serves (mkFront ls errs Selecting true cn fs) (mkFront ls errs (Closing 0 (Ok tt)) true cn fs)
| move_failed ls e errs sg cn fs :
    serves (mkFront ls (e :: errs) Selecting sg cn fs) (mkFront ls errs (Closing 0 (Err e)) sg cn fs)
| move_close ls g errs n r sg cn fs :
    ls !! n = Some g →
    serves (mkFront ls errs (Closing n r) sg cn fs) (mkFront (<[n := close_server g]> ls) errs (Closing (S n) r) sg cn fs).

(** The end of a command: [cancelWorker()], or [cancelRenew()], when [serve] has
    returned, [<-done], and the deferred calls; [gone] is whether [done] is closed. *)
Inductive ends (gone : bool) : front → front → Prop :=
| move_cancel ls errs n r sg cn fs :
    (length ls ≤ n)%nat →
    ends gone (mkFront ls errs (Closing n r) sg cn fs) (mkFront ls errs (Joining r) sg true fs)
| move_return ls errs r sg cn fs :
    gone = true →
    ends gone (mkFront ls errs (Joining r) sg cn fs) (mkFront ls errs (Returned r) sg cn fs).

(** A signal, and a listener that fails. *)
Inductive disturbs : front → front → Prop :=
| happens_signal ls errs m sg cn fs : disturbs (mkFront ls errs m sg cn fs) (mkFront ls errs m true cn fs)
| happens_failure ls i e errs m sg cn fs :
    ls !! i = Some Serving →
    disturbs (mkFront ls errs m sg cn fs) (mkFront (<[i := Sending e]> ls) errs m sg cn (e :: fs)).

(** * The background of a command *)

(** [works d]: its own steps, where [d] is whether its context is done.  [occurs r]:
    what happens to it from outside, where [r] is whether the command still runs.
    [gone]: it has closed its channel. *)
Class Background (B : Type) := {
  works : bool → B → B → Prop;
  occurs : bool → B → B → Prop;
  gone : B → bool;
  back_budget : B → nat;
}.

Record command (B : Type) := mkCommand { cm_front : front; cm_back : B }.
Arguments mkCommand {B} _ _.
Arguments cm_front {B} _.
Arguments cm_back {B} _.

Inductive moves `{Background B} : command B → command B → Prop :=
| move_serve f f' b : serves f f' → moves (mkCommand f b) (mkCommand f' b)
| move_end f f' b : ends (gone b) f f' → moves (mkCommand f b) (mkCommand f' b)
| move_back f b b' : works (context_done f) b b' → moves (mkCommand f b) (mkCommand f b').

Inductive happens `{Background B} : command B → command B → Prop :=
| happens_front f f' b : disturbs f f' → happens (mkCommand f b) (mkCommand f' b)
| happens_back f b b' : occurs (running (fr_main f)) b b' → happens (mkCommand f b) (mkCommand f b').

Definition serve_step `{Background B} (s s' : command B) : Prop := moves s s' ∨ happens s s'.

(** What the end of a command relies on: once gone, the background stays so; its own
    steps run out; and it does not get stuck when its context is done. *)
Class BackgroundLaws `{Background B} (inv : B → Prop) := {
  works_inv d b b' : works d b b' → inv b → inv b';
  occurs_inv r b b' : occurs r b b' → inv b → inv b';
  works_gone d b b' : works d b b' → gone b = true → gone b' = true;
  occurs_gone r b b' : occurs r b b' → gone b = true → gone b' = true;
  works_budget d b b' : works d b b' → (back_budget b' < back_budget b)%nat;
  works_on b : inv b → gone b = false → ∃ b', works true b b';
}.

(** Where serving begins. *)
Record fresh (f : front) : Prop := {
  fs_listeners : Forall (λ g, g = Serving) (fr_listeners f);
  fs_errs : fr_errs f = [];
  fs_main : fr_main f = Selecting;
}.

(** * The goroutines *)

Lemma sum_insert (f : goroutine → nat) ls i g g' :
  ls !! i = Some g → (sum_list_with f (<[i := g']> ls) + f g = sum_list_with f ls + f g')%nat.
Proof.
  revert i. induction ls as [|x ls IH]; intros [|i] Hi; simpl in *; [done..|injection Hi as ->; lia|].
  specialize (IH i Hi). lia.
Qed.

(** A listener that still has something to send, now or later. *)
Definition owes (g : goroutine) : nat := match g with Ended => 0 | _ => 1 end.

Lemma owes_length ls : (sum_list_with owes ls ≤ length ls)%nat.
Proof. induction ls as [|g ls IH]; simpl; [done|]. destruct g; simpl; lia. Qed.

Lemma owes_sending ls i e : ls !! i = Some (Sending e) → (1 ≤ sum_list_with owes ls)%nat.
Proof. revert i. induction ls as [|g ls IH]; intros [|i] Hi; simpl in *; [done..|injection Hi as ->; simpl; lia|]. specialize (IH i Hi). lia. Qed.

(** Why serving ended. *)
Definition reason (f : front) (r : result unit) : Prop :=
  match r with Ok _ => fr_signal f = true | Err e => e ∈ fr_failed f end.

(** The listeners below [n] serve no more. *)
Definition stopped_below (n : nat) (ls : list goroutine) : Prop := ∀ i g, ls !! i = Some g → (i < n)%nat → g ≠ Serving.

Definition main_inv (gone : bool) (f : front) : Prop :=
  match fr_main f with
  | Selecting => (∀ e, e ∈ fr_errs f → e ∈ fr_failed f) ∧ (∀ i e, fr_listeners f !! i = Some (Sending e) → e ∈ fr_failed f)
      ∧ (Ended ∈ fr_listeners f → fr_errs f ≠ [])
  | Closing n r => reason f r ∧ stopped_below n (fr_listeners f)
  | Joining r => reason f r ∧ stopped_below (length (fr_listeners f)) (fr_listeners f) ∧ fr_cancelled f = true
  | Returned r => reason f r ∧ stopped_below (length (fr_listeners f)) (fr_listeners f) ∧ gone = true
  end.

Record front_inv (gone : bool) (f : front) : Prop := {
  fv_main : main_inv gone f;
  fv_room : (sum_list_with owes (fr_listeners f) + length (fr_errs f) ≤ length (fr_listeners f))%nat;
}.

Lemma stopped_insert n ls i g : stopped_below n ls → ((i < n)%nat → g ≠ Serving) → stopped_below n (<[i := g]> ls).
Proof.
  intros Hs Hg j x. rewrite list_lookup_insert_Some. intros [(<- & <- & _)|[_ Hx]] Hj; [auto|by eapply Hs].
Qed.

Lemma stopped_grow n ls g : stopped_below n ls → ls !! n = Some g → stopped_below (S n) (<[n := close_server g]> ls).
Proof.
  intros Hs Hg j x. rewrite list_lookup_insert_Some. intros [(<- & <- & _)|[Hne Hx]] Hj; [by destruct g|].
  eapply Hs; [done|lia].
Qed.

Lemma selecting m : m = Selecting ∨ m ≠ Selecting.
Proof. destruct m; auto. Qed.

(** A listener that gets something to send, or has sent it, stays stopped. *)
Lemma main_inv_insert gn ls i g errs errs' m sg cn fs fs' :
  g ≠ Serving → (∀ e, e ∈ fs → e ∈ fs') → m ≠ Selecting →
  main_inv gn (mkFront ls errs m sg cn fs) → main_inv gn (mkFront (<[i := g]> ls) errs' m sg cn fs').
Proof.
  intros Hg Hf Hm. assert (∀ r, reason (mkFront ls errs m sg cn fs) r → reason (mkFront (<[i := g]> ls) errs' m sg cn fs') r) as Hr.
  { intros [[]|e]; simpl; auto. }
  unfold main_inv. destruct m as [|n r|r|r]; simpl; rewrite ?length_insert; [done|..].
  - intros [? ?]. split; [by apply Hr|by apply stopped_insert].
  - intros (? & ? & ?). split_and!; [by apply Hr|by apply stopped_insert|done].
  - intros (? & ? & ?). split_and!; [by apply Hr|by apply stopped_insert|done].
Qed.

Lemma main_inv_sent gn ls i e errs m sg cn fs :
  ls !! i = Some (Sending e) → main_inv gn (mkFront ls errs m sg cn fs) →
  main_inv gn (mkFront (<[i := Ended]> ls) (errs ++ [e]) m sg cn fs).
Proof.
  intros Hi Hm. destruct (selecting m) as [->|Hne]; [|by eapply main_inv_insert].
  destruct Hm as (He & Hs & Hn). split_and!; simpl in *.
  - intros x [Hx| ->%list_elem_of_singleton]%elem_of_app; [by apply He|by eapply Hs].
  - intros j x. rewrite list_lookup_insert_Some. intros [(_ & [=] & _)|[_ Hx]]. by eapply Hs.
  - by destruct errs.
Qed.

Lemma main_inv_failed gn ls i e errs m sg cn fs :
  ls !! i = Some Serving → main_inv gn (mkFront ls errs m sg cn fs) →
  main_inv gn (mkFront (<[i := Sending e]> ls) errs m sg cn (e :: fs)).
Proof.
  intros Hi Hm. destruct (selecting m) as [->|Hne].
  2: { eapply main_inv_insert; [done| |done|done]. intros x Hx. by right. }
  destruct Hm as (He & Hs & Hn). split_and!; simpl in *.
  - intros x Hx. right. by apply He.
  - intros j x. rewrite list_lookup_insert_Some. intros [(_ & [= ->] & _)|[_ Hx]]; [by left|right; by eapply Hs].
  - intros [j Hj]%list_elem_of_lookup. apply Hn, list_elem_of_lookup.
    rewrite list_lookup_insert_Some in Hj. destruct Hj as [(_ & [=] & _)|[_ Hj]]. eauto.
Qed.

(** ** The steps of the front keep its invariant *)

Lemma serves_inv gn f f' : serves f f' → front_inv gn f → front_inv gn f'.
Proof.
  intros Hs [Hm Hr]. split; destruct Hs as [ls i e errs m sg cn fs Hi| | |ls g errs n r sg cn fs Hi]; simpl in *; try done.
  - by apply main_inv_sent.
  - split; [done|]. intros i g _ Hi. lia.
  - destruct Hm as (He & _). split; [apply He; by left|]. intros i g _ Hi. lia.
  - destruct Hm as [Hre Hst]. split; [done|by apply stopped_grow].
  - rewrite length_insert, length_app. pose proof (sum_insert owes ls i _ Ended Hi) as E. simpl in *. lia.
  - lia.
  - rewrite length_insert. pose proof (sum_insert owes ls n _ (close_server g) Hi) as E.
    assert (owes (close_server g) = owes g) by by destruct g. lia.
Qed.

Lemma ends_inv gn f f' : ends gn f f' → front_inv gn f → front_inv gn f'.
Proof.
  intros He [Hm Hr]. split; destruct He as [ls errs n r sg cn fs Hn|ls errs r sg cn fs Hg]; simpl in *; try done.
  - destruct Hm as [Hre Hst]. split_and!; [done| |done]. intros i g Hi Hl. apply (Hst i g Hi). simpl in *. lia.
  - destruct Hm as (Hre & Hst & _). by split_and!.
Qed.

Lemma disturbs_inv gn f f' : disturbs f f' → front_inv gn f → front_inv gn f'.
Proof.
  intros Hd [Hm Hr]. split; destruct Hd as [ls errs m sg cn fs|ls i e errs m sg cn fs Hi]; simpl in *; try done.
  - unfold main_inv in *. destruct m as [|n r|r|r]; simpl in *; [done|..]; destruct r as [[]|e]; simpl in *; intuition.
  - by apply main_inv_failed.
  - rewrite length_insert. pose proof (sum_insert owes ls i _ (Sending e) Hi) as E. simpl in *. lia.
Qed.

Lemma gone_inv gn gn' f : (gn = true → gn' = true) → front_inv gn f → front_inv gn' f.
Proof. intros Hg [Hm Hr]. split; [|done]. unfold main_inv in *. destruct (fr_main f); intuition. Qed.

Lemma fresh_inv gn f : fresh f → front_inv gn f.
Proof.
  intros [Hls Herr Hm]. split.
  - unfold main_inv. rewrite Hm, Herr. split_and!; [by intros e ?%elem_of_nil|..].
    + intros i e Hl. by eapply Forall_lookup in Hls; [|done].
    + intros [i Hl]%list_elem_of_lookup. by eapply Forall_lookup in Hls; [|done].
  - rewrite Herr, Nat.add_0_r. apply owes_length.
Qed.

(** * Properties of every such command *)

Definition goroutine_budget (g : goroutine) : nat := match g with Serving => 2 | Sending _ => 1 | Ended => 0 end.
Definition main_budget (n : nat) (m : main_phase) : nat :=
  match m with Selecting => n + 4 | Closing k _ => n - k + 3 | Joining _ => 2 | Returned _ => 0 end.
Definition front_budget (f : front) : nat :=
  sum_list_with goroutine_budget (fr_listeners f) + main_budget (length (fr_listeners f)) (fr_main f).

Lemma serves_budget f f' : serves f f' → (front_budget f' < front_budget f)%nat.
Proof.
  intros [ls i e errs m sg cn fs Hi| | |ls g errs n r sg cn fs Hi]; unfold front_budget; simpl; rewrite ?length_insert; try lia.
  - pose proof (sum_insert goroutine_budget ls i _ Ended Hi) as E. simpl in E. lia.
  - pose proof (sum_insert goroutine_budget ls n _ (close_server g) Hi) as E.
    assert (goroutine_budget (close_server g) ≤ goroutine_budget g)%nat by (destruct g; simpl; lia).
    pose proof (lookup_lt_Some _ _ _ Hi). lia.
Qed.

Lemma ends_budget gn f f' : ends gn f f' → (front_budget f' < front_budget f)%nat.
Proof. intros [ls errs n r sg cn fs Hn|ls errs r sg cn fs Hg]; unfold front_budget; simpl; lia. Qed.

(** It is to stop: a signal has come or a listener has failed. *)
Definition stopping (f : front) : Prop :=
  fr_signal f = true ∨ ∃ i g, fr_listeners f !! i = Some g ∧ g ≠ Serving.

Lemma stopping_insert (ls : list goroutine) i g j x : ls !! i = Some g → g ≠ Serving → x ≠ Serving →
  ∃ i g, <[j := x]> ls !! i = Some g ∧ g ≠ Serving.
Proof.
  intros Hl Hg Hx. destruct (decide (j = i)) as [->|Hne].
  - exists i, x. split; [|done]. apply list_lookup_insert_eq. by eapply lookup_lt_Some.
  - exists i, g. by rewrite list_lookup_insert_ne.
Qed.

Lemma stopping_serves f f' : serves f f' → stopping f → stopping f'.
Proof.
  intros Hm [Hs|(i & g & Hi & Hg)]; [left; by destruct Hm|right].
  destruct Hm as [| | |ls x]; simpl in *; eauto; eapply stopping_insert; try done. by destruct x.
Qed.

Lemma stopping_ends gn f f' : ends gn f f' → stopping f → stopping f'.
Proof. by intros [] Hs. Qed.

(** What the main goroutine can do by itself. *)
Lemma front_enabled gn f : front_inv gn f → stopping f → running (fr_main f) = true →
  (∃ f', serves f f') ∨ (∃ f', ends gn f f') ∨ (gn = false ∧ context_done f = true).
Proof.
  intros [Hmain Hr] Hst Hrun. destruct f as [ls errs m sg cn fs]. simpl in *. destruct m as [|n r|r|r]; [| | |done].
  - left. destruct Hst as [Hsg|(i & g & Hi & Hg)]; simpl in *; [subst; eexists; apply move_done|].
    destruct g as [|e|]; [done|eexists; apply (move_send _ _ _ _ _ _ _ _ Hi); pose proof (owes_sending _ _ _ Hi); lia|].
    destruct Hmain as (_ & _ & Hn). destruct errs as [|e errs]; [|eexists; apply move_failed].
    destruct Hn; [simpl; apply list_elem_of_lookup; eauto|done].
  - destruct (ls !! n) as [g|] eqn:Hg; [left; eexists; by apply move_close|]. right; left. eexists. apply move_cancel.
    by apply lookup_ge_None.
  - destruct Hmain as (_ & _ & Hcn). simpl in Hcn. subst. right. destruct gn; [left; eexists; by apply move_return|].
    right. split; [done|]. unfold context_done. simpl. apply orb_true_r.
Qed.

Section commands.
Context `{BackgroundLaws B inv}.

Implicit Types s : command B.

Record serve_inv s : Prop := {
  vi_front : front_inv (gone (cm_back s)) (cm_front s);
  vi_back : inv (cm_back s);
}.

Lemma fresh_command f b : fresh f → inv b → serve_inv (mkCommand f b).
Proof. intros Hf Hb. split; [by apply fresh_inv|done]. Qed.

Lemma serve_inv_step s s' : serve_step s s' → serve_inv s → serve_inv s'.
Proof.
  intros [[f f' b Hs|f f' b He|f b b' Hw]|[f f' b Hd|f b b' Ho]] [Hf Hb]; simpl in *; split; simpl; try done.
  - by eapply serves_inv.
  - by eapply ends_inv.
  - eapply gone_inv; [by eapply works_gone|done].
  - by eapply works_inv.
  - by eapply disturbs_inv.
  - eapply gone_inv; [by eapply occurs_gone|done].
  - by eapply occurs_inv.
Qed.

Lemma serve_inv_steps s0 s : rtc serve_step s0 s → serve_inv s0 → serve_inv s.
Proof. induction 1; eauto using serve_inv_step. Qed.

(** How a command ends: for a reason, with no listener that serves, and after its
    background has gone.  No listener's goroutine ever waits to hand over its error. *)
Record orderly s : Prop := {
  or_room i e : fr_listeners (cm_front s) !! i = Some (Sending e) →
    (length (fr_errs (cm_front s)) < length (fr_listeners (cm_front s)))%nat;
  or_end r : fr_main (cm_front s) = Returned r →
    reason (cm_front s) r ∧ (Serving ∉ fr_listeners (cm_front s)) ∧ gone (cm_back s) = true;
}.

Lemma serve_inv_orderly s : serve_inv s → orderly s.
Proof.
  intros [[Hmain Hr] _]. split.
  - intros i e Hi. apply owes_sending in Hi. lia.
  - intros r Hret. unfold main_inv in Hmain. rewrite Hret in Hmain. destruct Hmain as (Hre & Hls & Hg).
    split_and!; [done| |done]. intros [i Hi]%list_elem_of_lookup.
    apply (Hls i Serving Hi); [by eapply lookup_lt_Some|done].
Qed.

Definition budget s : nat := front_budget (cm_front s) + back_budget (cm_back s).

Lemma moves_budget s s' : moves s s' → (budget s' < budget s)%nat.
Proof.
  intros [f f' b Hs%serves_budget|f f' b He%ends_budget|f b b' Hw%works_budget]; unfold budget; simpl; lia.
Qed.

Lemma moves_bounded n s s' : nsteps moves n s s' → (n + budget s' ≤ budget s)%nat.
Proof. induction 1 as [|n a b c Hab _ IH]; [lia|]. apply moves_budget in Hab. lia. Qed.

Lemma stopping_moves s s' : moves s s' → stopping (cm_front s) → stopping (cm_front s').
Proof. intros [f f' b Hs|f f' b He|f b b' Hw]; [by eapply stopping_serves|by eapply stopping_ends|done]. Qed.

Lemma enabled s : serve_inv s → stopping (cm_front s) → running (fr_main (cm_front s)) = true → ∃ s', moves s s'.
Proof.
  destruct s as [f b]. intros [Hf Hb] Hst Hrun. simpl in *.
  destruct (front_enabled _ _ Hf Hst Hrun) as [[f' Hs]|[[f' He]|[Hg Hd]]].
  - eexists. by apply move_serve.
  - eexists. by apply move_end.
  - destruct (works_on b Hb Hg) as [b' Hw]. eexists. apply move_back. by rewrite Hd.
Qed.

(** A command that is to stop stops: its own steps run out, and only when it has
    returned. *)
Lemma stops s : serve_inv s → stopping (cm_front s) →
  (∀ n s', nsteps moves n s s' → (n ≤ budget s)%nat) ∧
  (∀ s', rtc moves s s' → (∀ s'', ¬ moves s' s'') → ∃ r, fr_main (cm_front s') = Returned r).
Proof.
  intros Hinv Hst. split; [intros n s' Hn%moves_bounded; lia|]. intros s' Hm Hstuck.
  assert (serve_inv s' ∧ stopping (cm_front s')) as [Hinv' Hst'].
  { clear Hstuck. induction Hm as [|a b c Hab _ IH]; [done|].
    apply IH; [eapply serve_inv_step; [by left|done]|by eapply stopping_moves]. }
  destruct (running (fr_main (cm_front s'))) eqn:Hrun; [|destruct (fr_main (cm_front s')); eauto; done].
  destruct (enabled _ Hinv' Hst' Hrun) as [s'' Hs'']. by destruct (Hstuck s'').
Qed.

End commands.

Arguments serve_inv {B _} inv s.
