(* ===== verification/Shutdown.v ===== *)
(** The server while it serves and how it ends: what the server command of
    src/cmd/budge/main.go has in the background of [serve]: the goroutines of
    [RunWorker] in src/internal/server/requests.go, and the handlers that net/http runs.

    The state adds to that of [System] the worker, the dispatches it has started and
    how many handlers are in progress; Serving has the listeners and the main
    goroutine.  [worker_moves] is what the worker does by itself, [server_occurs] what
    comes from outside: a tick of the worker's clock, the handlers, time.

    A handler starts while the command runs, performs operations — any of [call], which
    is more than the handlers do —, and ends.  Nobody waits for it: [Close] of a server
    does not, and the store is closed when main returns.  So a handler in progress is
    still there then, and each operation it was in either takes its whole effect after
    that or none, as the commit of its transaction comes before or after the end of the
    process.  That its statements fail once the store is closed is among the failures of
    [Db.world]. *)
From S2P Require Import Prelude GoStrings Access Upstream Crypto Types Db Rules Samples Authorize Lifecycle Life Closing.
From S2P Require Import Dispatching Limits Worker Stable Handlers System Connection Serving.

(** * Goroutines *)

(** The worker: in its loop, in [wg.Wait], or gone, with [done] closed. *)
Inductive worker_phase := Looping | Draining | Gone.

(** A dispatch the worker has started: before its claim, between the claim and the
    end, and before [release] and [wg.Done]. *)
Inductive stage := Starting | Claimed | Leaving.
Record job := mkJob { job_id : string; job_device : string; job_stage : stage }.

Definition new_job (c : string * string) : job := mkJob c.1 c.2 Starting.

#[export] Instance stage_eq_dec : EqDecision stage.
Proof. solve_decision. Defined.

(** The server behind its listeners. *)
Record backend := mkBackend {
  bk_system : system;
  bk_worker : worker_phase;
  bk_jobs : list job;
  bk_handlers : nat;
}.

Definition job_budget (j : job) : nat := match job_stage j with Starting => 3 | Claimed => 2 | Leaving => 1 end.
Definition worker_budget (p : worker_phase) : nat := match p with Looping => 2 | Draining => 1 | Gone => 0 end.

Section serving.
Context `{GoCrypto} `{GoJSON}.

(** [RunWorker] and its goroutines: the worker leaves its loop when its context is
    done, [wg.Wait] returns; a dispatch claims, runs, and is released. *)
Inductive worker_moves (cancelled : bool) : backend → backend → Prop :=
| move_drain sys js hs :
    cancelled = true →
    worker_moves cancelled (mkBackend sys Looping js hs) (mkBackend sys Draining js hs)
| move_gone sys hs :
    worker_moves cancelled (mkBackend sys Draining [] hs) (mkBackend sys Gone [] hs)
| move_claim w fl sent wk js1 id dev js2 snap svc w' hs :
    dispatch_claim id w = (Ok (Some (snap, svc)), w') →
    worker_moves cancelled (mkBackend (mkSystem w fl sent) wk (js1 ++ mkJob id dev Starting :: js2) hs)
      (mkBackend (mkSystem w' (<[id := (snap, svc)]> fl) sent) wk (js1 ++ mkJob id dev Claimed :: js2) hs)
| move_claim_nothing w fl sent wk js1 id dev js2 r w' hs :
    dispatch_claim id w = (r, w') → (∀ x, r ≠ Ok (Some x)) →
    worker_moves cancelled (mkBackend (mkSystem w fl sent) wk (js1 ++ mkJob id dev Starting :: js2) hs)
      (mkBackend (mkSystem w' fl sent) wk (js1 ++ mkJob id dev Leaving :: js2) hs)
| move_run w fl sent wk js1 id dev js2 snap svc T r w' hs :
    fl !! id = Some (snap, svc) → dispatch_run id snap svc T w = (r, w') →
    worker_moves cancelled (mkBackend (mkSystem w fl sent) wk (js1 ++ mkJob id dev Claimed :: js2) hs)
      (mkBackend (mkSystem w' (delete id fl) (sent ++ [(id, snap)])) wk (js1 ++ mkJob id dev Leaving :: js2) hs)
| move_leave w fl sent wk js1 id dev js2 r w' hs :
    release dev w = (r, w') →
    worker_moves cancelled (mkBackend (mkSystem w fl sent) wk (js1 ++ mkJob id dev Leaving :: js2) hs)
      (mkBackend (mkSystem w' fl sent) wk (js1 ++ js2) hs).

(** A request comes while the command runs; its handler calls, and ends. *)
Inductive server_occurs (runs : bool) : backend → backend → Prop :=
| occurs_tick w fl sent js started w' hs :
    worker_tick w = (Ok started, w') →
    server_occurs runs (mkBackend (mkSystem w fl sent) Looping js hs)
      (mkBackend (mkSystem w' fl sent) Looping (js ++ map new_job started) hs)
| occurs_request sys wk js hs :
    runs = true → server_occurs runs (mkBackend sys wk js hs) (mkBackend sys wk js (S hs))
| occurs_call {A} (c : M world A) w r w' fl sent wk js hs :
    call c → c w = (r, w') →
    server_occurs runs (mkBackend (mkSystem w fl sent) wk js (S hs)) (mkBackend (mkSystem w' fl sent) wk js (S hs))
| occurs_reply sys wk js hs :
    server_occurs runs (mkBackend sys wk js (S hs)) (mkBackend sys wk js hs)
| occurs_environment w w' fl sent wk js hs :
    environment w w' →
    server_occurs runs (mkBackend (mkSystem w fl sent) wk js hs) (mkBackend (mkSystem w' fl sent) wk js hs).

#[export] Instance server_background : Background backend := {|
  works := worker_moves;
  occurs := server_occurs;
  gone b := match bk_worker b with Gone => true | _ => false end;
  back_budget b := worker_budget (bk_worker b) + sum_list_with job_budget (bk_jobs b);
|}.

Definition server : Type := command backend.
Definition sv_system (s : server) : system := bk_system (cm_back s).

(** A step in which no statement fails. *)
Definition quiet_step (s s' : server) : Prop := w_faults (sys_world (sv_system s)) = [] ∧ serve_step s s'.

(** No request is being dispatched. *)
Definition at_rest (d : database) : Prop := ∀ id r, db_requests d !! id = Some r → req_status r ≠ dispatching.

(** Where serving begins, after [New]. *)
Record begins (s : server) : Prop := {
  bg_front : fresh (cm_front s);
  bg_initial : initial (sv_system s);
  bg_rest : at_rest (w_db (sys_world (sv_system s)));
  bg_worker : bk_worker (cm_back s) = Looping;
  bg_jobs : bk_jobs (cm_back s) = [];
  bg_handlers : bk_handlers (cm_back s) = 0%nat;
}.

(** * A step of the server is one of the system *)

Lemma back_system b b' : (∃ d, worker_moves d b b') ∨ (∃ r, server_occurs r b b') → sys_steps (bk_system b) (bk_system b').
Proof.
  intros [[d Hm]|[x Hh]]; [destruct Hm|destruct Hh]; simpl; try reflexivity; apply rtc_once.
  - by apply step_claim.
  - by eapply step_claim_nothing.
  - by eapply step_run.
  - eapply step_call; [apply call_release|done].
  - eapply step_call; [apply call_tick|done].
  - by eapply step_call.
  - by apply step_environment.
Qed.

Lemma step_system s s' : serve_step s s' → sys_steps (sv_system s) (sv_system s').
Proof.
  intros [[| |f b b' Hw]|[|f b b' Ho]]; try reflexivity; apply back_system; [left|right]; by eexists.
Qed.

Lemma steps_system s s' : rtc serve_step s s' → sys_steps (sv_system s) (sv_system s').
Proof. induction 1; [reflexivity|]. etransitivity; [by apply step_system|done]. Qed.

Lemma quiet_steps s s' : rtc quiet_step s s' → rtc serve_step s s'.
Proof. induction 1 as [|a b c [_ Hab] _ IH]; [reflexivity|]. by econstructor. Qed.

(** * The dispatches in flight are the jobs that have claimed *)

Definition claimed_ids (js : list job) : list string := map job_id (filter (λ j, job_stage j = Claimed) js).

Lemma claimed_app js1 js2 : claimed_ids (js1 ++ js2) = claimed_ids js1 ++ claimed_ids js2.
Proof. unfold claimed_ids. by rewrite filter_app, map_app. Qed.

Lemma claimed_cons id dev st js :
  claimed_ids (mkJob id dev st :: js) = if decide (st = Claimed) then id :: claimed_ids js else claimed_ids js.
Proof. unfold claimed_ids. rewrite filter_cons. simpl. by destruct (decide (st = Claimed)). Qed.

Lemma claimed_new l : claimed_ids (map new_job l) = [].
Proof. induction l as [|c l IH]; [done|]. simpl. unfold new_job at 1. by rewrite claimed_cons. Qed.

(** A job moves on without a claim or after its dispatch. *)
Lemma claimed_middle js1 id dev st js2 :
  claimed_ids (js1 ++ mkJob id dev st :: js2) ≡ₚ (if decide (st = Claimed) then [id] else []) ++ claimed_ids (js1 ++ js2).
Proof.
  rewrite !claimed_app, claimed_cons. destruct (decide _); simpl; [|done]. by rewrite Permutation_middle.
Qed.

Record flight_inv (fl : gmap string (Snapshot * Service)) (js : list job) : Prop := {
  fi_once : NoDup (claimed_ids js);
  fi_ids : ∀ id, id ∈ claimed_ids js ↔ is_Some (fl !! id);
}.

Lemma flight_inv_same fl js js' : claimed_ids js' ≡ₚ claimed_ids js → flight_inv fl js → flight_inv fl js'.
Proof. intros E [Ho Hi]. split; [by rewrite E|]. intros id. by rewrite E. Qed.

Lemma flight_inv_moved fl js1 js2 id dev st st' : st ≠ Claimed → st' ≠ Claimed →
  flight_inv fl (js1 ++ mkJob id dev st :: js2) → flight_inv fl (js1 ++ mkJob id dev st' :: js2).
Proof. intros Hs Hs'. apply flight_inv_same. by rewrite !claimed_middle, !decide_False. Qed.

Lemma flight_inv_moves d b b' : worker_moves d b b' → sys_inv (bk_system b) →
  flight_inv (sys_flight (bk_system b)) (bk_jobs b) → flight_inv (sys_flight (bk_system b')) (bk_jobs b').
Proof.
  intros Hm Hinv. destruct Hm; simpl in *; try done.
  - (* claim *) intros [Ho Hi]. destruct (claim_advances _ _ _ _ (si_tx _ Hinv) H1) as [_ Hacc]. simpl in Hacc.
    assert (id ∉ claimed_ids (js1 ++ js2)) as Hn.
    { intros Hin. destruct Hacc as [(x & y & t0 & t1 & _ & [_ _ (q & [Hq _ _] & Hs & _)])|[? _]]; [|done].
      assert (is_Some (fl !! id)) as [[x' y'] Hf] by (apply Hi; rewrite claimed_middle, decide_False by done; done).
      destruct (si_flight _ Hinv _ _ _ Hf) as ((r & Hr & Hd) & _). simpl in Hr. congruence. }
    split.
    + rewrite claimed_middle, decide_True by done. apply NoDup_cons. split; [done|].
      by rewrite claimed_middle, decide_False in Ho.
    + intros i. rewrite claimed_middle, decide_True by done. simpl. rewrite elem_of_cons, lookup_insert_is_Some.
      specialize (Hi i). rewrite claimed_middle, decide_False in Hi by done. simpl in Hi. rewrite Hi.
      split; [intros [->|?]; [by left|destruct (decide (id = i)); auto]|intros [->|[_ ?]]; auto].
  - by apply flight_inv_moved.
  - (* run *) intros [Ho Hi]. rewrite claimed_middle, decide_True in Ho by done. apply NoDup_cons in Ho as [Hn Ho].
    split; [by rewrite claimed_middle, decide_False|].
    intros i. rewrite claimed_middle, decide_False by done. simpl. rewrite lookup_delete_is_Some.
    specialize (Hi i). rewrite claimed_middle, decide_True in Hi by done. simpl in Hi. rewrite elem_of_cons in Hi.
    split; [intros Hin; split; [by intros ->|apply Hi; by right]|]. intros [Hne Hf]. apply Hi in Hf as [->|?]; done.
  - apply flight_inv_same. by rewrite claimed_middle, decide_False.
Qed.

Lemma flight_inv_occurs r b b' : server_occurs r b b' →
  flight_inv (sys_flight (bk_system b)) (bk_jobs b) → flight_inv (sys_flight (bk_system b')) (bk_jobs b').
Proof. intros []; simpl; try done. apply flight_inv_same. by rewrite claimed_app, claimed_new, app_nil_r. Qed.

(** * The laws of the background *)

Record back_inv (b : backend) : Prop := {
  bi_system : sys_inv (bk_system b);
  bi_tx : w_tx (sys_world (bk_system b)) = None;
  bi_flight : flight_inv (sys_flight (bk_system b)) (bk_jobs b);
  bi_gone : bk_worker b = Gone → bk_jobs b = [];
}.

Lemma back_system_inv b b' : sys_steps (bk_system b) (bk_system b') → back_inv b →
  sys_inv (bk_system b') ∧ w_tx (sys_world (bk_system b')) = None.
Proof.
  intros Hsys [Hs Ht _ _]. split; [|by eapply steps_close]. clear -Hsys Hs. induction Hsys; eauto using step_inv.
Qed.

Lemma moves_gone d b b' : worker_moves d b b' → (bk_worker b = Gone → bk_jobs b = []) →
  bk_worker b' = Gone → bk_jobs b' = [].
Proof. intros [] Hj Hg; simpl in *; try done; specialize (Hj Hg); by destruct js1. Qed.

Lemma occurs_gone_jobs r b b' : server_occurs r b b' → (bk_worker b = Gone → bk_jobs b = []) →
  bk_worker b' = Gone → bk_jobs b' = [].
Proof. intros [] Hj Hg; simpl in *; [done|auto..]. Qed.

(** A job always has a next step. *)
Lemma job_moves d sys wk j js hs :
  flight_inv (sys_flight sys) (j :: js) → ∃ b', worker_moves d (mkBackend sys wk (j :: js) hs) b'.
Proof.
  destruct sys as [w fl sent], j as [id dev []]; simpl; intros Hf.
  - destruct (dispatch_claim id w) as [r w'] eqn:Hc. destruct r as [[[snap svc]|]|e].
    + eexists. by apply (move_claim _ _ _ _ _ []).
    + eexists. by apply (move_claim_nothing _ _ _ _ _ []) with (r := Ok None) (w' := w').
    + eexists. by apply (move_claim_nothing _ _ _ _ _ []) with (r := Err e) (w' := w').
  - destruct (fi_ids _ _ Hf id) as [[[snap svc] Hl] _]; [rewrite claimed_cons, decide_True by done; by left|].
    destruct (dispatch_run id snap svc (λ _, TError true) w) as [r w'] eqn:Hr.
    eexists. by apply (move_run _ _ _ _ _ []) with (snap := snap) (svc := svc) (T := λ _, TError true) (r := r) (w' := w').
  - eexists. by apply (move_leave _ _ _ _ _ []) with (r := (release dev w).1) (w' := (release dev w).2), surjective_pairing.
Qed.

#[export] Instance server_laws : BackgroundLaws back_inv.
Proof.
  split.
  - intros d b b' Hm Hb. destruct (back_system_inv b b') as [Hs Ht]; [apply back_system; eauto|done|].
    destruct Hb as [Hs0 _ Hf Hg]. split; [done|done|by eapply flight_inv_moves|by eapply moves_gone].
  - intros r b b' Ho Hb. destruct (back_system_inv b b') as [Hs Ht]; [apply back_system; eauto|done|].
    destruct Hb as [Hs0 _ Hf Hg]. split; [done|done|by eapply flight_inv_occurs|by eapply occurs_gone_jobs].
  - by intros d b b' [] Hg; simpl in *.
  - by intros r b b' [] Hg; simpl in *.
  - intros d b b' []; simpl; rewrite ?sum_list_with_app; simpl; lia.
  - intros [sys wk js hs] [_ _ Hf _] Hg. simpl in *. destruct wk; [|destruct js as [|j js]; [|by apply job_moves]|done].
    + eexists. by apply move_drain.
    + eexists. apply move_gone.
Qed.

Lemma begins_inv s : begins s → serve_inv back_inv s.
Proof.
  destruct s as [f b]. intros [Hf Hi _ Hw Hj]. apply fresh_command; [done|].
  split; [by apply initial_inv|apply Hi|..]; simpl in *.
  - change (bk_system b) with (sv_system (mkCommand f b)). rewrite (ini_flight _ Hi), Hj. split; [constructor|].
    intros id. rewrite lookup_empty. split; [by intros ?%elem_of_nil|by intros []].
  - by rewrite Hw.
Qed.

(** * Without failures a dispatch is finished when it leaves flight *)

Definition accounted (d : database) (fl : gmap string (Snapshot * Service)) : Prop :=
  ∀ id r, db_requests d !! id = Some r → req_status r = dispatching → is_Some (fl !! id).

Lemma accounted_calm d d' fl : calm d d' → accounted d fl → accounted d' fl.
Proof. intros Hc Ha id r Hr Hs. eapply Ha; [by apply (Hc id r Hs)|done]. Qed.

Lemma run_finishes id snap svc T w r w' : w_tx w = None → w_faults w = [] → dispatch_run id snap svc T w = (r, w') →
  ∃ st reason enc now, st ≠ dispatching ∧ w_db w' = finished_db st reason enc now id (w_db w).
Proof.
  intros Ht Hq Hrun.
  apply (wp_unfold (dispatch_run id snap svc T) (λ _ w', ∃ st reason enc now, st ≠ dispatching
    ∧ w_db w' = finished_db st reason enc now id (w_db w)) w _ _ Hrun).
  eapply (wp_dispatch_run w); [by apply at_start| |done]. intros st reason res enc now w1 Ho _ _ [Hd _ _ _ _ _].
  exists st, reason, enc, now. split; [|done]. pose proof (run_outcome_final (w_key w) snap svc T) as Hf. rewrite Ho in Hf.
  intros ->. by destruct Hf as [?|[?|?]].
Qed.

Lemma accounted_back b b' : (∃ d, worker_moves d b b') ∨ (∃ r, server_occurs r b b') → back_inv b →
  w_faults (sys_world (bk_system b)) = [] →
  accounted (w_db (sys_world (bk_system b))) (sys_flight (bk_system b)) →
  accounted (w_db (sys_world (bk_system b'))) (sys_flight (bk_system b')).
Proof.
  intros Hstep [Hs Ht _ _] Hq. destruct Hstep as [[cn Hm]|[rn Hh]]; [destruct Hm|destruct Hh]; simpl in *; try done.
  - (* claim *) destruct (claim_advances _ _ _ _ (si_tx _ Hs) H1) as [_ [(x & y & t0 & t1 & [= <- <-] & Hc)|[? _]]]; [|done].
    destruct Hc as [_ _ (q & _ & _ & ->)]. intros Ha i r. simpl. rewrite lookup_insert_Some, lookup_insert_is_Some.
    intros [[<- _]|[Hne Hr]] Hd; [by left|right; eauto].
  - destruct (claim_advances _ _ _ _ (si_tx _ Hs) H1) as [_ [(x & y & t0 & t1 & -> & _)|[_ Hc]]]; [by destruct (H2 (x, y))|].
    by apply accounted_calm.
  - (* run *) destruct (run_finishes _ _ _ _ _ _ _ Ht Hq H2) as (st & reason & enc & now & Hst & ->).
    intros Ha i x Hr Hd. rewrite lookup_delete_is_Some. destruct (decide (id = i)) as [<-|Hne].
    + exfalso. unfold finished_db in Hr. simpl in Hr. destruct (db_requests (w_db w) !! id) as [q|] eqn:Hi; simpl in Hr; [|congruence].
      rewrite lookup_insert_eq in Hr. injection Hr as <-. by destruct Hst.
    + rewrite finished_other in Hr by done. eauto.
  - apply accounted_calm. exact (ch_calm _ _ (on_db _ _ (run_onward (release dev) _ _ _ (si_tx _ Hs) H1))).
  - apply accounted_calm. exact (ch_calm _ _ (on_db _ _ (run_onward worker_tick _ _ _ (si_tx _ Hs) H1))).
  - pose proof (stable_call _ H1). apply accounted_calm. exact (ch_calm _ _ (on_db _ _ (run_onward c _ _ _ (si_tx _ Hs) H2))).
  - destruct H1 as (-> & _). done.
Qed.

Lemma accounted_steps s0 s : begins s0 → rtc quiet_step s0 s →
  accounted (w_db (sys_world (sv_system s))) (sys_flight (sv_system s)).
Proof.
  intros Hb Hs. assert (accounted (w_db (sys_world (sv_system s0))) (sys_flight (sv_system s0))) as Ha.
  { intros id r Hr Hd. by destruct (bg_rest _ Hb id r Hr). }
  pose proof (begins_inv _ Hb) as Hinv. clear Hb.
  induction Hs as [|a b c [Hq Hab] _ IH]; [done|]. apply IH; [|by eapply serve_inv_step].
  destruct Hinv as [_ Hback]. destruct Hab as [Hab|Hab]; [destruct Hab as [| |f x y Hw]|destruct Hab as [|f x y Ho]]; try done.
  - apply (accounted_back x y); [left; by eexists|done..].
  - apply (accounted_back x y); [right; by eexists|done..].
Qed.

(** * Properties *)

(** The worker and its dispatches have ended, and the listeners serve no more. *)
Record stopped (s : server) : Prop := {
  sd_worker : bk_worker (cm_back s) = Gone;
  sd_jobs : bk_jobs (cm_back s) = [];
  sd_flight : sys_flight (sv_system s) = ∅;
  sd_listeners : Serving ∉ fr_listeners (cm_front s);
}.

(** Once the command has returned it has, and nothing is dispatched any more. *)
Lemma returned_step s s' r : serve_step s s' → stopped s → fr_main (cm_front s) = Returned r →
  fr_main (cm_front s') = Returned r ∧ sys_sent (sv_system s') = sys_sent (sv_system s).
Proof.
  intros [[f f' b Hs|f f' b He|f b b' Hm]|[f f' b Hd|f b b' Ho]] [Hw Hj _ _] Hr; simpl in *.
  - by destruct Hs; simplify_eq/=.
  - by destruct He; simplify_eq/=.
  - split; [done|]. destruct Hm; simplify_eq/=; by destruct js1.
  - by destruct Hd; simplify_eq/=.
  - split; [done|]. by destruct Ho.
Qed.

Lemma inv_stopped s r : serve_inv back_inv s → fr_main (cm_front s) = Returned r → stopped s.
Proof.
  intros Hinv Hret. destruct (or_end _ (serve_inv_orderly _ Hinv) r Hret) as (_ & Hls & Hgone). destruct Hinv as [_ [_ _ Hf Hj]].
  assert (bk_worker (cm_back s) = Gone) as Hg by (simpl in Hgone; by destruct (bk_worker (cm_back s))).
  split; auto. apply map_empty. intros id. apply eq_None_not_Some. intros Hi. apply (fi_ids _ _ Hf) in Hi.
  rewrite (Hj Hg) in Hi. by apply elem_of_nil in Hi.
Qed.

Lemma returned_sends s s' r : rtc serve_step s s' → serve_inv back_inv s → fr_main (cm_front s) = Returned r →
  sys_sent (sv_system s') = sys_sent (sv_system s).
Proof.
  induction 1 as [|a b c Hab _ IH]; [done|]. intros Hinv Hr.
  destruct (returned_step _ _ _ Hab (inv_stopped _ _ Hinv Hr) Hr) as [Hr' <-]. apply IH; [by eapply serve_inv_step|done].
Qed.

(** C9: Shutdown is orderly: the command returns, and the store is closed, only when
    the worker is gone, every dispatch it started has ended, none is between its claim
    and its end and no listener serves any more; without an error only after a signal,
    and otherwise with the error of a listener that failed.  From then on nothing is
    dispatched.  If no statement failed, the durable outcome of every dispatch is
    stored by then: no request is left as being dispatched, whatever the handlers still
    do that were in progress — for these are not waited for.  And no listener's
    goroutine ever waits to hand over its error.  All of this is part of the system
    whose safety is shown before. *)
Theorem shutdown_orderly s0 s (Hb : begins s0) (Hs : rtc serve_step s0 s) :
  orderly s ∧
  (∀ r, fr_main (cm_front s) = Returned r →
     stopped s ∧ (rtc quiet_step s0 s → at_rest (w_db (sys_world (sv_system s))))
     ∧ ∀ s', rtc serve_step s s' → sys_sent (sv_system s') = sys_sent (sv_system s)) ∧
  sys_steps (sv_system s0) (sv_system s).
Proof.
  pose proof (serve_inv_steps _ _ Hs (begins_inv _ Hb)) as Hinv. pose proof (serve_inv_orderly _ Hinv) as Ho.
  split_and!; [done| |by apply steps_system]. intros r Hret. pose proof (inv_stopped _ _ Hinv Hret) as Hst.
  split_and!; [done| |intros s' Hs'; by eapply returned_sends].
  intros Hq id q Hid Hd. destruct (accounted_steps _ _ Hb Hq id q Hid Hd) as [x Hx]. by rewrite (sd_flight _ Hst) in Hx.
Qed.

(** C10: Shutdown completes: once a signal has come or a listener has failed, the
    program's own steps — of the listeners, the main goroutine, the worker and the
    dispatches — run out within a bound that the state gives, whatever the handlers and
    the environment did before; and they cannot get stuck before the command has
    returned with the store closed, whatever handlers are still in progress. *)
Theorem shutdown_completes s0 s (Hb : begins s0) (Hs : rtc serve_step s0 s) (Hst : stopping (cm_front s)) :
  (∀ n s', nsteps moves n s s' → (n ≤ budget s)%nat) ∧
  (∀ s', rtc moves s s' → (∀ s'', ¬ moves s' s'') → ∃ r, fr_main (cm_front s') = Returned r).
Proof. apply stops; [|done]. by eapply serve_inv_steps, begins_inv. Qed.

End serving.

(** * A witness: a signal comes while the worker starts a dispatch

    The handler that took the submission does not end: it outlives the command, and
    what it reads then is the outcome. *)

#[local] Existing Instances plain_crypto plain_json.

Definition state_of (w : world) (fl : gmap string (Snapshot * Service)) (sent : list (string * Snapshot))
    (ls : list goroutine) (m : main_phase) (wk : worker_phase) (js : list job) (hs : nat) (sg cn : bool) : server :=
  mkCommand (mkFront ls [] m sg cn []) (mkBackend (mkSystem w fl sent) wk js hs).

Definition submit_world : world := (Submit "dev_1" sample_get sample_world).2.
Definition tick_world : world := (worker_tick submit_world).2.
Definition started_id : string := match (worker_tick submit_world).1 with Ok ((id, _) :: _) => id | _ => EmptyString end.
Definition taken_world : world := (dispatch_claim started_id tick_world).2.
Definition taken : Snapshot * Service :=
  match (dispatch_claim started_id tick_world).1 with Ok (Some x) => x | _ => claimed_pair end.
Definition ended_world : world := (dispatch_run started_id taken.1 taken.2 echo taken_world).2.
Definition released_world : world := (release "dev_1" ended_world).2.

Definition first_state : server := state_of sample_world ∅ [] [Serving; Serving] Selecting Looping [] 0 false false.
Definition signal_state : server :=
  state_of tick_world ∅ [] [Serving; Serving] Selecting Looping [mkJob started_id "dev_1" Starting] 1 true false.
Definition closing_state : server :=
  state_of taken_world (<[started_id := (taken.1, taken.2)]> ∅) [] [Sending closed_error; Sending closed_error]
    (Joining (Ok tt)) Draining [mkJob started_id "dev_1" Claimed] 1 true true.
Definition last_state : server :=
  state_of released_world (delete started_id (<[started_id := (taken.1, taken.2)]> ∅)) ([] ++ [(started_id, taken.1)])
    [Sending closed_error; Sending closed_error] (Returned (Ok tt)) Gone [] 1 true true.

(** The handler reads the status after the command has returned. *)
Definition answered_state : server :=
  state_of (RequestStatus "dev_1" started_id released_world).2
    (delete started_id (<[started_id := (taken.1, taken.2)]> ∅)) ([] ++ [(started_id, taken.1)])
    [Sending closed_error; Sending closed_error] (Returned (Ok tt)) Gone [] 1 true true.

Lemma sample_begins : begins first_state.
Proof.
  split; try reflexivity; [split; try reflexivity; by repeat constructor|exact sample_initial|].
  intros id r. simpl. unfold sample_db. simpl. by rewrite lookup_empty.
Qed.

Lemma quiet_serves (s s' : server) s'' : w_faults (sys_world (sv_system s)) = [] → moves s s' → rtc quiet_step s' s'' → rtc quiet_step s s''.
Proof. intros Hq Hm. apply rtc_l. split; [done|by left]. Qed.

Lemma quiet_occurs f b b' s' : w_faults (sys_world (bk_system b)) = [] → server_occurs (running (fr_main f)) b b' →
  rtc quiet_step (mkCommand f b') s' → rtc quiet_step (mkCommand f b) s'.
Proof. intros Hq Hm. apply rtc_l. split; [done|]. right. by apply happens_back. Qed.

Lemma quiet_works f b b' s' : w_faults (sys_world (bk_system b)) = [] → worker_moves (context_done f) b b' →
  rtc quiet_step (mkCommand f b') s' → rtc quiet_step (mkCommand f b) s'.
Proof. intros Hq Hm. apply rtc_l. split; [done|]. left. by apply move_back. Qed.

Lemma to_signal : rtc quiet_step first_state signal_state.
Proof.
  eapply quiet_occurs; [reflexivity|by apply occurs_request|].
  eapply quiet_occurs; [reflexivity|eapply (occurs_call _ (Submit "dev_1" sample_get)); [constructor|apply surjective_pairing]|].
  eapply quiet_occurs; [vm_compute; reflexivity|eapply (occurs_tick _ _ _ _ _ [(started_id, "dev_1")] tick_world); vm_compute; reflexivity|].
  apply rtc_once. split; [vm_compute; reflexivity|]. right. apply happens_front, happens_signal.
Qed.

Lemma to_closing : rtc quiet_step signal_state closing_state.
Proof.
  assert (w_faults tick_world = [] ∧ w_faults taken_world = []) as [Hq1 Hq2] by (vm_compute; by split).
  eapply quiet_serves; [exact Hq1|apply move_serve, move_done|].
  eapply quiet_serves; [exact Hq1|apply move_serve; by eapply move_close|].
  eapply quiet_serves; [exact Hq1|apply move_serve; by eapply move_close|].
  eapply quiet_serves; [exact Hq1|apply move_end; by eapply move_cancel; simpl|].
  eapply quiet_works; [exact Hq1|by apply move_drain|].
  eapply quiet_works; [exact Hq1|eapply (move_claim _ _ _ _ _ [] started_id "dev_1" [] taken.1 taken.2 taken_world); vm_compute; reflexivity|].
  reflexivity.
Qed.

Lemma to_end : rtc quiet_step closing_state last_state.
Proof.
  assert (w_faults taken_world = [] ∧ w_faults ended_world = [] ∧ w_faults released_world = []) as (Hq1 & Hq2 & Hq3)
    by (vm_compute; by split_and!).
  eapply quiet_works; [exact Hq1|eapply (move_run _ _ _ _ _ [] started_id "dev_1" [] taken.1 taken.2 echo);
    [apply lookup_insert_eq|apply surjective_pairing]|].
  eapply quiet_works; [exact Hq2|eapply (move_leave _ _ _ _ _ [] started_id "dev_1" []); apply surjective_pairing|].
  eapply quiet_works; [exact Hq3|apply move_gone|]. eapply quiet_serves; [exact Hq3|apply move_end; by apply move_return|]. reflexivity.
Qed.

Lemma shutdown_orderly_witness :
  begins first_state ∧ rtc serve_step first_state last_state ∧ stopped last_state ∧
  (req_status <$> db_requests (w_db (sys_world (sv_system last_state))) !! started_id) = Some completed ∧
  at_rest (w_db (sys_world (sv_system last_state))) ∧
  bk_handlers (cm_back last_state) = 1%nat ∧ serve_step last_state answered_state.
Proof.
  assert (rtc quiet_step first_state last_state) as Hq.
  { etransitivity; [exact to_signal|]. etransitivity; [exact to_closing|exact to_end]. }
  pose proof (shutdown_orderly first_state last_state sample_begins (quiet_steps _ _ Hq)) as (_ & Hret & _).
  destruct (Hret (Ok tt) eq_refl) as (Hst & Hrest & _).
  split; [exact sample_begins|]. split; [exact (quiet_steps _ _ Hq)|]. split; [exact Hst|].
  split; [vm_compute; reflexivity|]. split; [exact (Hrest Hq)|]. split; [reflexivity|].
  right. apply happens_back. eapply (occurs_call _ (RequestStatus "dev_1" started_id)); [constructor|apply surjective_pairing].
Defined.

Lemma shutdown_completes_witness :
  stopping (cm_front signal_state) ∧ budget signal_state = 15%nat ∧
  (∀ n s', nsteps moves n signal_state s' → (n ≤ 15)%nat) ∧
  (∀ s', rtc moves signal_state s' → (∀ s'', ¬ moves s' s'') → ∃ r, fr_main (cm_front s') = Returned r).
Proof.
  split; [by left|]. split; [reflexivity|].
  apply (shutdown_completes first_state signal_state sample_begins (quiet_steps _ _ to_signal)). by left.
Defined.
