(* ===== verification/Working.v ===== *)
(** What one tick of the worker starts: the oldest queued requests, in order, as far
    as there are slots. *)
From S2P Require Import Prelude GoStrings Access Upstream Crypto Types Db Rules Samples Authorize Lifecycle.
From S2P Require Import Life Closing Submitting Limits Owner Worker Granting Stable Handlers.

(** * The order of the queue *)

#[export] Instance older_trans : Transitive older.
Proof.
  intros [i r] [j q] [k p]. unfold older; simpl. intros [?|[? ?]] [?|[? ?]]; [left; lia..|].
  right. split; [lia|]. by transitivity j.
Qed.

#[export] Instance older_total : Total older.
Proof.
  intros [i r] [j q]. unfold older; simpl.
  destruct (Z.lt_trichotomy (req_created r) (req_created q)) as [?|[?|?]]; auto.
  destruct (total String.le i j); auto.
Qed.

Lemma elem_of_queued d id r : (id, r) ∈ queued_rows d ↔ db_requests d !! id = Some r ∧ req_status r = queued.
Proof. unfold queued_rows. rewrite list_elem_of_filter, elem_of_map_to_list. simpl. tauto. Qed.

Lemma NoDup_queued d : NoDup (queued_rows d).*1.
Proof.
  apply NoDup_fmap_fst; [|apply NoDup_filter, NoDup_map_to_list].
  intros id r r' [H _]%elem_of_queued [H' _]%elem_of_queued. congruence.
Qed.

(** What the query of the worker selects. *)
Record oldest_queued (d : database) (cs : list (string * string)) : Prop := {
  oq_length : (length cs ≤ 32)%nat;
  oq_nodup : NoDup cs.*1;
  oq_queued : ∀ id dev, (id, dev) ∈ cs → ∃ r, db_requests d !! id = Some r ∧ req_status r = queued ∧ req_device r = dev;
  oq_sorted : ∃ rows, Sorted older rows ∧ cs = map (λ r, (r.1, req_device r.2)) rows;
  oq_oldest : ∀ id r, db_requests d !! id = Some r → req_status r = queued → (id, req_device r) ∉ cs →
    length cs = 32%nat ∧ ∀ c, c ∈ cs → ∃ q, db_requests d !! c.1 = Some q ∧ older (c.1, q) (id, r);
}.

Lemma candidates_oldest d : oldest_queued d (candidates d).
Proof.
  unfold candidates. set (rows := merge_sort older (queued_rows d)).
  assert (rows ≡ₚ queued_rows d) as Hperm by apply merge_sort_Permutation.
  assert (Sorted older rows) as Hsort by (apply Sorted_merge_sort; apply _).
  assert (StronglySorted older rows) as Hss by (apply Sorted_StronglySorted; [apply _|done]).
  rewrite <-(take_drop 32 rows) in Hss. apply StronglySorted_app in Hss as (Hcross & Hss1 & _).
  split.
  - rewrite length_map, length_take. lia.
  - assert (NoDup (rows.*1)) as Hn by (rewrite Hperm; apply NoDup_queued).
    replace (map _ (take 32 rows)).*1 with (take 32 rows.*1).
    + eapply sublist_NoDup; [done|apply sublist_take].
    + rewrite <-fmap_take. generalize (take 32 rows). clear. intros l. induction l; simpl; [done|by f_equal].
  - intros id dev ([i r] & [= -> ->] & Hin)%list_elem_of_fmap.
    assert ((i, r) ∈ rows) as Hr by (eapply elem_of_sublist; [done|apply sublist_take]).
    rewrite Hperm in Hr. apply elem_of_queued in Hr as [? ?]. eauto.
  - exists (take 32 rows). split; [by apply StronglySorted_Sorted|done].
  - intros id r Hr Hq Hnot.
    assert ((id, r) ∈ rows) as Hin by (rewrite Hperm; by apply elem_of_queued).
    rewrite <-(take_drop 32 rows), elem_of_app in Hin. destruct Hin as [Hin|Hin].
    { exfalso. apply Hnot, list_elem_of_fmap. by exists (id, r). }
    split.
    + rewrite length_map, length_take. assert (drop 32 rows ≠ []) as Hd by (intros E; rewrite E in Hin; by apply elem_of_nil in Hin).
      assert (length (drop 32 rows) ≠ 0%nat) as Hl by (by destruct (drop 32 rows)). rewrite length_drop in Hl. lia.
    + intros c ([i q] & -> & Hc)%list_elem_of_fmap. simpl. exists q. split; [|by apply (Hcross (i, q) (id, r))].
      assert ((i, q) ∈ rows) as Hiq by (eapply elem_of_sublist; [done|apply sublist_take]).
      rewrite Hperm in Hiq. by apply elem_of_queued in Hiq as [? _].
Qed.

(** * The slots of a tick *)

(** The dispatches in flight once those of [started] have begun. *)
Definition joined (started : list (string * string)) (flight : list string) : list string := reverse started.*2 ++ flight.

Lemma count_mono d l k : (count d l <= count d (k ++ l))%Z.
Proof. unfold count. rewrite filter_app, length_app. lia. Qed.

Lemma start_spec l w flight : slots (w_mem w) flight → within_limits flight →
  ∃ started w', start l w = (Ok started, w') ∧ w_db w' = w_db w ∧ w_tx w' = w_tx w ∧ w_clock w' = w_clock w
    ∧ started `sublist_of` l ∧ slots (w_mem w') (joined started flight) ∧ within_limits (joined started flight)
    ∧ ∀ c, c ∈ l → c ∉ started →
        (32 <= Z.of_nat (length (joined started flight)))%Z ∨ (4 <= count c.2 (joined started flight))%Z.
Proof.
  revert w flight. induction l as [|c l IH]; intros w flight Hs Hl; simpl.
  { exists [], w. split_and!; try done. }
  destruct (acquire_slots c.2 w flight Hs) as [He Hacq].
  unfold mbind, M_bind. destruct (acquire c.2 w) as [[ok|e] w1] eqn:Ha; [|by destruct (_ || _) in He].
  destruct ok.
  - destruct (slot_step_inv w flight w1 (c.2 :: flight)) as [Hs1 Hl1]; [by constructor|done|done|].
    destruct (IH w1 (c.2 :: flight) Hs1 Hl1) as (started & w2 & -> & Hd & Ht & Hck & Hsub & Hs2 & Hl2 & Hmax).
    assert (joined (c :: started) flight = joined started (c.2 :: flight)) as Hj.
    { unfold joined. simpl. by rewrite reverse_cons, <-app_assoc. }
    exists (c :: started), w2. rewrite Hj. simpl in He. destruct (_ || _) in He; [done|]. injection He as He.
    split_and!; try done; [by rewrite Hd, He|by rewrite Ht, He|by rewrite Hck, He|by apply sublist_skip|].
    intros x [-> |Hx]%elem_of_cons Hn; [exfalso; apply Hn; left|]. apply Hmax; [done|]. intros ?. apply Hn. by right.
  - assert (w1 = w) as ->. { destruct (_ || _) in He; by injection He. }
    destruct (IH w flight Hs Hl) as (started & w2 & -> & Hd & Ht & Hck & Hsub & Hs2 & Hl2 & Hmax).
    exists started, w2. split_and!; try done; [by apply sublist_cons|].
    intros x [-> |Hx]%elem_of_cons Hn; [|by apply Hmax].
    destruct (_ || _) eqn:E in He; [|done]. unfold joined. apply orb_true_iff in E as [E%Z.leb_le|E%Z.leb_le].
    + left. rewrite length_app. lia.
    + right. pose proof (count_mono c.2 flight (reverse started.*2)). lia.
Qed.

Section working.
Context `{GoCrypto} `{GoJSON}.

(** What a pass of maintenance makes of a database, against one reading of the clock:
    overdue requests are expired, old payloads purged, expired sessions gone, and
    nothing else. *)
Definition maintained_db (now : Z) (d d' : database) : Prop :=
  (∀ id, db_requests d' !! id = maintained now <$> db_requests d !! id) ∧
  db_sessions d' = filter (λ s : string * session_row, (now < sess_expires s.2)%Z) (db_sessions d).

Lemma maintained_result now d t : closes_at now (select_requests (λ _, overdue now) d) d t →
  maintained_db now d (expire_sessions now (purge_payloads (now - 24 * 3600) t)).
Proof.
  intros Hc. split; [intros id; by apply (maintenance_rows now)|].
  destruct (closes_rest _ _ _ _ _ (closes_at_closes _ _ _ _ Hc)) as (_&_&_&Hs&_). simpl. by rewrite Hs.
Qed.

(** How a tick ends. *)
Definition ticked (w : world) (flight : list string) (x : result (list (string * string))) (w' : world) : Prop :=
  ∃ started, x = Ok started ∧ w_tx w' = None ∧ changes (w_db w) (w_db w')
    ∧ (w_faults w = [] → ∃ now, (Unix (w_clock w) <= now <= Unix (w_clock w'))%Z ∧ maintained_db now (w_db w) (w_db w'))
    ∧ oldest_queued (w_db w') (candidates (w_db w'))
    ∧ started `sublist_of` candidates (w_db w')
    ∧ slots (w_mem w') (joined started flight) ∧ within_limits (joined started flight)
    ∧ (w_faults w = [] → ∀ c, c ∈ candidates (w_db w') → c ∉ started →
         (32 <= Z.of_nat (length (joined started flight)))%Z ∨ (4 <= count c.2 (joined started flight))%Z).

Lemma wp_maintained w : w_tx w = None →
  wp maintenance (λ r w1, r = Ok tt ∧ ∃ d, changes (w_db w) d ∧ at_world w d None w1
    ∧ (w_faults w = [] → ∃ now, (Unix (w_clock w) <= now <= Unix (w_clock w1))%Z ∧ maintained_db now (w_db w) d)) w.
Proof.
  intros Htx. eapply wp_maintenance; [by apply at_start|..].
  - intros now ids t d' w1 Hp Hc Hr Hn Hall Hw1. split; [done|]. exists d'.
    split_and!; [by eapply maintenance_changes|done|]. intros Hq. exists now. split; [done|].
    destruct (Hall Hq) as [-> ->]. by apply maintained_result.
  - intros w1 Hne Hw1. split; [done|]. by exists (w_db w).
Qed.

(** C34: One tick of the worker: it first runs maintenance — when nothing fails, the
    requests whose deadline has passed are expired, old payloads purged and expired
    sessions removed, against one reading of the clock, so that an overdue request is
    not started —, then starts dispatches only for queued requests, taken in order of
    age from the (at most 32) oldest ones of the database as maintenance left it, each
    once and for its own device; the counters account for exactly these; the limits of
    32 in flight and four of a device still hold; and, when nothing fails, a candidate
    is passed over only when one of its limits is reached. *)
Theorem worker_tick_correct w flight
    (Htx : w_tx w = None) (Hs : slots (w_mem w) flight) (Hl : within_limits flight) :
  wp worker_tick (ticked w flight) w.
Proof.
  unfold worker_tick. wp_rule. eapply wp_mono; [by apply wp_maintained|].
  intros r w1 (-> & d & Hch & Hw1 & Hmt). cbv beta iota. pose proof (at_faults _ _ _ _ Hw1) as Hf1.
  rewrite <-(at_mem _ _ _ _ Hw1) in Hs. apply at_here in Hw1.
  assert (∀ l w2, at_world w1 d None w2 → l `prefix_of` candidates d → (w_faults w = [] → l = candidates d) →
    wp (start l) (ticked w flight) w2) as Hst.
  { intros l w2 Hw2 Hp Hq. rewrite <-(at_mem _ _ _ _ Hw2) in Hs.
    destruct (start_spec l w2 flight Hs Hl) as (started & w3 & Hrun & Hd & Ht & Hck & Hsub & Hs3 & Hl3 & Hmax).
    unfold wp, ticked. rewrite Hrun. simpl. exists started. rewrite Hd, Ht, (at_db _ _ _ _ Hw2), (at_tx _ _ _ _ Hw2).
    split_and!; try done; [|apply candidates_oldest| |].
    - intros Hq0. destruct (Hmt Hq0) as (now & Hn & Hm). exists now. split; [|done]. rewrite Hck.
      pose proof (Unix_mono _ _ (at_clock _ _ _ _ Hw2)). lia.
    - etransitivity; [done|]. destruct Hp as [k ->]. apply sublist_inserts_r. done.
    - intros Hf c Hc. apply Hmax. by rewrite (Hq Hf). }
  wp_rule. wp_rule. eapply wp_query_rows_db; [done| |].
  - intros l b w2 Hp Hq Hw2 _. apply Hst; [done..|]. intros Hq0. by apply Hq, Hf1.
  - intros e w2 [_ Hf] Hw2. apply (Hst [] w2); [done|apply prefix_nil|]. intros Hq0. by destruct (Hf (Hf1 Hq0)).
Qed.

End working.

(** * A witness *)

#[local] Existing Instances plain_crypto plain_json.

Definition queued_world : world := (Submit "dev_1" sample_get sample_world).2.

Lemma no_slots : slots (w_mem queued_world) [] ∧ within_limits [].
Proof.
  split; [|split; [simpl; lia|by intros d]].
  assert (w_mem queued_world = mkMemory ∅ 0 ∅) as -> by (vm_compute; reflexivity).
  split; [done|]. intros d. simpl. by rewrite lookup_empty.
Qed.

Lemma worker_tick_correct_witness :
  w_tx queued_world = None ∧ slots (w_mem queued_world) [] ∧ within_limits [] ∧
  (∃ id w', worker_tick queued_world = (Ok [(id, "dev_1")], w')) ∧ wp worker_tick (ticked queued_world []) queued_world.
Proof.
  split; [vm_compute; reflexivity|]. split; [exact (proj1 no_slots)|]. split; [exact (proj2 no_slots)|].
  split; [do 2 eexists; vm_compute; reflexivity|].
  apply (worker_tick_correct queued_world []); [vm_compute; reflexivity|exact (proj1 no_slots)|exact (proj2 no_slots)].
Defined.
