(* ===== verification/Settling.v ===== *)
(** Nothing waits for ever: a poll for a status ends, and a restart followed by one
    maintenance pass after the deadlines leaves no request unfinished. *)
From S2P Require Import Prelude GoStrings NetUrl Http GoTime Access Upstream Crypto Types Db Schema Rules Samples.
From S2P Require Import Authorize Lifecycle Life Closing Submitting Limits Owner Device Worker Working.
From S2P Require Import Granting Services Permissions Stable Handlers System.

(** * The polling loop *)

(** One wait of the loop: 200 ms in which the server does what it does. *)
Definition poll_interval : Z := 200000000.
Definition waits_long (f : world → world) : Prop := ∀ w, (w_clock w + poll_interval <= w_clock (f w))%Z.

Section polling.
Context `{GoCrypto} `{GoJSON}.

Lemma begin_deadlock d w : w_tx w = Some d → begin_tx w = (Err ErrDeadlock, w).
Proof. unfold begin_tx. by intros ->. Qed.

(** Reading a status does not turn the clock back. *)
Lemma RequestStatus_clock device id w : (w_clock w <= w_clock (RequestStatus device id w).2)%Z.
Proof.
  destruct (w_tx w) as [d|] eqn:Ht.
  - unfold RequestStatus, with_tx, mbind, M_bind. by rewrite (begin_deadlock d w Ht).
  - change (wp (RequestStatus device id) (λ _ w', (w_clock w <= w_clock w')%Z) w).
    eapply (wp_RequestStatus w); [by apply at_start|]. intros r w' Hw' _ _. apply Hw'.
Qed.

Lemma time_Now_clock w : time_Now w = (Ok (w_clock (time_Now w).2), (time_Now w).2) ∧ (w_clock w <= w_clock (time_Now w).2)%Z.
Proof. unfold time_Now. destruct (w_ticks w) as [|n ns]; simpl; split; try done; lia. Qed.

(** A loop that has waits enough to pass its deadline ends with a reply. *)
Lemma status_loop_ends device id wait deadline waits w :
  Forall (λ o, ∃ f, o = Some f ∧ waits_long f) waits →
  (deadline < w_clock w + poll_interval * Z.of_nat (length waits))%Z →
  ∃ reply, (status_loop device id wait deadline waits w).1 = Ok reply ∧ reply ≠ Dropped.
Proof.
  revert w. induction waits as [|o waits IH]; intros w Hf Hd; simpl; unfold try_, attempt, mbind, M_bind.
  all: pose proof (RequestStatus_clock device id w) as Hc.
  all: destruct (RequestStatus device id w) as [[st|e] w1]; simpl in Hc |- *; [|by exists (DRefuse 404 "request_not_found")].
  all: destruct (wait =? 0)%Z; simpl; [by exists (StatusReply st)|].
  all: destruct (time_Now_clock w1) as [Et Hc1]; rewrite Et; simpl.
  - replace (deadline <? w_clock (time_Now w1).2)%Z with true by (symmetry; apply Z.ltb_lt; cbn [length] in Hd; unfold poll_interval in Hd; lia).
    by exists (StatusReply st).
  - destruct (_ || _); [by exists (StatusReply st)|].
    apply Forall_cons in Hf as [(f & -> & Hlong) Hf]. simpl.
    apply IH; [done|]. specialize (Hlong (time_Now w1).2). simpl length in Hd. lia.
Qed.

(** A poll for a status ends: whatever its input, whatever the rest of the
    server does to the database while it waits, and whatever fails, the handler
    replies after at most 76 waits of 200 ms (15 seconds), unless the client goes
    away first. *)
Theorem status_terminates device body waits w
    (Hw : Forall (λ o, ∃ f, o = Some f ∧ waits_long f) waits) (Hn : (76 <= length waits)%nat) :
  ∃ reply, (status_ device body waits w).1 = Ok reply ∧ reply ≠ Dropped.
Proof.
  unfold status_. destruct (decode 4096 decode_status_input body) as [i|].
  - destruct (_ || _) eqn:E; [by eexists|]. apply orb_false_iff in E as [E1%Z.ltb_ge E2%Z.ltb_ge].
    unfold mbind, M_bind. destruct (time_Now_clock w) as [Et Hc]. rewrite Et. simpl. apply status_loop_ends; [done|].
    unfold poll_interval, second. lia.
  - by eexists.
Qed.

End polling.

(** * Restart and deadlines *)

Section settling.
Context `{GoCrypto} `{GoJSON}.

(** What a start makes of a request. *)
Definition recovered (o o' : option request_row) : Prop :=
  match o, o' with
  | None, None => True
  | Some q, Some q' => if is_dispatching q then req_status q' = outcome_unknown else q' = q
  | _, _ => False
  end.

(** Every request has ended. *)
Definition settled (d : database) : Prop := ∀ id q, db_requests d !! id = Some q → terminal (req_status q) = true.

(** A start that succeeds without failures leaves no request being dispatched. *)
Lemma wp_New password d w0 w :
  at_world w0 d None w → w_faults w0 = [] →
  wp (New password) (λ r w', r = Ok tt → w_tx w' = None ∧ ∀ id, recovered (db_requests d !! id) (db_requests (w_db w') !! id)) w.
Proof.
  intros Hw Hq. unfold New.
  assert (∀ d1 w1, at_world w0 d1 None w1 → db_requests d1 = db_requests d →
    wp recoverDispatches (λ r w', r = Ok tt → w_tx w' = None ∧
      ∀ id, recovered (db_requests d !! id) (db_requests (w_db w') !! id)) w1) as Hrec.
  { intros d1 w1 Hw1 <-. eapply wp_recoverDispatches; [done| |done].
    intros ids d' w2 _ Hall Hc [Hd Ht _ _ _ _] _. split; [done|]. rewrite Hd. rewrite (Hall Hq) in Hc.
    intros id. destruct (decide (id ∈ select_requests (λ _, is_dispatching) d1)) as [Hin|Hout].
    - pose proof Hin as (q & Hr & Hs)%elem_of_select.
      destruct (closes_row _ _ _ _ _ id q Hc) as [now Hr']; [apply NoDup_select|done|done|].
      unfold recovered. by rewrite Hr, Hr', Hs.
    - rewrite (closes_other _ _ _ _ _ id Hc) by done. destruct (db_requests d1 !! id) as [q|] eqn:Hr; [|done].
      simpl. destruct (is_dispatching q) eqn:Hs; [|done]. destruct Hout. apply elem_of_select. eauto. }
  wp_rule. wp_rule; [|done]. wp_rule. wp_case; [|wp_rule; by eapply Hrec]. wp_case; [by wp_rule|].
  wp_rule. wp_rule. wp_rule. wp_rule. wp_rule. wp_rule; [|done].
  wp_rule. eapply Hrec; [done|]. unfold insert_owner in *. destruct (db_owners d !! _); [done|]. by simplify_eq.
Qed.

Lemma settled_status now r :
  is_dispatching r = false → (req_expires r <= now)%Z → terminal (req_status (maintained now r)) = true.
Proof.
  unfold maintained, overdue, is_dispatching. intros Hd%bool_decide_eq_false He.
  replace (req_expires r <=? now)%Z with true by (symmetry; by apply Z.leb_le). rewrite andb_true_r.
  destruct (undispatched (req_status r)) eqn:E; [done|].
  assert (terminal (req_status r) = true) by by destruct (req_status r).
  by destruct (stale now r).
Qed.

(** C3: No request waits for ever, and none is stuck by a crash: after a crash at any
    moment, a start and then a maintenance pass that meet no failure, the latter
    after the deadlines of the requests, every request there is has ended; those
    that were being dispatched are reported as of unknown outcome, by the start. *)
Theorem restart_settles password w w1 w2 w3 r w4
    (Hcrash : crashed w w1) (Hq1 : w_faults w1 = []) (Hnew : New password w1 = (Ok tt, w2))
    (Htime : environment w2 w3) (Hq3 : w_faults w3 = [])
    (Hdead : ∀ id q, db_requests (w_db w3) !! id = Some q → (req_expires q <= Unix (w_clock w3))%Z)
    (Hm : maintenance w3 = (r, w4)) :
  (∀ id q, db_requests (w_db w) !! id = Some q → req_status q = dispatching →
     ∃ q', db_requests (w_db w2) !! id = Some q' ∧ req_status q' = outcome_unknown)
  ∧ settled (w_db w4).
Proof.
  destruct Hcrash as (Hd1 & Ht1 & _), Htime as (Hd3 & Ht3 & _).
  destruct (wp_unfold _ _ _ _ _ Hnew (wp_New password (w_db w1) w1 w1 (at_start w1 Ht1) Hq1) eq_refl) as [Ht2 H2].
  rewrite Hd1 in H2. split.
  - intros id q Hi Hs. specialize (H2 id). rewrite Hi in H2. unfold recovered in H2.
    destruct (db_requests (w_db w2) !! id) as [q'|]; [|done]. exists q'. split; [done|].
    unfold is_dispatching in H2. by rewrite bool_decide_eq_true_2 in H2.
  - assert (w_tx w3 = None) as Hw3 by congruence.
    assert (wp maintenance (λ _ w', settled (w_db w')) w3) as Hwp.
    { eapply (wp_maintenance w3); [by apply at_start| |done].
      intros now ids t d' w' Hp Hc Hr Hn Hall [Hd _ _ _ _ _] id q. destruct (Hall Hq3) as [-> ->]. rewrite Hd.
      change (db_requests (expire_sessions now ?x)) with (db_requests x).
      rewrite (maintenance_rows now (w_db w3) t id Hc). intros (q0 & Hq0 & ->)%fmap_Some.
      apply settled_status; [|by specialize (Hdead _ _ Hq0); lia].
      rewrite Hd3 in Hq0. specialize (H2 id). rewrite Hq0 in H2. unfold recovered in H2.
      destruct (db_requests (w_db w) !! id) as [q1|]; [|done]. destruct (is_dispatching q1) eqn:E; [|by subst].
      apply bool_decide_eq_false. congruence. }
    exact (wp_unfold _ _ _ _ _ Hm Hwp).
Qed.

End settling.

(** * Witnesses *)

#[local] Existing Instances plain_crypto plain_json.

(** The sample database with a poll for a request that stays queued. *)
Definition pass_time (w : world) : world := set_w_clock (w_clock w + poll_interval) w.

Lemma status_terminates_witness :
  (∃ reply, (status_ "dev_1" "{}" (replicate 76 (Some pass_time)) sample_world).1 = Ok reply ∧ reply ≠ Dropped).
Proof.
  apply (status_terminates "dev_1" "{}" (replicate 76 (Some pass_time)) sample_world).
  - apply Forall_replicate. exists pass_time. split; [reflexivity|]. intros w. simpl. lia.
  - vm_compute. lia.
Defined.

(** One request is being dispatched, another waits for an approval, when the
    server stops; it starts a day later. *)
Definition busy_world : world :=
  let w1 := (Submit "dev_1" sample_get sample_world).2 in
  let id := default "" (head (map fst (map_to_list (db_requests (w_db w1))))) in
  let w2 := (dispatch_claim id (set_w_random ["another request id"] w1)).2 in
  (Submit "dev_1" sample_post w2).2.
Definition started_world : world := (New "" busy_world).2.
Definition late_world : world := set_w_clock (200000 * second) started_world.

Lemma environment_clock w t : environment w (set_w_clock t w).
Proof. by repeat split. Qed.

Lemma restart_settles_witness :
  size (db_requests (w_db busy_world)) = 2%nat ∧
  (∀ id q, db_requests (w_db (maintenance late_world).2) !! id = Some q → terminal (req_status q) = true).
Proof.
  split; [vm_compute; reflexivity|].
  destruct (restart_settles "" busy_world busy_world started_world late_world
    (maintenance late_world).1 (maintenance late_world).2) as [_ Hall].
  - repeat split; vm_compute; reflexivity.
  - vm_compute; reflexivity.
  - vm_compute; reflexivity.
  - apply environment_clock.
  - vm_compute; reflexivity.
  - assert (map_Forall (λ _ q, (req_expires q <= Unix (w_clock late_world))%Z) (db_requests (w_db late_world))) as H.
    { apply (bool_decide_unpack _). vm_compute. exact I. }
    exact H.
  - destruct (maintenance late_world). reflexivity.
  - exact Hall.
Defined.
