(* ===== verification/Framing.v ===== *)
(** What a computation leaves alone: a property of the database and one of the key
    that every step keeps, in a world without failures to come.

    The instances cover the control structure and the statements, on any state
    that contains a world, so that an operation frames what its statements do. *)
From S2P Require Import Prelude GoStrings Crypto Types Db Schema Rules Opening Lifecycle Device Authority Worker.

Definition framed (P : database → Prop) (K : string → Prop) (w : world) : Prop :=
  w_faults w = [] ∧ K (w_key w) ∧ P (w_db w) ∧ ∀ t, w_tx w = Some t → P t.

Class Frames {S A} (env : S → world) (P : database → Prop) (K : string → Prop) (m : M S A) : Prop :=
  frames s : framed P K (env s) → framed P K (env (m s).2).
#[export] Hint Mode Frames ! - ! - - ! : typeclass_instances.

(** A write that keeps the property. *)
Class Respects (P : database → Prop) (f : database → result (database * Z)) : Prop :=
  respects d d' n : f d = Ok (d', n) → P d → P d'.

Section control.
Context {S : Type} (env : S → world) (P : database → Prop) (K : string → Prop).

#[export] Instance frames_ret {A} (a : A) : Frames env P K (mret a).
Proof. by intros s. Qed.

#[export] Instance frames_fail {A} e : Frames env P K (@fail S A e).
Proof. by intros s. Qed.

#[export] Instance frames_lift {A} (r : result A) : Frames env P K (@lift S A r).
Proof. by intros s. Qed.

#[export] Instance frames_gets {A} (f : S → A) : Frames env P K (gets f).
Proof. by intros s. Qed.

#[export] Instance frames_guard b e : Frames env P K (@guard_ S b e).
Proof. unfold guard_. apply _. Qed.

#[export] Instance frames_need {A} (o : option A) e : Frames env P K (@need S A o e).
Proof. unfold need. destruct o; apply _. Qed.

#[export] Instance frames_bind {A B} (m : M S A) (f : A → M S B) :
  Frames env P K m → (∀ a, Frames env P K (f a)) → Frames env P K (m ≫= f).
Proof.
  intros Hm Hf s Hs. specialize (Hm s Hs). unfold mbind, M_bind. destruct (m s) as [[a|e] s']; [by apply Hf|done].
Qed.

#[export] Instance frames_attempt {A} (m : M S A) : Frames env P K m → Frames env P K (attempt m).
Proof. intros Hm s Hs. specialize (Hm s Hs). unfold attempt. by destruct (m s). Qed.

#[export] Instance frames_or_fail {A} (m : M S A) e : Frames env P K m → Frames env P K (or_fail m e).
Proof. intros Hm s Hs. specialize (Hm s Hs). unfold or_fail. by destruct (m s). Qed.

#[export] Instance frames_finally {A} (m : M S A) fin :
  Frames env P K m → (∀ s, framed P K (env s) → framed P K (env (fin s))) → Frames env P K (finally m fin).
Proof. intros Hm Hf s Hs. specialize (Hm s Hs). unfold finally. destruct (m s). by apply Hf. Qed.

#[export] Instance frames_modify f : (∀ s, framed P K (env s) → framed P K (env (f s))) → Frames env P K (modify f).
Proof. intros Hf s. apply Hf. Qed.

End control.

#[export] Instance frames_for_each {S A} env P K (f : A → M S unit) l :
  (∀ a, Frames env P K (f a)) → Frames env P K (for_each f l).
Proof. intros Hf. induction l as [|a l IH]; simpl; apply _. Qed.

(** A part of the state. *)
#[export] Instance frames_zoom {S W A} env (envW : W → world) P K (get : S → W) set (m : M W A) :
  (∀ s, env s = envW (get s)) → (∀ w s, env (set w s) = envW w) → Frames envW P K m → Frames env P K (zoom get set m).
Proof.
  intros Hg Hs Hm s Hf. unfold zoom. rewrite Hg in Hf. specialize (Hm _ Hf). destruct (m (get s)) as [r w]. simpl in *.
  by rewrite Hs.
Qed.

#[export] Hint Extern 5 (Frames _ _ _ (match ?x with _ => _ end)) => destruct x : typeclass_instances.
#[export] Hint Extern 5 (Frames _ _ _ (let _ := _ in _)) => cbv zeta : typeclass_instances.

(** * The world *)

Section world.
Context (P : database → Prop) (K : string → Prop).
Abbreviation F := (Frames (λ w : world, w) P K).

#[export] Instance frames_fault : F fault.
Proof. intros w (Hf & H). unfold fault. rewrite Hf. by split. Qed.

#[export] Instance frames_time_Now : F time_Now.
Proof. intros w Hw. unfold time_Now. by destruct (w_ticks w). Qed.

#[export] Instance frames_now_Unix : F now_Unix.
Proof. unfold now_Unix. apply _. Qed.

#[export] Instance frames_Random n : F (Random n).
Proof. intros w Hw. unfold Random. by destruct (w_random w). Qed.

Lemma fault_none w : w_faults w = [] → fault w = (Ok tt, w).
Proof. unfold fault. by intros ->. Qed.

#[export] Instance frames_begin : F begin_tx.
Proof.
  intros w Hw. pose proof Hw as (Hf & Hk & Hp & Ht). unfold begin_tx. destruct (w_tx w) eqn:E; [done|].
  rewrite fault_none by done. simpl. split_and!; [done..|]. intros t. simpl. by intros [= <-].
Qed.

#[export] Instance frames_commit : F commit.
Proof.
  intros w Hw. pose proof Hw as (Hf & Hk & Hp & Ht). unfold commit. destruct (w_tx w) as [t|] eqn:E; [|done].
  rewrite fault_none by done. simpl. split_and!; [done|done|by apply Ht|done].
Qed.

Lemma framed_rollback w : framed P K w → framed P K (rollback w).
Proof. intros (Hf & Hk & Hp & Ht). by split_and!. Qed.

#[export] Instance frames_with_tx {A} (body : M world A) : F body → F (with_tx (λ m, m) body).
Proof.
  intros Hb. unfold with_tx. apply frames_bind; [apply _|]. intros _. apply frames_finally; [done|]. apply framed_rollback.
Qed.

#[export] Instance frames_query {A} q (f : database → result A) : F (query q f).
Proof.
  intros w Hw. unfold query. destruct (current q w); [|done]. by rewrite fault_none by apply Hw.
Qed.

#[export] Instance frames_exec q f : Respects P f → F (exec q f).
Proof.
  intros Hr w Hw. pose proof Hw as (Hf & Hk & Hp & Ht). unfold exec. destruct (current q w) as [d|] eqn:Hd; [|done].
  rewrite fault_none by done. destruct (f d) as [[d' n]|] eqn:E; [|done]. simpl. unfold current in Hd. destruct q; simpl.
  - destruct (w_tx w) eqn:Et; [done|]. injection Hd as <-. split_and!; [done|done|by eapply Hr|]. intros t. simpl. by rewrite Et.
  - destruct (w_tx w) as [t|] eqn:Et; [|done]. injection Hd as <-. split_and!; [done..|]. simpl. intros t' [= <-].
    eapply Hr; [exact E|by apply Ht].
Qed.

#[export] Instance frames_fetch {A} (l : list A) : F (fetch l).
Proof. induction l as [|a l IH]; simpl; apply _. Qed.

#[export] Instance frames_query_rows {A} q (f : database → list A) : F (query_rows q f).
Proof. unfold query_rows. apply _. Qed.

#[export] Instance frames_new_ID prefix : F (new_ID prefix).
Proof. unfold new_ID. apply _. Qed.

#[export] Instance frames_Encrypt `{GoCrypto} purpose b : F (Encrypt purpose b).
Proof. unfold Encrypt. apply _. Qed.

#[export] Instance frames_Decrypt `{GoCrypto} purpose b : F (Decrypt purpose b).
Proof. by intros w. Qed.

End world.

(** * Properties that a write keeps *)

Abbreviation anything := (λ _, True).

#[export] Instance respects_anything f : Respects anything f.
Proof. done. Qed.

(** The rows outside the requests and what belongs to them: the metadata. *)
Definition has_metadata (m : gmap string string) (d : database) : Prop := db_metadata d = m.

Section metadata.
Context (m : gmap string string).

#[export] Instance respects_update id p f : Respects (has_metadata m) (update_request id p f).
Proof. intros d d' n. unfold update_request, has_metadata. repeat case_match; by intros [= <- _]. Qed.

#[export] Instance respects_owner id hash : Respects (has_metadata m) (insert_owner id hash).
Proof. intros d d' n. unfold insert_owner, has_metadata. case_match; by intros [= <- _]. Qed.

#[export] Instance respects_device id : Respects (has_metadata m) (set_device_revoked id).
Proof. intros d d' n. unfold set_device_revoked, has_metadata. case_match; by intros [= <- _]. Qed.

#[export] Instance respects_audit l : Respects (has_metadata m) (λ d, Ok (set_db_audit (db_audit d ++ l) d, 1%Z)).
Proof. intros d d' n. by intros [= <- _]. Qed.

#[export] Instance respects_sessions x : Respects (has_metadata m) (λ d, Ok (set_db_sessions x d, 0%Z)).
Proof. intros d d' n. by intros [= <- _]. Qed.

#[export] Instance frames_Audit K q owner device kind entity : Frames (λ w, w) (has_metadata m) K (Audit q owner device kind entity).
Proof. unfold Audit. apply _. Qed.

End metadata.

(** * Changes of the state around the world *)

#[export] Hint Extern 1 (∀ s, framed _ _ _ → framed _ _ _) =>
  solve [intros ? (? & ? & ? & ?); split_and!; auto] : typeclass_instances.

Section parts.
Context (P : database → Prop) (K : string → Prop).

#[export] Instance frames_in_world {A} (m : M world A) : Frames (λ w, w) P K m → Frames si_world P K (in_world m).
Proof. by apply frames_zoom. Qed.

#[export] Instance frames_on_world {A} (m : M world A) : Frames (λ w, w) P K m → Frames ts_world P K (on_world m).
Proof. by apply frames_zoom. Qed.

Lemma frames_syscall f : (∀ s, si_world (f s) = si_world s) → Frames si_world P K (syscall f).
Proof.
  intros Hf. unfold syscall. apply frames_bind; [apply _|]. intros _. apply frames_modify. intros s. by rewrite Hf.
Qed.

#[export] Instance frames_flock : Frames si_world P K flock.
Proof. intros s Hs. unfold flock. destruct (si_locked s); [done|]. by apply (frames_syscall (set_si_locked true)). Qed.

#[export] Instance frames_close_on_error {A} (m : M site A) : Frames si_world P K m → Frames si_world P K (close_on_error m).
Proof. intros Hm s Hs. specialize (Hm s Hs). unfold close_on_error. by destruct (m s) as [[a|e] s']. Qed.

End parts.

(** * The operations of a start *)

Section operations.
Context `{GoCrypto} `{GoX509} `{AuthorityJSON} (P : database → Prop) (K : string → Prop).

Lemma migrate_from_quiet version n l : Frames (λ w, w) anything K (migrate_from version n l).
Proof. revert n. induction l as [|file l IH]; intros n; simpl; unfold migrate_file; apply _. Qed.

#[export] Instance frames_migrate : Frames (λ w, w) anything K migrate.
Proof. unfold migrate. pose proof migrate_from_quiet. apply _. Qed.

#[export] Instance frames_unlock unlock : Frames (λ w, w) anything anything (unlock_vault unlock).
Proof. unfold unlock_vault, first_unlock, check_unlock. apply _. Qed.

#[export] Instance frames_Open unlock : Frames si_world anything anything (Open unlock).
Proof.
  unfold Open. pose proof (frames_syscall anything anything) as Hs.
  repeat first [apply frames_bind; [|intros _] | apply frames_or_fail | apply frames_close_on_error | by apply Hs | apply _].
Qed.

#[export] Instance frames_new_key : Frames (λ w, w) P K new_key.
Proof. unfold new_key. apply _. Qed.

#[export] Instance frames_sign_leaf key host : Frames ts_world P K (sign_leaf key host).
Proof. unfold sign_leaf, serial. apply _. Qed.

#[export] Instance frames_store how a : (∀ v, Respects P (how v)) → Frames ts_world P K (store_authority how a).
Proof. intros. unfold store_authority. apply _. Qed.

#[export] Instance frames_initTLS url : Frames ts_world anything K (initTLS url).
Proof. unfold initTLS, load_authority, new_authority, parse_root, leaf_due, serial. apply _. Qed.

Context `{GoJSON}.

#[export] Instance frames_New password metadata : Frames (λ w, w) (has_metadata metadata) K (Worker.New password).
Proof. unfold Worker.New, recoverDispatches, close_request. apply _. Qed.

#[export] Instance frames_RecoverRestored metadata : Frames (λ w, w) (has_metadata metadata) K RecoverRestored.
Proof. unfold RecoverRestored, cancelRequests, close_request. apply _. Qed.

End operations.
