(* ===== verification/Command.v ===== *)
(** The command line, src/cmd/budge/main.go: reading secrets, the start of a server,
    the enrolment of a device and the start of a connector.

    A command takes the values of its flags; Running has the flags.  A start ends
    where serving begins; what follows is in Shutdown and Connecting. *)
From Equations Require Import Equations.
From S2P Require Import Prelude GoStrings NetUrl Http GoNet Access Upstream Crypto Types Db Schema Rules Limits Device.
From S2P Require Import Lifecycle Opening Authority Files Identity Renewal Connector Worker.

(** * Secrets *)

Definition newline : ascii := "010".
Definition return_ : ascii := "013".

Fixpoint last_byte (s : string) : option ascii :=
  match s with
  | EmptyString => None
  | String c EmptyString => Some c
  | String _ s' => last_byte s'
  end.

(** [s[:len(s)-1]]. *)
Fixpoint but_last (s : string) : string :=
  match s with
  | EmptyString => EmptyString
  | String c EmptyString => EmptyString
  | String c s' => String c (but_last s')
  end.

(** [len(s) > 0 && (s[len(s)-1] == '\n' || s[len(s)-1] == '\r')]. *)
Definition ends_line (s : string) : bool :=
  match last_byte s with Some c => bool_decide (c = newline) || bool_decide (c = return_) | None => false end.

Lemma but_last_shorter s : ends_line s = true → (String.length (but_last s) < String.length s)%nat.
Proof.
  intros He. assert (s ≠ EmptyString) as Hs by by intros ->. clear He.
  induction s as [|c s IH]; [done|]. destruct s as [|d s]; [simpl; lia|]. cbn [but_last String.length] in *.
  assert (String d s ≠ EmptyString) as Hd by done. specialize (IH Hd). lia.
Qed.

Definition tested (b : bool) : {x : bool | b = x} := exist _ b eq_refl.

(** The loop that takes line ends off. *)
Equations? chomp (s : string) : string by wf (String.length s) lt :=
  chomp s with tested (ends_line s) => {
    | exist _ true _ := chomp (but_last s);
    | exist _ false _ := s }.
Proof. by apply but_last_shorter. Qed.

(** [bufio.Reader.ReadString('\n')]. *)
Definition first_line (s : string) : string :=
  match cut_at newline s with Some (line, _) => line +:+ String newline EmptyString | None => s end.

Definition secret_limit : nat := N.to_nat 65536.

(** The streams a secret may come from: what can be read of a descriptor, whether the
    standard input is a terminal, and what is typed there. *)
Record console := mkConsole {
  cs_input : Z → result string;
  cs_terminal : bool;
  cs_typed : result string;
}.

Definition secret (c : console) (fd : Z) : result string :=
  if (0 <=? fd)%Z then input ← cs_input c fd; Ok (chomp (first_line (take_bytes secret_limit input))) else
  if negb (cs_terminal c) then Err (ErrMsg "use a dedicated --*-fd input stream without a terminal") else
  cs_typed c.

(** * The server *)

Record server_flags := mkServerFlags {
  sf_recover : bool;
  sf_url : string;
  sf_owner : string;
  sf_owner_host : string;
  sf_container : bool;
  sf_unlock_fd : Z;
  sf_password_fd : Z;
}.

(** The checks on the owner's address: the host that the owner handler expects. *)
Definition owner_address (f : server_flags) : result string :=
  let bind := SplitHostPort (sf_owner f) in
  match bind with
  | Some (h, _) =>
    if negb (bool_decide (h = "127.0.0.1")) && negb (bool_decide (h = "0.0.0.0") && sf_container f)
    then Err (ErrMsg "owner listener must bind loopback, or explicitly use container mode") else
    let host := if bool_decide (sf_owner_host f = EmptyString) then sf_owner f else sf_owner_host f in
    match SplitHostPort host with
    | Some (expected, _) =>
      if negb (bool_decide (expected = "127.0.0.1")) then Err (ErrMsg "owner-host must be an explicit 127.0.0.1 host and port")
      else Ok host
    | None => Err (ErrMsg "owner-host must be an explicit 127.0.0.1 host and port")
    end
  | None => Err (ErrMsg "owner listener must bind loopback, or explicitly use container mode")
  end.

(** The process: the database file and the server over it, on one world. *)
Record process := mkProcess {
  ps_mode : option Z;
  ps_locked : bool;
  ps_tls : tls_server;
}.

Definition ps_world (s : process) : world := ts_world (ps_tls s).
Definition ps_site (s : process) : site := mkSite (ps_mode s) (ps_locked s) (ps_world s).
Definition set_ps_site (x : site) (s : process) : process :=
  mkProcess (si_mode x) (si_locked x) (set_ts_world (si_world x) (ps_tls s)).
Definition set_ps_tls (x : tls_server) (s : process) : process := mkProcess (ps_mode s) (ps_locked s) x.
Definition set_ps_world (w : world) (s : process) : process := set_ps_tls (set_ts_world w (ps_tls s)) s.

Definition on_site {A} (m : M site A) : M process A := zoom ps_site set_ps_site m.
Definition on_tls {A} (m : M tls_server A) : M process A := zoom ps_tls set_ps_tls m.
Definition in_process {A} (m : M world A) : M process A := zoom ps_world set_ps_world m.

(** [defer db.Close()], for a start that does not get to serve. *)
Definition release_on_error {A} (m : M process A) : M process A := λ s,
  match m s with
  | (Ok a, s') => (Ok a, s')
  | (Err e, s') => (Err e, set_ps_site (Close (ps_site s')) s')
  end.

Section server.
Context `{GoCrypto} `{GoJSON} `{GoX509} `{AuthorityJSON}.

(** The server over an open store: the authority, the first owner, recovery, and the
    certificate of the device listener.  [listens] is whether the two addresses can
    be bound. *)
Definition prepare_server (f : server_flags) (c : console) (listens : bool * bool)
    : M process ((string * string) * string) :=
  n ← in_process (query DB (λ d, Ok (owner_count d)));
  password ← (if (n =? 0)%Z then lift (secret c (sf_password_fd f)) else mret EmptyString);
  on_tls (initTLS (sf_url f));;
  in_process (Worker.New password);;
  (if sf_recover f then in_process RecoverRestored else mret tt);;
  tls ← on_tls TLSConfig;
  guard_ listens.1 "listen device";;
  guard_ listens.2 "listen owner";;
  mret tls.

(** The command up to where it serves: the owner's host and the device listener's
    certificate and client root. *)
Definition start_server (f : server_flags) (c : console) (listens : bool * bool)
    : M process (string * ((string * string) * string)) :=
  host ← lift (owner_address f);
  unlock ← lift (secret c (sf_unlock_fd f));
  on_site (Open unlock);;
  tls ← release_on_error (prepare_server f c listens);
  mret (host, tls).

End server.

(** * The device *)

Section device_commands.
Context `{GoCrypto} `{GoX509} `{ClientX509} `{ClientJSON} (torn : nat).

(** [os.Stat] without an error: when the call fails the file counts as absent, whether
    it is or not. *)
Definition exists_file (path : string) : M machine bool :=
  r ← attempt (on_env fault); s ← gets id;
  mret (match r with Ok _ => bool_decide (is_Some (content (mc_fs s) path)) | Err _ => false end).

Definition enroll_command (net : network) (path : string) (c : console) (invitation_fd pass_fd : Z) : M machine string :=
  there ← exists_file path;
  if there : bool then fail (ErrMsg "identity already exists") else
  inv ← lift (secret c invitation_fd);
  pass ← lift (secret c pass_fd);
  guard_ (12 <=? String.length pass)%nat "passphrase must have at least 12 characters";;
  i ← Enroll net inv;
  Save torn path pass i;;
  mret (id_DeviceID i).

(** The renewal object over the machine it works on, if it can be made. *)
Definition with_renewal {A} (i : Identity) (m : M renewal A) : M machine (A * renewal) := λ s,
  match NewRenewal i s with
  | Err e => (Err e, s)
  | Ok l => match m l with
            | (Ok a, l') => (Ok (a, l'), rl_machine l')
            | (Err e, l') => (Err e, rl_machine l')
            end
  end.

(** The files and addresses the connector needs: the listener's address, whether it
    can be bound, and the directory of the socket. *)
Record connect_flags := mkConnectFlags {
  cf_path : string;
  cf_listen : string;
  cf_pass_fd : Z;
  cf_binds : bool;
  cf_uid : Z;
  cf_dir : option file_info;
  cf_socket : bool;
  cf_chmod : bool;
}.

(** The command up to where it serves: the identity that its handlers forward with
    and the one that handshakes use. *)
Definition start_connector (net : network) (f : connect_flags) (c : console) : M machine (Identity * renewal) :=
  pass ← lift (secret c (cf_pass_fd f));
  i ← Load (cf_path f) pass;
  lift (Transport i);;
  '(_, l) ← with_renewal i (Refresh torn net (cf_path f) pass);
  lift (ConnectorTransport i (cf_listen f));;
  guard_ (cf_binds f) "listen";;
  lift (ListenSocket (cf_uid f) (cf_dir f) (cf_socket f) (cf_chmod f));;
  mret (i, l).

End device_commands.
