(* ===== verification/Connecting.v ===== *)
(** The connect command of src/cmd/budge/main.go: from the identity file, through a
    renewal at the start, to serving with the goroutine that renews in the background,
    and to its end.

    This composes the start of a connector (Command), the renewal (Refreshing) and
    the end of a command (Serving). *)
From S2P Require Import Prelude GoStrings NetUrl Http GoNet Crypto Types Db Schema Rules Samples Limits Device Authority.
From S2P Require Import Certifying Files Identity Keeping Renewal Refreshing Connector Command Serving.

(** * The goroutine that renews *)

(** In its [select], in [Refresh], or returned, with [done] closed. *)
Inductive renewer_phase := Waiting | Trying | Left.
Record renewer := mkRenewer { rw_state : renewal; rw_phase : renewer_phase }.

Definition renewer_budget (p : renewer_phase) : nat := match p with Trying => 2 | Waiting => 1 | Left => 0 end.

Definition set_renewal_env (w : world) (l : renewal) : renewal := set_rl_machine (set_mc_env w (rl_machine l)) l.

Section connecting.
Context `{GoCrypto} `{GoX509} `{ClientX509} `{ClientJSON} (torn : nat) (path pass : string).

(** It leaves when its context is done; an attempt meets some network, and its error
    is only reported. *)
Inductive renewer_moves (cancelled : bool) : renewer → renewer → Prop :=
| move_leave l :
    cancelled = true → renewer_moves cancelled (mkRenewer l Waiting) (mkRenewer l Left)
| move_refresh net l r l' :
    Refresh torn net path pass l = (r, l') → renewer_moves cancelled (mkRenewer l Trying) (mkRenewer l' Waiting).

(** The hour passes; and anything may happen to what it depends on. *)
Inductive renewer_occurs (runs : bool) : renewer → renewer → Prop :=
| occurs_hour l : renewer_occurs runs (mkRenewer l Waiting) (mkRenewer l Trying)
| occurs_time w l p : renewer_occurs runs (mkRenewer l p) (mkRenewer (set_renewal_env w l) p).

#[export] Instance connector_background : Background renewer := {|
  works := renewer_moves;
  occurs := renewer_occurs;
  gone b := match rw_phase b with Left => true | _ => false end;
  back_budget b := renewer_budget (rw_phase b);
|}.

#[export] Instance connector_laws l0 : BackgroundLaws (λ b, lasting pass path l0 (rw_state b)).
Proof.
  split.
  - intros d b b' [l _|net l r l' Hr] Hl; simpl in *; [done|].
    eapply lasting_step; [exact Hl|].
    refine (wp_unfold (Refresh torn net path pass) (refreshed pass path (continues pass (rl_id l)) l) l r l' Hr _).
    eapply wp_Refresh; [apply at_self|apply Hl|apply Hl].
  - intros r b b' [l|w l p] Hl; simpl in *; [done|]. by apply lasting_env.
  - by intros d b b' [] Hg.
  - by intros r b b' [] Hg.
  - intros d b b' []; simpl; lia.
  - intros [l []] _ Hg; simpl in *; [eexists; by apply move_leave| |done].
    destruct (Refresh torn (λ _ _, None) path pass l) as [r l'] eqn:Hr. eexists. by eapply move_refresh.
Qed.

(** Where the command serves, after [start_connector]. *)
Definition serving_from (l : renewal) (s : command renewer) : Prop :=
  ∃ f, fresh f ∧ rtc serve_step (mkCommand f (mkRenewer l Waiting)) s.

(** How it serves and ends, on an identity renewed since [l0]: for a reason, with no
    listener that serves and no attempt under way; and once it is to stop, its own
    steps run out, and not before it has returned. *)
Record serves_well (l0 : renewal) (s : command renewer) : Prop := {
  sw_end : orderly s;
  sw_left r : fr_main (cm_front s) = Returned r → rw_phase (cm_back s) = Left;
  sw_lasting : lasting pass path l0 (rw_state (cm_back s));
  sw_bound n s' : stopping (cm_front s) → nsteps moves n s s' → (n ≤ budget s)%nat;
  sw_progress s' : stopping (cm_front s) → rtc moves s s' → (∀ s'', ¬ moves s' s'') →
    ∃ r, fr_main (cm_front s') = Returned r;
}.

Lemma serving_well l0 l s : lasting pass path l0 l → serving_from l s → serves_well l0 s.
Proof.
  intros Hl (f & Hf & Hrun).
  assert (serve_inv (λ b, lasting pass path l0 (rw_state b)) s) as Hinv
    by (eapply serve_inv_steps; [exact Hrun|by apply fresh_command]).
  pose proof (serve_inv_orderly _ Hinv) as Ho. split; [done| |apply Hinv|..].
  - intros r Hr. destruct (or_end _ Ho r Hr) as (_ & _ & Hg). simpl in Hg. by destruct (rw_phase (cm_back s)).
  - intros n s' Hst. by apply (stops s Hinv Hst).
  - intros s' Hst. by apply (stops s Hinv Hst).
Qed.

End connecting.

(** * The whole command *)

Section command.
Context `{GcmLaws} `{GoX509} `{ClientX509} `{ClientJSONLaws} (torn : nat).

(** Loading the identity of a directory that holds it. *)
Lemma wp_Load_holding w0 d t path pass i (Q : result Identity → machine → Prop) s :
  at_world w0 d t (mc_env s) → safe (holds pass i) path (mc_fs s) →
  ValidString (id_URL i) = true → ValidString (id_DeviceID i) = true →
  (∀ w, at_world w0 d t w → Q (Ok i) (set_mc_env w s)) → (∀ e w, Q (Err e) (set_mc_env w s)) →
  wp (Load path pass) Q s.
Proof.
  intros Hw Hsafe Hu Hd HQ HE. unfold Load. wp_rule. eapply wp_read_file; [exact Hw|..]; [|intros e w _ _; apply HE].
  intros b w Hb Hw1. destruct (Hsafe (length (fs_pending (mc_fs s)))) as (n & x & Hn & Hx & _ & salt & nonce & Hs & Hl & Hdata).
  unfold content, names in Hb. unfold names_after in Hn. rewrite firstn_all in Hn. rewrite Hn in Hb. simpl in Hb.
  rewrite Hx in Hb. simpl in Hb. injection Hb as <-. rewrite Hdata. wp_rule.
  rewrite (proj2 (open_sealed pass pass i i salt nonce Hs Hl)); [by apply HQ|].
  exists (marshal_identity i). split; [by apply identity_roundtrip|done].
Qed.

(** Only this machine, and of it only the user, reaches the connector. *)
Definition private (f : connect_flags) : Prop :=
  bind_address (cf_listen f) = true ∧ ∃ d, cf_dir f = Some d ∧ private_dir (cf_uid f) d = true.

(** The state of the file, wherever the start ends. *)
Definition file_safe (pass path : string) (i : Identity) (s s' : machine) : Prop :=
  ∃ l, mc_trail s' = mc_trail s ++ l ∧ Forall (survives (continues pass i) path) (mc_fs s' :: l).

Lemma wp_with_renewal {A} i (m : M renewal A) (Q : result (A * renewal) → machine → Prop) s :
  (∀ l, NewRenewal i s = Ok l →
     wp m (λ r l', Q (match r with Ok a => Ok (a, l') | Err e => Err e end) (rl_machine l')) l) →
  (∀ e, Q (Err e) s) → wp (with_renewal i m) Q s.
Proof.
  intros Hm HE. unfold with_renewal, wp. destruct (NewRenewal i s) as [l|e]; [|apply HE].
  specialize (Hm l eq_refl). unfold wp in Hm. by destruct (m l) as [[a|e] l'].
Qed.

(** [NewRenewal] only reads the pair of the identity. *)
Lemma NewRenewal_env i w s l : NewRenewal i (set_mc_env w s) = Ok l →
  ∃ l0, NewRenewal i s = Ok l0 ∧ rl_id l = rl_id l0 ∧ mc_trail (rl_machine l) = mc_trail (rl_machine l0)
    ∧ mc_sent (rl_machine l) = mc_sent (rl_machine l0).
Proof.
  unfold NewRenewal. destruct (X509KeyPair _ _) as [cert|]; [|done]. intros [= <-]. eexists. split; [done|]. by split_and!.
Qed.

Lemma NewRenewal_made i s l : NewRenewal i s = Ok l →
  rl_id l = i ∧ rl_machine l = s ∧ X509KeyPair (id_Certificate i) (id_PrivateKey i) = Some (rl_cert l).
Proof. unfold NewRenewal. destruct (X509KeyPair _ _) as [cert|] eqn:E; [|done]. by intros [= <-]. Qed.

Lemma lasting_from pass path l l0 s : rl_id l = rl_id l0 → mc_trail (rl_machine l) = mc_trail (rl_machine l0) →
  mc_sent (rl_machine l) = mc_sent (rl_machine l0) → lasting pass path l s → lasting pass path l0 s.
Proof. intros Hi Ht Hs [Hr Hp Hf Ha Hse Hn]. rewrite Hi, ?Ht, ?Hs in *. by split. Qed.

Lemma lasting_file pass path i s l0 l : NewRenewal i s = Ok l0 → lasting pass path l0 l → file_safe pass path i s (rl_machine l).
Proof. intros (Hi & Hm & _)%NewRenewal_made [_ _ Hf _ _ _]. by rewrite Hi, Hm in Hf. Qed.

Lemma wp_start net f c pass i s :
  secret c (cf_pass_fd f) = Ok pass → numbered (mc_fs s) → safe (holds pass i) (cf_path f) (mc_fs s) →
  ValidString (id_URL i) = true → ValidString (id_DeviceID i) = true →
  wp (start_connector torn net f c) (λ r s', file_safe pass (cf_path f) i s s' ∧
    ∀ j l, r = Ok (j, l) → j = i ∧ private f ∧
      ∃ l0, NewRenewal i s = Ok l0 ∧ lasting pass (cf_path f) l0 l) s.
Proof.
  intros Hpass Hnum Hsafe Hu Hd. set (path := cf_path f).
  assert (∀ m, mc_fs m = mc_fs s → mc_trail m = mc_trail s → file_safe pass path i s m) as Hsame.
  { intros m Hfs Htr. exists []. rewrite app_nil_r, Hfs. split; [done|]. apply Forall_singleton, safe_survives.
    eapply safe_mono; [|exact Hsafe]. intros b Hb. exists i. by split. }
  unfold start_connector. wp_rule. wp_rule. rewrite Hpass. wp_rule.
  eapply wp_Load_holding; [apply at_self|done..| |intros e w; split; [by apply Hsame|done]].
  intros w Hw. wp_rule. wp_rule. destruct (Transport i) as [pair|e]; [|split; [by apply Hsame|done]].
  wp_rule. apply wp_with_renewal; [|intros e; split; [by apply Hsame|done]].
  intros l1 Hn. destruct (NewRenewal_env _ _ _ _ Hn) as (l0 & Hn0 & Hi & Ht & Hs).
  destruct (NewRenewal_made _ _ _ Hn) as (Hid & Hm & Hp).
  assert (lasting pass path l1 l1) as Hl.
  { apply lasting_start; rewrite ?Hid, ?Hm; done. }
  eapply wp_mono; [eapply (wp_Refresh torn (mc_env (rl_machine l1)) _ _ net path pass (continues pass (rl_id l1)) l1);
    [apply at_self|apply Hl|apply Hl]|].
  intros r l Hr. assert (lasting pass path l0 l) as Hl0.
  { eapply lasting_from; [exact Hi|exact Ht|exact Hs|]. eapply lasting_step; [exact Hl|exact Hr]. }
  pose proof (lasting_file _ _ _ _ _ _ Hn0 Hl0) as Hfile. destruct r as [[]|e]; [|by split].
  wp_rule. wp_rule. unfold ConnectorTransport. destruct (bind_address (cf_listen f)) eqn:Eb; [|by split].
  wp_rule. apply wp_guard; intros Hb; [|by split]. wp_rule. wp_rule.
  unfold ListenSocket. destruct (cf_dir f) as [d|] eqn:Ed; [|by split].
  destruct (private_dir (cf_uid f) d) eqn:Ep; [|by split]. destruct (cf_socket f); [|by split]. destruct (cf_chmod f); [|by split].
  split; [done|]. intros j l' [= <- <-]. split_and!; [done|split; eauto|eauto].
Qed.

(** C11: The connect command, from its start to its end.  Wherever the start fails or
    the machine crashes, the identity file holds under the passphrase a whole identity
    that verified renewals lead to from the one it held.  The command gets to serve
    only on 127.0.0.1 and on a socket in a directory that is the user's alone; it
    forwards for that identity.  While it serves, and when it has returned, the file
    and the certificate of its handshakes keep to that identity, whatever the attempts
    to renew meet; it returns only for a signal or the failure of a listener, with no
    listener that serves and no attempt to renew under way; and once it is to stop,
    its own steps run out, and not before it has returned. *)
Theorem connect_correct net f c pass i s
    (Hpass : secret c (cf_pass_fd f) = Ok pass) (Hnum : numbered (mc_fs s))
    (Hsafe : safe (holds pass i) (cf_path f) (mc_fs s))
    (Hutf8 : ValidString (id_URL i) = true ∧ ValidString (id_DeviceID i) = true) :
  wp (start_connector torn net f c) (λ r s', file_safe pass (cf_path f) i s s' ∧
    ∀ j l, r = Ok (j, l) → j = i ∧ private f ∧
      ∃ l0, NewRenewal i s = Ok l0 ∧
        ∀ st, serving_from torn (cf_path f) pass l st → serves_well torn (cf_path f) pass l0 st) s.
Proof.
  eapply wp_mono; [by apply wp_start; try apply Hutf8|]. intros r s' [Hfile Hok]. split; [done|].
  intros j l Hr. destruct (Hok j l Hr) as (-> & Hp & l0 & Hn & Hl). split_and!; [done|done|].
  exists l0. split; [done|]. intros st. by apply serving_well.
Qed.

End command.

(** * A signal comes while a certificate is being renewed *)

#[local] Existing Instances plain_crypto plain_laws plain_x509 plain_client plain_client_laws plain_client_x509.

Definition connect_sample : connect_flags :=
  mkConnectFlags "identity.json" "127.0.0.1:18782" 3 true 1000 (Some (mkInfo true false 448 1000)) true true.
Definition passphrase_console : console :=
  mkConsole (λ fd, if (fd =? 3)%Z then Ok ("correct horse battery" +:+ String newline EmptyString) else Err ErrIO) false (Err ErrIO).

Definition connect_start := start_connector 0 renewing connect_sample passphrase_console (rl_machine old_client).
Definition connect_state : renewal := match connect_start.1 with Ok (_, l) => l | Err _ => old_client end.
Definition attempted : renewal := (Refresh 0 (λ _ _, None) "identity.json" "correct horse battery" connect_state).2.

Definition connect_end (sg cn : bool) (m : main_phase) (ls : list goroutine) (b : renewer) : command renewer :=
  mkCommand (mkFront ls [] m sg cn []) b.

Lemma connect_attempt : renewer_moves 0 "identity.json" "correct horse battery" true
  (mkRenewer connect_state Trying) (mkRenewer attempted Waiting).
Proof. eapply (move_refresh _ _ _ _ (λ _ _, None)). apply surjective_pairing. Qed.

Lemma connect_run : serving_from 0 "identity.json" "correct horse battery" connect_state
  (connect_end true true (Returned (Ok tt)) [Sending closed_error; Sending closed_error] (mkRenewer attempted Left)).
Proof.
  exists (mkFront [Serving; Serving] [] Selecting false false []). split; [split; try reflexivity; by repeat constructor|].
  assert (∀ s s' t : command renewer, @moves _ (connector_background 0 "identity.json" "correct horse battery") s s' →
    rtc (@serve_step _ (connector_background 0 "identity.json" "correct horse battery")) s' t →
    rtc (@serve_step _ (connector_background 0 "identity.json" "correct horse battery")) s t) as Hm.
  { intros x y z Hxy. apply rtc_l. by left. }
  eapply rtc_l; [right; apply happens_back, occurs_hour|]. eapply rtc_l; [right; apply happens_front, happens_signal|].
  eapply Hm; [apply move_serve, move_done|]. eapply Hm; [apply move_back; exact connect_attempt|].
  eapply Hm; [apply move_serve; by eapply move_close|]. eapply Hm; [apply move_serve; by eapply move_close|].
  eapply Hm; [apply move_end; apply move_cancel; simpl; lia|]. eapply Hm; [apply move_back; by apply move_leave|].
  eapply Hm; [apply move_end; by apply move_return|]. reflexivity.
Qed.

Lemma connect_correct_witness :
  rl_id connect_state ≠ old_identity ∧
  serves_well 0 "identity.json" "correct horse battery" old_client
    (connect_end true true (Returned (Ok tt)) [Sending closed_error; Sending closed_error] (mkRenewer attempted Left)).
Proof.
  assert (safe (holds "correct horse battery" old_identity) "identity.json" client_dir) as Hs.
  { eapply safe_mono; [|exact client_safe]. intros b ->. exact old_file_holds. }
  assert (match connect_start.1 with Ok _ => true | Err _ => false end = true) as Hstart by (vm_compute; reflexivity).
  assert (String.eqb (id_Certificate (rl_id connect_state)) (id_Certificate old_identity) = false) as Hne by (vm_compute; reflexivity).
  assert (secret passphrase_console (cf_pass_fd connect_sample) = Ok "correct horse battery") as Hpass by (vm_compute; reflexivity).
  pose proof (connect_correct 0 renewing connect_sample passphrase_console "correct horse battery" old_identity
    (rl_machine old_client) Hpass client_numbered Hs (conj eq_refl eq_refl)) as H.
  unfold wp in H. fold connect_start in H. split.
  - intros E. rewrite E, String.eqb_refl in Hne. exact (diff_true_false Hne).
  - pose proof connect_run as Hrun. set (final := attempted) in *. clearbody final. revert Hrun. unfold connect_state.
    destruct H as [_ H]. destruct connect_start.1 as [[i l]|e]; [|destruct (diff_false_true Hstart)].
    destruct (H i l eq_refl) as (_ & _ & l0 & Hl0 & Hw). intros Hrun.
    assert (l0 = old_client) as -> by (injection Hl0 as <-; reflexivity). exact (Hw _ Hrun).
Defined.
