(* ===== verification/Commanding.v ===== *)
(** What the commands guarantee: a secret is the line without its end, a server
    listens to its owner on the loopback address only and serves in the state its
    start promises, and an enrolment wastes no invitation. *)
From Equations Require Import Equations.
From S2P Require Import Prelude GoStrings Coding NetUrl Http GoNet Access Upstream Crypto Types Db Schema Rules Samples.
From S2P Require Import Migrating Opening Authorize Lifecycle Life Closing Limits Device Authority Certifying.
From S2P Require Import Files Identity Keeping Renewal Connector Worker Stable System Settling Framing Command.

(** * Secrets *)

Definition line_end (c : ascii) : bool := bool_decide (c = newline) || bool_decide (c = return_).

Lemma but_last_spec s c : last_byte s = Some c → s = but_last s +:+ String c EmptyString.
Proof.
  induction s as [|d s IH]; [done|]. destruct s as [|e s]; [by intros [= ->]|].
  intros Hc. cbn [but_last last_byte] in *. rewrite app_cons_string. f_equal. by apply IH.
Qed.

(** The loop takes off the line ends at the end, all of them and nothing else. *)
Lemma chomp_spec s :
  ∃ t, s = chomp s +:+ t ∧ all_bytes line_end t = true ∧ ends_line (chomp s) = false.
Proof.
  funelim (chomp s).
  - clear H0. destruct H as (t & Ht & Hl & He). unfold ends_line in e.
    destruct (last_byte s) as [c|] eqn:Ec; [|done].
    exists (t +:+ String c EmptyString). split; [|split; [|done]].
    + rewrite <-app_string_assoc, <-Ht. by apply but_last_spec.
    + rewrite all_bytes_app, Hl. simpl. unfold line_end. by rewrite e.
  - exists EmptyString. by rewrite app_empty_r.
Qed.

(** * The owner's address *)

(** The owner's listener and the host it expects are this machine's own. *)
Definition loopback (f : server_flags) (host : string) : Prop :=
  (∃ h p, SplitHostPort (sf_owner f) = Some (h, p) ∧ (h = "127.0.0.1" ∨ (h = "0.0.0.0" ∧ sf_container f = true)))
  ∧ ∃ p, SplitHostPort host = Some ("127.0.0.1", p).

Lemma owner_address_loopback f host : owner_address f = Ok host → loopback f host.
Proof.
  unfold owner_address, loopback. destruct (SplitHostPort (sf_owner f)) as [[h p]|]; [|done].
  destruct (negb (bool_decide (h = "127.0.0.1")) && _) eqn:Eb; [done|]. set (x := if bool_decide (sf_owner_host f = "") then _ else _).
  destruct (SplitHostPort x) as [[e q]|] eqn:Ex; [|done]. destruct (bool_decide (e = "127.0.0.1")) eqn:Ee; [|done].
  intros [= <-]. apply bool_decide_eq_true in Ee as ->. split; [|eauto].
  exists h, p. split; [done|]. apply andb_false_iff in Eb as [Eb|Eb]; apply negb_false_iff in Eb.
  - left. by apply bool_decide_eq_true in Eb.
  - right. apply andb_true_iff in Eb as [Eb Ec]. by apply bool_decide_eq_true in Eb.
Qed.

(** * The start of a server *)

Lemma wp_and {S A} (m : M S A) (Q1 Q2 : result A → S → Prop) s : wp m Q1 s → wp m Q2 s → wp m (λ r s', Q1 r s' ∧ Q2 r s') s.
Proof. by split. Qed.

(** A step of the server leaves the lock and the mode of the file alone. *)
Definition same_file (s s' : process) : Prop := ps_locked s' = ps_locked s ∧ ps_mode s' = ps_mode s.

Section start.
Context `{GcmLaws} `{GoJSON} `{X509Laws} `{AuthorityJSONLaws}.

(** The state a server begins to serve in, over the database it found: its authority
    is stored, for its address, with a good leaf; no request is being dispatched
    any more; and if it was told that the database was restored, no device and no
    session has access and nothing waits to be sent. *)
Record serving (f : server_flags) (d0 : database) (s : process) : Prop := {
  sv_tx : w_tx (ps_world s) = None;
  sv_authority : mirrored (w_key (ps_world s)) (ts_ca (ps_tls s)) (w_db (ps_world s));
  sv_url : a_URL (ts_ca (ps_tls s)) = sf_url f;
  sv_leaf : leaf_good (ts_ca (ps_tls s)) (w_clock (ps_world s));
  sv_requests : ∀ id q, db_requests d0 !! id = Some q → ∃ q', db_requests (w_db (ps_world s)) !! id = Some q'
    ∧ (req_status q = dispatching → req_status q' = outcome_unknown)
    ∧ (sf_recover f = true → undispatched (req_status q) = true → req_status q' = cancelled);
  sv_restored : sf_recover f = true →
    (∀ device, device_active (w_db (ps_world s)) device = false) ∧ db_sessions (w_db (ps_world s)) = ∅;
}.

(** What the recovery steps leave, in the world of the server. *)
Record recovered_world (f : server_flags) (d : database) (key : string) (w : world) : Prop := {
  rw_tx : w_tx w = None;
  rw_framed : framed (has_metadata (db_metadata d)) (λ k, k = key) w;
  rw_requests : ∀ id q, db_requests d !! id = Some q → ∃ q', db_requests (w_db w) !! id = Some q'
    ∧ (req_status q = dispatching → req_status q' = outcome_unknown)
    ∧ (sf_recover f = true → undispatched (req_status q) = true → req_status q' = cancelled);
  rw_restored : sf_recover f = true → (∀ device, device_active (w_db w) device = false) ∧ db_sessions (w_db w) = ∅;
}.

Lemma wp_recovery f password w :
  w_tx w = None → w_faults w = [] → wf (w_db w) →
  wp (Worker.New password;; (if sf_recover f then RecoverRestored else mret tt))
    (λ r w', r = Ok tt → recovered_world f (w_db w) (w_key w) w') w.
Proof.
  intros Ht Hq Hwf. set (d := w_db w).
  assert (framed (has_metadata (db_metadata d)) (λ k, k = w_key w) w) as Hfr.
  { split_and!; [done..|]. by rewrite Ht. }
  wp_rule. destruct (Worker.New password w) as [r w1] eqn:Hnew.
  pose proof (wp_unfold _ _ _ _ _ Hnew (wp_New password d w w (at_start w Ht) Hq)) as Hrec.
  pose proof (frames_New (λ k, k = w_key w) password (db_metadata d) w Hfr) as Hf1.
  destruct (New_evolves password w r w1) as [_ Hev]; [unfold tx_ok; by rewrite Ht|done|].
  rewrite Hnew in Hf1. simpl in Hf1. unfold wp. rewrite Hnew. simpl. destruct r as [[]|e]; [|done].
  destruct (Hrec eq_refl) as [Ht1 Hreq]. clear Hrec. destruct (Hev Hwf) as [Hwf1 _].
  assert (∀ id q, db_requests d !! id = Some q → ∃ q', db_requests (w_db w1) !! id = Some q' ∧
    (if is_dispatching q then req_status q' = outcome_unknown else q' = q)) as Hreq'.
  { intros id q Hi. specialize (Hreq id). rewrite Hi in Hreq. unfold recovered in Hreq.
    destruct (db_requests (w_db w1) !! id) as [q'|]; [eauto|done]. }
  destruct (sf_recover f) eqn:Ef.
  - pose proof (frames_RecoverRestored (λ k, k = w_key w) (db_metadata d) w1 Hf1) as Hf2.
    destruct (RecoverRestored_correct w1 Hwf1 Ht1 (proj1 Hf1)) as (_ & Ht2 & Hdev & Hses & Hall).
    destruct (RecoverRestored w1) as [r w2]. simpl in *. intros _. split; [done|done| |done].
    intros id q Hi. destruct (Hreq' id q Hi) as (q1 & Hq1 & Hd). specialize (Hall id q1 Hq1).
    unfold is_dispatching in Hd. case_bool_decide as Hs.
    + rewrite Hd in Hall. simpl in Hall. exists q1. split_and!; [done|done|]. by rewrite Hs.
    + subst q1. destruct (undispatched (req_status q)) eqn:Eu.
      * destruct Hall as [now Hn]. eexists. split; [exact Hn|]. by split.
      * exists q. by split_and!.
  - simpl. intros _. split; [done|done| |by rewrite Ef]. intros id q Hi. destruct (Hreq' id q Hi) as (q1 & Hq1 & Hd).
    exists q1. split_and!; [done| |by rewrite Ef]. unfold is_dispatching in Hd. case_bool_decide; [done|by intros].
Qed.

Lemma wp_recovering {A} f password (k : M process A) (Q : result A → process → Prop) s :
  w_tx (ps_world s) = None → w_faults (ps_world s) = [] → wf (w_db (ps_world s)) →
  (∀ w, recovered_world f (w_db (ps_world s)) (w_key (ps_world s)) w → wp k Q (set_ps_world w s)) →
  (∀ e s', Q (Err e) s') →
  wp (in_process (Worker.New password);; (if sf_recover f then in_process RecoverRestored else mret tt);; k) Q s.
Proof.
  intros Ht Hq Hwf HQ HE. pose proof (wp_recovery f password (ps_world s) Ht Hq Hwf) as Hr. revert Hr.
  unfold wp, mbind, M_bind, in_process, zoom.
  destruct (Worker.New password (ps_world s)) as [[[]|e] w1]; [|intros _; apply HE]. destruct (sf_recover f); simpl.
  - change (ps_world (set_ps_world w1 s)) with w1. destruct (RecoverRestored w1) as [[[]|e] w2]; [|intros _; apply HE].
    intros Hr. exact (HQ w2 (Hr eq_refl)).
  - intros Hr. exact (HQ w1 (Hr eq_refl)).
Qed.

Lemma quiet_framed (w : world) : w_faults w = [] → w_tx w = None → framed (λ _, True) (λ _, True) w.
Proof. by intros. Qed.

Lemma same_but_authority_wf d d' : same_but_authority d d' → wf d → wf d'.
Proof.
  intros Hs Hwf. enough (evolves d d') as He by apply (He Hwf).
  destruct Hs as [-> |[v ->]]; by apply evolves_other.
Qed.

Lemma wp_prepare f c listens s :
  w_tx (ps_world s) = None → w_faults (ps_world s) = [] → wf (w_db (ps_world s)) →
  wp (prepare_server f c listens) (λ r s', ∀ tls, r = Ok tls → serving f (w_db (ps_world s)) s') s.
Proof.
  intros Ht Hq Hwf. unfold prepare_server. set (d0 := w_db (ps_world s)).
  wp_rule. apply wp_zoom. eapply wp_query_db; [by apply at_start| |done]. intros n w1 _ Hw1 _. cbv beta iota.
  assert (∀ password, wp (on_tls (initTLS (sf_url f));; in_process (Worker.New password);;
    (if sf_recover f then in_process RecoverRestored else mret tt);; tls ← on_tls TLSConfig;
    guard_ listens.1 "listen device";; guard_ listens.2 "listen owner";; mret tls)
    (λ r s', ∀ tls, r = Ok tls → serving f d0 s') (set_ps_world w1 s)) as Hk.
  2: { wp_rule. wp_case; [|wp_rule; apply Hk]. wp_rule. by destruct (secret c (sf_password_fd f)). }
  intros password. wp_rule. apply wp_zoom. pose proof Hw1 as [Hd1 Ht1 _ _ _ Hf1]. specialize (Hf1 Hq).
  pose proof (frames_initTLS (λ _, True) (sf_url f) (ps_tls (set_ps_world w1 s)) (quiet_framed w1 Hf1 Ht1)) as Hfr.
  eapply wp_mono; [exact (wp_and _ _ (λ _ t, framed (λ _, True) (λ _, True) (ts_world t)) _ (wp_initTLS (sf_url f) (ps_tls (set_ps_world w1 s)) Ht1) Hfr)|].
  simpl. clear Hfr.
  intros [[]|e] t2 [[[Ht2 Hst] _] Hfr2]; [|done]. destruct Hst as (Hsame & Hm & Hurl & Hleaf & Hroot).
  simpl in Hsame. rewrite Hd1 in Hsame.
  set (s2 := set_ps_tls t2 _). apply wp_recovering; [exact Ht2|apply Hfr2|by eapply same_but_authority_wf| |done].
  intros w3 [Ht3 Hfr3 Hreq Hres]. change (w_db (ps_world s2)) with (w_db (ts_world t2)) in *.
  wp_rule. apply wp_zoom. unfold TLSConfig. wp_rule.
  eapply wp_mono; [apply wp_currentCertificate|].
  - exact Ht3.
  - destruct Hfr3 as (_ & Hk & Hmd & _). destruct Hm as (nonce & Hn & Hme). exists nonce. split; [done|].
    change (ps_tls (set_ps_world w3 s2)) with (set_ts_world w3 t2). simpl. unfold has_metadata in Hmd. rewrite Hmd, Hk. exact Hme.
  - intros [cert|e] t4 (Hm4 & Ht4 & (_ & _ & Hu4) & _ & _ & Hsame4 & Hc4); [|done]. wp_rule. wp_rule. wp_rule.
    wp_rule. apply wp_guard; intros _; [|done]. wp_rule. apply wp_guard; intros _; [|done]. apply wp_ret. intros tls _.
    assert (db_requests (w_db (ts_world t4)) = db_requests (w_db w3) ∧ db_devices (w_db (ts_world t4)) = db_devices (w_db w3)
      ∧ db_sessions (w_db (ts_world t4)) = db_sessions (w_db w3)) as (Er & Ed & Es) by by destruct Hsame4 as [-> |[v ->]].
    assert (db_requests (w_db (ts_world t2)) = db_requests d0) as Er2 by by destruct Hsame as [-> |[v ->]].
    split; simpl; [done|done|by rewrite Hu4|apply Hc4| |].
    + intros id q Hi. rewrite <-Er2 in Hi. change (ts_world t4) with (ts_world (ps_tls (set_ps_tls t4 s2))) in Er.
      destruct (Hreq id q Hi) as (q' & Hq' & Hrest). exists q'. split; [|done]. unfold ps_world. simpl in *. by rewrite Er.
    + intros Hrec. destruct (Hres Hrec) as [Hdev Hses]. unfold ps_world. simpl in *. rewrite Es. split; [|done].
      intros device. specialize (Hdev device). unfold device_active in *. by rewrite Ed.
Qed.

(** The lock and the mode of the file, whatever happens. *)
Definition file_kept {A} (m : M process A) : Prop := ∀ s, same_file s (m s).2.

Lemma kept_bind {A B} (m : M process A) (k : A → M process B) :
  file_kept m → (∀ a, file_kept (k a)) → file_kept (m ≫= k).
Proof.
  intros Hm Hk s. specialize (Hm s). unfold mbind, M_bind. destruct (m s) as [[a|e] s']; [|done]. simpl in Hm.
  destruct Hm as [E1 E2], (Hk a s') as [E3 E4]. split; congruence.
Qed.

Lemma kept_in_process {A} (m : M world A) : file_kept (in_process m).
Proof. intros s. unfold in_process, zoom. by destruct (m (ps_world s)). Qed.

Lemma kept_on_tls {A} (m : M tls_server A) : file_kept (on_tls m).
Proof. intros s. unfold on_tls, zoom. by destruct (m (ps_tls s)). Qed.

Lemma prepare_kept f c listens : file_kept (prepare_server f c listens).
Proof.
  assert (∀ b e, file_kept (guard_ b e)) as Hg by by intros b e s.
  assert (∀ A (r : result A), file_kept (lift r)) as Hl by by intros A r s.
  assert (∀ A (a : A), file_kept (mret a)) as Hr by by intros A a s.
  unfold prepare_server.
  repeat first [apply kept_bind; [|intros ?] | apply kept_in_process | apply kept_on_tls | apply Hg | apply Hl | apply Hr | case_match].
Qed.

(** An open store, as the process sees it. *)
Lemma opened_wf unlock d d' key : typed d → wf d → opened unlock (at_version 4 d) d' key → wf d' ∧ db_requests d' = db_requests d.
Proof.
  intros _ Hwf Ho. enough (evolves d d' ∧ db_requests d' = db_requests d) as [He Hr] by (split; [apply (He Hwf)|done]).
  destruct Ho as [(_ & -> & _)|(_ & salt & nonce & _ & _ & -> & _)]; split; try done; by apply evolves_other.
Qed.

(** C14: Starting a server: it gets to serve only for an owner on this machine — its
    listener on 127.0.0.1, or on 0.0.0.0 inside a container, its host on 127.0.0.1 —
    with the database locked and private to its owner, and opened by a secret of at
    least 12 characters; without failures, with its authority stored, for its
    address and with a good leaf, with every request that was being dispatched
    reported as of unknown outcome, and, when it was told that the database was
    restored, with the access of every device and session withdrawn and every
    request that waited cancelled — all before the first connection.  A start that
    does not get there leaves the lock as it found it. *)
Theorem start_server_correct f c listens s
    (Hty : typed (w_db (ps_world s))) (Hwf : wf (w_db (ps_world s))) (Htx : w_tx (ps_world s) = None) :
  wp (start_server f c listens) (λ r s', match r with
    | Ok (host, _) => loopback f host ∧ ps_locked s = false ∧ ps_locked s' = true ∧ ps_mode s' = Some owner_only
        ∧ (∃ unlock, secret c (sf_unlock_fd f) = Ok unlock ∧ (12 <= String.length unlock)%nat)
        ∧ (w_faults (ps_world s) = [] → serving f (w_db (ps_world s)) s')
    | Err _ => ps_locked s' = ps_locked s
    end) s.
Proof.
  unfold start_server. wp_rule. wp_rule. destruct (owner_address f) as [host|e] eqn:Ea; [|done].
  wp_rule. wp_rule. destruct (secret c (sf_unlock_fd f)) as [unlock|e] eqn:Es; [|done].
  wp_rule. apply wp_zoom. 
  assert (w_faults (ps_world s) = [] → wp (Open unlock) (λ _ x, framed (λ _, True) (λ _, True) (si_world x)) (ps_site s)) as Hfr.
  { intros Hq. exact (frames_Open unlock (ps_site s) (quiet_framed _ Hq Htx)). }
  pose proof (wp_Open unlock (w_db (ps_world s)) (ps_site s) Hty eq_refl Htx) as Ho. unfold wp at 1. unfold wp in Ho, Hfr.
  destruct (Open unlock (ps_site s)) as [[[]|e] x]; destruct Ho as [[Htx' Ho] _]; simpl in *; [|apply Ho].
  destruct Ho as (H12 & Hl & Hl' & Hmode & Hop). set (s1 := set_ps_site x s).
  destruct (opened_wf _ _ _ _ Hty Hwf Hop) as [Hwf1 Hreq].
  wp_rule. pose proof (prepare_kept f c listens s1) as [Hk1 Hk2].
  assert (w_faults (ps_world s) = [] → wp (prepare_server f c listens)
    (λ r s', ∀ tls, r = Ok tls → serving f (w_db (ps_world s1)) s') s1) as Hprep.
  { intros Hq. apply wp_prepare; [done|apply (Hfr Hq)|done]. }
  unfold wp, release_on_error in *. destruct (prepare_server f c listens s1) as [[tls|e] s2]; simpl in *; [|by rewrite Hl].
  split_and!; [by apply owner_address_loopback|done|by rewrite Hk1|by rewrite Hk2|eauto|].
  intros Hq. destruct (Hprep Hq tls eq_refl) as [? ? ? ? Hr ?]. split; try done.
  intros id q Hi. apply Hr. unfold s1. unfold ps_world. simpl. by rewrite Hreq.
Qed.

End start.

(** * The enrolment of a device *)

Section enrolling.
Context `{GcmLaws} `{GoX509} `{ClientX509} `{ClientJSONLaws} (torn : nat).

(** Every file there was is still there, as it was. *)
Definition files_kept (s s' : machine) : Prop := ∀ q b, content (mc_fs s) q = Some b → content (mc_fs s') q = Some b.

(** The look at the path saw no file: there was none, or the system call failed, which
    the command takes for the same. *)
Definition unseen (path : string) (s : machine) : Prop :=
  content (mc_fs s) path = None ∨ ∃ e, (fault (mc_env s)).1 = Err e.

(** What the command needs before it may use an invitation. *)
Definition prepared (path text : string) (c : console) (ifd pfd : Z) (s : machine) : Prop :=
  secret c ifd = Ok text ∧ (∃ pass, secret c pfd = Ok pass ∧ (12 <= String.length pass)%nat)
  ∧ unseen path s.

(** How the command may end. *)
Definition enrolled_device (net : network) (path : string) (c : console) (ifd pfd : Z) (s : machine)
    (r : result string) (s' : machine) : Prop :=
  files_kept s s' ∧
  (mc_sent s' = mc_sent s ∨ ∃ text inv key csr, prepared path text c ifd pfd s ∧ usable text inv
     ∧ CreateRequest key = Some csr ∧ mc_sent s' = mc_sent s ++ [enrolment_request inv csr]) ∧
  ∀ dev, r = Ok dev → ∃ pass text i s1,
    secret c pfd = Ok pass ∧ secret c ifd = Ok text ∧ enrolment net text s (Ok i) s1 ∧ id_DeviceID i = dev
    ∧ (ValidString (id_URL i) = true → ValidString (id_DeviceID i) = true →
        (Load path pass s').1 = Ok i ∨ ((Load path pass s').1 = Err ErrIO ∧ w_faults (mc_env s) ≠ [])).

(** C30: Enrolling: the invitation is used — the one request that uses it is sent —
    only when the passphrase has at least 12 characters and the command's look at the
    path saw no identity: there is none, or that one system call itself failed, which
    the command takes for absence.  No file that was there is changed, however the
    command ends; and when it succeeds, the identity the server gave is at the path,
    and the passphrase opens it (as text that is UTF-8, a failing read apart). *)
Theorem enroll_command_correct net path c ifd pfd s (Hnum : numbered (mc_fs s)) :
  wp (enroll_command torn net path c ifd pfd) (enrolled_device net path c ifd pfd s) s.
Proof.
  set (w0 := mc_env s). pose proof (at_self w0) as Hw0.
  assert (∀ e w, enrolled_device net path c ifd pfd s (Err e) (set_mc_env w s)) as HE.
  { intros e w. split; [by intros q b|]. split; [by left|done]. }
  unfold enroll_command, exists_file. wp_rule. wp_rule. wp_rule. apply wp_zoom.
  assert (∀ (b : bool) w, at_world w0 (w_db w0) (w_tx w0) w → (b = false → unseen path s) →
    wp (if b then fail (ErrMsg "identity already exists") else
        inv ← lift (secret c ifd); pass ← lift (secret c pfd);
        guard_ (12 <=? String.length pass)%nat "passphrase must have at least 12 characters";;
        i ← Enroll net inv; Save torn path pass i;; mret (id_DeviceID i))
      (enrolled_device net path c ifd pfd s) (set_mc_env w s)) as Hgo.
  2: { assert (wp fault (λ r w, at_world w0 (w_db w0) (w_tx w0) w) w0) as Hf by (eapply wp_fault; [exact Hw0|done..]).
    fold w0. unfold wp in Hf |- * at 1. destruct (fault w0) as [[[]|e] w] eqn:Ef; simpl in Hf.
    - cbv iota beta. wp_rule. wp_rule. wp_rule. apply Hgo; [done|]. intros Hb%bool_decide_eq_false. left.
      simpl in Hb. by destruct (content (mc_fs s) path); [destruct Hb; eauto|].
    - cbv iota beta. wp_rule. wp_rule. wp_rule. apply (Hgo false w); [done|]. intros _. right. exists e.
      change (mc_env s) with w0. by rewrite Ef. }
  intros b w Hw Hfree. destruct b; [apply wp_fail, HE|]. specialize (Hfree eq_refl).
  wp_rule. wp_rule. destruct (secret c ifd) as [text|e] eqn:Ei; [|apply HE].
  wp_rule. wp_rule. destruct (secret c pfd) as [pass|e] eqn:Ep; [|apply HE].
  wp_rule. apply wp_guard; intros H12; [|apply HE]. apply Nat.leb_le in H12.
  assert (prepared path text c ifd pfd s) as Hprep by (split_and!; eauto).
  wp_rule. eapply wp_mono; [by apply (wp_Enroll w0 (w_db w0) (w_tx w0))|]. intros r s1 [(Hfs & Hsent & Hok) Hw1]. simpl in Hfs, Hsent.
  assert (mc_sent s1 = mc_sent s ∨ ∃ text inv key csr, prepared path text c ifd pfd s ∧ usable text inv
     ∧ CreateRequest key = Some csr ∧ mc_sent s1 = mc_sent s ++ [enrolment_request inv csr]) as Hsent1.
  { destruct Hsent as [?|(inv & key & csr & ?)]; [by left|right; eauto 10]. }
  destruct r as [i|e]; [|split; [intros q x; by rewrite Hfs|by split]].
  wp_rule. eapply wp_mono; [by apply (wp_Save torn w0 (w_db w0) (w_tx w0))|]. intros r s2 [[Hs2 Hwr _ Hdone _] Hw2].
  assert (files_kept s s2) as Hkept.
  { intros q x Hq. eapply writing_keeps; [|exact Hwr|by rewrite Hfs]. by rewrite Hfs. }
  assert (∀ y, (∀ dev, y = Ok dev → r = Ok tt ∧ dev = id_DeviceID i) → enrolled_device net path c ifd pfd s y s2) as Hend.
  { intros y Hy. split; [done|]. split; [by rewrite Hs2|]. intros dev ->. destruct (Hy dev eq_refl) as [-> ->].
    destruct (Hdone eq_refl) as (_ & _ & salt & nonce & Hsalt & Hnonce & Hfs2).
    exists pass, text, i, s1. split_and!; [done|done| |done|].
    - split_and!; [done|done|exact Hok].
    - intros Hu Hd. apply (wp_Load_saved w0 (w_db w0) (w_tx w0) path pass i salt nonce s2); try done.
      rewrite Hfs2. apply content_with_file. }
  destruct r as [[]|e]; [wp_rule|]; apply Hend; [by intros dev [= <-]|done].
Qed.

End enrolling.

(** * Witnesses *)

#[local] Existing Instances plain_crypto plain_laws plain_json plain_x509 plain_x509_laws plain_authority plain_authority_laws.
#[local] Existing Instances plain_client plain_client_laws plain_client_x509.

Definition sample_console : console := mkConsole
  (λ fd, if (fd =? 3)%Z then Ok (sample_unlock +:+ String return_ (String newline "not read"))
         else if (fd =? 4)%Z then Ok "an owner's password" else Err ErrIO) false (Err ErrIO).

Definition sample_flags : server_flags := mkServerFlags true sample_url "0.0.0.0:18780" "127.0.0.1:18780" true 3 4.
Definition sample_process : process := mkProcess None false (mkTls no_authority None "" sample_world).

Lemma typed_sample : typed sample_db.
Proof. apply typed_full; [reflexivity|apply (bool_decide_unpack _); vm_compute; exact I]. Qed.

Definition sample_start := start_server sample_flags sample_console (true, true) sample_process.

Lemma start_server_correct_witness :
  loopback sample_flags "127.0.0.1:18780" ∧ device_active (w_db (ps_world sample_process)) "dev_1" = true ∧
  device_active (w_db (ps_world sample_start.2)) "dev_1" = false ∧ serving sample_flags sample_db sample_start.2.
Proof.
  assert (match sample_start.1 with Ok (h, _) => h = "127.0.0.1:18780" | Err _ => False end) as Hh by (vm_compute; reflexivity).
  assert (device_active (w_db (ps_world sample_process)) "dev_1" = true) as Hd by (vm_compute; reflexivity).
  pose proof (start_server_correct sample_flags sample_console (true, true) sample_process typed_sample sample_wf eq_refl) as H.
  unfold wp in H. fold sample_start in H. destruct (sample_start.1) as [[host tls]|e]; [|destruct Hh]. subst host.
  destruct H as (Hl & _ & _ & _ & _ & Hs). specialize (Hs eq_refl).
  split; [exact Hl|]. split; [exact Hd|]. split; [apply (sv_restored _ _ _ Hs eq_refl)|exact Hs].
Defined.

(** A device that enrols with an invitation of the sample server. *)
Definition sample_invitation : string := RawURLEncoding (marshal_invitation (mkInvite sample_url "PEM:root" "secret")).
Definition enrolling_console : console := mkConsole
  (λ fd, Ok (if (fd =? 3)%Z then sample_invitation +:+ String newline EmptyString else "correct horse battery")) false (Err ErrIO).
Definition issuing : network := λ _ _, Some (200%Z, fields ["dev_1"; "PEM:cert"]).

Lemma enroll_command_correct_witness :
  (enroll_command 0 issuing "identity.json" enrolling_console 3 4 client_machine).1 = Ok "dev_1" ∧
  length (mc_sent (enroll_command 0 issuing "identity.json" enrolling_console 3 4 client_machine).2) = 1%nat ∧
  enrolled_device issuing "identity.json" enrolling_console 3 4 client_machine
    (enroll_command 0 issuing "identity.json" enrolling_console 3 4 client_machine).1
    (enroll_command 0 issuing "identity.json" enrolling_console 3 4 client_machine).2.
Proof.
  split; [vm_compute; reflexivity|]. split; [vm_compute; reflexivity|].
  change (wp (enroll_command 0 issuing "identity.json" enrolling_console 3 4)
    (enrolled_device issuing "identity.json" enrolling_console 3 4 client_machine) client_machine).
  exact (enroll_command_correct 0 issuing "identity.json" enrolling_console 3 4 client_machine empty_numbered).
Defined.
