(* ===== verification/Flags.v ===== *)
(** Go's [flag] package, as far as the commands use it: a set of flags with their
    values, and [Parse] of a list of arguments; with [strconv.ParseBool] and
    [strconv.ParseInt] in base zero.

    [assigns] is the grammar of a command line, and [parse_assigns] says that [Parse]
    takes exactly that.  The texts that errors quote are left out of them. *)
From S2P Require Import Prelude GoStrings GoTime Json Assign.

(** * Numbers *)

(** [lower]: the bit that tells ASCII cases apart is set. *)
Definition lower_bit (c : ascii) : Z := Z.lor (byte_of c) 32.

(** The digit of a character in a base up to 36. *)
Definition digit_in (base : Z) (c : ascii) : option Z :=
  d ← (if is_digit c then Some (byte_of c - 48)
       else if (97 <=? lower_bit c) && (lower_bit c <=? 122) then Some (lower_bit c - 87) else None)%Z;
  if (d <? base)%Z then Some d else None.

(** Digits with underscores between them, wherever they are. *)
Fixpoint digits_in (base : Z) (s : string) (acc : Z) : option Z :=
  match s with
  | EmptyString => Some acc
  | String c s =>
    if bool_decide (c = "_"%char) then digits_in base s acc else
    d ← digit_in base c; digits_in base s (acc * base + d)%Z
  end.

(** The base of a number and what follows its prefix. *)
Definition base_of (s : string) : Z * string :=
  match s with
  | String "0" (String p (String c r)) =>
    if (lower_bit p =? 98)%Z then (2%Z, String c r) else
    if (lower_bit p =? 111)%Z then (8%Z, String c r) else
    if (lower_bit p =? 120)%Z then (16%Z, String c r) else (8%Z, String p (String c r))
  | String "0" r => (8%Z, r)
  | _ => (10%Z, s)
  end.

(** [underscoreOK]: what was seen last. *)
Inductive seen := SeenNothing | SeenDigit | SeenUnderscore | SeenOther.

Fixpoint underscores_from (hex : bool) (last : seen) (s : string) : bool :=
  match s with
  | EmptyString => match last with SeenUnderscore => false | _ => true end
  | String c s =>
    if is_digit c || hex && (97 <=? lower_bit c)%Z && (lower_bit c <=? 102)%Z then underscores_from hex SeenDigit s else
    if bool_decide (c = "_"%char)
    then match last with SeenDigit => underscores_from hex SeenUnderscore s | _ => false end
    else match last with SeenUnderscore => false | _ => underscores_from hex SeenOther s end
  end.

Definition underscoreOK (s : string) : bool :=
  match s with
  | String "0" (String p r) =>
    if (lower_bit p =? 98)%Z || (lower_bit p =? 111)%Z then underscores_from false SeenDigit r else
    if (lower_bit p =? 120)%Z then underscores_from true SeenDigit r
    else underscores_from false SeenNothing s
  | _ => underscores_from false SeenNothing s
  end.

(** Whether a number is negative, and what follows its sign. *)
Definition signed (s : string) : bool * string :=
  match s with String "-" t => (true, t) | String "+" t => (false, t) | _ => (false, s) end.

(** [strconv.ParseInt(s, 0, 64)]. *)
Definition ParseInt0 (s : string) : option Z :=
  let '(negative, t) := signed s in
  if bool_decide (t = EmptyString) then None else
  let '(base, r) := base_of t in
  z ← digits_in base r 0;
  if negb (all_bytes (not_byte "_") r) && negb (underscoreOK t) then None else
  let z := (if negative : bool then - z else z)%Z in
  if is_int z then Some z else None.

Definition ParseBool (s : string) : option bool :=
  if bool_decide (s ∈ ["1"; "t"; "T"; "true"; "TRUE"; "True"]) then Some true else
  if bool_decide (s ∈ ["0"; "f"; "F"; "false"; "FALSE"; "False"]) then Some false else None.

(** * Flags *)

Inductive value := VBool (b : bool) | VString (s : string) | VInt (z : Z).

(** The flags that are defined, with the values they have. *)
Abbreviation flags := (gmap string value).

(** A value of the same type from a text. *)
Definition set_value (v : value) (s : string) : option value :=
  match v with
  | VBool _ => VBool <$> ParseBool s
  | VString _ => Some (VString s)
  | VInt _ => VInt <$> ParseInt0 s
  end.

Definition is_bool (v : value) : bool := match v with VBool _ => true | _ => false end.

(** What [parseOne] sees in an argument: something else, the end of the flags, a
    mistake, or the name of a flag, perhaps with a value. *)
Inductive word := Other | EndOfFlags | Mistake | Flag (name : string) (v : option string).

Definition flag_word (s : string) : word :=
  match s with
  | EmptyString => Mistake
  | String c r =>
    if bool_decide (c = "-"%char) || bool_decide (c = "="%char) then Mistake else
    match Cut r "=" with
    | Some (a, b) => Flag (String c a) (Some b)
    | None => Flag s None
    end
  end.

Definition word_of (s : string) : word :=
  match s with
  | String "-" (String "-" EmptyString) => EndOfFlags
  | String "-" (String "-" r) => flag_word r
  | String "-" (String c r) => flag_word (String c r)
  | _ => Other
  end.

Definition undefined (name : string) : error :=
  if bool_decide (name = "help") || bool_decide (name = "h") then ErrMsg "flag: help requested"
  else ErrMsg "flag provided but not defined".

(** [Parse], with the arguments that are left. *)
Fixpoint parse_flags (fs : flags) (args : list string) : result (flags * list string) :=
  match args with
  | [] => Ok (fs, [])
  | s :: rest =>
    match word_of s with
    | Other => Ok (fs, args)
    | EndOfFlags => Ok (fs, rest)
    | Mistake => Err (ErrMsg "bad flag syntax")
    | Flag name x =>
      match fs !! name with
      | None => Err (undefined name)
      | Some (VBool _) =>
        match ParseBool (default "true" x) with
        | Some b => parse_flags (<[name := VBool b]> fs) rest
        | None => Err (ErrMsg "invalid boolean value")
        end
      | Some v =>
        match x, rest with
        | Some x, _ =>
          match set_value v x with
          | Some v => parse_flags (<[name := v]> fs) rest
          | None => Err (ErrMsg "invalid value")
          end
        | None, [] => Err (ErrMsg "flag needs an argument")
        | None, x :: rest =>
          match set_value v x with
          | Some v => parse_flags (<[name := v]> fs) rest
          | None => Err (ErrMsg "invalid value")
          end
        end
      end
    end
  end.

(** * The grammar of a command line *)

(** A name that a flag can be given by. *)
Definition flag_name (s : string) : bool :=
  match s with
  | EmptyString => false
  | String c r => not_byte "-" c && not_byte "=" c && all_bytes (not_byte "=") r
  end.

Definition dashes (d : string) : Prop := d = "-" ∨ d = "--".

(** The ways to give a flag of the type of [old] the value [v]. *)
Inductive gives (name : string) (old : value) : value → list string → Prop :=
| gives_alone d : dashes d → is_bool old = true → gives name old (VBool true) [d +:+ name]
| gives_joined d x v : dashes d → set_value old x = Some v → gives name old v [d +:+ name +:+ String "=" x]
| gives_apart d x v : dashes d → is_bool old = false → set_value old x = Some v → gives name old v [d +:+ name; x].

(** Flags, then the end of them, then what is left. *)
Inductive assigns : flags → list string → flags → list string → Prop :=
| assigns_all fs : assigns fs [] fs []
| assigns_left fs s rest : word_of s = Other → assigns fs (s :: rest) fs (s :: rest)
| assigns_end fs rest : assigns fs ("--" :: rest) fs rest
| assigns_flag fs name old v ws args fs' rest :
    fs !! name = Some old → gives name old v ws → assigns (<[name := v]> fs) args fs' rest →
    assigns fs (ws ++ args) fs' rest.

(** ** Words *)

Lemma Cut_app s t c : all_bytes (not_byte c) s = true → Cut (s +:+ String c t) c = Some (s, t).
Proof. intros Hs. unfold Cut. by rewrite cut_at_app. Qed.

Lemma Cut_inv s c : match Cut s c with
  | Some (a, b) => s = a +:+ String c b ∧ all_bytes (not_byte c) a = true
  | None => all_bytes (not_byte c) s = true end.
Proof.
  unfold Cut. destruct (cut_at c s) as [[a b]|] eqn:Ec.
  - apply cut_at_some in Ec as (-> & Ha & t & ->). done.
  - induction s as [|d s IH]; simpl in *; [done|]. destruct (decide (d = c)) as [->|Hne].
    { by rewrite bool_decide_eq_true_2 in Ec. }
    rewrite bool_decide_eq_false_2 in Ec by done. destruct (cut_at c s) as [[? ?]|]; [done|].
    by rewrite (proj2 (not_byte_true _ _)), IH.
Qed.

Lemma flag_word_joined name x : flag_name name = true → flag_word (name +:+ String "=" x) = Flag name (Some x).
Proof.
  destruct name as [|c r]; [done|]. simpl. rewrite !andb_true_iff, !not_byte_true. intros [[Hd He] Hr].
  rewrite !bool_decide_eq_false_2 by done. simpl. by rewrite Cut_app.
Qed.

Lemma flag_word_alone name : flag_name name = true → flag_word name = Flag name None.
Proof.
  destruct name as [|c r]; [done|]. simpl. rewrite !andb_true_iff, !not_byte_true. intros [[Hd He] Hr].
  rewrite !bool_decide_eq_false_2 by done. simpl. unfold Cut. by rewrite cut_at_none.
Qed.

Lemma flag_word_inv s name x : flag_word s = Flag name x →
  flag_name name = true ∧ s = match x with Some x => name +:+ String "=" x | None => name end.
Proof.
  destruct s as [|c r]; [done|]. simpl. destruct (bool_decide (c = "-"%char)) eqn:Ed; [done|].
  destruct (bool_decide (c = "="%char)) eqn:Ee; [done|]. simpl. apply bool_decide_eq_false in Ed, Ee.
  pose proof (Cut_inv r "=") as Hc. destruct (Cut r "=") as [[a b]|]; intros [= <- <-]; simpl;
    rewrite !(proj2 (not_byte_true _ _)) by done; [by destruct Hc as [-> ->]|done].
Qed.

(** A name comes after one dash or two. *)
Lemma word_of_dashes d s name x : dashes d → flag_word s = Flag name x → word_of (d +:+ s) = Flag name x.
Proof.
  intros Hd Hs. destruct (flag_word_inv _ _ _ Hs) as [Hn E]. destruct s as [|c r]; [done|].
  assert (c ≠ "-"%char) as Hc.
  { destruct name as [|c' r']; [done|]. simpl in Hn. rewrite !andb_true_iff, !not_byte_true in Hn.
    destruct x as [x|]; simpl in E; injection E as -> _; apply Hn. }
  destruct Hd as [-> | ->]; simpl; [|by destruct c as [[] [] [] [] [] [] [] []]].
  destruct c as [[] [] [] [] [] [] [] []]; try exact Hs. done.
Qed.

Lemma word_of_flag s name x : word_of s = Flag name x →
  ∃ d t, dashes d ∧ s = d +:+ t ∧ flag_word t = Flag name x.
Proof.
  unfold word_of. destruct s as [|c s]; [done|]. destruct (decide (c = "-"%char)) as [->|Hc].
  2: { by destruct c as [[] [] [] [] [] [] [] []]. }
  destruct s as [|c s]; [done|]. destruct (decide (c = "-"%char)) as [->|Hd].
  - destruct s as [|c s]; [done|]. intros Hf. exists "--", (String c s). split_and!; [by right|done|done].
  - intros Hf. exists "-", (String c s). split_and!; [by left|done|].
    by destruct c as [[] [] [] [] [] [] [] []].
Qed.

Lemma word_of_end s : word_of s = EndOfFlags → s = "--".
Proof.
  unfold word_of. destruct s as [|c s]; [done|]. destruct (decide (c = "-"%char)) as [->|Hc].
  2: { by destruct c as [[] [] [] [] [] [] [] []]. }
  assert (∀ t, flag_word t ≠ EndOfFlags) as Hno.
  { intros [|a t]; simpl; [done|]. destruct (_ || _); [done|]. by destruct (Cut t "=") as [[? ?]|]. }
  destruct s as [|c s]; [done|]. destruct (decide (c = "-"%char)) as [->|Hd].
  - destruct s as [|c s]; [done|]. intros E. by destruct (Hno _ E).
  - intros E. destruct (Hno (String c s)). by destruct c as [[] [] [] [] [] [] [] []].
Qed.

(** ** [Parse] takes what the grammar gives *)

(** Every flag that is defined can be given. *)
Definition named (fs : flags) : Prop := ∀ n v, fs !! n = Some v → flag_name n = true.

Lemma named_insert fs n v old : named fs → fs !! n = Some old → named (<[n := v]> fs).
Proof. intros Hfs Hn m x. rewrite lookup_insert_Some. intros [[<- _]|[_ Hx]]; eauto. Qed.

Lemma set_value_type old x v : set_value old x = Some v → is_bool v = is_bool old.
Proof. destruct old; simpl; [destruct (ParseBool x)|..|destruct (ParseInt0 x)]; by intros [= <-]. Qed.

Lemma dashes_word d name : dashes d → flag_name name = true → word_of (d +:+ name) = Flag name None.
Proof. intros Hd Hn. by apply word_of_dashes, flag_word_alone. Qed.

Lemma dashes_joined d name x : dashes d → flag_name name = true → word_of (d +:+ name +:+ String "=" x) = Flag name (Some x).
Proof. intros Hd Hn. by apply word_of_dashes, flag_word_joined. Qed.

(** One flag. *)
Lemma parse_gives fs name old v ws args : flag_name name = true → fs !! name = Some old → gives name old v ws →
  parse_flags fs (ws ++ args) = parse_flags (<[name := v]> fs) args.
Proof.
  intros Hn Hfs Hg. destruct Hg as [d Hd Hb|d x v Hd Hs|d x v Hd Hb Hs]; simpl.
  - rewrite dashes_word, Hfs by done. by destruct old.
  - rewrite dashes_joined, Hfs by done. destruct old as [b|s|z]; simpl in *; [|by injection Hs as <-|].
    + destruct (ParseBool x); [|done]. by injection Hs as <-.
    + destruct (ParseInt0 x); [|done]. by injection Hs as <-.
  - rewrite dashes_word, Hfs by done. destruct old as [b|s|z]; simpl in *; [done|by injection Hs as <-|].
    destruct (ParseInt0 x); [|done]. by injection Hs as <-.
Qed.

Lemma assigns_parse fs args fs' rest : named fs → assigns fs args fs' rest → parse_flags fs args = Ok (fs', rest).
Proof.
  intros Hn Ha. induction Ha as [fs|fs s rest Hs|fs rest|fs name old v ws args fs' rest Hf Hg _ IH]; [done| |done|].
  - simpl. by rewrite Hs.
  - rewrite (parse_gives fs name old v ws args) by eauto. by eapply IH, named_insert.
Qed.

Lemma parse_sound n fs args fs' rest : (length args < n)%nat → parse_flags fs args = Ok (fs', rest) → assigns fs args fs' rest.
Proof.
  revert fs args. induction n as [|n IH]; intros fs args Hn; [lia|].
  destruct args as [|s args]; simpl in Hn |- *; [intros [= <- <-]; apply assigns_all|].
  destruct (word_of s) as [| | |name x] eqn:Hw; [intros [= <- <-]; by apply assigns_left| |done|].
  { apply word_of_end in Hw as ->. intros [= <- <-]. apply assigns_end. }
  destruct (word_of_flag _ _ _ Hw) as (d & t & Hd & -> & Ht). destruct (flag_word_inv _ _ _ Ht) as [_ ->].
  destruct (fs !! name) as [old|] eqn:Hf; [|done].
  assert (∀ v ws, gives name old v ws → ∀ more, (length more < n)%nat →
    parse_flags (<[name := v]> fs) more = Ok (fs', rest) → assigns fs (ws ++ more) fs' rest) as Hgo.
  { intros v ws Hg more Hm Hp. eapply assigns_flag; [done..|]. by apply IH. }
  assert (∀ y, match set_value old y with Some v => parse_flags (<[name := v]> fs) args | None => Err (ErrMsg "invalid value") end
    = Ok (fs', rest) → x = Some y → assigns fs ((d +:+ name +:+ String "=" y) :: args) fs' rest) as Hjoin.
  { intros y Hp ->. destruct (set_value old y) as [v|] eqn:Hv; [|done]. eapply (Hgo v [_]); [by constructor|lia|done]. }
  destruct x as [y|].
  - intros Hp. apply Hjoin; [|done]. destruct old as [b|z|z]; simpl in *; try done. by destruct (ParseBool y).
  - destruct (is_bool old) eqn:Hb.
    + intros Hp. eapply (Hgo (VBool true) [_]); [by constructor|lia|]. by destruct old.
    + assert (match args with [] => Err (ErrMsg "flag needs an argument") | y :: more =>
        match set_value old y with Some v => parse_flags (<[name := v]> fs) more | None => Err (ErrMsg "invalid value") end end
        = Ok (fs', rest) → assigns fs ((d +:+ name) :: args) fs' rest) as Happ.
      { destruct args as [|y more]; [done|]. destruct (set_value old y) as [v|] eqn:Hv; [|done]. intros Hp.
        eapply (Hgo v [_; y]); [by constructor|simpl in Hn; lia|done]. }
      by destruct old.
Qed.

(** [Parse] succeeds exactly on the command lines of the grammar, with the values and
    the arguments left that the grammar gives. *)
Theorem parse_assigns fs args fs' rest : named fs →
  parse_flags fs args = Ok (fs', rest) ↔ assigns fs args fs' rest.
Proof. intros Hn. split; [apply (parse_sound (S (length args))); lia|by apply assigns_parse]. Qed.

(** ** Texts of values *)

Definition value_text (v : value) : string :=
  match v with VBool true => "true" | VBool false => "false" | VString s => s | VInt z => itoa z end.

Definition in_bounds (v : value) : bool := match v with VInt z => is_int z | _ => true end.

Definition same_type (v w : value) : bool :=
  match v, w with VBool _, VBool _ | VString _, VString _ | VInt _, VInt _ => true | _, _ => false end.

Lemma digit_in_ten c : is_digit c = true → digit_in 10 c = digit c ∧ c ≠ "_"%char.
Proof. intros Hc. split; [|by intros ->]. revert Hc. by destruct c as [[] [] [] [] [] [] [] []]. Qed.

Lemma digits_in_ten s acc : all_bytes is_digit s = true → digits_in 10 s acc = digits s acc.
Proof.
  revert acc. induction s as [|c s IH]; intros acc; [done|]. simpl. rewrite andb_true_iff. intros [Hc Hs].
  destruct (digit_in_ten c Hc) as [-> Hu]. rewrite bool_decide_eq_false_2 by done. destruct (digit c); [|done]. by apply IH.
Qed.

Lemma base_of_ten c t : c ≠ "0"%char → base_of (String c t) = (10%Z, String c t).
Proof. intros Hc. unfold base_of. by destruct c as [[] [] [] [] [] [] [] []]. Qed.

Lemma signed_digit c t : is_digit c = true → signed (String c t) = (false, String c t).
Proof. by destruct c as [[] [] [] [] [] [] [] []]. Qed.

Lemma signed_itoa z sg c t : itoa z = sg +:+ String c t → sign_of (itoa z) = (sg, String c t) → is_digit c = true →
  bool_decide (sg = EmptyString) = negb (z <? 0)%Z → signed (itoa z) = ((z <? 0)%Z, String c t).
Proof.
  intros -> Esg Hc Hs. destruct sg as [|d r].
  - rewrite app_nil_string, signed_digit by done. simpl in Hs. by destruct (z <? 0)%Z.
  - rewrite app_cons_string in *. unfold sign_of in Esg. destruct (bool_decide (d = "-"%char)) eqn:Ed; [|done].
    apply bool_decide_eq_true in Ed as ->. injection Esg as _ E. rewrite E. simpl. by destruct (z <? 0)%Z.
Qed.

Lemma ParseInt0_itoa z : is_int z = true → ParseInt0 (itoa z) = Some z.
Proof.
  intros Hz. destruct (itoa_shape z) as (sg & c & t & E & Esg & Hd & Hp & Hv & Hs).
  assert (is_digit c = true) as Hc by (simpl in Hd; by apply andb_true_iff in Hd as [? _]).
  assert (∃ b r, base_of (String c t) = (b, r) ∧ digits_in b r 0 = Some (Z.abs z) ∧ all_bytes (not_byte "_") r = true)
    as (b & r & Hb & Hdig & Hr).
  { simpl in Hp. destruct (decide (c = "0"%char)) as [->|Hne].
    - rewrite bool_decide_eq_true_2 in Hp by done. simpl in Hp. apply bool_decide_eq_true in Hp as ->.
      simpl in *. injection Hv as Hv. eexists _, _. split_and!; [done| |done]. simpl. by rewrite <-Hv.
    - eexists _, _. split_and!; [by apply base_of_ten|by rewrite digits_in_ten|].
      eapply all_bytes_impl; [|exact Hd]. intros d. destruct d as [[] [] [] [] [] [] [] []]; simpl; done. }
  unfold ParseInt0. rewrite (signed_itoa z sg c t), Hb, Hdig, Hr by done. rewrite bool_decide_eq_false_2 by done. simpl.
  assert ((if (z <? 0)%Z then - Z.abs z else Z.abs z)%Z = z) as -> by (destruct (Z.ltb_spec z 0); lia). by rewrite Hz.
Qed.

Lemma set_value_text old v : same_type old v = true → in_bounds v = true → set_value old (value_text v) = Some v.
Proof. destruct old, v as [[]| |]; simpl; try done. intros _ Hz. by rewrite ParseInt0_itoa. Qed.

(** Every flag set to a value of its type, as one argument each. *)
Definition flag_args (l : list (string * value)) : list string :=
  map (λ '(n, v), "--" +:+ n +:+ String "=" (value_text v)) l.

Definition set_all (l : list (string * value)) (fs : flags) : flags := foldl (λ fs '(n, v), <[n := v]> fs) fs l.

Lemma parse_flag_args l fs : named fs →
  Forall (λ '(n, v), in_bounds v = true ∧ ∃ old, fs !! n = Some old ∧ same_type old v = true) l →
  NoDup l.*1 → parse_flags fs (flag_args l) = Ok (set_all l fs, []).
Proof.
  revert fs. induction l as [|[n v] l IH]; intros fs Hn Hl Hnd; [done|].
  apply Forall_cons in Hl as [(Hb & old & Hf & Ht) Hl]. apply NoDup_cons in Hnd as [Hnin Hnd].
  change (parse_flags fs ([("--" +:+ n +:+ String "=" (value_text v))] ++ flag_args l) = Ok (set_all l (<[n := v]> fs), [])).
  rewrite (parse_gives fs n old v) by (try constructor; eauto using set_value_text; by right).
  apply IH; [by eapply named_insert| |done]. apply Forall_forall. intros [m x] Hin.
  rewrite Forall_forall in Hl. destruct (Hl _ Hin) as (Hbx & o & Ho & Hto). split; [done|]. exists o. split; [|done].
  rewrite lookup_insert_ne; [done|]. intros ->. apply Hnin, list_elem_of_fmap. by exists (m, x).
Qed.
