(* ===== verification/Running.v ===== *)
(** The command line of src/cmd/budge/main.go: the subcommands of [run] with their
    flags, the paths they default to, and the [mcp] command up to where it serves.

    A command line means an [invocation]; what a server, an enrolment and a connector
    do with theirs is in Command, Commanding and Connecting. *)
From S2P Require Import Prelude GoStrings Json Assign Flags NetUrl Http GoNet Upstream Crypto Types Db Rules Limits Device.
From S2P Require Import Connector Command.

(** * Paths *)

(** One element of a path, on the elements before it, the last one first. *)
Definition clean_step (rooted : bool) (l : list string) (e : string) : list string :=
  if bool_decide (e = EmptyString) || bool_decide (e = ".") then l else
  if negb (bool_decide (e = "..")) then e :: l else
  match l with
  | x :: l' => if bool_decide (x = "..") then ".." :: l else l'
  | [] => if rooted then [] else [".."]
  end.

(** [filepath.Clean] where paths have slashes. *)
Definition Clean (path : string) : string :=
  if bool_decide (path = EmptyString) then "." else
  let rooted := HasPrefix path "/" in
  let out := Join "/" (rev (foldl (clean_step rooted) [] (Split "/" path))) in
  if rooted then "/" +:+ out else if bool_decide (out = EmptyString) then "." else out.

(** [filepath.Dir]. *)
Definition Dir (path : string) : string :=
  match last_cut_at "/" path with
  | Some (a, _) => Clean (a +:+ "/")
  | None => "."
  end.

(** [filepath.Join], the elements before the first that is not empty left out. *)
Fixpoint path_Join (l : list string) : string :=
  match l with
  | [] => EmptyString
  | e :: r => if bool_decide (e = EmptyString) then path_Join r else Clean (Join "/" l)
  end.

(** [config] is what [os.UserConfigDir] gives, if it can. *)
Definition defaultIdentity (config : option string) : string :=
  match config with
  | None => "state/device.identity"
  | Some dir => path_Join [dir; "budge"; "device.identity"]
  end.

Definition default_socket (config : option string) : string :=
  path_Join [Dir (defaultIdentity config); "connect.sock"].

(** * Flags *)

Definition server_flag_set : flags := list_to_map [
  ("recover-restored", VBool false); ("db", VString "state/budge.db"); ("url", VString "https://localhost:18781");
  ("device-listen", VString "127.0.0.1:18781"); ("owner-listen", VString "127.0.0.1:18780"); ("owner-host", VString "");
  ("container", VBool false); ("unlock-fd", VInt (-1)); ("owner-password-fd", VInt (-1))].

Definition enroll_flag_set (config : option string) : flags := list_to_map [
  ("identity", VString (defaultIdentity config)); ("invitation-fd", VInt (-1)); ("passphrase-fd", VInt (-1))].

Definition connect_flag_set (config : option string) : flags := list_to_map [
  ("socket", VString (default_socket config)); ("identity", VString (defaultIdentity config));
  ("listen", VString "127.0.0.1:18782"); ("passphrase-fd", VInt (-1))].

Definition mcp_flag_set (config : option string) : flags := list_to_map [("socket", VString (default_socket config))].

(** The values that the pointers of the flags point to. *)
Definition get_bool (fs : flags) (n : string) : bool := match fs !! n with Some (VBool b) => b | _ => false end.
Definition get_string (fs : flags) (n : string) : string := match fs !! n with Some (VString s) => s | _ => EmptyString end.
Definition get_int (fs : flags) (n : string) : Z := match fs !! n with Some (VInt z) => z | _ => 0%Z end.

(** * Subcommands *)

Inductive invocation :=
| RunServer (db device_listen : string) (f : server_flags)
| RunEnroll (identity : string) (invitation_fd passphrase_fd : Z)
| RunConnect (socket identity listen : string) (passphrase_fd : Z)
| RunMcp (socket : string).

Definition server_of (fs : flags) : invocation :=
  RunServer (get_string fs "db") (get_string fs "device-listen")
    (mkServerFlags (get_bool fs "recover-restored") (get_string fs "url") (get_string fs "owner-listen")
       (get_string fs "owner-host") (get_bool fs "container") (get_int fs "unlock-fd") (get_int fs "owner-password-fd")).

Definition enroll_of (fs : flags) : invocation :=
  RunEnroll (get_string fs "identity") (get_int fs "invitation-fd") (get_int fs "passphrase-fd").

Definition connect_of (fs : flags) : invocation :=
  RunConnect (get_string fs "socket") (get_string fs "identity") (get_string fs "listen") (get_int fs "passphrase-fd").

Definition mcp_of (fs : flags) : invocation := RunMcp (get_string fs "socket").

(** The flags of a subcommand, and what they come to. *)
Definition subcommand (config : option string) (name : string) : option (flags * (flags → invocation)) :=
  if bool_decide (name = "server") then Some (server_flag_set, server_of) else
  if bool_decide (name = "enroll") then Some (enroll_flag_set config, enroll_of) else
  if bool_decide (name = "connect") then Some (connect_flag_set config, connect_of) else
  if bool_decide (name = "mcp") then Some (mcp_flag_set config, mcp_of) else None.

(** [run] on [os.Args[1:]], up to what it does then.  The arguments that [Parse]
    leaves are not looked at. *)
Definition command_line (config : option string) (args : list string) : result invocation :=
  match args with
  | [] => Err (ErrMsg "usage: budge server|enroll|connect|mcp")
  | name :: args =>
    match subcommand config name with
    | None => Err (ErrMsg "unknown command")
    | Some (fs, inv) => '(fs, _) ← parse_flags fs args; Ok (inv fs)
    end
  end.

(** The [mcp] command up to where it serves: [SocketClient] on the path of the socket. *)
Definition mcp_command (uid : Z) (lstat : string → option file_info) (socket : string) : result unit :=
  SocketClient uid (lstat (Dir socket)) (lstat socket).

(** * Properties *)

(** ** Command lines *)

(** An invocation with every flag spelled out. *)
Definition invocation_args (i : invocation) : list string :=
  match i with
  | RunServer db device f => "server" :: flag_args [
      ("recover-restored", VBool (sf_recover f)); ("db", VString db); ("url", VString (sf_url f));
      ("device-listen", VString device); ("owner-listen", VString (sf_owner f)); ("owner-host", VString (sf_owner_host f));
      ("container", VBool (sf_container f)); ("unlock-fd", VInt (sf_unlock_fd f));
      ("owner-password-fd", VInt (sf_password_fd f))]
  | RunEnroll identity ifd pfd => "enroll" :: flag_args [
      ("identity", VString identity); ("invitation-fd", VInt ifd); ("passphrase-fd", VInt pfd)]
  | RunConnect socket identity listen pfd => "connect" :: flag_args [
      ("socket", VString socket); ("identity", VString identity); ("listen", VString listen); ("passphrase-fd", VInt pfd)]
  | RunMcp socket => "mcp" :: flag_args [("socket", VString socket)]
  end.

Definition in_bounds_invocation (i : invocation) : bool :=
  match i with
  | RunServer _ _ f => is_int (sf_unlock_fd f) && is_int (sf_password_fd f)
  | RunEnroll _ ifd pfd => is_int ifd && is_int pfd
  | RunConnect _ _ _ pfd => is_int pfd
  | RunMcp _ => true
  end.

Lemma named_list l : forallb (λ '(n, _), flag_name n) l = true → named (list_to_map l).
Proof.
  intros Hl n v Hn. apply elem_of_list_to_map_2 in Hn. rewrite forallb_forall in Hl.
  apply list_elem_of_In in Hn. exact (Hl _ Hn).
Qed.

(** The flags of every subcommand can be given. *)
Lemma subcommand_named config name fs inv : subcommand config name = Some (fs, inv) → named fs.
Proof.
  unfold subcommand. repeat case_bool_decide; intros [= <- <-]; by apply named_list.
Qed.

(** Which command lines are an invocation: a subcommand, and arguments of the grammar
    of its flags. *)
Lemma command_line_iff config args i : command_line config args = Ok i ↔
  ∃ name words fs inv fs' left, args = name :: words ∧ subcommand config name = Some (fs, inv)
    ∧ assigns fs words fs' left ∧ i = inv fs'.
Proof.
  split.
  - destruct args as [|name words]; [done|]. simpl. destruct (subcommand config name) as [[fs inv]|] eqn:Hs; [|done].
    destruct (parse_flags fs words) as [[fs' left]|e] eqn:Hp; [|done]. intros [= <-].
    exists name, words, fs, inv, fs', left. split_and!; [done|done| |done].
    apply parse_assigns; [by eapply subcommand_named|done].
  - intros (name & words & fs & inv & fs' & left & -> & Hs & Ha & ->). simpl. rewrite Hs.
    apply parse_assigns in Ha as ->; [done|]. by eapply subcommand_named.
Qed.

Lemma command_line_args config name fs inv l : subcommand config name = Some (fs, inv) →
  Forall (λ '(n, v), in_bounds v = true ∧ ∃ old, fs !! n = Some old ∧ same_type old v = true) l → NoDup l.*1 →
  command_line config (name :: flag_args l) = Ok (inv (set_all l fs)).
Proof. intros Hs Hl Hn. simpl. rewrite Hs, parse_flag_args; [done|by eapply subcommand_named|done|done]. Qed.

(** Every invocation can be given on the command line, and a command line is read
    as the one it spells; and only command lines of the grammar of a subcommand's
    flags are read at all: anything else starts nothing. *)
Theorem command_line_correct config :
  (∀ i, in_bounds_invocation i = true → command_line config (invocation_args i) = Ok i) ∧
  (∀ args i, command_line config args = Ok i ↔
    ∃ name words fs inv fs' left, args = name :: words ∧ subcommand config name = Some (fs, inv)
      ∧ assigns fs words fs' left ∧ i = inv fs').
Proof.
  split; [|apply command_line_iff]. intros i Hi.
  assert (∀ name fs inv l, subcommand config name = Some (fs, inv) → inv (set_all l fs) = i → bool_decide (NoDup l.*1) = true →
    Forall (λ '(n, v), in_bounds v = true ∧ ∃ old, fs !! n = Some old ∧ same_type old v = true) l →
    command_line config (name :: flag_args l) = Ok i) as Hgo.
  { intros name fs inv l Hs <- Hn Hl. apply bool_decide_eq_true in Hn. by apply command_line_args. }
  assert (∀ (n : string) v (fs : flags) l, in_bounds v = true ∧ (∃ old, fs !! n = Some old ∧ same_type old v = true) →
    Forall (λ '(n, v), in_bounds v = true ∧ ∃ old, fs !! n = Some old ∧ same_type old v = true) l →
    Forall (λ '(n, v), in_bounds v = true ∧ ∃ old, fs !! n = Some old ∧ same_type old v = true) ((n, v) :: l)) as Hc
    by (intros n v fs l; by constructor).
  destruct i as [db device f|identity ifd pfd|socket identity listen pfd|socket]; simpl in Hi; rewrite ?andb_true_iff in Hi;
    (eapply Hgo; [reflexivity|try destruct f; reflexivity|reflexivity|]);
    repeat (apply Hc; [split; [try done; apply Hi|eexists; split; reflexivity]|]); constructor.
Qed.

(** Words that begin with one that is no flag. *)
Definition no_flag_first (left : list string) : Prop := ∀ s rest, left = s :: rest → word_of s = Other.

Lemma assigns_more fs words fs' rest left :
  assigns fs words fs' rest → rest = [] → no_flag_first left → assigns fs (words ++ left) fs' left.
Proof.
  intros Ha Hr Hl. induction Ha as [fs|fs s rest _|fs rest|fs name old v ws args fs' rest Hf Hg _ IH].
  - destruct left as [|s left]; [apply assigns_all|]. by apply assigns_left, (Hl s left).
  - done.
  - subst. apply assigns_end.
  - rewrite <-app_assoc. eapply assigns_flag; [done..|auto].
Qed.

(** What follows the flags is not looked at: after a word that is no flag, such as
    the value that a flag without one does not take, nothing is read any more, and
    the command goes on without the flags there. *)
Theorem command_line_ignores config name words left fs inv fs' : subcommand config name = Some (fs, inv) →
  assigns fs words fs' [] → no_flag_first left →
  command_line config (name :: words ++ left) = command_line config (name :: words).
Proof.
  intros Hs Ha Hl. pose proof (subcommand_named _ _ _ _ Hs) as Hn. simpl. rewrite Hs.
  rewrite (assigns_parse _ _ _ _ Hn Ha), (assigns_parse _ _ _ _ Hn (assigns_more _ _ _ _ left Ha eq_refl Hl)). done.
Qed.

(** A restored database is served without the recovery that was asked for. *)
Example recovery_flag_dropped :
  command_line None ["server"; "--container"; "true"; "--recover-restored"] = command_line None ["server"; "--container"] ∧
  command_line None ["server"; "--container"; "true"; "--recover-restored"] =
    Ok (RunServer "state/budge.db" "127.0.0.1:18781"
          (mkServerFlags false "https://localhost:18781" "127.0.0.1:18780" "" true (-1) (-1))).
Proof. split; reflexivity. Qed.

(** ** Paths *)

(** An element of a clean path. *)
Definition plain_element (e : string) : bool :=
  negb (bool_decide (e = EmptyString)) && negb (bool_decide (e = ".")) && negb (bool_decide (e = ".."))
  && all_bytes (not_byte "/") e.

Lemma clean_plain rooted l acc : forallb plain_element l = true → foldl (clean_step rooted) acc l = rev l ++ acc.
Proof.
  revert acc. induction l as [|e l IH]; intros acc; [done|]. simpl. rewrite andb_true_iff. intros [He Hl].
  unfold plain_element in He. rewrite !andb_true_iff, !negb_true_iff in He. destruct He as [[[H1 H2] H3] _].
  unfold clean_step at 2. rewrite H1, H2, H3. simpl. rewrite IH by done. by rewrite <-app_assoc.
Qed.

(** A clean absolute path. *)
Definition absolute (l : list string) : string := "/" +:+ Join "/" l.

Lemma Join_plain_cons e l : forallb plain_element (e :: l) = true → Split "/" (absolute (e :: l)) = EmptyString :: e :: l.
Proof.
  intros Hl. unfold absolute. change ("/" +:+ Join "/" (e :: l)) with (EmptyString +:+ String "/" (Join "/" (e :: l))).
  rewrite Split_app by done. f_equal. apply Split_Join; [done|]. apply Forall_forall. intros x Hx.
  rewrite forallb_forall in Hl. apply list_elem_of_In in Hx. specialize (Hl _ Hx). unfold plain_element in Hl.
  by apply andb_true_iff in Hl as [_ ?].
Qed.

Lemma Clean_split s l : HasPrefix s "/" = true → Split "/" s = EmptyString :: l ++ [EmptyString] ∨ Split "/" s = EmptyString :: l →
  forallb plain_element l = true → Clean s = absolute l.
Proof.
  intros Hp Hs Hl. unfold Clean. rewrite bool_decide_eq_false_2 by by intros ->. rewrite Hp. unfold absolute. do 2 f_equal.
  destruct Hs as [-> | ->]; cbn [foldl].
  - rewrite foldl_app, (clean_plain _ l) by done. cbn [foldl]. unfold clean_step. simpl. by rewrite app_nil_r, rev_involutive.
  - rewrite (clean_plain _ l) by done. unfold clean_step. simpl. by rewrite app_nil_r, rev_involutive.
Qed.

Lemma Join_plain dir l : dir ≠ EmptyString → path_Join (dir :: l) = Clean (Join "/" (dir :: l)).
Proof. intros Hd. cbn [path_Join]. by rewrite bool_decide_eq_false_2. Qed.

Lemma absolute_app l m : l ≠ [] → m ≠ [] → absolute (l ++ m) = absolute l +:+ "/" +:+ Join "/" m.
Proof. intros Hl Hm. unfold absolute. rewrite Join_app by done. by rewrite app_string_assoc. Qed.

(** The directory of a clean absolute path. *)
Lemma last_cut_at_app c s t : all_bytes (not_byte c) t = true → last_cut_at c (s +:+ String c t) = Some (s, String c t).
Proof.
  intros Ht. assert (last_cut_at c t = None) as Hn.
  { induction t as [|d t IH]; [done|]. simpl in *. apply andb_true_iff in Ht as [Hd Ht]. rewrite IH by done.
    by rewrite bool_decide_eq_false_2 by by apply not_byte_true. }
  induction s as [|d s IH]; simpl; [by rewrite Hn, bool_decide_eq_true_2|by rewrite IH].
Qed.

Lemma Dir_absolute l e : l ≠ [] → forallb plain_element (l ++ [e]) = true → Dir (absolute (l ++ [e])) = absolute l.
Proof.
  intros Hne. rewrite forallb_app, andb_true_iff. intros [Hl He]. unfold Dir.
  assert (all_bytes (not_byte "/") e = true) as Hb.
  { simpl in He. rewrite andb_true_r in He. unfold plain_element in He. by apply andb_true_iff in He as [_ ?]. }
  rewrite absolute_app by done. change ("/" +:+ Join "/" [e]) with (String "/" e). rewrite last_cut_at_app by done.
  destruct l as [|x l]; [done|]. apply (Clean_split _ (x :: l)); [done| |done]. left.
  rewrite Split_app_sep, Join_plain_cons by done. done.
Qed.

Lemma absolute_more dir l : dir ≠ [] → l ≠ [] → forallb plain_element (dir ++ l) = true →
  path_Join (absolute dir :: l) = absolute (dir ++ l).
Proof.
  intros Hd Hl Hp. rewrite Join_plain by done.
  assert (Join "/" (absolute dir :: l) = absolute (dir ++ l)) as ->.
  { rewrite absolute_app by done. by destruct l. }
  apply Clean_split; [done| |done]. right. destruct dir as [|x dir]; [done|]. by apply (Join_plain_cons x (dir ++ l)).
Qed.

(** The commands of a device agree where they keep what they share: by default the
    identity of [enroll] and [connect] and the socket of [connect] and [mcp] are in
    one directory, [budge] in the user's configuration; and when a connector listens
    on its socket — in a directory that is the user's alone —, the [mcp] command of
    that user finds it, unless its file or directory was changed. *)
Theorem commands_meet dir uid listen chmod info lstat
    (Hdir : dir ≠ [] ∧ forallb plain_element dir = true) :
  let config := Some (absolute dir) in
  defaultIdentity config = absolute (dir ++ ["budge"; "device.identity"]) ∧
  default_socket config = absolute (dir ++ ["budge"; "connect.sock"]) ∧
  Dir (default_socket config) = Dir (defaultIdentity config) ∧
  (∀ socket, ListenSocket uid (Some info) listen chmod = Ok tt →
     lstat (Dir socket) = Some info → lstat socket = Some (mkInfo false true 384 uid) →
     mcp_command uid lstat socket = Ok tt).
Proof.
  destruct Hdir as [Hd Hp]. intros config.
  assert (∀ l, forallb plain_element l = true → forallb plain_element (dir ++ l) = true) as Hmore
    by (intros l Hl; by rewrite forallb_app, Hp).
  assert (dir ++ ["budge"] ≠ []) as Hb by by destruct dir.
  assert (∀ e, dir ++ ["budge"; e] = (dir ++ ["budge"]) ++ [e]) as Hassoc by (intros e; by rewrite <-app_assoc).
  assert (∀ e, plain_element e = true → Dir (absolute (dir ++ ["budge"; e])) = absolute (dir ++ ["budge"])) as HDir.
  { intros e He. rewrite Hassoc. apply Dir_absolute; [done|]. rewrite <-Hassoc. apply Hmore. simpl. by rewrite He. }
  assert (defaultIdentity config = absolute (dir ++ ["budge"; "device.identity"])) as Hi by by apply absolute_more, Hmore.
  assert (default_socket config = absolute (dir ++ ["budge"; "connect.sock"])) as Hs.
  { unfold default_socket. rewrite Hi, HDir by done. rewrite absolute_more; [by rewrite Hassoc|done..|].
    rewrite <-Hassoc. by apply Hmore. }
  split_and!; [done|done|by rewrite Hi, Hs, !HDir|].
  intros socket Hl Hinfo Hsock. unfold mcp_command, SocketClient. rewrite Hinfo, Hsock. unfold ListenSocket in Hl.
  destruct (private_dir uid info); [|done]. simpl. by rewrite Z.eqb_refl.
Qed.
