(* ===== verification/Page.v ===== *)
(** The owner's page, src/internal/server/owner.go ([render]): what it shows of the
    database, and that it shows every request that waits for the owner.  It calls a
    permission active by the permission's own row: of a device that is not revoked and
    a service that is enabled these are the permissions that authorise, but of others
    too, as the example at the end shows, it calls permissions active that authorise
    nothing. *)
From S2P Require Import Prelude GoStrings Access Upstream Crypto Types Db Rules Samples Authorize Lifecycle Life Submitting.

(** * What is shown *)

(** The inbox row of a request: [SELECT id,device_id,service_id,status]. *)
Definition inbox_line (id : string) (r : request_row) : string * string * string * string :=
  (id, req_device r, req_service r, status_string (req_status r)).

(** [CASE status WHEN 'pending_approval' THEN 0 ..]. *)
Definition rank (s : status) : Z :=
  match s with pending_approval => 0 | queued => 1 | dispatching => 2 | _ => 3 end.

(** [ORDER BY CASE .. END,created DESC,id]. *)
Definition shown_before (a b : string * request_row) : Prop :=
  (rank (req_status a.2) < rank (req_status b.2))%Z ∨
  (rank (req_status a.2) = rank (req_status b.2) ∧
    ((req_created b.2 < req_created a.2)%Z ∨ (req_created a.2 = req_created b.2 ∧ String.le a.1 b.1))).

#[export] Instance shown_before_dec : RelDecision shown_before.
Proof. intros a b. unfold shown_before. apply _. Defined.

Definition inbox_limit : nat := 100.

Definition inbox_rows (d : database) : list (string * request_row) :=
  take inbox_limit (merge_sort shown_before (map_to_list (db_requests d))).

Definition by_id {A} (a b : string * A) : Prop := String.le a.1 b.1.

#[export] Instance by_id_dec {A} : RelDecision (@by_id A).
Proof. intros a b. unfold by_id. apply _. Defined.

(** The rows of a table that satisfy the condition, [ORDER BY id]. *)
Definition rows_where {A} (p : A → bool) (m : gmap string A) : list (string * A) :=
  merge_sort by_id (filter (λ r, p r.2 = true) (map_to_list m)).

Section page.
Context `{GoJSON}.

(** A service as the page has it: no credential, and header lists that do not parse
    are left empty. *)
Definition page_service (id : string) (r : service_row) : Service :=
  mkService id (srv_label r) (srv_base_url r) (srv_auth r) EmptyString (srv_private_cidr r) (srv_revision r) EmptyString
    (default [] (unmarshal_strings (srv_request_headers r))) (default [] (unmarshal_strings (srv_response_headers r))).

Definition permission_label (now : Z) (s : service_row) (p : permission_row) : string :=
  if (pm_revision p =? srv_revision s)%Z && srv_enabled s && live (pm_expires p) now then "active"
  else "obsolete or expired — review and reissue".

Record permission_line := mkLine {
  pl_id : string;
  pl_device : string;
  pl_service : string;
  pl_method : string;
  pl_path : string;
  pl_kind : string;
  pl_mode : string;
  pl_label : string;
}.

Definition line_of (now : Z) (id : string) (s : service_row) (p : permission_row) : permission_line :=
  mkLine id (pm_device p) (pm_service p) (pm_method p) (pm_path p) (pm_kind p) (pm_mode p) (permission_label now s p).

(** The join with the services, in the order the database gives; [WHERE p.revoked=0]. *)
Definition permission_lines (now : Z) (d : database) : list permission_line :=
  omap (λ r, if pm_revoked r.2 then None else
             s ← db_services d !! pm_service r.2; Some (line_of now r.1 s r.2)) (map_to_list (db_permissions d)).

Record view := mkView {
  vw_inbox : list (string * string * string * string);
  vw_services : list Service;
  vw_devices : list (string * string);
  vw_permissions : list permission_line;
}.

(** A query whose error leaves its part of the page empty, and whose rows end at the
    first that fails. *)
Definition listing {A} (f : database → list A) : M world (list A) :=
  r ← attempt (query_rows DB f);
  mret (match r with Ok (l, _) => l | Err _ => [] end).

Definition render (logged_in : bool) : M world view :=
  if negb logged_in then mret (mkView [] [] [] []) else
  inbox ← listing (λ d, map (λ r, inbox_line r.1 r.2) (inbox_rows d));
  services ← listing (λ d, map (λ r, page_service r.1 r.2) (rows_where srv_enabled (db_services d)));
  devices ← listing (λ d, map (λ r, (r.1, dev_label r.2)) (rows_where (λ r, negb (dev_revoked r)) (db_devices d)));
  now ← gets (λ w, Unix (w_clock w));
  permissions ← listing (permission_lines now);
  mret (mkView inbox services devices permissions).

(** * The order of the inbox *)

#[export] Instance shown_before_trans : Transitive shown_before.
Proof.
  intros [i r] [j q] [k p]. unfold shown_before; simpl.
  intros [?|[? [?|[? ?]]]] [?|[? [?|[? ?]]]]; try (left; lia); right; (split; [lia|]); try (left; lia).
  right. split; [lia|]. by transitivity j.
Qed.

#[export] Instance shown_before_total : Total shown_before.
Proof.
  intros [i r] [j q]. unfold shown_before; simpl.
  destruct (Z.lt_trichotomy (rank (req_status r)) (rank (req_status q))) as [?|[?|?]]; [by left; left| |by right; left].
  destruct (Z.lt_trichotomy (req_created r) (req_created q)) as [?|[?|?]].
  - right; right. split; [lia|by left].
  - destruct (total String.le i j); [left|right]; right; (split; [lia|]); by right.
  - left; right. split; [lia|by left].
Qed.

(** The requests that wait for the owner. *)
Definition waiting (d : database) : list (string * request_row) :=
  filter (λ r : string * request_row, req_status r.2 = pending_approval) (map_to_list (db_requests d)).

Lemma rank_pending s : rank s = 0%Z ↔ s = pending_approval.
Proof. by destruct s. Qed.

(** In a sorted list they come first. *)
Lemma pending_first l : StronglySorted shown_before l →
  filter (λ r : string * request_row, req_status r.2 = pending_approval) l
  = take (length (filter (λ r : string * request_row, req_status r.2 = pending_approval) l)) l.
Proof.
  induction l as [|a l IH]; [done|]. intros [Hs Hf]%StronglySorted_inv. rewrite filter_cons.
  case_decide as Ha; [simpl; f_equal; by apply IH|].
  destruct (filter _ l) as [|x f] eqn:Ef; [done|]. exfalso. apply Ha.
  assert (x ∈ filter (λ r : string * request_row, req_status r.2 = pending_approval) l) as [Hx Hin]%list_elem_of_filter
    by (rewrite Ef; by left).
  rewrite Forall_forall in Hf. apply rank_pending in Hx. apply rank_pending.
  assert (0 <= rank (req_status a.2))%Z by by destruct (req_status a.2).
  destruct (Hf x Hin) as [?|[? _]]; lia.
Qed.

Lemma waiting_shown d id r :
  (length (waiting d) ≤ inbox_limit)%nat → db_requests d !! id = Some r → req_status r = pending_approval →
  (id, r) ∈ inbox_rows d.
Proof.
  intros Hl Hi Hs. unfold inbox_rows. set (l := merge_sort shown_before _).
  assert (l ≡ₚ map_to_list (db_requests d)) as Hp by apply merge_sort_Permutation.
  assert (StronglySorted shown_before l) as Hss by (apply Sorted_StronglySorted; [apply _|apply Sorted_merge_sort; apply _]).
  pose proof (pending_first l Hss) as Hf. set (k := length _) in Hf.
  assert (k = length (waiting d)) as Hk by (unfold k, waiting; by rewrite Hp).
  assert ((id, r) ∈ take k l) as Hin.
  { rewrite <-Hf. apply list_elem_of_filter. split; [done|]. rewrite Hp. by apply elem_of_map_to_list. }
  assert (take k l = take k (take inbox_limit l)) as E by (rewrite take_take; f_equal; lia).
  rewrite E in Hin. eapply elem_of_sublist; [exact Hin|apply sublist_take].
Qed.

(** * What the page says *)

Lemma elem_of_inbox d x : x ∈ inbox_rows d → db_requests d !! x.1 = Some x.2.
Proof.
  intros Hx. assert (x ∈ merge_sort shown_before (map_to_list (db_requests d))) as Hin
    by (eapply elem_of_sublist; [exact Hx|apply sublist_take]).
  rewrite merge_sort_Permutation in Hin. destruct x. by apply elem_of_map_to_list in Hin.
Qed.

Lemma elem_of_rows_where {A} (p : A → bool) m id a : (id, a) ∈ rows_where p m ↔ m !! id = Some a ∧ p a = true.
Proof. unfold rows_where. rewrite merge_sort_Permutation, list_elem_of_filter, elem_of_map_to_list. simpl. tauto. Qed.

Lemma elem_of_lines now d l : l ∈ permission_lines now d ↔
  ∃ id p s, db_permissions d !! id = Some p ∧ pm_revoked p = false ∧ db_services d !! pm_service p = Some s ∧ l = line_of now id s p.
Proof.
  unfold permission_lines. rewrite list_elem_of_omap. split.
  - intros ([id p] & Hin%elem_of_map_to_list & Hl). simpl in Hl. destruct (pm_revoked p) eqn:Er; [done|].
    destruct (db_services d !! pm_service p) as [s|] eqn:Es; [|done]. injection Hl as <-. eauto 10.
  - intros (id & p & s & Hp & Hr & Hs & ->). exists (id, p). rewrite elem_of_map_to_list. split; [done|]. simpl.
    by rewrite Hr, Hs.
Qed.

Lemma label_active now s p : permission_label now s p = "active" ↔
  pm_revision p = srv_revision s ∧ srv_enabled s = true ∧ live (pm_expires p) now = true.
Proof.
  unfold permission_label. destruct (pm_revision p =? srv_revision s)%Z eqn:E1; [|apply Z.eqb_neq in E1; by split; [|intros [? _]]].
  apply Z.eqb_eq in E1. destruct (srv_enabled s), (live (pm_expires p) now); simpl; split; try done; by intros (? & ? & ?).
Qed.

(** A page that tells the truth about a database at a time. *)
Record truthful (d : database) (now : Z) (v : view) : Prop := {
  tr_waiting : (length (waiting d) ≤ inbox_limit)%nat →
    ∀ id r, db_requests d !! id = Some r → req_status r = pending_approval → inbox_line id r ∈ vw_inbox v;
  tr_inbox : (length (vw_inbox v) ≤ inbox_limit)%nat ∧
    ∀ x, x ∈ vw_inbox v → ∃ id r, db_requests d !! id = Some r ∧ x = inbox_line id r;
  tr_devices : ∀ id label, (id, label) ∈ vw_devices v ↔
    ∃ r, db_devices d !! id = Some r ∧ dev_revoked r = false ∧ dev_label r = label;
  tr_listed : ∀ id p s, db_permissions d !! id = Some p → pm_revoked p = false → db_services d !! pm_service p = Some s →
    line_of now id s p ∈ vw_permissions v;
  tr_active : ∀ l, l ∈ vw_permissions v → pl_label l = "active" ↔
    ∃ p s, db_permissions d !! pl_id l = Some p ∧ db_services d !! pl_service l = Some s ∧ srv_enabled s = true
      ∧ permission_active (pl_device l) (pl_service l) (srv_revision s) now p = true;
}.

Definition page_of (d : database) (now : Z) : view :=
  mkView (map (λ r, inbox_line r.1 r.2) (inbox_rows d)) (map (λ r, page_service r.1 r.2) (rows_where srv_enabled (db_services d)))
    (map (λ r, (r.1, dev_label r.2)) (rows_where (λ r, negb (dev_revoked r)) (db_devices d))) (permission_lines now d).

Lemma page_truthful d now : truthful d now (page_of d now).
Proof.
  split; simpl.
  - intros Hl id r Hi Hs. apply list_elem_of_fmap. exists (id, r). split; [done|by apply waiting_shown].
  - split; [rewrite length_map; unfold inbox_rows; rewrite length_take; lia|].
    intros x (y & -> & Hy)%list_elem_of_fmap. exists y.1, y.2. split; [by apply elem_of_inbox|done].
  - intros id label. rewrite list_elem_of_fmap. split.
    + intros ([i r] & [= -> ->] & [Hr Hn]%elem_of_rows_where). apply negb_true_iff in Hn. eauto.
    + intros (r & Hr & Hn & <-). exists (id, r). split; [done|]. apply elem_of_rows_where. by rewrite Hn.
  - intros id p s Hp Hr Hs. apply elem_of_lines. eauto 10.
  - intros l (id & p & s & Hp & Hr & Hs & ->)%elem_of_lines. simpl. rewrite label_active. unfold permission_active. split.
    + intros (E1 & E2 & E3). exists p, s. split_and!; [done..|]. rewrite !bool_decide_eq_true_2 by done.
      by rewrite E1, Z.eqb_refl, Hr, E3.
    + intros (p' & s' & Hp' & Hs' & He & Ha). simplify_eq.
      apply andb_true_iff in Ha as [[[_ E1%Z.eqb_eq]%andb_true_iff _]%andb_true_iff E3]. by split_and!.
Qed.

Lemma wp_listing {A} w0 d (f : database → list A) (Q : result (list A) → world → Prop) w :
  at_world w0 d None w →
  (∀ l w', (w_faults w0 = [] → l = f d ∧ w_clock w' = w_clock w) → at_world w0 d None w' → Q (Ok l) w') →
  wp (listing f) Q w.
Proof.
  intros Hw HQ. unfold listing. wp_rule. wp_rule. eapply wp_query_rows_db; [exact Hw|..].
  - intros l b w' _ Hl Hw' Hc. cbv beta iota. wp_rule. apply HQ; [auto|done].
  - intros e w' [_ He] Hw'. cbv beta iota. wp_rule. by apply HQ.
Qed.

(** C35: The owner's page is a reading: it changes nothing and cannot fail, and without
    failures of the database it tells the truth about it — every request that
    waits for a decision is in the inbox (up to a hundred of them), the inbox holds
    at most a hundred requests, all stored; the devices are those not revoked; and
    every permission that is not revoked is listed, as active exactly when the
    query that authorises a request would find it. *)
Theorem render_correct w (Htx : w_tx w = None) :
  wp (render true) (λ r w', w_db w' = w_db w ∧ w_tx w' = None ∧ ∃ v, r = Ok v ∧
    (w_faults w = [] → truthful (w_db w) (Unix (w_clock w)) v)) w.
Proof.
  pose proof (at_start w Htx) as Hw. unfold render. cbn [negb].
  wp_rule. eapply wp_listing; [exact Hw|]. intros inbox w1 Hi Hw1. cbv beta iota.
  wp_rule. eapply wp_listing; [exact Hw1|]. intros services w2 Hs Hw2. cbv beta iota.
  wp_rule. eapply wp_listing; [exact Hw2|]. intros devices w3 Hd Hw3. cbv beta iota.
  wp_rule. wp_rule. wp_rule. eapply wp_listing; [exact Hw3|]. intros permissions w4 Hp Hw4. cbv beta iota. wp_rule.
  destruct Hw4 as [-> -> _ _ _ _]. split_and!; [done..|]. eexists. split; [done|]. intros Hq.
  destruct (Hi Hq) as [-> Hc1], (Hs Hq) as [-> Hc2], (Hd Hq) as [-> Hc3], (Hp Hq) as [-> _].
  replace (w_clock w3) with (w_clock w) by congruence. apply page_truthful.
Qed.

End page.

(** * Witness *)

#[local] Existing Instances plain_crypto plain_json.

(** The sample database with a request that waits for its approval. *)
Definition waiting_world : world := (Submit "dev_1" sample_post sample_world).2.

Lemma render_correct_witness :
  length (waiting (w_db waiting_world)) = 1%nat ∧
  wp (render true) (λ r w', w_db w' = w_db waiting_world ∧ w_tx w' = None ∧ ∃ v, r = Ok v ∧
    (w_faults waiting_world = [] → truthful (w_db waiting_world) (Unix (w_clock waiting_world)) v)) waiting_world.
Proof.
  split; [vm_compute; reflexivity|].
  assert (w_tx waiting_world = None) as Htx by (vm_compute; reflexivity).
  exact (render_correct waiting_world Htx).
Defined.

(** The label does not look at the device: the permissions of a device that was
    revoked go on being called active, although nothing is authorised for it. *)
Definition revoked_db : database := set_db_devices {[ "dev_1" := mkDevice "Laptop" true "" 0 ]} sample_db.

Example revoked_device_called_active :
  existsb (λ l, bool_decide (pl_device l = "dev_1" ∧ pl_label l = "active")) (permission_lines 1000 revoked_db) = true
  ∧ device_active revoked_db "dev_1" = false.
Proof. split; vm_compute; reflexivity. Qed.
